(** * tono-bot gateway: event intake, debounce, dedup, takeover detection, dispatch

    A shallow embedding of the coordination core of [src/main.py] and the
    properties its design document states about it; then of the retry loop
    of [src/monday_service.py], of [src/inventory_service.py] and of
    [src/memory_store.py], with the properties their code shows.

    Conventions.
    - Python [str] is [string] (a byte string; non-ASCII text is its UTF-8
      encoding).  [dict]s keyed by conversation identity are [gmap string _];
      the [OrderedDict] inside [BoundedOrderedSet] is a [list] in insertion
      order, oldest first.
    - Time is an integer number of milliseconds ([Z]); [seconds n] converts.
      One clock serves [time.time()] and the event loop.
    - A raised Python exception is the [Raise] result of the [M] monad; the
      state reached before the exception is kept, as in Python.
    - External collaborators (provider HTTP endpoint, reply generation,
      session store, transcription) are oracles in an [Env] record; each
      oracle receives the number of interactions logged so far, so that it may
      answer differently at every call. *)

From stdpp Require Import gmap strings list pretty.
From Stdlib Require Import ZArith Ascii Lia.

Open Scope string_scope.
Open Scope list_scope.
Open Scope Z_scope.

(** ** Python exceptions and results *)

Inductive exn : Type :=
  | KeyError
  | AttributeError
  | ValueError
  | TypeError
  | UnboundLocalError
  | RequestError          (* httpx.RequestError: timeout or connection failure *)
  | CollaboratorError.    (* any exception raised by an external collaborator *)

Inductive res (A : Type) : Type :=
  | Ok (a : A)
  | Raise (e : exn).
Arguments Ok {A} a.
Arguments Raise {A} e.

Definition res_bind {A B : Type} (r : res A) (k : A -> res B) : res B :=
  match r with
  | Ok a => k a
  | Raise e => Raise e
  end.

Notation "x <- r ; k" := (res_bind r (fun x => k))
  (at level 100, r at next level, right associativity, only parsing).

Definition is_ok {A : Type} (r : res A) : bool :=
  match r with Ok _ => true | Raise _ => false end.

(** ** BoundedOrderedSet (main.py, class BoundedOrderedSet) *)

Section BoundedOrderedSet.
Context {K : Type} `{EqDecision K}.

(** [_data] keeps the keys in insertion order, oldest first; the values of
    the [OrderedDict] are all [None] and are not represented. *)
Record BoundedOrderedSet : Type := mkBOS {
  _data : list K;
  _maxlen : Z
}.

(** [__init__] *)
Definition bos_new (maxlen : Z) : BoundedOrderedSet :=
  {| _data := []; _maxlen := maxlen |}.

(** [__contains__] *)
Definition bos_contains (key : K) (s : BoundedOrderedSet) : bool :=
  bool_decide (key ∈ _data s).

(** [__len__] *)
Definition bos_len (s : BoundedOrderedSet) : Z :=
  Z.of_nat (length (_data s)).

(** [OrderedDict.popitem(last=False)]: drops the oldest entry, [KeyError]
    on an empty dictionary. *)
Definition popitem_first (d : list K) : res (list K) :=
  match d with
  | [] => Raise KeyError
  | _ :: rest => Ok rest
  end.

(** [add] *)
Definition bos_add (key : K) (s : BoundedOrderedSet) : res BoundedOrderedSet :=
  if bos_contains key s then Ok s
  else if _maxlen s <=? bos_len s then
    res_bind (popitem_first (_data s)) (fun d =>
      Ok {| _data := d ++ [key]; _maxlen := _maxlen s |})
  else Ok {| _data := _data s ++ [key]; _maxlen := _maxlen s |}.

(** A sequence of additions, left to right. *)
Fixpoint bos_add_all (keys : list K) (s : BoundedOrderedSet) : res BoundedOrderedSet :=
  match keys with
  | [] => Ok s
  | k :: rest => res_bind (bos_add k s) (bos_add_all rest)
  end.

(** The [n] most recently added elements of a history, oldest first. *)
Definition most_recent (n : Z) (l : list K) : list K :=
  drop (length l - Z.to_nat n)%nat l.

End BoundedOrderedSet.
Arguments BoundedOrderedSet K : clear implicits.


(** ** Python strings *)

(** A Python [str] is held as its UTF-8 encoding (a lone surrogate, which a
    [str] may hold, as the three bytes of its code point).  The operations
    that work on characters read the characters off the bytes; a byte that
    begins no well-formed sequence counts as a character of its own, with no
    property.  The tables are those of the Unicode 14.0 character database,
    as CPython 3.11 holds them. *)

Module Py.

Definition ord (b : ascii) : Z := Z.of_N (N_of_ascii b).
Definition byte (n : Z) : ascii := ascii_of_N (Z.to_N n).

Definition in_ranges (ranges : list (Z * Z)) (c : Z) : bool :=
  existsb (fun r => (fst r <=? c) && (c <=? snd r)) ranges.

(** *** Tables *)

(** The characters of [str.isspace]. *)
Definition spaces : list Z :=
  [0x9; 0xA; 0xB; 0xC; 0xD; 0x1C; 0x1D; 0x1E; 0x1F; 0x20;
   0x85; 0xA0; 0x1680; 0x2000; 0x2001; 0x2002; 0x2003; 0x2004; 0x2005; 0x2006;
   0x2007; 0x2008; 0x2009; 0x200A; 0x2028; 0x2029; 0x202F; 0x205F; 0x3000].

(** The characters of [str.isdigit]: Numeric_Type Decimal or Digit. *)
Definition digit_ranges : list (Z * Z) :=
  [(0x30, 0x39); (0xB2, 0xB3); (0xB9, 0xB9); (0x660, 0x669);
   (0x6F0, 0x6F9); (0x7C0, 0x7C9); (0x966, 0x96F); (0x9E6, 0x9EF);
   (0xA66, 0xA6F); (0xAE6, 0xAEF); (0xB66, 0xB6F); (0xBE6, 0xBEF);
   (0xC66, 0xC6F); (0xCE6, 0xCEF); (0xD66, 0xD6F); (0xDE6, 0xDEF);
   (0xE50, 0xE59); (0xED0, 0xED9); (0xF20, 0xF29); (0x1040, 0x1049);
   (0x1090, 0x1099); (0x1369, 0x1371); (0x17E0, 0x17E9); (0x1810, 0x1819);
   (0x1946, 0x194F); (0x19D0, 0x19DA); (0x1A80, 0x1A89); (0x1A90, 0x1A99);
   (0x1B50, 0x1B59); (0x1BB0, 0x1BB9); (0x1C40, 0x1C49); (0x1C50, 0x1C59);
   (0x2070, 0x2070); (0x2074, 0x2079); (0x2080, 0x2089); (0x2460, 0x2468);
   (0x2474, 0x247C); (0x2488, 0x2490); (0x24EA, 0x24EA); (0x24F5, 0x24FD);
   (0x24FF, 0x24FF); (0x2776, 0x277E); (0x2780, 0x2788); (0x278A, 0x2792);
   (0xA620, 0xA629); (0xA8D0, 0xA8D9); (0xA900, 0xA909); (0xA9D0, 0xA9D9);
   (0xA9F0, 0xA9F9); (0xAA50, 0xAA59); (0xABF0, 0xABF9); (0xFF10, 0xFF19);
   (0x104A0, 0x104A9); (0x10A40, 0x10A43); (0x10D30, 0x10D39); (0x10E60, 0x10E68);
   (0x11052, 0x1105A); (0x11066, 0x1106F); (0x110F0, 0x110F9); (0x11136, 0x1113F);
   (0x111D0, 0x111D9); (0x112F0, 0x112F9); (0x11450, 0x11459); (0x114D0, 0x114D9);
   (0x11650, 0x11659); (0x116C0, 0x116C9); (0x11730, 0x11739); (0x118E0, 0x118E9);
   (0x11950, 0x11959); (0x11C50, 0x11C59); (0x11D50, 0x11D59); (0x11DA0, 0x11DA9);
   (0x16A60, 0x16A69); (0x16AC0, 0x16AC9); (0x16B50, 0x16B59); (0x1D7CE, 0x1D7FF);
   (0x1E140, 0x1E149); (0x1E2F0, 0x1E2F9); (0x1E950, 0x1E959); (0x1F100, 0x1F10A);
   (0x1FBF0, 0x1FBF9)].

(** The zeros of the decimal digits (General_Category Nd): the digits
    0 to 9 of a script follow one another. *)
Definition decimal_zeros : list Z :=
  [0x30; 0x660; 0x6F0; 0x7C0; 0x966; 0x9E6; 0xA66; 0xAE6;
   0xB66; 0xBE6; 0xC66; 0xCE6; 0xD66; 0xDE6; 0xE50; 0xED0;
   0xF20; 0x1040; 0x1090; 0x17E0; 0x1810; 0x1946; 0x19D0; 0x1A80;
   0x1A90; 0x1B50; 0x1BB0; 0x1C40; 0x1C50; 0xA620; 0xA8D0; 0xA900;
   0xA9D0; 0xA9F0; 0xAA50; 0xABF0; 0xFF10; 0x104A0; 0x10D30; 0x11066;
   0x110F0; 0x11136; 0x111D0; 0x112F0; 0x11450; 0x114D0; 0x11650; 0x116C0;
   0x11730; 0x118E0; 0x11950; 0x11C50; 0x11D50; 0x11DA0; 0x16A60; 0x16AC0;
   0x16B50; 0x1D7CE; 0x1D7D8; 0x1D7E2; 0x1D7EC; 0x1D7F6; 0x1E140; 0x1E2F0;
   0x1E950; 0x1FBF0].

(** The lower-case mapping, in runs [(first, last, step, delta)]: every
    [step]-th character from [first] to [last] maps to itself plus
    [delta].  U+0130 maps to two characters and U+03A3 depends on what
    surrounds it; both are handled where the table is read. *)
Definition lower_runs : list (Z * Z * Z * Z) :=
  [(0x41, 0x5A, 1, 32); (0xC0, 0xD6, 1, 32); (0xD8, 0xDE, 1, 32);
   (0x100, 0x12E, 2, 1); (0x132, 0x136, 2, 1); (0x139, 0x147, 2, 1);
   (0x14A, 0x176, 2, 1); (0x178, 0x178, 1, -121); (0x179, 0x17D, 2, 1);
   (0x181, 0x181, 1, 210); (0x182, 0x184, 2, 1); (0x186, 0x186, 1, 206);
   (0x187, 0x187, 1, 1); (0x189, 0x18A, 1, 205); (0x18B, 0x18B, 1, 1);
   (0x18E, 0x18E, 1, 79); (0x18F, 0x18F, 1, 202); (0x190, 0x190, 1, 203);
   (0x191, 0x191, 1, 1); (0x193, 0x193, 1, 205); (0x194, 0x194, 1, 207);
   (0x196, 0x196, 1, 211); (0x197, 0x197, 1, 209); (0x198, 0x198, 1, 1);
   (0x19C, 0x19C, 1, 211); (0x19D, 0x19D, 1, 213); (0x19F, 0x19F, 1, 214);
   (0x1A0, 0x1A4, 2, 1); (0x1A6, 0x1A6, 1, 218); (0x1A7, 0x1A7, 1, 1);
   (0x1A9, 0x1A9, 1, 218); (0x1AC, 0x1AC, 1, 1); (0x1AE, 0x1AE, 1, 218);
   (0x1AF, 0x1AF, 1, 1); (0x1B1, 0x1B2, 1, 217); (0x1B3, 0x1B5, 2, 1);
   (0x1B7, 0x1B7, 1, 219); (0x1B8, 0x1B8, 1, 1); (0x1BC, 0x1BC, 1, 1);
   (0x1C4, 0x1C4, 1, 2); (0x1C5, 0x1C5, 1, 1); (0x1C7, 0x1C7, 1, 2);
   (0x1C8, 0x1C8, 1, 1); (0x1CA, 0x1CA, 1, 2); (0x1CB, 0x1DB, 2, 1);
   (0x1DE, 0x1EE, 2, 1); (0x1F1, 0x1F1, 1, 2); (0x1F2, 0x1F4, 2, 1);
   (0x1F6, 0x1F6, 1, -97); (0x1F7, 0x1F7, 1, -56); (0x1F8, 0x21E, 2, 1);
   (0x220, 0x220, 1, -130); (0x222, 0x232, 2, 1); (0x23A, 0x23A, 1, 10795);
   (0x23B, 0x23B, 1, 1); (0x23D, 0x23D, 1, -163); (0x23E, 0x23E, 1, 10792);
   (0x241, 0x241, 1, 1); (0x243, 0x243, 1, -195); (0x244, 0x244, 1, 69);
   (0x245, 0x245, 1, 71); (0x246, 0x24E, 2, 1); (0x370, 0x372, 2, 1);
   (0x376, 0x376, 1, 1); (0x37F, 0x37F, 1, 116); (0x386, 0x386, 1, 38);
   (0x388, 0x38A, 1, 37); (0x38C, 0x38C, 1, 64); (0x38E, 0x38F, 1, 63);
   (0x391, 0x3A1, 1, 32); (0x3A3, 0x3AB, 1, 32); (0x3CF, 0x3CF, 1, 8);
   (0x3D8, 0x3EE, 2, 1); (0x3F4, 0x3F4, 1, -60); (0x3F7, 0x3F7, 1, 1);
   (0x3F9, 0x3F9, 1, -7); (0x3FA, 0x3FA, 1, 1); (0x3FD, 0x3FF, 1, -130);
   (0x400, 0x40F, 1, 80); (0x410, 0x42F, 1, 32); (0x460, 0x480, 2, 1);
   (0x48A, 0x4BE, 2, 1); (0x4C0, 0x4C0, 1, 15); (0x4C1, 0x4CD, 2, 1);
   (0x4D0, 0x52E, 2, 1); (0x531, 0x556, 1, 48); (0x10A0, 0x10C5, 1, 7264);
   (0x10C7, 0x10C7, 1, 7264); (0x10CD, 0x10CD, 1, 7264); (0x13A0, 0x13EF, 1, 38864);
   (0x13F0, 0x13F5, 1, 8); (0x1C90, 0x1CBA, 1, -3008); (0x1CBD, 0x1CBF, 1, -3008);
   (0x1E00, 0x1E94, 2, 1); (0x1E9E, 0x1E9E, 1, -7615); (0x1EA0, 0x1EFE, 2, 1);
   (0x1F08, 0x1F0F, 1, -8); (0x1F18, 0x1F1D, 1, -8); (0x1F28, 0x1F2F, 1, -8);
   (0x1F38, 0x1F3F, 1, -8); (0x1F48, 0x1F4D, 1, -8); (0x1F59, 0x1F5F, 2, -8);
   (0x1F68, 0x1F6F, 1, -8); (0x1F88, 0x1F8F, 1, -8); (0x1F98, 0x1F9F, 1, -8);
   (0x1FA8, 0x1FAF, 1, -8); (0x1FB8, 0x1FB9, 1, -8); (0x1FBA, 0x1FBB, 1, -74);
   (0x1FBC, 0x1FBC, 1, -9); (0x1FC8, 0x1FCB, 1, -86); (0x1FCC, 0x1FCC, 1, -9);
   (0x1FD8, 0x1FD9, 1, -8); (0x1FDA, 0x1FDB, 1, -100); (0x1FE8, 0x1FE9, 1, -8);
   (0x1FEA, 0x1FEB, 1, -112); (0x1FEC, 0x1FEC, 1, -7); (0x1FF8, 0x1FF9, 1, -128);
   (0x1FFA, 0x1FFB, 1, -126); (0x1FFC, 0x1FFC, 1, -9); (0x2126, 0x2126, 1, -7517);
   (0x212A, 0x212A, 1, -8383); (0x212B, 0x212B, 1, -8262); (0x2132, 0x2132, 1, 28);
   (0x2160, 0x216F, 1, 16); (0x2183, 0x2183, 1, 1); (0x24B6, 0x24CF, 1, 26);
   (0x2C00, 0x2C2F, 1, 48); (0x2C60, 0x2C60, 1, 1); (0x2C62, 0x2C62, 1, -10743);
   (0x2C63, 0x2C63, 1, -3814); (0x2C64, 0x2C64, 1, -10727); (0x2C67, 0x2C6B, 2, 1);
   (0x2C6D, 0x2C6D, 1, -10780); (0x2C6E, 0x2C6E, 1, -10749); (0x2C6F, 0x2C6F, 1, -10783);
   (0x2C70, 0x2C70, 1, -10782); (0x2C72, 0x2C72, 1, 1); (0x2C75, 0x2C75, 1, 1);
   (0x2C7E, 0x2C7F, 1, -10815); (0x2C80, 0x2CE2, 2, 1); (0x2CEB, 0x2CED, 2, 1);
   (0x2CF2, 0x2CF2, 1, 1); (0xA640, 0xA66C, 2, 1); (0xA680, 0xA69A, 2, 1);
   (0xA722, 0xA72E, 2, 1); (0xA732, 0xA76E, 2, 1); (0xA779, 0xA77B, 2, 1);
   (0xA77D, 0xA77D, 1, -35332); (0xA77E, 0xA786, 2, 1); (0xA78B, 0xA78B, 1, 1);
   (0xA78D, 0xA78D, 1, -42280); (0xA790, 0xA792, 2, 1); (0xA796, 0xA7A8, 2, 1);
   (0xA7AA, 0xA7AA, 1, -42308); (0xA7AB, 0xA7AB, 1, -42319); (0xA7AC, 0xA7AC, 1, -42315);
   (0xA7AD, 0xA7AD, 1, -42305); (0xA7AE, 0xA7AE, 1, -42308); (0xA7B0, 0xA7B0, 1, -42258);
   (0xA7B1, 0xA7B1, 1, -42282); (0xA7B2, 0xA7B2, 1, -42261); (0xA7B3, 0xA7B3, 1, 928);
   (0xA7B4, 0xA7C2, 2, 1); (0xA7C4, 0xA7C4, 1, -48); (0xA7C5, 0xA7C5, 1, -42307);
   (0xA7C6, 0xA7C6, 1, -35384); (0xA7C7, 0xA7C9, 2, 1); (0xA7D0, 0xA7D0, 1, 1);
   (0xA7D6, 0xA7D8, 2, 1); (0xA7F5, 0xA7F5, 1, 1); (0xFF21, 0xFF3A, 1, 32);
   (0x10400, 0x10427, 1, 40); (0x104B0, 0x104D3, 1, 40); (0x10570, 0x1057A, 1, 39);
   (0x1057C, 0x1058A, 1, 39); (0x1058C, 0x10592, 1, 39); (0x10594, 0x10595, 1, 39);
   (0x10C80, 0x10CB2, 1, 64); (0x118A0, 0x118BF, 1, 32); (0x16E40, 0x16E5F, 1, 32);
   (0x1E900, 0x1E921, 1, 34)].

(** The property Cased. *)
Definition cased_ranges : list (Z * Z) :=
  [(0x41, 0x5A); (0x61, 0x7A); (0xAA, 0xAA); (0xB5, 0xB5);
   (0xBA, 0xBA); (0xC0, 0xD6); (0xD8, 0xF6); (0xF8, 0x1BA);
   (0x1BC, 0x1BF); (0x1C4, 0x293); (0x295, 0x2B8); (0x2C0, 0x2C1);
   (0x2E0, 0x2E4); (0x345, 0x345); (0x370, 0x373); (0x376, 0x377);
   (0x37A, 0x37D); (0x37F, 0x37F); (0x386, 0x386); (0x388, 0x38A);
   (0x38C, 0x38C); (0x38E, 0x3A1); (0x3A3, 0x3F5); (0x3F7, 0x481);
   (0x48A, 0x52F); (0x531, 0x556); (0x560, 0x588); (0x10A0, 0x10C5);
   (0x10C7, 0x10C7); (0x10CD, 0x10CD); (0x10D0, 0x10FA); (0x10FD, 0x10FF);
   (0x13A0, 0x13F5); (0x13F8, 0x13FD); (0x1C80, 0x1C88); (0x1C90, 0x1CBA);
   (0x1CBD, 0x1CBF); (0x1D00, 0x1DBF); (0x1E00, 0x1F15); (0x1F18, 0x1F1D);
   (0x1F20, 0x1F45); (0x1F48, 0x1F4D); (0x1F50, 0x1F57); (0x1F59, 0x1F59);
   (0x1F5B, 0x1F5B); (0x1F5D, 0x1F5D); (0x1F5F, 0x1F7D); (0x1F80, 0x1FB4);
   (0x1FB6, 0x1FBC); (0x1FBE, 0x1FBE); (0x1FC2, 0x1FC4); (0x1FC6, 0x1FCC);
   (0x1FD0, 0x1FD3); (0x1FD6, 0x1FDB); (0x1FE0, 0x1FEC); (0x1FF2, 0x1FF4);
   (0x1FF6, 0x1FFC); (0x2071, 0x2071); (0x207F, 0x207F); (0x2090, 0x209C);
   (0x2102, 0x2102); (0x2107, 0x2107); (0x210A, 0x2113); (0x2115, 0x2115);
   (0x2119, 0x211D); (0x2124, 0x2124); (0x2126, 0x2126); (0x2128, 0x2128);
   (0x212A, 0x212D); (0x212F, 0x2134); (0x2139, 0x2139); (0x213C, 0x213F);
   (0x2145, 0x2149); (0x214E, 0x214E); (0x2160, 0x217F); (0x2183, 0x2184);
   (0x24B6, 0x24E9); (0x2C00, 0x2CE4); (0x2CEB, 0x2CEE); (0x2CF2, 0x2CF3);
   (0x2D00, 0x2D25); (0x2D27, 0x2D27); (0x2D2D, 0x2D2D); (0xA640, 0xA66D);
   (0xA680, 0xA69D); (0xA722, 0xA787); (0xA78B, 0xA78E); (0xA790, 0xA7CA);
   (0xA7D0, 0xA7D1); (0xA7D3, 0xA7D3); (0xA7D5, 0xA7D9); (0xA7F5, 0xA7F6);
   (0xA7F8, 0xA7FA); (0xAB30, 0xAB5A); (0xAB5C, 0xAB68); (0xAB70, 0xABBF);
   (0xFB00, 0xFB06); (0xFB13, 0xFB17); (0xFF21, 0xFF3A); (0xFF41, 0xFF5A);
   (0x10400, 0x1044F); (0x104B0, 0x104D3); (0x104D8, 0x104FB); (0x10570, 0x1057A);
   (0x1057C, 0x1058A); (0x1058C, 0x10592); (0x10594, 0x10595); (0x10597, 0x105A1);
   (0x105A3, 0x105B1); (0x105B3, 0x105B9); (0x105BB, 0x105BC); (0x10780, 0x10780);
   (0x10783, 0x10785); (0x10787, 0x107B0); (0x107B2, 0x107BA); (0x10C80, 0x10CB2);
   (0x10CC0, 0x10CF2); (0x118A0, 0x118DF); (0x16E40, 0x16E7F); (0x1D400, 0x1D454);
   (0x1D456, 0x1D49C); (0x1D49E, 0x1D49F); (0x1D4A2, 0x1D4A2); (0x1D4A5, 0x1D4A6);
   (0x1D4A9, 0x1D4AC); (0x1D4AE, 0x1D4B9); (0x1D4BB, 0x1D4BB); (0x1D4BD, 0x1D4C3);
   (0x1D4C5, 0x1D505); (0x1D507, 0x1D50A); (0x1D50D, 0x1D514); (0x1D516, 0x1D51C);
   (0x1D51E, 0x1D539); (0x1D53B, 0x1D53E); (0x1D540, 0x1D544); (0x1D546, 0x1D546);
   (0x1D54A, 0x1D550); (0x1D552, 0x1D6A5); (0x1D6A8, 0x1D6C0); (0x1D6C2, 0x1D6DA);
   (0x1D6DC, 0x1D6FA); (0x1D6FC, 0x1D714); (0x1D716, 0x1D734); (0x1D736, 0x1D74E);
   (0x1D750, 0x1D76E); (0x1D770, 0x1D788); (0x1D78A, 0x1D7A8); (0x1D7AA, 0x1D7C2);
   (0x1D7C4, 0x1D7CB); (0x1DF00, 0x1DF09); (0x1DF0B, 0x1DF1E); (0x1E900, 0x1E943);
   (0x1F130, 0x1F149); (0x1F150, 0x1F169); (0x1F170, 0x1F189)].

(** The property Case_Ignorable. *)
Definition case_ignorable_ranges : list (Z * Z) :=
  [(0x27, 0x27); (0x2E, 0x2E); (0x3A, 0x3A); (0x5E, 0x5E);
   (0x60, 0x60); (0xA8, 0xA8); (0xAD, 0xAD); (0xAF, 0xAF);
   (0xB4, 0xB4); (0xB7, 0xB8); (0x2B0, 0x36F); (0x374, 0x375);
   (0x37A, 0x37A); (0x384, 0x385); (0x387, 0x387); (0x483, 0x489);
   (0x559, 0x559); (0x55F, 0x55F); (0x591, 0x5BD); (0x5BF, 0x5BF);
   (0x5C1, 0x5C2); (0x5C4, 0x5C5); (0x5C7, 0x5C7); (0x5F4, 0x5F4);
   (0x600, 0x605); (0x610, 0x61A); (0x61C, 0x61C); (0x640, 0x640);
   (0x64B, 0x65F); (0x670, 0x670); (0x6D6, 0x6DD); (0x6DF, 0x6E8);
   (0x6EA, 0x6ED); (0x70F, 0x70F); (0x711, 0x711); (0x730, 0x74A);
   (0x7A6, 0x7B0); (0x7EB, 0x7F5); (0x7FA, 0x7FA); (0x7FD, 0x7FD);
   (0x816, 0x82D); (0x859, 0x85B); (0x888, 0x888); (0x890, 0x891);
   (0x898, 0x89F); (0x8C9, 0x902); (0x93A, 0x93A); (0x93C, 0x93C);
   (0x941, 0x948); (0x94D, 0x94D); (0x951, 0x957); (0x962, 0x963);
   (0x971, 0x971); (0x981, 0x981); (0x9BC, 0x9BC); (0x9C1, 0x9C4);
   (0x9CD, 0x9CD); (0x9E2, 0x9E3); (0x9FE, 0x9FE); (0xA01, 0xA02);
   (0xA3C, 0xA3C); (0xA41, 0xA42); (0xA47, 0xA48); (0xA4B, 0xA4D);
   (0xA51, 0xA51); (0xA70, 0xA71); (0xA75, 0xA75); (0xA81, 0xA82);
   (0xABC, 0xABC); (0xAC1, 0xAC5); (0xAC7, 0xAC8); (0xACD, 0xACD);
   (0xAE2, 0xAE3); (0xAFA, 0xAFF); (0xB01, 0xB01); (0xB3C, 0xB3C);
   (0xB3F, 0xB3F); (0xB41, 0xB44); (0xB4D, 0xB4D); (0xB55, 0xB56);
   (0xB62, 0xB63); (0xB82, 0xB82); (0xBC0, 0xBC0); (0xBCD, 0xBCD);
   (0xC00, 0xC00); (0xC04, 0xC04); (0xC3C, 0xC3C); (0xC3E, 0xC40);
   (0xC46, 0xC48); (0xC4A, 0xC4D); (0xC55, 0xC56); (0xC62, 0xC63);
   (0xC81, 0xC81); (0xCBC, 0xCBC); (0xCBF, 0xCBF); (0xCC6, 0xCC6);
   (0xCCC, 0xCCD); (0xCE2, 0xCE3); (0xD00, 0xD01); (0xD3B, 0xD3C);
   (0xD41, 0xD44); (0xD4D, 0xD4D); (0xD62, 0xD63); (0xD81, 0xD81);
   (0xDCA, 0xDCA); (0xDD2, 0xDD4); (0xDD6, 0xDD6); (0xE31, 0xE31);
   (0xE34, 0xE3A); (0xE46, 0xE4E); (0xEB1, 0xEB1); (0xEB4, 0xEBC);
   (0xEC6, 0xEC6); (0xEC8, 0xECD); (0xF18, 0xF19); (0xF35, 0xF35);
   (0xF37, 0xF37); (0xF39, 0xF39); (0xF71, 0xF7E); (0xF80, 0xF84);
   (0xF86, 0xF87); (0xF8D, 0xF97); (0xF99, 0xFBC); (0xFC6, 0xFC6);
   (0x102D, 0x1030); (0x1032, 0x1037); (0x1039, 0x103A); (0x103D, 0x103E);
   (0x1058, 0x1059); (0x105E, 0x1060); (0x1071, 0x1074); (0x1082, 0x1082);
   (0x1085, 0x1086); (0x108D, 0x108D); (0x109D, 0x109D); (0x10FC, 0x10FC);
   (0x135D, 0x135F); (0x1712, 0x1714); (0x1732, 0x1733); (0x1752, 0x1753);
   (0x1772, 0x1773); (0x17B4, 0x17B5); (0x17B7, 0x17BD); (0x17C6, 0x17C6);
   (0x17C9, 0x17D3); (0x17D7, 0x17D7); (0x17DD, 0x17DD); (0x180B, 0x180F);
   (0x1843, 0x1843); (0x1885, 0x1886); (0x18A9, 0x18A9); (0x1920, 0x1922);
   (0x1927, 0x1928); (0x1932, 0x1932); (0x1939, 0x193B); (0x1A17, 0x1A18);
   (0x1A1B, 0x1A1B); (0x1A56, 0x1A56); (0x1A58, 0x1A5E); (0x1A60, 0x1A60);
   (0x1A62, 0x1A62); (0x1A65, 0x1A6C); (0x1A73, 0x1A7C); (0x1A7F, 0x1A7F);
   (0x1AA7, 0x1AA7); (0x1AB0, 0x1ACE); (0x1B00, 0x1B03); (0x1B34, 0x1B34);
   (0x1B36, 0x1B3A); (0x1B3C, 0x1B3C); (0x1B42, 0x1B42); (0x1B6B, 0x1B73);
   (0x1B80, 0x1B81); (0x1BA2, 0x1BA5); (0x1BA8, 0x1BA9); (0x1BAB, 0x1BAD);
   (0x1BE6, 0x1BE6); (0x1BE8, 0x1BE9); (0x1BED, 0x1BED); (0x1BEF, 0x1BF1);
   (0x1C2C, 0x1C33); (0x1C36, 0x1C37); (0x1C78, 0x1C7D); (0x1CD0, 0x1CD2);
   (0x1CD4, 0x1CE0); (0x1CE2, 0x1CE8); (0x1CED, 0x1CED); (0x1CF4, 0x1CF4);
   (0x1CF8, 0x1CF9); (0x1D2C, 0x1D6A); (0x1D78, 0x1D78); (0x1D9B, 0x1DFF);
   (0x1FBD, 0x1FBD); (0x1FBF, 0x1FC1); (0x1FCD, 0x1FCF); (0x1FDD, 0x1FDF);
   (0x1FED, 0x1FEF); (0x1FFD, 0x1FFE); (0x200B, 0x200F); (0x2018, 0x2019);
   (0x2024, 0x2024); (0x2027, 0x2027); (0x202A, 0x202E); (0x2060, 0x2064);
   (0x2066, 0x206F); (0x2071, 0x2071); (0x207F, 0x207F); (0x2090, 0x209C);
   (0x20D0, 0x20F0); (0x2C7C, 0x2C7D); (0x2CEF, 0x2CF1); (0x2D6F, 0x2D6F);
   (0x2D7F, 0x2D7F); (0x2DE0, 0x2DFF); (0x2E2F, 0x2E2F); (0x3005, 0x3005);
   (0x302A, 0x302D); (0x3031, 0x3035); (0x303B, 0x303B); (0x3099, 0x309E);
   (0x30FC, 0x30FE); (0xA015, 0xA015); (0xA4F8, 0xA4FD); (0xA60C, 0xA60C);
   (0xA66F, 0xA672); (0xA674, 0xA67D); (0xA67F, 0xA67F); (0xA69C, 0xA69F);
   (0xA6F0, 0xA6F1); (0xA700, 0xA721); (0xA770, 0xA770); (0xA788, 0xA78A);
   (0xA7F2, 0xA7F4); (0xA7F8, 0xA7F9); (0xA802, 0xA802); (0xA806, 0xA806);
   (0xA80B, 0xA80B); (0xA825, 0xA826); (0xA82C, 0xA82C); (0xA8C4, 0xA8C5);
   (0xA8E0, 0xA8F1); (0xA8FF, 0xA8FF); (0xA926, 0xA92D); (0xA947, 0xA951);
   (0xA980, 0xA982); (0xA9B3, 0xA9B3); (0xA9B6, 0xA9B9); (0xA9BC, 0xA9BD);
   (0xA9CF, 0xA9CF); (0xA9E5, 0xA9E6); (0xAA29, 0xAA2E); (0xAA31, 0xAA32);
   (0xAA35, 0xAA36); (0xAA43, 0xAA43); (0xAA4C, 0xAA4C); (0xAA70, 0xAA70);
   (0xAA7C, 0xAA7C); (0xAAB0, 0xAAB0); (0xAAB2, 0xAAB4); (0xAAB7, 0xAAB8);
   (0xAABE, 0xAABF); (0xAAC1, 0xAAC1); (0xAADD, 0xAADD); (0xAAEC, 0xAAED);
   (0xAAF3, 0xAAF4); (0xAAF6, 0xAAF6); (0xAB5B, 0xAB5F); (0xAB69, 0xAB6B);
   (0xABE5, 0xABE5); (0xABE8, 0xABE8); (0xABED, 0xABED); (0xFB1E, 0xFB1E);
   (0xFBB2, 0xFBC2); (0xFE00, 0xFE0F); (0xFE13, 0xFE13); (0xFE20, 0xFE2F);
   (0xFE52, 0xFE52); (0xFE55, 0xFE55); (0xFEFF, 0xFEFF); (0xFF07, 0xFF07);
   (0xFF0E, 0xFF0E); (0xFF1A, 0xFF1A); (0xFF3E, 0xFF3E); (0xFF40, 0xFF40);
   (0xFF70, 0xFF70); (0xFF9E, 0xFF9F); (0xFFE3, 0xFFE3); (0xFFF9, 0xFFFB);
   (0x101FD, 0x101FD); (0x102E0, 0x102E0); (0x10376, 0x1037A); (0x10780, 0x10785);
   (0x10787, 0x107B0); (0x107B2, 0x107BA); (0x10A01, 0x10A03); (0x10A05, 0x10A06);
   (0x10A0C, 0x10A0F); (0x10A38, 0x10A3A); (0x10A3F, 0x10A3F); (0x10AE5, 0x10AE6);
   (0x10D24, 0x10D27); (0x10EAB, 0x10EAC); (0x10F46, 0x10F50); (0x10F82, 0x10F85);
   (0x11001, 0x11001); (0x11038, 0x11046); (0x11070, 0x11070); (0x11073, 0x11074);
   (0x1107F, 0x11081); (0x110B3, 0x110B6); (0x110B9, 0x110BA); (0x110BD, 0x110BD);
   (0x110C2, 0x110C2); (0x110CD, 0x110CD); (0x11100, 0x11102); (0x11127, 0x1112B);
   (0x1112D, 0x11134); (0x11173, 0x11173); (0x11180, 0x11181); (0x111B6, 0x111BE);
   (0x111C9, 0x111CC); (0x111CF, 0x111CF); (0x1122F, 0x11231); (0x11234, 0x11234);
   (0x11236, 0x11237); (0x1123E, 0x1123E); (0x112DF, 0x112DF); (0x112E3, 0x112EA);
   (0x11300, 0x11301); (0x1133B, 0x1133C); (0x11340, 0x11340); (0x11366, 0x1136C);
   (0x11370, 0x11374); (0x11438, 0x1143F); (0x11442, 0x11444); (0x11446, 0x11446);
   (0x1145E, 0x1145E); (0x114B3, 0x114B8); (0x114BA, 0x114BA); (0x114BF, 0x114C0);
   (0x114C2, 0x114C3); (0x115B2, 0x115B5); (0x115BC, 0x115BD); (0x115BF, 0x115C0);
   (0x115DC, 0x115DD); (0x11633, 0x1163A); (0x1163D, 0x1163D); (0x1163F, 0x11640);
   (0x116AB, 0x116AB); (0x116AD, 0x116AD); (0x116B0, 0x116B5); (0x116B7, 0x116B7);
   (0x1171D, 0x1171F); (0x11722, 0x11725); (0x11727, 0x1172B); (0x1182F, 0x11837);
   (0x11839, 0x1183A); (0x1193B, 0x1193C); (0x1193E, 0x1193E); (0x11943, 0x11943);
   (0x119D4, 0x119D7); (0x119DA, 0x119DB); (0x119E0, 0x119E0); (0x11A01, 0x11A0A);
   (0x11A33, 0x11A38); (0x11A3B, 0x11A3E); (0x11A47, 0x11A47); (0x11A51, 0x11A56);
   (0x11A59, 0x11A5B); (0x11A8A, 0x11A96); (0x11A98, 0x11A99); (0x11C30, 0x11C36);
   (0x11C38, 0x11C3D); (0x11C3F, 0x11C3F); (0x11C92, 0x11CA7); (0x11CAA, 0x11CB0);
   (0x11CB2, 0x11CB3); (0x11CB5, 0x11CB6); (0x11D31, 0x11D36); (0x11D3A, 0x11D3A);
   (0x11D3C, 0x11D3D); (0x11D3F, 0x11D45); (0x11D47, 0x11D47); (0x11D90, 0x11D91);
   (0x11D95, 0x11D95); (0x11D97, 0x11D97); (0x11EF3, 0x11EF4); (0x13430, 0x13438);
   (0x16AF0, 0x16AF4); (0x16B30, 0x16B36); (0x16B40, 0x16B43); (0x16F4F, 0x16F4F);
   (0x16F8F, 0x16F9F); (0x16FE0, 0x16FE1); (0x16FE3, 0x16FE4); (0x1AFF0, 0x1AFF3);
   (0x1AFF5, 0x1AFFB); (0x1AFFD, 0x1AFFE); (0x1BC9D, 0x1BC9E); (0x1BCA0, 0x1BCA3);
   (0x1CF00, 0x1CF2D); (0x1CF30, 0x1CF46); (0x1D167, 0x1D169); (0x1D173, 0x1D182);
   (0x1D185, 0x1D18B); (0x1D1AA, 0x1D1AD); (0x1D242, 0x1D244); (0x1DA00, 0x1DA36);
   (0x1DA3B, 0x1DA6C); (0x1DA75, 0x1DA75); (0x1DA84, 0x1DA84); (0x1DA9B, 0x1DA9F);
   (0x1DAA1, 0x1DAAF); (0x1E000, 0x1E006); (0x1E008, 0x1E018); (0x1E01B, 0x1E021);
   (0x1E023, 0x1E024); (0x1E026, 0x1E02A); (0x1E130, 0x1E13D); (0x1E2AE, 0x1E2AE);
   (0x1E2EC, 0x1E2EF); (0x1E8D0, 0x1E8D6); (0x1E944, 0x1E94B); (0x1F3FB, 0x1F3FF);
   (0xE0001, 0xE0001); (0xE0020, 0xE007F); (0xE0100, 0xE01EF)].

(** *** Characters *)

Definition is_cont (b : ascii) : bool := (0x80 <=? ord b) && (ord b <? 0xC0).

Definition decode2 (b0 b1 : ascii) : option Z :=
  if (0xC2 <=? ord b0) && (ord b0 <? 0xE0) && is_cont b1
  then Some ((ord b0 - 0xC0) * 0x40 + (ord b1 - 0x80))
  else None.

Definition decode3 (b0 b1 b2 : ascii) : option Z :=
  let c := (ord b0 - 0xE0) * 0x1000 + (ord b1 - 0x80) * 0x40 + (ord b2 - 0x80) in
  if (0xE0 <=? ord b0) && (ord b0 <? 0xF0) && is_cont b1 && is_cont b2 && (0x800 <=? c)
  then Some c
  else None.

Definition decode4 (b0 b1 b2 b3 : ascii) : option Z :=
  let c := (ord b0 - 0xF0) * 0x40000 + (ord b1 - 0x80) * 0x1000
           + (ord b2 - 0x80) * 0x40 + (ord b3 - 0x80) in
  if (0xF0 <=? ord b0) && (ord b0 <? 0xF8) && is_cont b1 && is_cont b2 && is_cont b3
     && (0x10000 <=? c) && (c <? 0x110000)
  then Some c
  else None.

(** The code given to a byte that is no character: above every code point. *)
Definition stray (b : ascii) : Z := 0x110000 + ord b.

(** A character: its code point and the bytes that hold it. *)
Definition char : Type := Z * string.

(** The first character of a string and what follows it. *)
Definition next (s : string) : option (char * string) :=
  match s with
  | EmptyString => None
  | String b0 r0 =>
      let alone := String b0 EmptyString in
      if ord b0 <? 0x80 then Some ((ord b0, alone), r0)
      else
        match r0 with
        | String b1 r1 =>
            match decode2 b0 b1 with
            | Some c => Some ((c, String b0 (String b1 EmptyString)), r1)
            | None =>
                match r1 with
                | String b2 r2 =>
                    match decode3 b0 b1 b2 with
                    | Some c =>
                        Some ((c, String b0 (String b1 (String b2 EmptyString))), r2)
                    | None =>
                        match r2 with
                        | String b3 r3 =>
                            match decode4 b0 b1 b2 b3 with
                            | Some c =>
                                Some ((c, String b0 (String b1 (String b2
                                             (String b3 EmptyString)))), r3)
                            | None => Some ((stray b0, alone), r0)
                            end
                        | EmptyString => Some ((stray b0, alone), r0)
                        end
                    end
                | EmptyString => Some ((stray b0, alone), r0)
                end
            end
        | EmptyString => Some ((stray b0, alone), r0)
        end
  end.

Fixpoint chars_upto (n : nat) (s : string) : list char :=
  match n with
  | O => []
  | S n =>
      match next s with
      | Some (x, rest) => x :: chars_upto n rest
      | None => []
      end
  end.

(** [list(s)] *)
Definition chars (s : string) : list char := chars_upto (String.length s) s.

(** ["".join(l)] *)
Definition unchars (l : list char) : string :=
  fold_right (fun x acc => snd x +:+ acc) EmptyString l.

(** The UTF-8 encoding of a code point. *)
Definition encode (c : Z) : string :=
  if c <? 0x80 then String (byte c) EmptyString
  else if c <? 0x800 then
    String (byte (0xC0 + c / 0x40)) (String (byte (0x80 + c mod 0x40)) EmptyString)
  else if c <? 0x10000 then
    String (byte (0xE0 + c / 0x1000))
      (String (byte (0x80 + (c / 0x40) mod 0x40))
         (String (byte (0x80 + c mod 0x40)) EmptyString))
  else if c <? 0x110000 then
    String (byte (0xF0 + c / 0x40000))
      (String (byte (0x80 + (c / 0x1000) mod 0x40))
         (String (byte (0x80 + (c / 0x40) mod 0x40))
            (String (byte (0x80 + c mod 0x40)) EmptyString)))
  else String (byte (c - 0x110000)) EmptyString.

(** [len(s)] *)
Definition len (s : string) : nat := length (chars s).

(** [c.isspace()] *)
Definition isspace (c : Z) : bool := existsb (Z.eqb c) spaces.

(** [c.isdigit()] *)
Definition isdigit (c : Z) : bool := in_ranges digit_ranges c.

(** The digit a character stands for in [int]. *)
Definition decimal (c : Z) : option Z :=
  match filter (fun z => (z <=? c) && (c <=? z + 9)) decimal_zeros with
  | z :: _ => Some (c - z)
  | [] => None
  end.

Fixpoint lstrip_chars (l : list char) : list char :=
  match l with
  | x :: rest => if isspace (fst x) then lstrip_chars rest else l
  | [] => []
  end.

Definition rstrip_chars (l : list char) : list char :=
  rev (lstrip_chars (rev l)).

(** [s.lstrip()] *)
Definition lstrip (s : string) : string := unchars (lstrip_chars (chars s)).

(** [s.strip()] *)
Definition strip (s : string) : string :=
  unchars (rstrip_chars (lstrip_chars (chars s))).

(** *** [str.lower] *)

Definition cased (c : Z) : bool := in_ranges cased_ranges c.
Definition case_ignorable (c : Z) : bool := in_ranges case_ignorable_ranges c.

(** The lower case of one character, when it differs from the character. *)
Definition lower_code (c : Z) : option (list Z) :=
  if c <? 0x80 then
    if (0x41 <=? c) && (c <=? 0x5A) then Some [c + 0x20] else None
  else if c =? 0x130 then Some [0x69; 0x307]
  else
    match filter (fun r => let '(lo, hi, step, _) := r in
                           (lo <=? c) && (c <=? hi) && ((c - lo) mod step =? 0))
                 lower_runs with
    | (_, _, _, delta) :: _ => Some [c + delta]
    | [] => None
    end.

(** What follows a capital sigma: case-ignorable characters, then a cased
    one. *)
Fixpoint before_cased (l : list char) : bool :=
  match l with
  | [] => false
  | x :: rest => if case_ignorable (fst x) then before_cased rest else cased (fst x)
  end.

(** [after_cased]: the nearest character before this place that is not
    case-ignorable is cased. *)
Fixpoint lower_chars (after_cased : bool) (l : list char) : string :=
  match l with
  | [] => EmptyString
  | x :: rest =>
      let c := fst x in
      let here :=
        if c =? 0x3A3 then
          encode (if after_cased && negb (before_cased rest) then 0x3C2 else 0x3C3)
        else
          match lower_code c with
          | Some cs => String.concat EmptyString (map encode cs)
          | None => snd x
          end in
      here +:+ lower_chars (if case_ignorable c then after_cased else cased c) rest
  end.

(** [s.lower()] *)
Definition lower (s : string) : string := lower_chars false (chars s).

(** [needle in s] *)
Fixpoint contains (needle s : string) : bool :=
  String.prefix needle s
  || match s with
     | String _ rest => contains needle rest
     | EmptyString => false
     end.

(** [s.startswith(p)] and [s.endswith(p)] *)
Definition startswith (p s : string) : bool := String.prefix p s.
Definition endswith (p s : string) : bool :=
  String.prefix (String.rev p) (String.rev s).

(** [bool(s)] for a string: non-empty. *)
Definition nonempty (s : string) : bool :=
  match s with EmptyString => false | String _ _ => true end.

(** ["".join(c for c in s if c.isdigit())] *)
Definition digits_of (s : string) : string :=
  unchars (filter (fun x => isdigit (fst x) = true) (chars s)).

(** Every character is a digit. *)
Definition all_digits (s : string) : bool :=
  forallb (fun x => isdigit (fst x)) (chars s).

(** [s.isdigit()]: non-empty and made of digits only. *)
Definition str_isdigit (s : string) : bool := nonempty s && all_digits s.

(** [sys.get_int_max_str_digits()] *)
Definition int_max_str_digits : nat := 4300.

Fixpoint int_acc (acc : Z) (l : list char) : res Z :=
  match l with
  | [] => Ok acc
  | x :: rest =>
      match decimal (fst x) with
      | Some d => int_acc (10 * acc + d) rest
      | None => Raise ValueError
      end
  end.

(** [int(s)] for a string [s] with [s.isdigit()]: [ValueError] when a
    character is a digit that is no decimal digit (a superscript, a circled
    digit), or when there are more than [int_max_str_digits] digits. *)
Definition int (s : string) : res Z :=
  if (int_max_str_digits <? len s)%nat then Raise ValueError
  else int_acc 0 (chars s).

(** [s.split("@")[0]] *)
Fixpoint before_at (s : string) : string :=
  match s with
  | String c rest => if Ascii.eqb c "@"%char then EmptyString else String c (before_at rest)
  | EmptyString => EmptyString
  end.

(** [s[:n]] *)
Definition prefix_of_len (n : nat) (s : string) : string := unchars (take n (chars s)).

(** [sep.join(parts)] *)
Definition join (sep : string) (parts : list string) : string :=
  String.concat sep parts.

(** [2 ** n] for a non-negative [n]. *)
Definition pow2 (n : Z) : Z := 2 ^ n.

(** [deque(maxlen=n).append(x)]: the oldest item is discarded once [n]
    items are held. *)
Definition deque_append {A : Type} (maxlen : nat) (x : A) (d : list A) : list A :=
  if (length d <? maxlen)%nat then d ++ [x]
  else drop (S (length d - maxlen)) (d ++ [x]).

End Py.

(** ** JSON payloads as Python values *)

#[local] Unset Elimination Schemes.
Inductive json : Type :=
  | JNull
  | JBool (b : bool)
  | JNum (n : Z)
  | JStr (s : string)
  | JArr (items : list json)
  | JObj (fields : list (string * json)).
#[local] Set Elimination Schemes.

Module Json.

(** [bool(v)] *)
Definition truthy (v : json) : bool :=
  match v with
  | JNull => false
  | JBool b => b
  | JNum n => negb (n =? 0)
  | JStr s => Py.nonempty s
  | JArr items => match items with [] => false | _ => true end
  | JObj fields => match fields with [] => false | _ => true end
  end.

(** [v or d] *)
Definition or_else (v d : json) : json := if truthy v then v else d.

Fixpoint assoc (k : string) (fields : list (string * json)) : option json :=
  match fields with
  | [] => None
  | (k', v) :: rest => if String.eqb k k' then Some v else assoc k rest
  end.

(** [v.get(k, d)]: only a [dict] has the method. *)
Definition get (v : json) (k : string) (d : json) : res json :=
  match v with
  | JObj fields => Ok (default d (assoc k fields))
  | _ => Raise AttributeError
  end.

(** [k in v] for a [dict] [v]. *)
Definition has_key (k : string) (fields : list (string * json)) : bool :=
  match assoc k fields with Some _ => true | None => false end.

(** [v.strip()]: only a [str] has the method. *)
Definition strip (v : json) : res string :=
  match v with
  | JStr s => Ok (Py.strip s)
  | _ => Raise AttributeError
  end.

(** [isinstance(v, list)] *)
Definition is_list (v : json) : bool :=
  match v with JArr _ => true | _ => false end.

End Json.

(** ** Settings (main.py, class Settings) *)

Record Settings : Type := {
  EVO_INSTANCE : string;
  OWNER_PHONE : option string;
  AUTO_REACTIVATE_MINUTES : Z;
  HUMAN_DETECTION_WINDOW_SECONDS : Z;
  (** a float number of seconds in the source, held here in milliseconds
      (the default 4.0 is 4000) *)
  MESSAGE_ACCUMULATION_SECONDS : Z
}.

Definition default_settings : Settings := {|
  EVO_INSTANCE := "Tractosymax2";
  OWNER_PHONE := None;
  AUTO_REACTIVATE_MINUTES := 60;
  HUMAN_DETECTION_WINDOW_SECONDS := 3;
  MESSAGE_ACCUMULATION_SECONDS := 4000
|}.

(** A number of seconds on the millisecond clock. *)
Definition seconds (n : Z) : Z := 1000 * n.

(** ** Global state (main.py, class GlobalState) *)

(** A value of [silenced_users]: the timestamp written on a human takeover,
    or the [True] written by the "/silencio" command. *)
Inductive silence_value : Type :=
  | SilenceUntil (expiry : Z)
  | SilenceTrue.

(** [isinstance(v, (int, float))].  [bool] is a subclass of [int] in Python,
    so [True] passes the test as well as a timestamp does. *)
Definition isinstance_int_float (v : silence_value) : bool :=
  match v with
  | SilenceUntil _ => true
  | SilenceTrue => true
  end.

(** The number a silence value stands for in [time.time() < v]:
    [True] compares as [1], that is one second after the epoch. *)
Definition as_number (v : silence_value) : Z :=
  match v with
  | SilenceUntil expiry => expiry
  | SilenceTrue => seconds 1
  end.

(** [v is True] *)
Definition is_True (v : silence_value) : bool :=
  match v with
  | SilenceTrue => true
  | SilenceUntil _ => false
  end.

Record GlobalState : Type := {
  http_client : bool;                      (* [http_client is not None] *)
  store : bool;                            (* [store is not None] *)
  processed_message_ids : BoundedOrderedSet string;
  processed_lead_ids : BoundedOrderedSet string;
  silenced_users : gmap string silence_value;
  bot_sent_message_ids : BoundedOrderedSet string;
  bot_sent_texts : gmap string (list string);
  last_bot_message_time : gmap string Z;
  pending_messages : gmap string (list string);
  pending_message_tasks : gmap string nat
}.

(** [GlobalState()] once [lifespan] has installed the client and the store. *)
Definition GlobalState_init : GlobalState := {|
  http_client := true;
  store := true;
  processed_message_ids := bos_new 4000;
  processed_lead_ids := bos_new 8000;
  silenced_users := ∅;
  bot_sent_message_ids := bos_new 2000;
  bot_sent_texts := ∅;
  last_bot_message_time := ∅;
  pending_messages := ∅;
  pending_message_tasks := ∅
|}.

Definition set_processed_message_ids (v : BoundedOrderedSet string) (b : GlobalState) :=
  {| http_client := http_client b; store := store b;
     processed_message_ids := v;
     processed_lead_ids := processed_lead_ids b;
     silenced_users := silenced_users b;
     bot_sent_message_ids := bot_sent_message_ids b;
     bot_sent_texts := bot_sent_texts b;
     last_bot_message_time := last_bot_message_time b;
     pending_messages := pending_messages b;
     pending_message_tasks := pending_message_tasks b |}.

Definition set_processed_lead_ids (v : BoundedOrderedSet string) (b : GlobalState) :=
  {| http_client := http_client b; store := store b;
     processed_message_ids := processed_message_ids b;
     processed_lead_ids := v;
     silenced_users := silenced_users b;
     bot_sent_message_ids := bot_sent_message_ids b;
     bot_sent_texts := bot_sent_texts b;
     last_bot_message_time := last_bot_message_time b;
     pending_messages := pending_messages b;
     pending_message_tasks := pending_message_tasks b |}.

Definition set_silenced_users (v : gmap string silence_value) (b : GlobalState) :=
  {| http_client := http_client b; store := store b;
     processed_message_ids := processed_message_ids b;
     processed_lead_ids := processed_lead_ids b;
     silenced_users := v;
     bot_sent_message_ids := bot_sent_message_ids b;
     bot_sent_texts := bot_sent_texts b;
     last_bot_message_time := last_bot_message_time b;
     pending_messages := pending_messages b;
     pending_message_tasks := pending_message_tasks b |}.

Definition set_bot_sent_message_ids (v : BoundedOrderedSet string) (b : GlobalState) :=
  {| http_client := http_client b; store := store b;
     processed_message_ids := processed_message_ids b;
     processed_lead_ids := processed_lead_ids b;
     silenced_users := silenced_users b;
     bot_sent_message_ids := v;
     bot_sent_texts := bot_sent_texts b;
     last_bot_message_time := last_bot_message_time b;
     pending_messages := pending_messages b;
     pending_message_tasks := pending_message_tasks b |}.

Definition set_bot_sent_texts (v : gmap string (list string)) (b : GlobalState) :=
  {| http_client := http_client b; store := store b;
     processed_message_ids := processed_message_ids b;
     processed_lead_ids := processed_lead_ids b;
     silenced_users := silenced_users b;
     bot_sent_message_ids := bot_sent_message_ids b;
     bot_sent_texts := v;
     last_bot_message_time := last_bot_message_time b;
     pending_messages := pending_messages b;
     pending_message_tasks := pending_message_tasks b |}.

Definition set_last_bot_message_time (v : gmap string Z) (b : GlobalState) :=
  {| http_client := http_client b; store := store b;
     processed_message_ids := processed_message_ids b;
     processed_lead_ids := processed_lead_ids b;
     silenced_users := silenced_users b;
     bot_sent_message_ids := bot_sent_message_ids b;
     bot_sent_texts := bot_sent_texts b;
     last_bot_message_time := v;
     pending_messages := pending_messages b;
     pending_message_tasks := pending_message_tasks b |}.

Definition set_pending_messages (v : gmap string (list string)) (b : GlobalState) :=
  {| http_client := http_client b; store := store b;
     processed_message_ids := processed_message_ids b;
     processed_lead_ids := processed_lead_ids b;
     silenced_users := silenced_users b;
     bot_sent_message_ids := bot_sent_message_ids b;
     bot_sent_texts := bot_sent_texts b;
     last_bot_message_time := last_bot_message_time b;
     pending_messages := v;
     pending_message_tasks := pending_message_tasks b |}.

Definition set_pending_message_tasks (v : gmap string nat) (b : GlobalState) :=
  {| http_client := http_client b; store := store b;
     processed_message_ids := processed_message_ids b;
     processed_lead_ids := processed_lead_ids b;
     silenced_users := silenced_users b;
     bot_sent_message_ids := bot_sent_message_ids b;
     bot_sent_texts := bot_sent_texts b;
     last_bot_message_time := last_bot_message_time b;
     pending_messages := pending_messages b;
     pending_message_tasks := v |}.

(** ** Tasks of the event loop *)

(** What remains of [_process_accumulated_messages] when it first suspends. *)
Inductive continuation : Type :=
  | KMuteReply                              (* after "/silencio": the two notices *)
  | KUnmuteReply                            (* after "/activar": the notice *)
  | KPipeline (combined_message : string).  (* the reply pipeline *)

(** A task created for [_schedule_accumulated_processing]:
    - [Sleeping]: inside [asyncio.sleep]; the timer is pending;
    - [Cancelled]: [cancel()] reached it while it slept, so [CancelledError]
      is raised at the [sleep] and swallowed: the body never runs;
    - [Running k]: the sleep is over, [_process_accumulated_messages] ran up
      to its first suspension and [k] remains;
    - [Aborted]: [cancel()] reached it while it was [Running], so the turn was
      cut at a suspension point;
    - [Finished]: the coroutine returned. *)
Inductive task_status : Type :=
  | Sleeping
  | Cancelled
  | Running (k : continuation)
  | Aborted
  | Finished.

Record Task : Type := {
  task_jid : string;
  task_due : Z;
  task_status_of : task_status
}.

(** [task.done()] *)
Definition task_done (t : Task) : bool :=
  match task_status_of t with
  | Cancelled | Aborted | Finished => true
  | Sleeping | Running _ => false
  end.

(** [task.cancel()] *)
Definition task_cancel (t : Task) : Task :=
  {| task_jid := task_jid t; task_due := task_due t;
     task_status_of :=
       match task_status_of t with
       | Sleeping => Cancelled
       | Running _ => Aborted
       | s => s
       end |}.

Definition task_set_status (s : task_status) (t : Task) : Task :=
  {| task_jid := task_jid t; task_due := task_due t; task_status_of := s |}.

(** ** Interactions with the outside *)

Inductive effect : Type :=
  | EPost (url : string) (payload : json)
  | ESleep (ms : Z)
  | ETranscribe (msg_id remote_jid : string)
  | EInventory
  | EStoreGet (phone : string)
  | EStoreUpsert (phone state : string) (context : json)
  | EHandleMessage (user_message state : string) (context : json)
  | EMonday (telefono stage : string).

(** What the code reads of an [httpx.Response]: [key_id] is the outcome of
    [response.json().get("key", {}).get("id")], [Raise] when the body is not
    JSON or has another shape. *)
Record Response : Type := {
  status_code : Z;
  retry_after : option string;
  key_id : res (option string)
}.

(** A row of the session store, as [MemoryStore.get] returns it. *)
Record Session : Type := {
  session_state : string;
  session_context : json
}.

Record PdfInfo : Type := {
  pdf_url : option string;
  filename : option string
}.

(** What the code reads of the dictionary [handle_message] returns. *)
Record Result : Type := {
  result_reply : string;              (* [result.get("reply") or ""] *)
  result_new_state : string;          (* [str(result.get("new_state", state))] *)
  result_context : json;              (* [result.get("context", context)] *)
  result_media_urls : list string;    (* [result.get("media_urls") or []] *)
  result_lead_info : bool;            (* truth value of [result.get("lead_info")] *)
  result_pdf_info : option PdfInfo;   (* [result.get("pdf_info")], [None] when falsy *)
  result_funnel_stage : string        (* [result.get("funnel_stage", "MENSAJE")] *)
}.

(** The collaborators.  The first argument of an oracle is the number of
    interactions logged before the call. *)
Record Env : Type := {
  settings : Settings;
  client_post : nat -> string -> json -> res Response;
  audio_transcription : nat -> string -> string -> string;
  store_get : nat -> string -> res (option Session);
  store_upsert : nat -> string -> string -> json -> res unit;
  handle_message : nat -> string -> string -> json -> res Result;
  typing_delay : nat -> Z;
  create_or_update_lead : nat -> string -> string -> res unit
}.

(** ** The running system *)

(** One run of [_process_accumulated_messages] that found messages: which
    task, for which conversation, with which [combined_message], and whether
    the silence check stopped it. *)
Record Turn : Type := {
  turn_task : nat;
  turn_jid : string;
  turn_text : string;
  turn_suppressed : bool
}.

Record Sys : Type := {
  bot : GlobalState;
  now : Z;                 (* the clock *)
  tasks : list Task;       (* every task created so far; a task's id is its index *)
  trace : list effect;     (* the interactions so far, oldest first *)
  turns : list Turn        (* history of the turns taken, oldest first *)
}.

Definition Sys_init : Sys :=
  {| bot := GlobalState_init; now := 0; tasks := []; trace := []; turns := [] |}.

Definition set_bot (b : GlobalState) (s : Sys) : Sys :=
  {| bot := b; now := now s; tasks := tasks s; trace := trace s; turns := turns s |}.
Definition set_now (t : Z) (s : Sys) : Sys :=
  {| bot := bot s; now := t; tasks := tasks s; trace := trace s; turns := turns s |}.
Definition set_tasks (ts : list Task) (s : Sys) : Sys :=
  {| bot := bot s; now := now s; tasks := ts; trace := trace s; turns := turns s |}.
Definition set_trace (tr : list effect) (s : Sys) : Sys :=
  {| bot := bot s; now := now s; tasks := tasks s; trace := tr; turns := turns s |}.
Definition set_turns (tu : list Turn) (s : Sys) : Sys :=
  {| bot := bot s; now := now s; tasks := tasks s; trace := trace s; turns := tu |}.

(** ** The monad of the embedding: state and exceptions *)

Definition M (A : Type) : Type := Sys -> res A * Sys.

Definition ret {A : Type} (a : A) : M A := fun s => (Ok a, s).
Definition raise {A : Type} (e : exn) : M A := fun s => (Raise e, s).
Definition bind {A B : Type} (m : M A) (k : A -> M B) : M B :=
  fun s => match m s with
           | (Ok a, s') => k a s'
           | (Raise e, s') => (Raise e, s')
           end.
(** [try: m except Exception: h] *)
Definition try_except {A : Type} (m : M A) (h : exn -> M A) : M A :=
  fun s => match m s with
           | (Ok a, s') => (Ok a, s')
           | (Raise e, s') => h e s'
           end.
Definition lift {A : Type} (r : res A) : M A := fun s => (r, s).
Definition get_bot : M GlobalState := fun s => (Ok (bot s), s).
Definition modify_bot (f : GlobalState -> GlobalState) : M unit :=
  fun s => (Ok tt, set_bot (f (bot s)) s).
(** [time.time()] *)
Definition time_time : M Z := fun s => (Ok (now s), s).
Definition emit (e : effect) : M unit :=
  fun s => (Ok tt, set_trace (trace s ++ [e]) s).
Definition interactions : M nat := fun s => (Ok (length (trace s)), s).
Definition pass : M unit := ret tt.

Declare Scope monad_scope.
Delimit Scope monad_scope with monad.
Notation "x <- m ;; k" := (bind m (fun x => k))
  (at level 100, m at next level, right associativity) : monad_scope.
Notation "m ;;; k" := (bind m (fun _ => k))
  (at level 100, right associativity) : monad_scope.
Open Scope monad_scope.

(** [await asyncio.sleep(ms)].  A step of the model is instantaneous: the
    sleep is logged, and the time it takes is given by the clock ticks
    between the steps. *)
Definition sleep (ms : Z) : M unit := emit (ESleep ms).

(** ** The gateway *)

(** [range(n)] *)
Definition range (n : nat) : list Z := map Z.of_nat (seq 0 n).

Definition nl : string := String (ascii_of_nat 10) EmptyString.

Section Gateway.
Context (env : Env).

(** *** Utilities *)

Definition _clean_phone_or_jid (value : string) : string :=
  if negb (Py.nonempty value) then "" else Py.digits_of value.

(** [await client.post(url, json=payload)] *)
Definition post (url : string) (payload : json) : M Response :=
  n <- interactions ;;
  emit (EPost url payload) ;;;
  lift (client_post env n url payload).

(** *** _evo_post *)

Definition _MAX_RETRIES : nat := 3.

(** [int(retry_after) if retry_after and retry_after.isdigit()
     else 2 ** (_attempt + 1)] *)
Definition backoff_of (response : Response) (_attempt : Z) : res Z :=
  match retry_after response with
  | Some ra =>
      if Py.nonempty ra && Py.str_isdigit ra then Py.int ra
      else Ok (Py.pow2 (_attempt + 1))
  | None => Ok (Py.pow2 (_attempt + 1))
  end.

(** The [for _attempt in range(_MAX_RETRIES)] loop; [last] is the value of
    [response] when the loop is entered, read by the [return response]
    that follows the loop. *)
Fixpoint _evo_post_loop (attempts : list Z) (last : option Response)
    (url : string) (payload : json) : M Response :=
  match attempts with
  | [] =>
      match last with
      | Some response => ret response
      | None => raise UnboundLocalError
      end
  | _attempt :: rest =>
      response <- post url payload ;;
      if (status_code response =? 429) && (_attempt <? Z.of_nat _MAX_RETRIES - 1) then
        backoff <- lift (backoff_of response _attempt) ;;
        sleep (seconds backoff) ;;;
        _evo_post_loop rest (Some response) url payload
      else ret response
  end.

Definition _evo_post (url : string) (payload : json) : M Response :=
  _evo_post_loop (range _MAX_RETRIES) None url payload.

(** *** Recognising automated notices *)

Definition _is_automated_greeting (text : string) : bool :=
  if negb (Py.nonempty text) then false
  else
    let text_lower := Py.lower text in
    let has p := Py.contains p text_lower in
    (has "bienvenido" && has "wa.me")
    || (has "catálogo" && has "wa.me")
    || (has "catalogo" && has "wa.me")
    || has "wa.me/c/"
    || has "no estamos disponibles"
    || has "fuera de horario"
    || (has "te contactaremos" && has "pronto")
    || (Py.startswith "hola" text_lower && has "bienvenido"
        && (Py.len text <? 200)%nat).

(** *** _is_bot_message *)

(** Which branch of [_is_bot_message] returns. *)
Inductive origin : Type :=
  | BotById          (* CAPA 1 *)
  | BotByText        (* CAPA 2 *)
  | BotByRecency     (* CAPA 3 *)
  | Human.

Definition layer_id (b : GlobalState) (msg_id : string) : bool :=
  Py.nonempty msg_id && bos_contains msg_id (bot_sent_message_ids b).

Definition layer_text (b : GlobalState) (remote_jid msg_text : string) : bool :=
  match bot_sent_texts b !! remote_jid with
  | Some recent_texts => bool_decide (msg_text ∈ recent_texts)
  | None => false
  end.

Definition layer_time (b : GlobalState) (t : Z) (remote_jid : string) : bool :=
  let last_bot_time := default 0 (last_bot_message_time b !! remote_jid) in
  let time_diff := t - last_bot_time in
  time_diff <? seconds (HUMAN_DETECTION_WINDOW_SECONDS (settings env)).

Definition _is_bot_message_branch (b : GlobalState) (t : Z)
    (remote_jid msg_id msg_text : string) : origin :=
  if layer_id b msg_id then BotById
  else if layer_text b remote_jid msg_text then BotByText
  else if layer_time b t remote_jid then BotByRecency
  else Human.

Definition is_bot (o : origin) : bool :=
  match o with Human => false | _ => true end.

Definition _is_bot_message (remote_jid msg_id msg_text : string) : M bool :=
  b <- get_bot ;;
  t <- time_time ;;
  ret (is_bot (_is_bot_message_branch b t remote_jid msg_id msg_text)).

(** *** Sending, with echo tracking *)

(** The block repeated after every successful call:
    [try: msg_id = response.json().get("key", {}).get("id");
          if msg_id: bot_sent_message_ids.add(msg_id)
     except Exception: pass] *)
Definition track_message_id (response : Response) : M unit :=
  try_except
    (msg_id <- lift (key_id response) ;;
     match msg_id with
     | Some i =>
         if Py.nonempty i then
           b <- get_bot ;;
           ids <- lift (bos_add i (bot_sent_message_ids b)) ;;
           modify_bot (set_bot_sent_message_ids ids)
         else pass
     | None => pass
     end)
    (fun _ => pass).

(** [bot_sent_texts[jid]] is created as [deque(maxlen=10)] on first use. *)
Definition remember_text (jid text : string) (b : GlobalState) : GlobalState :=
  let d := default [] (bot_sent_texts b !! jid) in
  set_bot_sent_texts (<[jid := Py.deque_append 10 text d]> (bot_sent_texts b)) b.

Definition remember_time (jid : string) (t : Z) (b : GlobalState) : GlobalState :=
  set_last_bot_message_time (<[jid := t]> (last_bot_message_time b)) b.

Definition media_payload (clean_number caption media_url : string) : json :=
  JObj [("number", JStr clean_number); ("mediatype", JStr "image");
        ("mimetype", JStr "image/jpeg"); ("caption", JStr caption);
        ("media", JStr media_url)].

(** The [for i, media_url in enumerate(media_urls)] loop. *)
Fixpoint send_media_loop (clean_number text : string) (total_fotos i : nat)
    (media_urls : list string) : M unit :=
  match media_urls with
  | [] => pass
  | media_url :: rest =>
      let url := "/message/sendMedia/" +:+ EVO_INSTANCE (settings env) in
      let caption_part := if (i =? total_fotos - 1)%nat then text else "" in
      let payload := media_payload clean_number caption_part media_url in
      (if (0 <? i)%nat then sleep 500 else pass) ;;;
      response <- _evo_post url payload ;;
      (if status_code response >=? 400 then pass
       else track_message_id response) ;;;
      send_media_loop clean_number text total_fotos (S i) rest
  end.

Definition send_text_once (clean_number text : string) : M unit :=
  let url := "/message/sendText/" +:+ EVO_INSTANCE (settings env) in
  let payload := JObj [("number", JStr clean_number); ("text", JStr text)] in
  response <- _evo_post url payload ;;
  if status_code response >=? 400 then pass
  else
    let jid := clean_number +:+ "@s.whatsapp.net" in
    track_message_id response ;;;
    modify_bot (remember_text jid text) ;;;
    t <- time_time ;;
    modify_bot (remember_time jid t).

Definition send_evolution_message (number_or_jid text : string)
    (media_urls : list string) : M unit :=
  let text := Py.strip text in
  if negb (Py.nonempty text) && bool_decide (media_urls = []) then pass
  else
    let clean_number := _clean_phone_or_jid number_or_jid in
    if negb (Py.nonempty clean_number) then pass
    else
      b <- get_bot ;;
      if negb (http_client b) then pass
      else
        try_except
          (match media_urls with
           | _ :: _ => send_media_loop clean_number text (length media_urls) 0 media_urls
           | [] => send_text_once clean_number text
           end)
          (fun _ => pass).

Definition send_evolution_document (number_or_jid text pdf_url filename : string)
    : M unit :=
  let clean_number := _clean_phone_or_jid number_or_jid in
  if negb (Py.nonempty clean_number) then pass
  else
    b <- get_bot ;;
    if negb (http_client b) then pass
    else
      try_except
        ((if Py.nonempty text then
            let url_text := "/message/sendText/" +:+ EVO_INSTANCE (settings env) in
            let payload_text := JObj [("number", JStr clean_number); ("text", JStr text)] in
            response <- _evo_post url_text payload_text ;;
            (if status_code response >=? 400 then pass
             else track_message_id response) ;;;
            sleep 1200
          else pass) ;;;
         let url_media := "/message/sendMedia/" +:+ EVO_INSTANCE (settings env) in
         let payload_pdf :=
           JObj [("number", JStr clean_number); ("mediatype", JStr "document");
                 ("mimetype", JStr "application/pdf"); ("media", JStr pdf_url);
                 ("fileName", JStr filename); ("caption", JStr "")] in
         response <- _evo_post url_media payload_pdf ;;
         if status_code response >=? 400 then pass
         else track_message_id response)
        (fun _ => pass).

(** *** Alerts to the owner *)

Definition keywords : list string :=
  ["precio"; "cuanto"; "cuánto"; "interesa"; "verlo"; "ubicacion"; "ubicación";
   "dónde"; "donde"; "trato"; "comprar"; "informes"; "info"].

Definition notify_owner (user_number_or_jid user_message bot_reply : string)
    (is_lead : bool) : M unit :=
  match OWNER_PHONE (settings env) with
  | None => pass
  | Some owner =>
      if negb (Py.nonempty owner) then pass
      else
        let clean_client := _clean_phone_or_jid user_number_or_jid in
        if is_lead then
          let alert_text :=
            "*NUEVO LEAD EN MONDAY*" +:+ nl +:+ nl +:+
            "Cliente: wa.me/" +:+ clean_client +:+ nl +:+
            "El bot cerró una cita. Revisa el tablero." in
          send_evolution_message owner alert_text []
        else
          let msg_lower := Py.lower user_message in
          if negb (existsb (fun word => Py.contains word msg_lower) keywords) then pass
          else
            let alert_text :=
              "*Interés Detectado*" +:+ nl +:+
              "Cliente: wa.me/" +:+ clean_client +:+ nl +:+
              "Dijo: " +:+ String (ascii_of_nat 34) user_message +:+
              String (ascii_of_nat 34) nl +:+
              "Bot: " +:+ String (ascii_of_nat 34) (Py.prefix_of_len 60 bot_reply) +:+
              "..." +:+ String (ascii_of_nat 34) EmptyString in
            send_evolution_message owner alert_text []
  end.

End Gateway.

Section Intake.
Context (env : Env).

(** *** _extract_user_message *)

(** Returns [(text, is_audio)]; the text is whatever the payload holds under
    the key, so it is a Python value and not always a [str]. *)
Definition _extract_user_message (msg_obj : json) : res (json * bool) :=
  match msg_obj with
  | JObj fields =>
      if Json.has_key "conversation" fields then
        v <- Json.get msg_obj "conversation" JNull ;
        Ok (Json.or_else v (JStr ""), false)
      else if Json.has_key "extendedTextMessage" fields then
        e <- Json.get msg_obj "extendedTextMessage" JNull ;
        let ext := Json.or_else e (JObj []) in
        t <- Json.get ext "text" JNull ;
        Ok (Json.or_else t (JStr ""), false)
      else if Json.has_key "imageMessage" fields then
        i <- Json.get msg_obj "imageMessage" JNull ;
        let img := Json.or_else i (JObj []) in
        c <- Json.get img "caption" JNull ;
        Ok (Json.or_else c (JStr "(Envió una foto)"), false)
      else if Json.has_key "audioMessage" fields || Json.has_key "pttMessage" fields then
        Ok (JStr "", true)
      else Ok (JStr "", false)
  | _ => Ok (JStr "", false)
  end.

(** *** _process_accumulated_messages *)

Definition log_turn (tid : nat) (remote_jid combined_message : string)
    (suppressed : bool) : M unit :=
  fun s => (Ok tt,
            set_turns (turns s ++ [{| turn_task := tid; turn_jid := remote_jid;
                                     turn_text := combined_message;
                                     turn_suppressed := suppressed |}]) s).

(** [" | ".join(messages)], or the message itself when there is one. *)
Definition combine (messages : list string) : string :=
  match messages with
  | [m] => m
  | _ => Py.join " | " messages
  end.

(** The silence check: [true] when the function returns because the
    conversation is silenced.  An expired entry is deleted. *)
Definition check_silenced (remote_jid : string) : M bool :=
  b <- get_bot ;;
  match silenced_users b !! remote_jid with
  | Some silence_value =>
      if isinstance_int_float silence_value then
        t <- time_time ;;
        if t <? as_number silence_value then ret true
        else
          modify_bot (fun b => set_silenced_users (delete remote_jid (silenced_users b)) b) ;;;
          ret false
      else if is_True silence_value then ret true
      else ret false
  | None => ret false
  end.

(** From the entry of [_process_accumulated_messages] to its first
    suspension: the buffer is taken, the silence check made, a command
    applied.  [None]: the function has returned.  The task id [tid] only
    labels the history entry. *)
Definition _process_accumulated_messages_begin (tid : nat) (remote_jid : string)
    : M (option continuation) :=
  b <- get_bot ;;
  let messages := default [] (pending_messages b !! remote_jid) in
  modify_bot (fun b => set_pending_messages (delete remote_jid (pending_messages b)) b) ;;;
  modify_bot (fun b => set_pending_message_tasks (delete remote_jid (pending_message_tasks b)) b) ;;;
  match messages with
  | [] => ret None
  | _ =>
      let combined_message := combine messages in
      silenced <- check_silenced remote_jid ;;
      log_turn tid remote_jid combined_message silenced ;;;
      if silenced then ret None
      else if String.eqb (Py.lower combined_message) "/silencio" then
        modify_bot (fun b => set_silenced_users (<[remote_jid := SilenceTrue]> (silenced_users b)) b) ;;;
        ret (Some KMuteReply)
      else if String.eqb (Py.lower combined_message) "/activar" then
        modify_bot (fun b => set_silenced_users (delete remote_jid (silenced_users b)) b) ;;;
        ret (Some KUnmuteReply)
      else ret (Some (KPipeline combined_message))
  end.

Definition funnel_stages : list string := ["Enganche"; "Intención"; "Cita agendada"].

Definition json_is_str (v : json) (s : string) : bool :=
  match v with JStr s' => String.eqb s s' | _ => false end.

(** The reply pipeline: session, reply generation, storage, dispatch,
    funnel and owner notification. *)
Definition reply_pipeline (remote_jid combined_message : string) : M unit :=
  emit EInventory ;;;
  b <- get_bot ;;
  if negb (store b) then pass
  else
    n <- interactions ;;
    emit (EStoreGet remote_jid) ;;;
    found <- lift (store_get env n remote_jid) ;;
    let session := default {| session_state := "start"; session_context := JObj [] |} found in
    let state := session_state session in
    let context := Json.or_else (session_context session) (JObj []) in
    n <- interactions ;;
    sleep (typing_delay env n) ;;;
    result <- try_except
                (n <- interactions ;;
                 emit (EHandleMessage combined_message state context) ;;;
                 lift (handle_message env n combined_message state context))
                (fun _ => ret {| result_reply := "Dame un momento...";
                                 result_new_state := state;
                                 result_context := context;
                                 result_media_urls := [];
                                 result_lead_info := false;
                                 result_pdf_info := None;
                                 result_funnel_stage := "MENSAJE" |}) ;;
    let reply_text := Py.strip (result_reply result) in
    let media_urls := result_media_urls result in
    try_except
      (n <- interactions ;;
       emit (EStoreUpsert remote_jid (result_new_state result) (result_context result)) ;;;
       lift (store_upsert env n remote_jid (result_new_state result) (result_context result)))
      (fun _ => pass) ;;;
    match result_pdf_info result with
    | Some pdf_info =>
        match pdf_url pdf_info with
        | Some u =>
            if Py.nonempty u then
              send_evolution_document env remote_jid reply_text u
                (default "documento.pdf" (filename pdf_info))
            else send_evolution_message env remote_jid reply_text media_urls
        | None => send_evolution_message env remote_jid reply_text media_urls
        end
    | None => send_evolution_message env remote_jid reply_text media_urls
    end ;;;
    let funnel_stage := result_funnel_stage result in
    previous_stage <- lift (Json.get context "funnel_stage" (JStr "")) ;;
    let should_update_monday :=
      bool_decide (funnel_stage ∈ funnel_stages)
      && negb (json_is_str previous_stage funnel_stage) in
    (if should_update_monday then
       try_except
         (let funnel_key := remote_jid +:+ "|" +:+ funnel_stage in
          b <- get_bot ;;
          if negb (bos_contains funnel_key (processed_lead_ids b)) then
            ids <- lift (bos_add funnel_key (processed_lead_ids b)) ;;
            modify_bot (set_processed_lead_ids ids) ;;;
            n <- interactions ;;
            emit (EMonday (Py.before_at remote_jid) funnel_stage) ;;;
            lift (create_or_update_lead env n (Py.before_at remote_jid) funnel_stage)
          else pass)
         (fun _ => pass)
     else pass) ;;;
    if result_lead_info result then
      try_except
        (let lead_key := remote_jid +:+ "|lead" in
         b <- get_bot ;;
         if negb (bos_contains lead_key (processed_lead_ids b)) then
           ids <- lift (bos_add lead_key (processed_lead_ids b)) ;;
           modify_bot (set_processed_lead_ids ids) ;;;
           notify_owner env remote_jid combined_message reply_text true
         else pass)
        (fun _ => pass)
    else notify_owner env remote_jid combined_message reply_text false.

(** The remainder of [_process_accumulated_messages] after its first
    suspension. *)
Definition _process_accumulated_messages_resume (remote_jid : string)
    (k : continuation) : M unit :=
  match k with
  | KMuteReply =>
      send_evolution_message env remote_jid
        "Bot desactivado. Un asesor humano te atenderá en breve." [] ;;;
      match OWNER_PHONE (settings env) with
      | Some owner =>
          if Py.nonempty owner then
            let clean_client := Py.before_at remote_jid in
            let alerta := "*HANDOFF ACTIVADO*" +:+ nl +:+ nl +:+
                          "El chat con wa.me/" +:+ clean_client +:+ " ha sido pausado." in
            send_evolution_message env owner alerta []
          else pass
      | None => pass
      end
  | KUnmuteReply =>
      send_evolution_message env remote_jid
        "Bot activado de nuevo. ¿En qué te ayudo?" []
  | KPipeline combined_message => reply_pipeline remote_jid combined_message
  end.

(** [_process_accumulated_messages] run without interruption. *)
Definition _process_accumulated_messages (tid : nat) (remote_jid : string) : M unit :=
  k <- _process_accumulated_messages_begin tid remote_jid ;;
  match k with
  | Some k => _process_accumulated_messages_resume remote_jid k
  | None => pass
  end.

(** *** process_single_event *)

(** [old_task.cancel()] unless [old_task.done()] *)
Definition cancel_pending (tid : nat) : M unit :=
  fun s => (Ok tt,
            set_tasks (alter (fun t => if task_done t then t else task_cancel t) tid (tasks s)) s).

(** [asyncio.create_task(_schedule_accumulated_processing(bot_state, remote_jid))]:
    the new task sleeps [MESSAGE_ACCUMULATION_SECONDS]; its id is returned. *)
Definition create_task (remote_jid : string) : M nat :=
  fun s =>
    let t := {| task_jid := remote_jid;
                task_due := now s + MESSAGE_ACCUMULATION_SECONDS (settings env);
                task_status_of := Sleeping |} in
    (Ok (length (tasks s)), set_tasks (tasks s ++ [t]) s).

(** The last block of [process_single_event]: buffer the message, cancel the
    running timer, start a new one. *)
Definition accumulate (remote_jid user_message : string) : M unit :=
  modify_bot (fun b =>
    let pending := default [] (pending_messages b !! remote_jid) in
    set_pending_messages (<[remote_jid := (pending ++ [user_message])%list]> (pending_messages b)) b) ;;;
  b <- get_bot ;;
  match pending_message_tasks b !! remote_jid with
  | Some old_task => cancel_pending old_task
  | None => pass
  end ;;;
  task <- create_task remote_jid ;;
  modify_bot (fun b => set_pending_message_tasks (<[remote_jid := task]> (pending_message_tasks b)) b).

Definition audio_problem : string :=
  "Tuve un problema escuchando el audio. ¿Me lo puedes escribir o mandar de nuevo?".

Definition is_group_or_broadcast (remote_jid : string) : bool :=
  Py.endswith "@g.us" remote_jid || Py.contains "broadcast" remote_jid.

(** The first lines of [process_single_event]: conversation identity,
    direction and message id, read from [data["key"]]. *)
Definition event_header (data : json) : res (string * json * string) :=
  k <- Json.get data "key" (JObj []) ;
  let key := Json.or_else k (JObj []) in
  r <- Json.get key "remoteJid" (JStr "") ;
  remote_jid <- Json.strip (Json.or_else r (JStr "")) ;
  from_me <- Json.get key "fromMe" (JBool false) ;
  i <- Json.get key "id" (JStr "") ;
  msg_id <- Json.strip (Json.or_else i (JStr "")) ;
  Ok (remote_jid, from_me, msg_id).

(** [process_single_event] from the branch on the direction to its end:
    takeover detection for a message of the business line, extraction and
    accumulation for a message of the counterpart. *)
Definition dispatch_event (remote_jid : string) (from_me : json) (msg_id : string)
    (data : json) : M unit :=
  m <- lift (Json.get data "message" (JObj [])) ;;
  let msg_obj := Json.or_else m (JObj []) in
  if Json.truthy from_me then
    extracted <- lift (_extract_user_message msg_obj) ;;
    msg_text <- lift (Json.strip (fst extracted)) ;;
    bot_origin <- _is_bot_message env remote_jid msg_id msg_text ;;
    if bot_origin then pass
    else if _is_automated_greeting msg_text then pass
    else
      t <- time_time ;;
      modify_bot (fun b =>
        set_silenced_users
          (<[remote_jid := SilenceUntil (t + seconds (AUTO_REACTIVATE_MINUTES (settings env) * 60))]>
             (silenced_users b)) b)
  else
    extracted <- lift (_extract_user_message msg_obj) ;;
    let is_audio := snd extracted in
    user_message <- lift (Json.strip (fst extracted)) ;;
    if negb (Py.nonempty user_message) && is_audio then
      n <- interactions ;;
      emit (ETranscribe msg_id remote_jid) ;;;
      let user_message := audio_transcription env n msg_id remote_jid in
      if negb (Py.nonempty user_message) then
        send_evolution_message env remote_jid audio_problem []
      else accumulate remote_jid user_message
    else if negb (Py.nonempty user_message) then pass
    else accumulate remote_jid user_message.

Definition process_single_event (data : json) : M unit :=
  header <- lift (event_header data) ;;
  let '(remote_jid, from_me, msg_id) := header in
  if negb (Py.nonempty remote_jid) then pass
  else if is_group_or_broadcast remote_jid then pass
  else
    b <- get_bot ;;
    if Py.nonempty msg_id && bos_contains msg_id (processed_message_ids b) then pass
    else
      (if Py.nonempty msg_id then
         ids <- lift (bos_add msg_id (processed_message_ids b)) ;;
         modify_bot (set_processed_message_ids ids)
       else pass) ;;;
      dispatch_event remote_jid from_me msg_id data.

(** *** Webhook *)

(** One iteration of the loop of [_background_process_events]. *)
Definition background_process_event (event : json) : M unit :=
  try_except (process_single_event event) (fun _ => pass).

Fixpoint _background_process_events (events : list json) : M unit :=
  match events with
  | [] => pass
  | event :: rest =>
      background_process_event event ;;; _background_process_events rest
  end.

Definition ack (status : string) (reason : option string) : json :=
  match reason with
  | Some r => JObj [("status", JStr status); ("reason", JStr r)]
  | None => JObj [("status", JStr status)]
  end.

(** [evolution_webhook]: [body] is the outcome of [await request.json()].
    Returns the acknowledgment and, when the events are accepted, the list
    handed to the task created for [_background_process_events]. *)
Definition evolution_webhook (body : res json) : res (json * option (list json)) :=
  match body with
  | Raise _ => Ok (ack "ignored" (Some "invalid_json"), None)
  | Ok body =>
      match Json.get body "data" JNull with
      | Raise _ => Ok (ack "error_but_acked" None, None)
      | Ok data_payload =>
          if negb (Json.truthy data_payload) then Ok (ack "ignored" (Some "no_data"), None)
          else
            let events := match data_payload with
                          | JArr items => items
                          | _ => [data_payload]
                          end in
            Ok (ack "accepted" None, Some events)
      end
  end.

(** The status line the framework sends: 200 for a returned dictionary, 500
    when the handler raises. *)
Definition http_status {A : Type} (r : res A) : Z :=
  match r with
  | Ok _ => 200
  | Raise _ => 500
  end.

End Intake.

(** ** The event loop *)

Section EventLoop.
Context (env : Env).

(** What can happen next.
    - [Tick dt]: the clock advances by [dt];
    - [Deliver event]: the background task of the webhook processes one event;
    - [Wake tid]: the sleep of task [tid] is over and the task runs up to the
      first suspension of [_process_accumulated_messages];
    - [Resume tid]: task [tid] runs the rest of its turn. *)
Inductive action : Type :=
  | Tick (dt : Z)
  | Deliver (event : json)
  | Wake (tid : nat)
  | Resume (tid : nat).

Definition set_status (tid : nat) (st : task_status) (s : Sys) : Sys :=
  set_tasks (alter (task_set_status st) tid (tasks s)) s.

(** [_schedule_accumulated_processing] once [asyncio.sleep] returns: a
    sleeping task whose delay has elapsed enters
    [_process_accumulated_messages].  [None]: the step is not enabled. *)
Definition wake (tid : nat) (s : Sys) : option Sys :=
  match tasks s !! tid with
  | Some t =>
      match task_status_of t with
      | Sleeping =>
          if task_due t <=? now s then
            match _process_accumulated_messages_begin tid (task_jid t) s with
            | (Ok (Some k), s') => Some (set_status tid (Running k) s')
            | (Ok None, s') => Some (set_status tid Finished s')
            | (Raise _, s') => Some (set_status tid Finished s')
            end
          else None
      | _ => None
      end
  | None => None
  end.

(** The rest of the turn, under the [except Exception] of
    [_schedule_accumulated_processing]. *)
Definition resume (tid : nat) (s : Sys) : option Sys :=
  match tasks s !! tid with
  | Some t =>
      match task_status_of t with
      | Running k =>
          let s' := snd (try_except (_process_accumulated_messages_resume env (task_jid t) k)
                                    (fun _ => pass) s) in
          Some (set_status tid Finished s')
      | _ => None
      end
  | None => None
  end.

Definition step (a : action) (s : Sys) : option Sys :=
  match a with
  | Tick dt => if 0 <=? dt then Some (set_now (now s + dt) s) else None
  | Deliver event => Some (snd (background_process_event env event s))
  | Wake tid => wake tid s
  | Resume tid => resume tid s
  end.

(** Runs a schedule; [None] when one of its steps is not enabled. *)
Fixpoint exec (sched : list action) (s : Sys) : option Sys :=
  match sched with
  | [] => Some s
  | a :: rest =>
      match step a s with
      | Some s' => exec rest s'
      | None => None
      end
  end.

End EventLoop.

(** ** Sample payloads and collaborators *)

(** An inbound text message as the provider delivers it. *)
Definition text_event (remote_jid msg_id text : string) : json :=
  JObj [("key", JObj [("remoteJid", JStr remote_jid); ("fromMe", JBool false);
                      ("id", JStr msg_id)]);
        ("message", JObj [("conversation", JStr text)])].

(** A message sent from the business line, as the provider reports it. *)
Definition outbound_event (remote_jid msg_id text : string) : json :=
  JObj [("key", JObj [("remoteJid", JStr remote_jid); ("fromMe", JBool true);
                      ("id", JStr msg_id)]);
        ("message", JObj [("conversation", JStr text)])].

Definition response_ok (msg_id : string) : Response :=
  {| status_code := 201; retry_after := None; key_id := Ok (Some msg_id) |}.

Definition response_status (code : Z) (retry : option string) : Response :=
  {| status_code := code; retry_after := retry; key_id := Raise ValueError |}.

(** Collaborators that always succeed: the provider answers 201 with the id
    "BOT" followed by the call number, the store is empty, the reply is
    "ok". *)
Definition sample_env (cfg : Settings) : Env := {|
  settings := cfg;
  client_post := fun n _ _ => Ok (response_ok ("BOT" +:+ pretty n));
  audio_transcription := fun _ _ _ => "";
  store_get := fun _ _ => Ok None;
  store_upsert := fun _ _ _ _ => Ok tt;
  handle_message := fun _ _ state context =>
    Ok {| result_reply := "ok"; result_new_state := state;
          result_context := context; result_media_urls := [];
          result_lead_info := false; result_pdf_info := None;
          result_funnel_stage := "MENSAJE" |};
  typing_delay := fun _ => 5000;
  create_or_update_lead := fun _ _ _ => Ok tt
|}.

(** ** Observations on a run *)

Definition is_post (e : effect) : bool :=
  match e with EPost _ _ => true | _ => false end.

(** Number of provider calls in a piece of trace. *)
Definition posts_of (tr : list effect) : nat := length (filter (fun e => is_post e = true) tr).


Definition is_429 (o : res Response) : bool :=
  match o with
  | Ok r => status_code r =? 429
  | Raise _ => false
  end.

(** The interactions of a call that made the attempts answered by [outs]:
    one POST per attempt, and after each attempt but the last the wait
    computed from its answer. *)
Fixpoint retry_trace (url : string) (payload : json) (outs : list (res Response))
    (_attempt : Z) : list effect :=
  match outs with
  | [] => []
  | [_] => [EPost url payload]
  | o :: rest =>
      let wait := match o with
                  | Ok r => match backoff_of r _attempt with
                            | Ok backoff => seconds backoff
                            | Raise _ => 0
                            end
                  | Raise _ => 0
                  end in
      EPost url payload :: ESleep wait :: retry_trace url payload rest (_attempt + 1)
  end.





(** A provider that answers the first call with [first] and every later call
    with 201 and the id "BOT" followed by the call number. *)
Definition env_first_answer (first : res Response) : Env := {|
  settings := default_settings;
  client_post := fun n _ _ =>
    match n with
    | O => first
    | _ => Ok (response_ok ("BOT" +:+ pretty n))
    end;
  audio_transcription := fun _ _ _ => "";
  store_get := fun _ _ => Ok None;
  store_upsert := fun _ _ _ _ => Ok tt;
  handle_message := fun _ _ state context =>
    Ok {| result_reply := "ok"; result_new_state := state;
          result_context := context; result_media_urls := [];
          result_lead_info := false; result_pdf_info := None;
          result_funnel_stage := "MENSAJE" |};
  typing_delay := fun _ => 5000;
  create_or_update_lead := fun _ _ _ => Ok tt
|}.

(** A computation preserves a relation between the state it starts from and
    the state it leaves, whatever its outcome. *)
Definition preserves {A : Type} (R : Sys -> Sys -> Prop) (m : M A) : Prop :=
  forall s, R s (snd (m s)).

(** What dispatch leaves alone: the clock, the tasks, the turn history, and
    every field of the global state but the echo records and the lead cache. *)
Definition same_core (s s' : Sys) : Prop :=
  now s' = now s /\ tasks s' = tasks s /\ turns s' = turns s
  /\ http_client (bot s') = http_client (bot s)
  /\ store (bot s') = store (bot s)
  /\ processed_message_ids (bot s') = processed_message_ids (bot s)
  /\ silenced_users (bot s') = silenced_users (bot s)
  /\ pending_messages (bot s') = pending_messages (bot s)
  /\ pending_message_tasks (bot s') = pending_message_tasks (bot s).

(** The echo records kept per conversation are the same in [s'] as in [s]:
    the recent texts and the time of the last send. *)
Definition same_echo_texts (s s' : Sys) : Prop :=
  bot_sent_texts (bot s') = bot_sent_texts (bot s)
  /\ last_bot_message_time (bot s') = last_bot_message_time (bot s).

(** The text the counterpart branch of [process_single_event] extracts from
    an event, when it is a non-empty text (audio is not covered). *)
Definition inbound_text (data : json) : option string :=
  match Json.get data "message" (JObj []) with
  | Ok m =>
      match _extract_user_message (Json.or_else m (JObj [])) with
      | Ok (v, _) =>
          match Json.strip v with
          | Ok t => if Py.nonempty t then Some t else None
          | Raise _ => None
          end
      | Raise _ => None
      end
  | Raise _ => None
  end.

(** The dedup cache is left as it was. *)
Definition same_dedup (s s' : Sys) : Prop :=
  processed_message_ids (bot s') = processed_message_ids (bot s).


(** What [process_single_event] leaves alone until it reaches [accumulate]:
    the clock, the tasks, the turn history, the pending buffers and timers,
    and the capacity of the dedup cache. *)
Definition acc_core (s s' : Sys) : Prop :=
  now s' = now s /\ tasks s' = tasks s /\ turns s' = turns s
  /\ pending_messages (bot s') = pending_messages (bot s)
  /\ pending_message_tasks (bot s') = pending_message_tasks (bot s)
  /\ _maxlen (processed_message_ids (bot s')) = _maxlen (processed_message_ids (bot s)).

(** A task that entered [_process_accumulated_messages]. *)
Definition fired (st : task_status) : Prop :=
  match st with
  | Running _ | Finished => True
  | Sleeping | Cancelled | Aborted => False
  end.

(** The invariant of the event loop.
    - a conversation's entry in [pending_message_tasks] is a sleeping task of
      that conversation, and every sleeping task is its conversation's entry:
      at most one live timer per conversation;
    - no task was cancelled in the middle of a turn;
    - every turn was taken by a task that fired, and a task takes at most one;
    - a conversation has buffered messages exactly when it has a timer, and
      then the buffer is not empty;
    - the dedup cache has a positive capacity. *)
Record wf (s : Sys) : Prop := {
  wf_timer : forall jid tid,
    pending_message_tasks (bot s) !! jid = Some tid ->
    exists t, tasks s !! tid = Some t /\ task_jid t = jid /\ task_status_of t = Sleeping;
  wf_sleeping : forall tid t,
    tasks s !! tid = Some t -> task_status_of t = Sleeping ->
    pending_message_tasks (bot s) !! task_jid t = Some tid;
  wf_not_aborted : forall tid t,
    tasks s !! tid = Some t -> task_status_of t <> Aborted;
  wf_turns : forall u,
    u ∈ turns s ->
    exists t, tasks s !! turn_task u = Some t /\ task_jid t = turn_jid u
              /\ fired (task_status_of t);
  wf_turn_once : NoDup (turn_task <$> turns s);
  wf_buffer : forall jid,
    match pending_message_tasks (bot s) !! jid with
    | Some _ => exists msgs, pending_messages (bot s) !! jid = Some msgs /\ msgs <> []
    | None => pending_messages (bot s) !! jid = None
    end;
  wf_dedup : 0 < _maxlen (processed_message_ids (bot s))
}.

(** The turns of one conversation, oldest first. *)
Definition turns_of (c : string) (s : Sys) : list Turn :=
  filter (fun u => turn_jid u = c) (turns s).

(** The conversation an event belongs to, when its header can be read. *)
Definition event_jid (data : json) : option string :=
  match event_header data with
  | Ok (remote_jid, _, _) => Some remote_jid
  | Raise _ => None
  end.

(** The non-empty message id of an event. *)
Definition event_id (data : json) : option string :=
  match event_header data with
  | Ok (_, _, msg_id) => if Py.nonempty msg_id then Some msg_id else None
  | Raise _ => None
  end.

(** An event of conversation [c] that is an inbound text message: the
    identity is usable, the direction is "received", and a non-empty text is
    extracted.  Returns that text. *)
Definition burst_event (c : string) (data : json) : option string :=
  match event_header data with
  | Ok (remote_jid, from_me, _) =>
      if bool_decide (remote_jid = c) && Py.nonempty c
         && negb (is_group_or_broadcast c) && negb (Json.truthy from_me)
      then inbound_text data
      else None
  | Raise _ => None
  end.

(** The message ids carried by the events of a schedule. *)
Fixpoint sched_ids (sched : list action) : list string :=
  match sched with
  | [] => []
  | Deliver data :: rest =>
      match event_id data with
      | Some i => i :: sched_ids rest
      | None => sched_ids rest
      end
  | _ :: rest => sched_ids rest
  end.

(** [burst c D gap sched]: the schedule, read for conversation [c].  Clock
    ticks, timers, and events of other conversations may come in any order;
    every event of [c] is an inbound text, and each but the first comes less
    than [D] after the one before it ([gap] is the time since the last
    one, [None] before the first).  Returns the texts in arrival order;
    [None] when the schedule is not of that shape. *)
Fixpoint burst (c : string) (D : Z) (gap : option Z) (sched : list action)
    : option (list string) :=
  match sched with
  | [] => Some []
  | Tick dt :: rest => burst c D (option_map (Z.add dt) gap) rest
  | Deliver data :: rest =>
      if bool_decide (event_jid data = Some c) then
        match burst_event c data with
        | Some text =>
            if match gap with Some g => g <? D | None => true end
            then option_map (cons text) (burst c D (Some 0) rest)
            else None
        | None => None
        end
      else burst c D gap rest
  | Wake _ :: rest => burst c D gap rest
  | Resume _ :: rest => burst c D gap rest
  end.

(** The message ids of a schedule are new: pairwise distinct and absent from
    the dedup cache. *)
Definition fresh_ids (sched : list action) (s : Sys) : Prop :=
  NoDup (sched_ids sched)
  /\ forall i, i ∈ sched_ids sched -> i ∉ _data (processed_message_ids (bot s)).

(** Number of timers started so far for conversation [c]. *)
Definition timers_started (c : string) (s : Sys) : nat :=
  length (filter (fun j => j = c) (task_jid <$> tasks s)).

(** Conversation [c] is collecting: its buffer holds [acc] and its timer is
    task [tid], due at [due]. *)
Definition collecting (c : string) (acc : list string) (tid : nat) (due : Z) (s : Sys)
    : Prop :=
  pending_messages (bot s) !! c = Some acc
  /\ pending_message_tasks (bot s) !! c = Some tid
  /\ exists t, tasks s !! tid = Some t /\ task_due t = due.

(** Conversation [c] has no timer. *)
Definition idle (c : string) (s : Sys) : Prop :=
  pending_message_tasks (bot s) !! c = None.

(** Among the timers of [c] started from task number [n0] on, every one
    but [live] is cancelled. *)
Definition others_cancelled (c : string) (n0 : nat) (live : option nat) (s : Sys) : Prop :=
  forall tid t, (n0 <= tid)%nat -> tasks s !! tid = Some t -> task_jid t = c ->
                live = Some tid \/ task_status_of t = Cancelled.

(** ** Sample runs *)

Definition sample_jid : string := "5215512345678@s.whatsapp.net".

(** The system at a wall-clock time of the present era, in milliseconds. *)
Definition Sys_at (t : Z) : Sys := set_now t Sys_init.

Definition sample_epoch : Z := seconds 1700000000.

(** "hola", then "cuanto cuesta" one second later; nothing more for four
    seconds, and the second timer fires. *)
Definition hola_burst : list action :=
  [Deliver (text_event sample_jid "m1" "hola"); Tick 1000;
   Deliver (text_event sample_jid "m2" "cuanto cuesta"); Tick 4000;
   Wake 1; Tick 6000; Resume 1].

(** The user sends "/silencio"; a minute later the same user writes
    "hola". *)
Definition silencio_then_hola : list action :=
  [Deliver (text_event sample_jid "m1" "/silencio"); Tick 4000; Wake 0; Resume 0;
   Tick 60000;
   Deliver (text_event sample_jid "m2" "hola"); Tick 4000; Wake 1; Tick 6000; Resume 1].

(** The prefix of [silencio_then_hola] that ends when the mute notice has
    been sent. *)
Definition silencio_only : list action :=
  [Deliver (text_event sample_jid "m1" "/silencio"); Tick 4000; Wake 0; Resume 0].

(** An agent writes from the business line, which silences the conversation
    for an hour; ten seconds later the user sends "/activar". *)
Definition takeover_then_activar : list action :=
  [Deliver (outbound_event sample_jid "h1" "Te marco en un momento"); Tick 10000;
   Deliver (text_event sample_jid "m1" "/activar"); Tick 4000; Wake 0].

(** A human takeover, then a user message 58 s into a 60 s silence. *)
Definition minute_settings : Settings := {|
  EVO_INSTANCE := EVO_INSTANCE default_settings;
  OWNER_PHONE := OWNER_PHONE default_settings;
  AUTO_REACTIVATE_MINUTES := 1;
  HUMAN_DETECTION_WINDOW_SECONDS := HUMAN_DETECTION_WINDOW_SECONDS default_settings;
  MESSAGE_ACCUMULATION_SECONDS := MESSAGE_ACCUMULATION_SECONDS default_settings
|}.

Definition takeover_then_late_message : list action :=
  [Deliver (outbound_event sample_jid "h1" "Te marco en un momento"); Tick 58000;
   Deliver (text_event sample_jid "m1" "hola"); Tick 4000; Wake 0; Tick 5000; Resume 0].

(** An inbound text whose key carries no "id" field. *)
Definition idless_text_event (remote_jid text : string) : json :=
  JObj [("key", JObj [("remoteJid", JStr remote_jid); ("fromMe", JBool false)]);
        ("message", JObj [("conversation", JStr text)])].

Definition sample_env0 : Env := sample_env default_settings.

(** The state a sample schedule ends in ([s] itself when a step of the
    schedule is not enabled). *)
Definition final (env : Env) (sched : list action) (s : Sys) : Sys :=
  default s (exec env sched s).

Definition mute_notice : string :=
  "Bot desactivado. Un asesor humano te atenderá en breve.".

Definition send_text_effect (number text : string) : effect :=
  EPost "/message/sendText/Tractosymax2"
        (JObj [("number", JStr number); ("text", JStr text)]).

Definition posts (tr : list effect) : list effect :=
  filter (fun e => is_post e = true) tr.

(** ** Reasoning about runs *)

(** [wp m Q s]: the run of [m] from [s] ends in a result and a state that
    satisfy [Q]. *)
Definition wp {A : Type} (m : M A) (Q : res A -> Sys -> Prop) (s : Sys) : Prop :=
  Q (fst (m s)) (snd (m s)).

(** What a run appended to the trace. *)
Definition extends_by (extra : list effect) (s s' : Sys) : Prop :=
  trace s' = trace s ++ extra.

(** ** Reading an event *)

(** The text and the audio flag that [process_single_event] extracts from
    an event: the text is stripped and may be empty.  [None] when the
    extraction raises (the message is not a dictionary, the text is not a
    string). *)
Definition event_message (data : json) : option (string * bool) :=
  match Json.get data "message" (JObj []) with
  | Ok m =>
      match _extract_user_message (Json.or_else m (JObj [])) with
      | Ok (v, is_audio) =>
          match Json.strip v with
          | Ok t => Some (t, is_audio)
          | Raise _ => None
          end
      | Raise _ => None
      end
  | Raise _ => None
  end.

(** The conversations [process_single_event] works for: a non-empty
    identity that is neither a group's nor a broadcast list's. *)
Definition routable (remote_jid : string) : bool :=
  Py.nonempty remote_jid && negb (is_group_or_broadcast remote_jid).

(** The state once the id of an event is in the dedup cache. *)
Definition with_dedup (msg_id : string) (s : Sys) : Sys :=
  if Py.nonempty msg_id then
    match bos_add msg_id (processed_message_ids (bot s)) with
    | Ok ids => set_bot (set_processed_message_ids ids (bot s)) s
    | Raise _ => s
    end
  else s.

(** ** What a run adds to the trace *)

(** The run from [s] to [s'] appended effects that all satisfy [P]. *)
Definition appends (P : effect -> Prop) (s s' : Sys) : Prop :=
  exists extra, trace s' = trace s ++ extra /\ Forall P extra.

(** The "number" field of the payload of a provider call. *)
Definition recipient (e : effect) : option string :=
  match e with
  | EPost _ (JObj fields) =>
      match Json.assoc "number" fields with
      | Some (JStr n) => Some n
      | _ => None
      end
  | _ => None
  end.

(** A provider call is addressed to one of [allowed]; other effects pass. *)
Definition addressed_to (allowed : list string) (e : effect) : Prop :=
  match e with
  | EPost _ _ => exists n, recipient e = Some n /\ n ∈ allowed
  | _ => True
  end.

(** The number of the owner, as [send_evolution_message] cleans it. *)
Definition owner_numbers (cfg : Settings) : list string :=
  match OWNER_PHONE cfg with
  | Some owner => [_clean_phone_or_jid owner]
  | None => []
  end.

(** The conversations of the events of a schedule. *)
Fixpoint sched_jids (sched : list action) : list string :=
  match sched with
  | [] => []
  | Deliver data :: rest =>
      match event_jid data with
      | Some jid => jid :: sched_jids rest
      | None => sched_jids rest
      end
  | _ :: rest => sched_jids rest
  end.

(** ** Histories *)

(** The last [n] elements of a list. *)
Definition last_n {A : Type} (n : nat) (l : list A) : list A :=
  drop (length l - n) l.

(** ** Characters of a string *)

(** [c in s] for a character [c]. *)
Fixpoint has_char (c : ascii) (s : string) : bool :=
  match s with
  | EmptyString => false
  | String c' rest => Ascii.eqb c c' || has_char c rest
  end.

(** ** The reply pipeline, observed *)

(** The result [_process_accumulated_messages] uses when [handle_message]
    raises. *)
Definition fallback_result (state : string) (context : json) : Result :=
  {| result_reply := "Dame un momento...";
     result_new_state := state;
     result_context := context;
     result_media_urls := [];
     result_lead_info := false;
     result_pdf_info := None;
     result_funnel_stage := "MENSAJE" |}.

(** The payload of a text send. *)
Definition text_payload (clean_number text : string) : json :=
  JObj [("number", JStr clean_number); ("text", JStr text)].

Definition send_text_url (cfg : Settings) : string :=
  "/message/sendText/" +:+ EVO_INSTANCE cfg.

(** The Monday calls of a piece of trace. *)
Definition mondays (tr : list effect) : list (string * string) :=
  omap (fun e => match e with EMonday tel stage => Some (tel, stage) | _ => None end) tr.

(** ** Reading the characters of a string *)

(** A lead byte that begins no character of the string [r] that follows
    it. *)
Definition stray_before (b0 : ascii) (r : string) : Prop :=
  match r with
  | String b1 r1 =>
      Py.decode2 b0 b1 = None
      /\ match r1 with
         | String b2 r2 =>
             Py.decode3 b0 b1 b2 = None
             /\ match r2 with
                | String b3 _ => Py.decode4 b0 b1 b2 b3 = None
                | EmptyString => True
                end
         | EmptyString => True
         end
  | EmptyString => True
  end.

(** The five ways a string begins. *)
Inductive begins : string -> Py.char -> string -> Prop :=
  | begins_ascii b0 r :
      Py.ord b0 < 0x80 -> begins (String b0 r) (Py.ord b0, String b0 "") r
  | begins_two b0 b1 c r :
      0x80 <= Py.ord b0 -> Py.decode2 b0 b1 = Some c ->
      begins (String b0 (String b1 r)) (c, String b0 (String b1 "")) r
  | begins_three b0 b1 b2 c r :
      0x80 <= Py.ord b0 -> Py.decode2 b0 b1 = None -> Py.decode3 b0 b1 b2 = Some c ->
      begins (String b0 (String b1 (String b2 r)))
             (c, String b0 (String b1 (String b2 ""))) r
  | begins_four b0 b1 b2 b3 c r :
      0x80 <= Py.ord b0 -> Py.decode2 b0 b1 = None -> Py.decode3 b0 b1 b2 = None ->
      Py.decode4 b0 b1 b2 b3 = Some c ->
      begins (String b0 (String b1 (String b2 (String b3 r))))
             (c, String b0 (String b1 (String b2 (String b3 "")))) r
  | begins_stray b0 r :
      0x80 <= Py.ord b0 -> stray_before b0 r ->
      begins (String b0 r) (Py.stray b0, String b0 "") r.


(** The list does not begin with a white-space character. *)
Definition no_lead_chars (l : list Py.char) : Prop :=
  match l with
  | x :: _ => Py.isspace (fst x) = false
  | [] => True
  end.

(** The string does not begin with a whitespace character. *)
Definition no_lead (s : string) : Prop :=
  match Py.chars s with
  | x :: _ => Py.isspace (fst x) = false
  | [] => True
  end.

(** ** Fields of the global state that a run leaves alone *)

(** The component [f] of the global state is the same in [s'] as in [s]. *)
Definition same_field {T : Type} (f : GlobalState -> T) (s s' : Sys) : Prop :=
  f (bot s') = f (bot s).

(** An effect that is no Monday call. *)
Definition not_monday (e : effect) : Prop :=
  match e with EMonday _ _ => False | _ => True end.

(** What one run of the reply pipeline reports to Monday: nothing, or one
    stage of the funnel whose key was not in the lead cache and is in it
    afterwards. *)
Definition reports_once (remote_jid : string) (s s' : Sys) : Prop :=
  exists extra,
    trace s' = trace s ++ extra
    /\ (mondays extra = []
        \/ exists stage,
             mondays extra = [(Py.before_at remote_jid, stage)]
             /\ stage ∈ funnel_stages
             /\ bos_contains (remote_jid +:+ "|" +:+ stage) (processed_lead_ids (bot s)) = false
             /\ (1 < _maxlen (processed_lead_ids (bot s)) ->
                 bos_contains (remote_jid +:+ "|" +:+ stage)
                   (processed_lead_ids (bot s')) = true)).

(** A run that makes no Monday call and leaves the lead cache alone. *)
Definition quiet (s s' : Sys) : Prop :=
  same_field processed_lead_ids s s' /\ appends not_monday s s'.

(** The last block of the pipeline: the lead key and the owner's alert. *)
Definition lead_block (env : Env) (remote_jid combined_message reply_text : string)
    (lead_info : bool) : M unit :=
  if lead_info then
    try_except
      (let lead_key := remote_jid +:+ "|lead" in
       b <- get_bot ;;
       if negb (bos_contains lead_key (processed_lead_ids b)) then
         ids <- lift (bos_add lead_key (processed_lead_ids b)) ;;
         modify_bot (set_processed_lead_ids ids) ;;;
         notify_owner env remote_jid combined_message reply_text true
       else pass)
      (fun _ => pass)
  else notify_owner env remote_jid combined_message reply_text false.


(** ** Memory bounds *)

(** A cache within its capacity. *)
Definition within {K : Type} `{EqDecision K} (ids : @BoundedOrderedSet K) : Prop :=
  0 < _maxlen ids /\ bos_len ids <= _maxlen ids.

(** The bounded parts of the global state are within their bounds. *)
Definition bounded_state (b : GlobalState) : Prop :=
  within (processed_message_ids b)
  /\ within (processed_lead_ids b)
  /\ within (bot_sent_message_ids b)
  /\ forall jid d, bot_sent_texts b !! jid = Some d -> (length d <= 10)%nat.

(** The capacities of the three caches. *)
Definition capacities (b : GlobalState) : Z * Z * Z :=
  (_maxlen (processed_message_ids b), _maxlen (processed_lead_ids b),
   _maxlen (bot_sent_message_ids b)).

(** A step that keeps the capacities, and the bounds when they hold. *)
Definition keeps_bounds (s s' : Sys) : Prop :=
  capacities (bot s') = capacities (bot s)
  /\ (bounded_state (bot s) -> bounded_state (bot s')).

(** ** monday_service.py: MondayService._graphql *)

Module Monday.

Inductive exn : Type :=
  | RuntimeError      (* "MONDAY_API_KEY no configurada" *)
  | RequestError      (* httpx.RequestError; httpx.TimeoutException is one *)
  | JSONDecodeError   (* [resp.json()] on a body that is not JSON *)
  | TypeError         (* ["errors" in data] when [data] is no container *)
  | OtherError.       (* any other exception of [client.post] *)

Inductive outcome (A : Type) : Type :=
  | Return (a : A)
  | Raised (e : exn).
Arguments Return {A} a.
Arguments Raised {A} e.

(** What [_graphql] reads of the response. *)
Record Response : Type := {
  status_code : Z;
  json_body : outcome json          (* [resp.json()] *)
}.

(** What [_graphql] does besides computing: the calls and the waits. *)
Inductive effect : Type :=
  | Post (payload : json)
  | Sleep (seconds : Z).

(** ["errors" in data]: a key of a dictionary, an item of a list, a part of
    a string; [TypeError] for [None], a number or a boolean. *)
Definition errors_in (data : json) : outcome bool :=
  match data with
  | JObj fields => Return (Json.has_key "errors" fields)
  | JArr items =>
      Return (existsb (fun v => match v with
                                | JStr s => String.eqb s "errors"
                                | _ => false
                                end) items)
  | JStr s => Return (Py.contains "errors" s)
  | _ => Raised TypeError
  end.

(** The lines after the retry test: [data = resp.json()], the log of the
    errors, [return data].  The log line reads [data['errors']], which
    raises [TypeError] when [data] is a list or a string. *)
Definition read (resp : Response) : outcome json :=
  match json_body resp with
  | Return data =>
      match errors_in data with
      | Return true =>
          match data with
          | JObj _ => Return data
          | _ => Raised TypeError
          end
      | Return false => Return data
      | Raised e => Raised e
      end
  | Raised e => Raised e
  end.

Definition _MAX_RETRIES : nat := 3.

(** The [for _attempt in range(_MAX_RETRIES)] loop.  [client_post n payload]
    is the outcome of the [n]-th call.  The function falls off the loop,
    and returns [None], when the attempts are used up. *)
Fixpoint graphql_loop (client_post : nat -> json -> outcome Response) (payload : json)
    (attempts : list nat) : outcome json * list effect :=
  match attempts with
  | [] => (Return JNull, [])
  | _attempt :: rest =>
      let backoff := 2 ^ (Z.of_nat _attempt + 1) in
      match client_post _attempt payload with
      | Return resp =>
          if (500 <=? status_code resp) && (_attempt <? _MAX_RETRIES - 1)%nat then
            let '(r, effects) := graphql_loop client_post payload rest in
            (r, Post payload :: Sleep backoff :: effects)
          else (read resp, [Post payload])
      | Raised RequestError =>
          if (_attempt <? _MAX_RETRIES - 1)%nat then
            let '(r, effects) := graphql_loop client_post payload rest in
            (r, Post payload :: Sleep backoff :: effects)
          else (Raised RequestError, [Post payload])
      | Raised e => (Raised e, [Post payload])
      end
  end.

Definition _graphql (api_key : option string)
    (client_post : nat -> json -> outcome Response)
    (query : string) (variables : json) : outcome json * list effect :=
  if negb (match api_key with Some k => Py.nonempty k | None => false end)
  then (Raised RuntimeError, [])
  else
    let payload := JObj [("query", JStr query); ("variables", variables)] in
    graphql_loop client_post payload (seq 0 _MAX_RETRIES).

(** An outcome after which the loop goes on, when attempts are left. *)
Definition retried (o : outcome Response) : bool :=
  match o with
  | Return resp => 500 <=? status_code resp
  | Raised RequestError => true
  | Raised _ => false
  end.

(** What the call gives when it stops on the outcome [o]. *)
Definition settle (o : outcome Response) : outcome json :=
  match o with
  | Return resp => read resp
  | Raised e => Raised e
  end.

Definition is_post (e : effect) : bool :=
  match e with Post _ => true | Sleep _ => false end.

(** Number of calls. *)
Definition posts (effects : list effect) : nat :=
  length (filter (fun e => is_post e = true) effects).

End Monday.

(** ** inventory_service.py *)

Module Inventory.

(** [s.replace(c, "")] for a one-character [c]. *)
Fixpoint remove_char (c : ascii) (s : string) : string :=
  match s with
  | EmptyString => EmptyString
  | String c' rest =>
      if Ascii.eqb c c' then remove_char c rest else String c' (remove_char c rest)
  end.

(** [_clean_price]; [None] stands for Python's [None]. *)
Definition _clean_price (value : option string) : string :=
  match value with
  | None => ""
  | Some v =>
      let s := Py.strip v in
      let s2 := Py.strip (remove_char "," (remove_char "$" s)) in
      if Py.nonempty s2 then s2 else s
  end.

(** A value of a row of [csv.DictReader]: the text of the field, [None]
    when the line is shorter than the header, the list of the fields in
    excess when it is longer. *)
Inductive cell : Type :=
  | Text (s : string)
  | Missing
  | Excess (fields : list string).

Section Load.
(** [str(v)] for a list of strings [v]. *)
Context (str_of_list : list string -> string).

(** [_clean_cell] *)
Definition _clean_cell (v : cell) : string :=
  match v with
  | Text s => Py.strip s
  | Missing => ""
  | Excess fields => Py.strip (str_of_list fields)
  end.

(** The items of a row, in the order of the header; the key of the fields
    in excess is [None]. *)
Definition RawRow : Type := list (option string * cell).

Definition clean_key (k : option string) : string :=
  match k with
  | Some s => Py.strip s
  | None => ""
  end.

(** [{_clean_cell(k): _clean_cell(v) for k, v in row.items()}] *)
Definition clean_row (row : RawRow) : gmap string string :=
  foldl (fun m kv => <[clean_key (fst kv) := _clean_cell (snd kv)]> m) ∅ row.

(** [row.get(k, d)] *)
Definition get (row : gmap string string) (k d : string) : string :=
  default d (row !! k).

Definition available : list string :=
  ["disponible"; "available"; "1"; "si"; "sí"; "yes"].

(** The test that keeps a row: no status, or one of [available]. *)
Definition keep (row : gmap string string) : bool :=
  let status := Py.lower (Py.strip (get row "status" "")) in
  negb (Py.nonempty status && negb (bool_decide (status ∈ available))).

Definition Item : Type := list (string * string).

Definition normalize (row : gmap string string) : Item :=
  [("Marca", get row "Marca" "Foton");
   ("Modelo", get row "Modelo" "");
   ("Año", get row "Año" (get row "Anio" ""));
   ("Color", get row "Color" "");
   ("segmento", get row "segmento" "");
   ("Precio",
    _clean_price
      (Some (get row "Precio"
               (get row "Precio Distribuidor" (get row " Precio Distribuidor" "")))));
   ("moneda", get row "moneda" "");
   ("iva_incluido", get row "iva_incluido" "");
   ("garantia_texto", get row "garantia_texto" "");
   ("ubicacion", get row "ubicacion" "");
   ("descripcion_corta", get row "descripcion_corta" "");
   ("Financiamiento", get row "Financiamiento" "");
   ("Tipo de financiamiento", get row "Tipo de financiamiento" "");
   ("Banco", get row "Banco" "");
   ("photos", get row "photos" "");
   ("CAPACIDAD DE CARGA", get row "CAPACIDAD DE CARGA" "");
   ("LLANTAS", get row "LLANTAS" "");
   ("COMBUSTIBLE", get row "COMBUSTIBLE" "");
   ("MOTOR", get row "MOTOR" "")].

(** [item[k]] *)
Fixpoint field (k : string) (item : Item) : option string :=
  match item with
  | [] => None
  | (k', v) :: rest => if String.eqb k k' then Some v else field k rest
  end.

(** The loop over the rows. *)
Fixpoint normalized (rows : list RawRow) : list Item :=
  match rows with
  | [] => []
  | raw :: rest =>
      let row := clean_row raw in
      if keep row then normalize row :: normalized rest else normalized rest
  end.

(** [InventoryService] *)
Record Service : Type := {
  local_path : string;
  sheet_csv_url : option string;
  refresh_seconds : Z;
  items : list Item;
  _last_load_ts : Z
}.

Definition set_items (its : list Item) (self : Service) : Service :=
  {| local_path := local_path self; sheet_csv_url := sheet_csv_url self;
     refresh_seconds := refresh_seconds self; items := its;
     _last_load_ts := _last_load_ts self |}.

Definition set_loaded (its : list Item) (ts : Z) (self : Service) : Service :=
  {| local_path := local_path self; sheet_csv_url := sheet_csv_url self;
     refresh_seconds := refresh_seconds self; items := its;
     _last_load_ts := ts |}.

(** Where the rows come from: [fetch url] is the download of the sheet
    ([client.get], [raise_for_status], the CSV reader); [read_local path] is
    the local file, [None] when it does not exist. *)
Record World : Type := {
  fetch : string -> res (list RawRow);
  read_local : string -> option (res (list RawRow))
}.

(** [load]; the clock is in milliseconds. *)
Definition load (w : World) (now : Z) (force : bool) (self : Service)
    : res unit * Service :=
  if negb force && match items self with [] => false | _ => true end
     && (now - _last_load_ts self <? seconds (refresh_seconds self))
  then (Ok tt, self)
  else
    let use_sheet := match sheet_csv_url self with
                     | Some u => Py.nonempty u
                     | None => false
                     end in
    if use_sheet then
      let url := Py.strip (default "" (sheet_csv_url self)) in
      match fetch w url with
      | Ok rows => (Ok tt, set_loaded (normalized rows) now self)
      | Raise e => (Raise e, self)
      end
    else
      match read_local w (local_path self) with
      | None => (Ok tt, set_items [] self)
      | Some (Ok rows) => (Ok tt, set_loaded (normalized rows) now self)
      | Some (Raise e) => (Raise e, self)
      end.

(** [ensure_loaded] *)
Definition ensure_loaded (w : World) (now : Z) (self : Service) : res unit * Service :=
  load w now false self.

(** main.py, [_ensure_inventory_loaded]: the refresh under
    [except Exception]; [inv] is [bot_state.inventory]. *)
Definition _ensure_inventory_loaded (w : World) (now : Z) (inv : option Service)
    : option Service :=
  match inv with
  | None => None
  | Some self => Some (snd (ensure_loaded w now self))
  end.

End Load.

End Inventory.

(** ** memory_store.py *)

Module Memory.

(** A row of the table [sessions]; [phone] is the primary key and is the
    key of the map below. *)
Record Row : Type := {
  row_state : string;
  row_context_json : string;
  row_updated_at : string
}.

(** [MemoryStore]: whether [_conn] is a connection or [None], and the
    content of the table. *)
Record MemoryStore : Type := {
  _conn : bool;
  sessions : gmap string Row
}.

(** What [get] returns: the columns selected, and the parsed context. *)
Record SessionData : Type := {
  phone : string;
  state : string;
  context_json : string;
  context : json
}.

Section Store.
(** [json.loads] and [json.dumps(_, ensure_ascii=False)] *)
Context (loads : string -> res json) (dumps : json -> res string).

(** [get]: setting [row_factory] on [None] raises [AttributeError]. *)
Definition get (phone : string) (self : MemoryStore) : res (option SessionData) :=
  if negb (_conn self) then Raise AttributeError
  else
    match sessions self !! phone with
    | None => Ok None
    | Some row =>
        let cj := row_context_json row in
        let parsed := match loads (if Py.nonempty cj then cj else "{}") with
                      | Ok c => c
                      | Raise _ => JObj []
                      end in
        Ok (Some {| phone := phone; state := row_state row;
                    context_json := cj; context := parsed |})
    end.

(** [upsert]; [now] is [datetime.utcnow().isoformat()]. *)
Definition upsert (now : string) (phone state : string) (context : json)
    (self : MemoryStore) : res unit * MemoryStore :=
  match dumps context with
  | Raise e => (Raise e, self)
  | Ok ctx_json =>
      if negb (_conn self) then (Raise AttributeError, self)
      else
        (Ok tt,
         {| _conn := _conn self;
            sessions := <[phone := {| row_state := state;
                                      row_context_json := ctx_json;
                                      row_updated_at := now |}]> (sessions self) |})
  end.

(** [close] *)
Definition close (self : MemoryStore) : MemoryStore :=
  {| _conn := false; sessions := sessions self |}.

End Store.

End Memory.

(** ** More sample inputs *)

(** A provider that cannot be reached: every call ends in a connection
    error. *)
Definition unreachable_env : Env := {|
  settings := default_settings;
  client_post := fun _ _ _ => Raise RequestError;
  audio_transcription := audio_transcription sample_env0;
  store_get := store_get sample_env0;
  store_upsert := store_upsert sample_env0;
  handle_message := handle_message sample_env0;
  typing_delay := typing_delay sample_env0;
  create_or_update_lead := create_or_update_lead sample_env0
|}.

(** Reply generation and the session write both fail; the provider
    answers. *)
Definition failing_env : Env := {|
  settings := default_settings;
  client_post := client_post sample_env0;
  audio_transcription := audio_transcription sample_env0;
  store_get := store_get sample_env0;
  store_upsert := fun _ _ _ _ => Raise CollaboratorError;
  handle_message := fun _ _ _ _ => Raise CollaboratorError;
  typing_delay := typing_delay sample_env0;
  create_or_update_lead := create_or_update_lead sample_env0
|}.

(** A message of a group. *)
Definition group_event : json := text_event "120363041234567890@g.us" "g1" "hola a todos".

(** The state after an agent wrote from the business line and, ten seconds
    later, the user answered "hola". *)
Definition silenced_with_hola : Sys :=
  snd (background_process_event sample_env0 (text_event sample_jid "m1" "hola")
         (final sample_env0
            [Deliver (outbound_event sample_jid "h1" "Te marco en un momento"); Tick 10000]
            (Sys_at sample_epoch))).

(** The state after the user sent "/SILENCIO". *)
Definition silencio_pending : Sys :=
  snd (process_single_event sample_env0 (text_event sample_jid "m1" "/SILENCIO") Sys_init).

(** Monday answers 503, then the connection fails, then 200 with a body. *)
Definition flaky_monday (n : nat) (_ : json) : Monday.outcome Monday.Response :=
  match n with
  | O => Monday.Return {| Monday.status_code := 503;
                          Monday.json_body := Monday.Raised Monday.JSONDecodeError |}
  | S O => Monday.Raised Monday.RequestError
  | _ => Monday.Return {| Monday.status_code := 200;
                          Monday.json_body := Monday.Return (JObj [("data", JObj [])]) |}
  end.

(** A serialiser of contexts that only knows the empty dictionary. *)
Definition sample_dumps (j : json) : res string :=
  match j with
  | JObj [] => Ok "{}"
  | _ => Raise TypeError
  end.

Definition sample_loads (text : string) : res json :=
  if String.eqb text "{}" then Ok (JObj []) else Raise ValueError.

Definition open_store : Memory.MemoryStore :=
  {| Memory._conn := true; Memory.sessions := ∅ |}.
(** * Python strings *)

Section Strings.

Lemma string_app_cons c (s1 s2 : string) : String c s1 +:+ s2 = String c (s1 +:+ s2).
Proof. reflexivity. Qed.

Lemma string_app_nil_l (s : string) : "" +:+ s = s.
Proof. reflexivity. Qed.

Lemma string_app_assoc (s1 s2 s3 : string) : (s1 +:+ s2) +:+ s3 = s1 +:+ (s2 +:+ s3).
Proof.
  induction s1 as [|c s1 IH]; [reflexivity|].
  rewrite !string_app_cons. now rewrite IH.
Qed.

Lemma string_app_nil_r (s : string) : s +:+ "" = s.
Proof.
  induction s as [|c s IH]; [reflexivity|].
  rewrite string_app_cons. now rewrite IH.
Qed.

Lemma string_app_length (s1 s2 : string) :
  String.length (s1 +:+ s2) = (String.length s1 + String.length s2)%nat.
Proof.
  induction s1 as [|c s1 IH]; [reflexivity|].
  rewrite string_app_cons. simpl. now rewrite IH.
Qed.

Lemma rev_app_spec (s1 s2 : string) : String.rev_app s1 s2 = String.rev s1 +:+ s2.
Proof.
  unfold String.rev. revert s2. induction s1 as [|c s1 IH]; intros s2; [reflexivity|].
  cbn [String.rev_app].
  rewrite (IH (String c s2)), (IH (String c "")), string_app_assoc. reflexivity.
Qed.

Lemma string_rev_cons c (s : string) : String.rev (String c s) = String.rev s +:+ String c "".
Proof. unfold String.rev at 1. cbn [String.rev_app]. apply rev_app_spec. Qed.

Lemma string_rev_app (s1 s2 : string) :
  String.rev (s1 +:+ s2) = String.rev s2 +:+ String.rev s1.
Proof.
  induction s1 as [|c s1 IH].
  - rewrite string_app_nil_l. change (String.rev "") with "". now rewrite string_app_nil_r.
  - rewrite string_app_cons, !string_rev_cons, IH, string_app_assoc. reflexivity.
Qed.

Lemma string_rev_involutive (s : string) : String.rev (String.rev s) = s.
Proof.
  induction s as [|c s IH]; [reflexivity|].
  rewrite string_rev_cons, string_rev_app, IH. reflexivity.
Qed.

Lemma has_char_app c s1 s2 : has_char c (s1 +:+ s2) = has_char c s1 || has_char c s2.
Proof.
  induction s1 as [|c' s1 IH]; [reflexivity|].
  rewrite string_app_cons. cbn [has_char]. rewrite IH. now rewrite orb_assoc.
Qed.

Lemma has_char_rev c s : has_char c (String.rev s) = has_char c s.
Proof.
  induction s as [|c' s IH]; [reflexivity|].
  rewrite string_rev_cons, has_char_app, IH. cbn [has_char].
  rewrite orb_false_r. apply orb_comm.
Qed.

(** ** The characters of a string *)

Lemma next_begins s x r : Py.next s = Some (x, r) <-> begins s x r.
Proof.
  split.
  - unfold Py.next. destruct s as [|b0 r0]; [discriminate|].
    destruct (Z.ltb_spec (Py.ord b0) 0x80) as [Hlt|Hge].
    { intros [= <- <-]. now constructor. }
    destruct r0 as [|b1 r1].
    { intros [= <- <-]. now constructor. }
    destruct (Py.decode2 b0 b1) as [c|] eqn:H2.
    { intros [= <- <-]. now constructor. }
    destruct r1 as [|b2 r2].
    { intros [= <- <-]. constructor; simpl; auto. }
    destruct (Py.decode3 b0 b1 b2) as [c|] eqn:H3.
    { intros [= <- <-]. now constructor. }
    destruct r2 as [|b3 r3].
    { intros [= <- <-]. constructor; simpl; auto. }
    destruct (Py.decode4 b0 b1 b2 b3) as [c|] eqn:H4.
    { intros [= <- <-]. now constructor. }
    intros [= <- <-]. constructor; simpl; auto.
  - intros H. destruct H as [b0 r Hlt|b0 b1 c r Hge H2|b0 b1 b2 c r Hge H2 H3
                             |b0 b1 b2 b3 c r Hge H2 H3 H4|b0 r Hge Hs]; unfold Py.next.
    + destruct (Z.ltb_spec (Py.ord b0) 0x80); [reflexivity|lia].
    + destruct (Z.ltb_spec (Py.ord b0) 0x80); [lia|]. now rewrite H2.
    + destruct (Z.ltb_spec (Py.ord b0) 0x80); [lia|]. now rewrite H2, H3.
    + destruct (Z.ltb_spec (Py.ord b0) 0x80); [lia|]. now rewrite H2, H3, H4.
    + destruct (Z.ltb_spec (Py.ord b0) 0x80); [lia|].
      destruct r as [|b1 r1]; [reflexivity|]. destruct Hs as [-> Hs].
      destruct r1 as [|b2 r2]; [reflexivity|]. destruct Hs as [-> Hs].
      destruct r2 as [|b3 r3]; [reflexivity|]. now rewrite Hs.
Qed.

Lemma begins_split s x r : begins s x r -> s = snd x +:+ r /\ snd x <> "".
Proof. intros []; split; first [reflexivity|discriminate]. Qed.

Lemma next_split s x r : Py.next s = Some (x, r) -> s = snd x +:+ r /\ snd x <> "".
Proof. intros H. now apply begins_split, next_begins. Qed.

Lemma next_shorter s x r :
  Py.next s = Some (x, r) -> (String.length r < String.length s)%nat.
Proof.
  intros H. destruct (next_split _ _ _ H) as [-> Hne].
  rewrite string_app_length. destruct (snd x); [contradiction|simpl; lia].
Qed.

Lemma next_none s : Py.next s = None -> s = "".
Proof.
  unfold Py.next. destruct s as [|b0 r0]; [reflexivity|].
  repeat match goal with
         | |- context [match ?t with _ => _ end] => destruct t
         end; discriminate.
Qed.

Lemma chars_upto_enough n : forall m s,
  (String.length s <= n)%nat -> (String.length s <= m)%nat ->
  Py.chars_upto n s = Py.chars_upto m s.
Proof.
  induction n as [|n IH]; intros m s Hn Hm.
  - destruct s; [|simpl in Hn; lia]. destruct m; reflexivity.
  - destruct m as [|m].
    + destruct s; [reflexivity|simpl in Hm; lia].
    + simpl. destruct (Py.next s) as [[x r]|] eqn:Hnext; [|reflexivity].
      apply next_shorter in Hnext. f_equal. apply IH; lia.
Qed.

(** The equation of [chars]. *)
Lemma chars_eq s :
  Py.chars s = match Py.next s with
               | Some (x, r) => x :: Py.chars r
               | None => []
               end.
Proof.
  unfold Py.chars. destruct s as [|b0 r0]; [reflexivity|].
  change (String.length (String b0 r0)) with (S (String.length r0)).
  cbn [Py.chars_upto]. destruct (Py.next (String b0 r0)) as [[x r]|] eqn:Hnext; [|reflexivity].
  apply next_shorter in Hnext. simpl in Hnext. f_equal.
  apply chars_upto_enough; lia.
Qed.

Lemma chars_nil : Py.chars "" = [].
Proof. reflexivity. Qed.

Lemma chars_begins s x r : begins s x r -> Py.chars s = x :: Py.chars r.
Proof. intros H. apply next_begins in H. now rewrite chars_eq, H. Qed.

Lemma chars_cons_inv s x l :
  Py.chars s = x :: l -> exists r, begins s x r /\ Py.chars r = l.
Proof.
  rewrite chars_eq. destruct (Py.next s) as [[y r]|] eqn:Hnext; [|discriminate].
  intros [= -> <-]. exists r. split; [now apply next_begins|reflexivity].
Qed.

Lemma chars_nil_inv s : Py.chars s = [] -> s = "".
Proof.
  rewrite chars_eq. destruct (Py.next s) as [[y r]|] eqn:Hnext; [discriminate|].
  intros _. now apply next_none.
Qed.

(** Induction on a string, character by character. *)
Lemma chars_ind (P : string -> Prop) :
  P "" -> (forall s x r, begins s x r -> P r -> P s) -> forall s, P s.
Proof.
  intros H0 Hstep s.
  remember (String.length s) as n eqn:Hn.
  revert s Hn. induction n as [n IH] using lt_wf_ind. intros s ->.
  destruct (Py.next s) as [[x r]|] eqn:Hnext.
  - apply (Hstep s x r); [now apply next_begins|].
    apply (IH (String.length r)); [now apply next_shorter in Hnext|reflexivity].
  - apply next_none in Hnext. now subst.
Qed.

Lemma unchars_app l1 l2 : Py.unchars (l1 ++ l2) = Py.unchars l1 +:+ Py.unchars l2.
Proof.
  induction l1 as [|x l1 IH]; [reflexivity|].
  simpl. rewrite IH. now rewrite string_app_assoc.
Qed.

(** ["".join(list(s)) == s] *)
Lemma unchars_chars s : Py.unchars (Py.chars s) = s.
Proof.
  induction s as [|s x r Hb IH] using chars_ind; [reflexivity|].
  rewrite (chars_begins _ _ _ Hb). simpl. rewrite IH.
  symmetry. apply (begins_split _ _ _ Hb).
Qed.



Lemma stray_before_prefix b0 (t u : string) :
  stray_before b0 (t +:+ u) -> stray_before b0 t.
Proof.
  destruct t as [|b1 [|b2 [|b3 t]]]; simpl; tauto.
Qed.

(** A string cut at the end of one of its characters begins as before. *)
Lemma begins_prefix x (t u : string) :
  begins (snd x +:+ (t +:+ u)) x (t +:+ u) -> begins (snd x +:+ t) x t.
Proof.
  intros H.
  remember (snd x +:+ (t +:+ u)) as s eqn:Hs.
  remember (t +:+ u) as r eqn:Hr.
  destruct H; simpl in *; try (now constructor).
  subst r. constructor; [assumption|]. now apply stray_before_prefix with u.
Qed.

(** The characters of a string from one of its characters on. *)
Lemma chars_suffix p : forall s t,
  Py.chars s = p ++ t -> Py.chars (Py.unchars t) = t.
Proof.
  induction p as [|x p IH]; intros s t H.
  - simpl in H. rewrite <- H. now rewrite unchars_chars.
  - simpl in H. apply chars_cons_inv in H as (r & _ & Hr). now apply (IH r).
Qed.

(** The characters of a string up to one of its characters. *)
Lemma chars_prefix m : forall s q,
  Py.chars s = m ++ q -> Py.chars (Py.unchars m) = m.
Proof.
  induction m as [|x m IH]; intros s q H; [reflexivity|].
  simpl in H. apply chars_cons_inv in H as (r & Hb & Hr).
  pose proof (IH r q Hr) as Hm.
  simpl. erewrite chars_begins; [now rewrite Hm|].
  apply begins_prefix with (u := Py.unchars q).
  rewrite <- unchars_app, <- Hr, unchars_chars.
  destruct (begins_split _ _ _ Hb) as [<- _]. exact Hb.
Qed.

Lemma chars_infix s p m q :
  Py.chars s = p ++ m ++ q -> Py.chars (Py.unchars m) = m.
Proof.
  intros H. apply chars_suffix in H. now apply chars_prefix in H.
Qed.


Lemma chars_elem s x : x ∈ Py.chars s -> exists s' r, begins s' x r.
Proof.
  induction s as [|s y r Hb IH] using chars_ind.
  - intros H. inversion H.
  - rewrite (chars_begins _ _ _ Hb). intros H.
    apply elem_of_cons in H as [->|H]; eauto.
Qed.


End Strings.

(** ** [strip] *)

Section Strip.

Lemma lstrip_chars_suffix l : exists p, l = p ++ Py.lstrip_chars l.
Proof.
  induction l as [|x l [p IH]]; [now exists []|].
  simpl. destruct (Py.isspace (fst x)).
  - exists (x :: p). simpl. now rewrite <- IH.
  - now exists [].
Qed.

Lemma rstrip_chars_prefix l : exists q, l = Py.rstrip_chars l ++ q.
Proof.
  unfold Py.rstrip_chars. destruct (lstrip_chars_suffix (rev l)) as [p Hp].
  exists (rev p). rewrite <- rev_app_distr, <- Hp. now rewrite rev_involutive.
Qed.

Lemma lstrip_chars_no_lead l : no_lead_chars (Py.lstrip_chars l).
Proof.
  induction l as [|x l IH]; simpl; [exact I|].
  destruct (Py.isspace (fst x)) eqn:Hx; [exact IH|]. simpl. exact Hx.
Qed.

Lemma lstrip_chars_fixed l : no_lead_chars l -> Py.lstrip_chars l = l.
Proof. destruct l as [|x l]; simpl; [reflexivity|]. now intros ->. Qed.

Lemma no_lead_chars_prefix l q : no_lead_chars (l ++ q) -> no_lead_chars l.
Proof. destruct l; simpl; auto. Qed.

Lemma rstrip_chars_no_lead l : no_lead_chars l -> no_lead_chars (Py.rstrip_chars l).
Proof.
  intros H. destruct (rstrip_chars_prefix l) as [q Hq]. rewrite Hq in H.
  now apply no_lead_chars_prefix in H.
Qed.

Lemma rstrip_chars_fixed l : Py.rstrip_chars (Py.rstrip_chars l) = Py.rstrip_chars l.
Proof.
  unfold Py.rstrip_chars. rewrite rev_involutive.
  now rewrite (lstrip_chars_fixed _ (lstrip_chars_no_lead _)).
Qed.

(** What [strip] keeps is a run of characters of the string. *)
Lemma strip_chars_infix s :
  exists p q,
    Py.chars s = p ++ Py.rstrip_chars (Py.lstrip_chars (Py.chars s)) ++ q.
Proof.
  destruct (lstrip_chars_suffix (Py.chars s)) as [p Hp].
  destruct (rstrip_chars_prefix (Py.lstrip_chars (Py.chars s))) as [q Hq].
  exists p, q. now rewrite <- Hq.
Qed.

Lemma chars_strip s :
  Py.chars (Py.strip s) = Py.rstrip_chars (Py.lstrip_chars (Py.chars s)).
Proof.
  unfold Py.strip. destruct (strip_chars_infix s) as (p & q & H).
  now apply chars_infix in H.
Qed.

Lemma strip_no_lead (s : string) : no_lead (Py.strip s).
Proof.
  unfold no_lead. rewrite chars_strip.
  apply (rstrip_chars_no_lead _ (lstrip_chars_no_lead _)).
Qed.

(** [s.strip().strip() == s.strip()] *)
Lemma strip_idempotent (s : string) : Py.strip (Py.strip s) = Py.strip s.
Proof.
  unfold Py.strip at 1. rewrite chars_strip.
  rewrite (lstrip_chars_fixed _ (rstrip_chars_no_lead _ (lstrip_chars_no_lead _))).
  now rewrite rstrip_chars_fixed.
Qed.

(** [strip] keeps a part of the string. *)
Lemma strip_infix s : exists a b, s = a +:+ Py.strip s +:+ b.
Proof.
  destruct (strip_chars_infix s) as (p & q & H).
  exists (Py.unchars p), (Py.unchars q).
  rewrite <- (unchars_chars s) at 1. rewrite H, !unchars_app. reflexivity.
Qed.

Lemma has_char_strip c s : has_char c (Py.strip s) = true -> has_char c s = true.
Proof.
  intros H. destruct (strip_infix s) as (a & b & Hs). rewrite Hs.
  rewrite !has_char_app, H. now rewrite orb_true_r.
Qed.

Lemma no_char_strip c s : has_char c s = false -> has_char c (Py.strip s) = false.
Proof.
  intros Hs. destruct (has_char c (Py.strip s)) eqn:H; [|reflexivity].
  apply has_char_strip in H. congruence.
Qed.

Lemma strip_empty : Py.strip "" = "".
Proof. reflexivity. Qed.

End Strip.

(** ** [lower] *)

Section Lower.

Lemma ord_space b : Ascii.eqb " " b = true -> Py.ord b = 32.
Proof. intros H. apply Ascii.eqb_eq in H. now subst. Qed.

Lemma cont_no_space b : Py.is_cont b = true -> Ascii.eqb " " b = false.
Proof.
  intros H. destruct (Ascii.eqb " " b) eqn:Hb; [|reflexivity].
  apply Ascii.eqb_eq in Hb. subst. discriminate.
Qed.

Lemma decode2_cont b0 b1 c : Py.decode2 b0 b1 = Some c -> Py.is_cont b1 = true.
Proof.
  unfold Py.decode2. destruct (_ && Py.is_cont b1) eqn:H; [|discriminate].
  intros _. now apply andb_true_iff in H as [_ H].
Qed.

Lemma decode3_cont b0 b1 b2 c :
  Py.decode3 b0 b1 b2 = Some c -> Py.is_cont b1 = true /\ Py.is_cont b2 = true.
Proof.
  unfold Py.decode3. cbv zeta.
  match goal with |- (if ?t then _ else _) = _ -> _ => destruct t eqn:H end; [|discriminate].
  intros _. repeat (apply andb_true_iff in H as [H ?]). auto.
Qed.

Lemma decode4_cont b0 b1 b2 b3 c :
  Py.decode4 b0 b1 b2 b3 = Some c ->
  Py.is_cont b1 = true /\ Py.is_cont b2 = true /\ Py.is_cont b3 = true.
Proof.
  unfold Py.decode4. cbv zeta.
  match goal with |- (if ?t then _ else _) = _ -> _ => destruct t eqn:H end; [|discriminate].
  intros _. repeat (apply andb_true_iff in H as [H ?]). auto.
Qed.

(** The only character that holds the byte of a blank is the blank. *)
Lemma begins_space s x r :
  begins s x r -> has_char " " (snd x) = true -> x = (32, " ").
Proof.
  intros H. destruct H as [b0 r Hlt|b0 b1 c r Hge H2|b0 b1 b2 c r Hge H2 H3
                           |b0 b1 b2 b3 c r Hge H2 H3 H4|b0 r Hge Hs]; cbn [snd has_char].
  - rewrite orb_false_r. intros Hb. apply Ascii.eqb_eq in Hb. now subst.
  - apply decode2_cont in H2. rewrite (cont_no_space _ H2), !orb_false_r.
    intros Hb. apply ord_space in Hb. lia.
  - apply decode3_cont in H3 as [? ?].
    rewrite (cont_no_space b1), (cont_no_space b2), !orb_false_r by assumption.
    intros Hb. apply ord_space in Hb. lia.
  - apply decode4_cont in H4 as (? & ? & ?).
    rewrite (cont_no_space b1), (cont_no_space b2), (cont_no_space b3), !orb_false_r
      by assumption.
    intros Hb. apply ord_space in Hb. lia.
  - rewrite orb_false_r. intros Hb. apply ord_space in Hb. lia.
Qed.

Lemma lower_chars_space l : forall after,
  Forall (fun x => exists s r, begins s x r) l ->
  has_char " " (Py.unchars l) = true ->
  has_char " " (Py.lower_chars after l) = true.
Proof.
  induction l as [|x l IH]; intros after Hl; [auto|].
  inversion Hl as [|? ? (s & r & Hb) Hl']; subst.
  cbn [Py.unchars fold_right Py.lower_chars]. cbv zeta.
  rewrite !has_char_app. intros H. apply orb_true_iff in H as [H|H].
  - apply (begins_space _ _ _ Hb) in H. subst x. reflexivity.
  - rewrite (IH _ Hl' H). apply orb_true_r.
Qed.

(** [lower] keeps the blanks. *)
Lemma has_space_lower s : has_char " " s = true -> has_char " " (Py.lower s) = true.
Proof.
  intros H. unfold Py.lower. apply lower_chars_space.
  - apply Forall_forall. intros x Hx. now apply chars_elem in Hx.
  - now rewrite unchars_chars.
Qed.

End Lower.
(** ** Theorems about BoundedOrderedSet *)

Section BoundedOrderedSetFacts.
Context {K : Type} `{EqDecision K}.
Implicit Types (s : BoundedOrderedSet K) (k : K) (keys : list K).

Lemma elem_of_drop_inv (n : nat) (l : list K) k : k ∈ drop n l -> k ∈ l.
Proof.
  intros Hin. rewrite <- (take_drop n l). apply elem_of_app. now right.
Qed.

Lemma bos_contains_true k s : bos_contains k s = true <-> k ∈ _data s.
Proof. unfold bos_contains. apply bool_decide_eq_true. Qed.

Lemma bos_contains_false k s : bos_contains k s = false <-> k ∉ _data s.
Proof. unfold bos_contains. apply bool_decide_eq_false. Qed.

Lemma bos_add_member k s : bos_contains k s = true -> bos_add k s = Ok s.
Proof. intros Hin. unfold bos_add. now rewrite Hin. Qed.

Lemma bos_add_maxlen k s s' : bos_add k s = Ok s' -> _maxlen s' = _maxlen s.
Proof.
  unfold bos_add. destruct (bos_contains k s); [now intros [= <-]|].
  destruct (_maxlen s <=? bos_len s).
  - destruct (_data s); simpl; [discriminate|]. now intros [= <-].
  - now intros [= <-].
Qed.

(** With a positive capacity [add] never raises. *)
Lemma bos_add_total k s : 0 < _maxlen s -> exists s', bos_add k s = Ok s'.
Proof.
  intros Hpos. unfold bos_add. destruct (bos_contains k s); [eauto|].
  destruct (Z.leb_spec (_maxlen s) (bos_len s)) as [Hfull|_]; [|eauto].
  unfold bos_len in Hfull. destruct (_data s); simpl in *; [lia|eauto].
Qed.

(** The size bound is an invariant of [add]. *)
Lemma bos_add_len k s s' :
  0 < _maxlen s -> bos_len s <= _maxlen s -> bos_add k s = Ok s' ->
  bos_len s' <= _maxlen s'.
Proof.
  unfold bos_add, bos_len. intros Hpos Hle.
  destruct (bos_contains k s); [now intros [= <-]|].
  destruct (Z.leb_spec (_maxlen s) (Z.of_nat (length (_data s)))) as [Hfull|Hroom].
  - destruct (_data s) as [|x d]; simpl; [discriminate|].
    intros [= <-]. simpl in *. rewrite length_app. simpl. lia.
  - intros [= <-]. simpl. rewrite length_app. simpl. lia.
Qed.

(** Adding a fresh key to a cache whose content is the [C] most recent
    elements of a history extends the history by that key. *)
Lemma bos_add_fresh_recent (C : Z) (hist : list K) k :
  0 < C -> k ∉ hist ->
  bos_add k {| _data := most_recent C hist; _maxlen := C |}
  = Ok {| _data := most_recent C (hist ++ [k]); _maxlen := C |}.
Proof.
  intros Hpos Hfresh. unfold bos_add, bos_contains, bos_len, most_recent. simpl.
  rewrite bool_decide_eq_false_2.
  2:{ intros Hin. apply Hfresh. eapply elem_of_drop_inv; eauto. }
  rewrite length_drop, length_app. simpl.
  destruct (Z.leb_spec C (Z.of_nat (length hist - (length hist - Z.to_nat C)))) as [Hfull|Hroom].
  - assert (Hlen : (Z.to_nat C <= length hist)%nat) by lia.
    replace (length hist + 1 - Z.to_nat C)%nat with (S (length hist - Z.to_nat C)) by lia.
    rewrite drop_app_le by lia.
    destruct (drop (length hist - Z.to_nat C) hist) as [|x d] eqn:Hd.
    { apply (f_equal length) in Hd. rewrite length_drop in Hd. simpl in Hd. lia. }
    simpl. f_equal. f_equal. f_equal.
    replace (S (length hist - Z.to_nat C)) with (length hist - Z.to_nat C + 1)%nat by lia.
    now rewrite <- drop_drop, Hd.
  - assert (Hlen : (length hist < Z.to_nat C)%nat) by lia.
    replace (length hist - Z.to_nat C)%nat with 0%nat by lia.
    replace (length hist + 1 - Z.to_nat C)%nat with 0%nat by lia.
    reflexivity.
Qed.

Lemma bos_add_all_recent (C : Z) keys : forall hist,
  0 < C -> NoDup (hist ++ keys) ->
  bos_add_all keys {| _data := most_recent C hist; _maxlen := C |}
  = Ok {| _data := most_recent C (hist ++ keys); _maxlen := C |}.
Proof.
  induction keys as [|k keys IH]; intros hist Hpos Hnd; simpl.
  - now rewrite app_nil_r.
  - rewrite bos_add_fresh_recent; auto.
    + simpl. rewrite IH; auto.
      * now rewrite <- app_assoc.
      * now rewrite <- app_assoc.
    + apply NoDup_app in Hnd as (_ & Hdisj & _).
      intros Hin. apply (Hdisj k Hin). left.
Qed.

(** C3.  Starting from an empty cache of capacity [C >= 1] and adding
    pairwise distinct keys: the additions never raise; the cache then holds
    exactly the [C] most recently added keys, in insertion order; so if at
    most [C] keys were added every one of them is a member, and if more
    than [C] were added a key is a member iff it is among the last [C].
    Re-adding a member returns the cache unchanged (same members, same
    eviction order). *)
Theorem bounded_set_membership (C : Z) keys :
  0 < C -> NoDup keys ->
  exists s',
    bos_add_all keys (bos_new C) = Ok s'
    /\ _data s' = most_recent C keys
    /\ (Z.of_nat (length keys) <= C -> forall k, k ∈ keys -> bos_contains k s' = true)
    /\ (C < Z.of_nat (length keys) ->
        length (_data s') = Z.to_nat C
        /\ forall k, bos_contains k s' = true <-> k ∈ most_recent C keys)
    /\ (forall k, bos_contains k s' = true -> bos_add k s' = Ok s').
Proof.
  intros Hpos Hnd.
  exists {| _data := most_recent C keys; _maxlen := C |}.
  split; [|split; [reflexivity|split; [|split]]].
  - apply (bos_add_all_recent C keys [] Hpos Hnd).
  - intros Hle k Hin. apply bos_contains_true. simpl. unfold most_recent.
    replace (length keys - Z.to_nat C)%nat with 0%nat by lia. exact Hin.
  - intros Hgt. split.
    + simpl. unfold most_recent. rewrite length_drop. lia.
    + intros k. apply bos_contains_true.
  - intros k. apply bos_add_member.
Qed.

End BoundedOrderedSetFacts.

(** ** Reasoning about computations *)

Ltac munfold :=
  unfold bind, ret, raise, lift, try_except, get_bot, modify_bot, time_time,
    emit, interactions, pass, sleep in *.

Section Preserves.
Context (R : Sys -> Sys -> Prop) `{!PreOrder R}.

Lemma preserves_ret {A} (a : A) : preserves R (ret a).
Proof. intros s. simpl. reflexivity. Qed.

Lemma preserves_pass : preserves R pass.
Proof. intros s. simpl. reflexivity. Qed.

Lemma preserves_raise {A} e : preserves R (@raise A e).
Proof. intros s. simpl. reflexivity. Qed.

Lemma preserves_lift {A} (r : res A) : preserves R (lift r).
Proof. intros s. simpl. reflexivity. Qed.

Lemma preserves_get_bot : preserves R get_bot.
Proof. intros s. simpl. reflexivity. Qed.

Lemma preserves_time_time : preserves R time_time.
Proof. intros s. simpl. reflexivity. Qed.

Lemma preserves_interactions : preserves R interactions.
Proof. intros s. simpl. reflexivity. Qed.

Lemma preserves_bind {A B} (m : M A) (k : A -> M B) :
  preserves R m -> (forall a, preserves R (k a)) -> preserves R (bind m k).
Proof.
  intros Hm Hk s. unfold bind. specialize (Hm s).
  destruct (m s) as [[a|e] s1]; simpl in *; [|exact Hm].
  etransitivity; [exact Hm|apply Hk].
Qed.

Lemma preserves_try_except {A} (m : M A) (h : exn -> M A) :
  preserves R m -> (forall e, preserves R (h e)) -> preserves R (try_except m h).
Proof.
  intros Hm Hh s. unfold try_except. specialize (Hm s).
  destruct (m s) as [[a|e] s1]; simpl in *; [exact Hm|].
  etransitivity; [exact Hm|apply Hh].
Qed.

End Preserves.

#[export] Instance same_core_preorder : PreOrder same_core.
Proof.
  split.
  - intros s. unfold same_core. tauto.
  - intros s1 s2 s3 H12 H23. unfold same_core in *.
    destruct H12 as (?&?&?&?&?&?&?&?&?), H23 as (?&?&?&?&?&?&?&?&?).
    repeat split; congruence.
Qed.

(** Structural proof of a [preserves] goal: binds, handlers and branches are
    taken apart; what remains is left to the caller. *)
Ltac preserve_step :=
  lazymatch goal with
  | |- preserves _ (bind _ _) => apply preserves_bind; [exact _| |intros ?]
  | |- preserves _ (try_except _ _) => apply preserves_try_except; [exact _| |intros ?]
  | |- preserves _ (ret _) => apply preserves_ret; exact _
  | |- preserves _ pass => apply preserves_pass; exact _
  | |- preserves _ (raise _) => apply preserves_raise; exact _
  | |- preserves _ (lift _) => apply preserves_lift; exact _
  | |- preserves _ get_bot => apply preserves_get_bot; exact _
  | |- preserves _ time_time => apply preserves_time_time; exact _
  | |- preserves _ interactions => apply preserves_interactions; exact _
  | |- preserves _ (if ?c then _ else _) => destruct c
  | |- preserves _ (match ?x with _ => _ end) => destruct x
  | |- preserves _ (let _ := _ in _) => cbv zeta
  end.

Section DispatchFrame.
Context (env : Env).

Lemma same_core_emit e : preserves same_core (emit e).
Proof. intros s. unfold same_core. simpl. tauto. Qed.

Lemma same_core_sleep ms : preserves same_core (sleep ms).
Proof. apply same_core_emit. Qed.

Lemma same_core_modify f :
  (forall b, http_client (f b) = http_client b /\ store (f b) = store b
             /\ processed_message_ids (f b) = processed_message_ids b
             /\ silenced_users (f b) = silenced_users b
             /\ pending_messages (f b) = pending_messages b
             /\ pending_message_tasks (f b) = pending_message_tasks b) ->
  preserves same_core (modify_bot f).
Proof.
  intros Hf s. unfold same_core. simpl. specialize (Hf (bot s)). tauto.
Qed.

Lemma same_core_post url payload : preserves same_core (post env url payload).
Proof.
  unfold post. repeat preserve_step; apply same_core_emit.
Qed.

Lemma same_core_evo_post_loop attempts : forall last url payload,
  preserves same_core (_evo_post_loop env attempts last url payload).
Proof.
  induction attempts as [|k rest IH]; intros last url payload; simpl.
  - repeat preserve_step.
  - repeat preserve_step; try apply same_core_post; try apply same_core_sleep.
    apply IH.
Qed.

Lemma same_core_evo_post url payload : preserves same_core (_evo_post env url payload).
Proof. apply same_core_evo_post_loop. Qed.

Lemma same_core_track r : preserves same_core (track_message_id r).
Proof.
  unfold track_message_id. repeat preserve_step.
  apply same_core_modify. intros b. simpl. tauto.
Qed.

Lemma same_core_send_media_loop clean_number text total media_urls : forall i,
  preserves same_core (send_media_loop env clean_number text total i media_urls).
Proof.
  induction media_urls as [|u rest IH]; intros i; simpl.
  - preserve_step.
  - repeat preserve_step;
      try apply same_core_sleep; try apply same_core_evo_post;
      try apply same_core_track; apply IH.
Qed.

Lemma same_core_send_text_once clean_number text :
  preserves same_core (send_text_once env clean_number text).
Proof.
  unfold send_text_once.
  repeat preserve_step;
    try apply same_core_evo_post; try apply same_core_track;
    apply same_core_modify; intros b; simpl; tauto.
Qed.

Lemma same_core_send_evolution_message number_or_jid text media_urls :
  preserves same_core (send_evolution_message env number_or_jid text media_urls).
Proof.
  unfold send_evolution_message.
  repeat preserve_step;
    try apply same_core_send_text_once; apply same_core_send_media_loop.
Qed.

Lemma same_core_send_evolution_document number_or_jid text pdf_url filename :
  preserves same_core (send_evolution_document env number_or_jid text pdf_url filename).
Proof.
  unfold send_evolution_document.
  repeat preserve_step;
    try apply same_core_evo_post; try apply same_core_track; apply same_core_sleep.
Qed.

Lemma same_core_notify_owner user_number_or_jid user_message bot_reply is_lead :
  preserves same_core (notify_owner env user_number_or_jid user_message bot_reply is_lead).
Proof.
  unfold notify_owner.
  repeat preserve_step; apply same_core_send_evolution_message.
Qed.

Lemma same_core_reply_pipeline remote_jid combined_message :
  preserves same_core (reply_pipeline env remote_jid combined_message).
Proof.
  unfold reply_pipeline.
  repeat preserve_step;
    try apply same_core_emit; try apply same_core_sleep;
    try apply same_core_send_evolution_message;
    try apply same_core_send_evolution_document;
    try apply same_core_notify_owner;
    apply same_core_modify; intros b0; simpl; tauto.
Qed.

Lemma same_core_resume remote_jid k :
  preserves same_core (_process_accumulated_messages_resume env remote_jid k).
Proof.
  unfold _process_accumulated_messages_resume.
  repeat preserve_step;
    try apply same_core_send_evolution_message; apply same_core_reply_pipeline.
Qed.

End DispatchFrame.

(** ** Facts about [_evo_post] *)

Section EvoPostFacts.
Context (env : Env).

Lemma post_run url payload s :
  post env url payload s
  = (client_post env (length (trace s)) url payload,
     set_trace (trace s ++ [EPost url payload]) s).
Proof.
  unfold post, bind, interactions, emit, lift. simpl.
  reflexivity.
Qed.

Lemma evo_post_loop_last url payload s k (prev : option Response) :
  Z.of_nat _MAX_RETRIES - 1 <= k ->
  _evo_post_loop env [k] prev url payload s
  = (client_post env (length (trace s)) url payload,
     set_trace (trace s ++ [EPost url payload]) s).
Proof.
  intros Hk. simpl. unfold bind at 1. rewrite post_run.
  destruct (client_post env (length (trace s)) url payload) as [r|e]; [|reflexivity].
  replace (k <? Z.of_nat _MAX_RETRIES - 1) with false by (symmetry; apply Z.ltb_ge; lia).
  rewrite andb_false_r. reflexivity.
Qed.

Lemma evo_post_loop_step url payload s k rest (prev : option Response) :
  k < Z.of_nat _MAX_RETRIES - 1 ->
  _evo_post_loop env (k :: rest) prev url payload s
  = match client_post env (length (trace s)) url payload with
    | Ok r =>
        if status_code r =? 429 then
          match backoff_of r k with
          | Ok backoff =>
              _evo_post_loop env rest (Some r) url payload
                (set_trace (trace s ++ [EPost url payload; ESleep (seconds backoff)]) s)
          | Raise e => (Raise e, set_trace (trace s ++ [EPost url payload]) s)
          end
        else (Ok r, set_trace (trace s ++ [EPost url payload]) s)
    | Raise e => (Raise e, set_trace (trace s ++ [EPost url payload]) s)
    end.
Proof.
  intros Hk. simpl. unfold bind at 1. rewrite post_run.
  destruct (client_post env (length (trace s)) url payload) as [r|e]; [|reflexivity].
  replace (k <? Z.of_nat _MAX_RETRIES - 1) with true by (symmetry; apply Z.ltb_lt; lia).
  rewrite andb_true_r. destruct (status_code r =? 429); [|reflexivity].
  unfold bind at 1. unfold lift at 1.
  destruct (backoff_of r k) as [backoff|e]; [|reflexivity].
  unfold bind, sleep, emit. simpl. rewrite <- app_assoc. reflexivity.
Qed.

Lemma range_max_retries : range _MAX_RETRIES = [0; 1; 2].
Proof. reflexivity. Qed.

Lemma evo_post_run url payload s :
  _evo_post env url payload s
  = match client_post env (length (trace s)) url payload with
    | Ok r0 =>
        if status_code r0 =? 429 then
          match backoff_of r0 0 with
          | Ok w0 =>
              let s1 := set_trace (trace s ++ [EPost url payload; ESleep (seconds w0)]) s in
              match client_post env (length (trace s1)) url payload with
              | Ok r1 =>
                  if status_code r1 =? 429 then
                    match backoff_of r1 1 with
                    | Ok w1 =>
                        let s2 := set_trace (trace s1 ++ [EPost url payload;
                                                          ESleep (seconds w1)]) s1 in
                        (client_post env (length (trace s2)) url payload,
                         set_trace (trace s2 ++ [EPost url payload]) s2)
                    | Raise e => (Raise e, set_trace (trace s1 ++ [EPost url payload]) s1)
                    end
                  else (Ok r1, set_trace (trace s1 ++ [EPost url payload]) s1)
              | Raise e => (Raise e, set_trace (trace s1 ++ [EPost url payload]) s1)
              end
          | Raise e => (Raise e, set_trace (trace s ++ [EPost url payload]) s)
          end
        else (Ok r0, set_trace (trace s ++ [EPost url payload]) s)
    | Raise e => (Raise e, set_trace (trace s ++ [EPost url payload]) s)
    end.
Proof.
  unfold _evo_post. rewrite range_max_retries.
  rewrite evo_post_loop_step by (unfold _MAX_RETRIES; lia).
  destruct (client_post env (length (trace s)) url payload) as [r0|e0]; [|reflexivity].
  destruct (status_code r0 =? 429); [|reflexivity].
  destruct (backoff_of r0 0) as [w0|e]; [|reflexivity].
  rewrite evo_post_loop_step by (unfold _MAX_RETRIES; lia).
  cbv zeta.
  destruct (client_post env _ url payload) as [r1|e1]; [|reflexivity].
  destruct (status_code r1 =? 429); [|reflexivity].
  destruct (backoff_of r1 1) as [w1|e]; [|reflexivity].
  rewrite evo_post_loop_last by (unfold _MAX_RETRIES; lia).
  reflexivity.
Qed.

(** [_evo_post] touches nothing but the trace. *)
Lemma evo_post_frame url payload s :
  let s' := snd (_evo_post env url payload s) in
  bot s' = bot s /\ now s' = now s /\ tasks s' = tasks s /\ turns s' = turns s.
Proof.
  cbv zeta. rewrite evo_post_run.
  destruct (client_post env (length (trace s)) url payload) as [r0|e0]; [|now simpl].
  destruct (status_code r0 =? 429); [|now simpl].
  destruct (backoff_of r0 0) as [w0|e]; [|now simpl].
  cbv zeta. destruct (client_post env _ url payload) as [r1|e1]; [|now simpl].
  destruct (status_code r1 =? 429); [|now simpl].
  destruct (backoff_of r1 1) as [w1|e]; now simpl.
Qed.

(** The attempts of a call, read off the trace: between one and three,
    every one but the last answered by HTTP 429. *)
Lemma evo_post_attempts url payload s :
  exists outs : list (res Response),
    (1 <= length outs <= 3)%nat
    /\ (forall i o, outs !! i = Some o ->
          o = client_post env (length (trace s) + 2 * i) url payload)
    /\ (forall i o, outs !! i = Some o -> (S i < length outs)%nat -> is_429 o = true)
    /\ trace (snd (_evo_post env url payload s)) = trace s ++ retry_trace url payload outs 0
    /\ (is_429 (client_post env (length (trace s)) url payload) = false ->
        outs = [client_post env (length (trace s)) url payload]).
Proof.
  rewrite evo_post_run.
  assert (L0 : forall o, o = client_post env (length (trace s)) url payload ->
                         o = client_post env (length (trace s) + 2 * 0) url payload).
  { intros o ->. now rewrite Nat.add_0_r. }
  destruct (client_post env (length (trace s)) url payload) as [r0|e0] eqn:E0.
  2:{ exists [Raise e0]. simpl.
      repeat apply conj; auto; try lia;
      intros [|i] o; simpl; try discriminate; intros [= <-]; try lia; now apply L0. }
  destruct (status_code r0 =? 429) eqn:S0.
  2:{ exists [Ok r0]. simpl.
      repeat apply conj; auto; try lia;
      intros [|i] o; simpl; try discriminate; intros [= <-]; try lia; now apply L0. }
  destruct (backoff_of r0 0) as [w0|x0] eqn:B0.
  2:{ exists [Ok r0]. simpl. rewrite ?S0.
      repeat apply conj; auto; try lia; try discriminate;
      intros [|i] o; simpl; try discriminate; intros [= <-]; try lia; now apply L0. }
  cbv zeta.
  set (s1 := set_trace (trace s ++ [EPost url payload; ESleep (seconds w0)]) s) in *.
  assert (L1 : length (trace s1) = (length (trace s) + 2 * 1)%nat).
  { unfold s1. simpl. rewrite length_app. simpl. lia. }
  destruct (client_post env (length (trace s1)) url payload) as [r1|e1] eqn:E1.
  2:{ exists [Ok r0; Raise e1]. simpl. rewrite ?S0, ?B0.
      repeat apply conj; auto; try lia; try discriminate;
      try (now rewrite <- app_assoc);
      intros [|[|i]] o; simpl; try discriminate; intros [= <-]; simpl; auto; try lia;
      first [ now apply L0 | rewrite <- E1; f_equal; lia ]. }
  destruct (status_code r1 =? 429) eqn:S1.
  2:{ exists [Ok r0; Ok r1]. simpl. rewrite ?S0, ?B0.
      repeat apply conj; auto; try lia; try discriminate;
      try (now rewrite <- app_assoc);
      intros [|[|i]] o; simpl; try discriminate; intros [= <-]; simpl; auto; try lia;
      first [ now apply L0 | rewrite <- E1; f_equal; lia ]. }
  destruct (backoff_of r1 1) as [w1|x1] eqn:B1.
  2:{ exists [Ok r0; Ok r1]. simpl. rewrite ?S0, ?B0.
      repeat apply conj; auto; try lia; try discriminate;
      try (now rewrite <- app_assoc);
      intros [|[|i]] o; simpl; try discriminate; intros [= <-]; simpl; auto; try lia;
      first [ now apply L0 | rewrite <- E1; f_equal; lia ]. }
  set (s2 := set_trace (trace s1 ++ [EPost url payload; ESleep (seconds w1)]) s1) in *.
  exists [Ok r0; Ok r1; client_post env (length (trace s2)) url payload].
  simpl. change (0 + 1) with 1. rewrite ?S0, ?S1, ?B0, ?B1.
  repeat apply conj; auto; try lia; try discriminate;
  try (now rewrite <- !app_assoc);
  intros [|[|[|i]]] o; simpl; try discriminate; intros [= <-]; simpl; auto; try lia;
  first [ now apply L0 | rewrite <- E1; f_equal; lia
        | f_equal; unfold s2, s1; simpl; rewrite !length_app; simpl; lia ].
Qed.





End EvoPostFacts.


(** A timeout is not retried either: the exception leaves [_evo_post] after
    one call. *)
Lemma timeout_is_not_retried :
  _evo_post (env_first_answer (Raise RequestError)) "/message/sendText/Tractosymax2"
    (JObj []) Sys_init
  = (Raise RequestError,
     set_trace [EPost "/message/sendText/Tractosymax2" (JObj [])] Sys_init).
Proof. reflexivity. Qed.

(** Three 429 answers in a row: three calls, waits of 2 and 4 seconds (the
    retry-after header of the second answer is not a number), and the third
    429 is what the caller gets. *)
Example three_rate_limits :
  let env := {| settings := default_settings;
                client_post := fun n _ _ =>
                  Ok (response_status 429 (if (n =? 2)%nat then Some "soon" else None));
                audio_transcription := fun _ _ _ => "";
                store_get := fun _ _ => Ok None;
                store_upsert := fun _ _ _ _ => Ok tt;
                handle_message := fun _ _ _ _ => Raise CollaboratorError;
                typing_delay := fun _ => 5000;
                create_or_update_lead := fun _ _ _ => Ok tt |} in
  let run := _evo_post env "/u" (JObj []) Sys_init in
  fst run = Ok (response_status 429 None)
  /\ trace (snd run) = [EPost "/u" (JObj []); ESleep 2000; EPost "/u" (JObj []);
                        ESleep 4000; EPost "/u" (JObj [])].
Proof. split; reflexivity. Qed.

(** A 429 whose retry-after header is a superscript two: the header is made
    of digits, [int] does not read it, and [ValueError] leaves the call after
    the first attempt. *)
Example unreadable_retry_after :
  _evo_post (env_first_answer (Ok (response_status 429 (Some "²"))))
    "/message/sendText/Tractosymax2" (JObj []) Sys_init
  = (Raise ValueError,
     set_trace [EPost "/message/sendText/Tractosymax2" (JObj [])] Sys_init).
Proof. vm_compute. reflexivity. Qed.

(** A retry-after header made of digits takes precedence over the
    computed wait; digits of another script count, and digits that [int]
    does not read make the call raise. *)
Example retry_after_wins :
  backoff_of (response_status 429 (Some "7")) 0 = Ok 7
  /\ backoff_of (response_status 429 (Some "٣٠")) 0 = Ok 30
  /\ backoff_of (response_status 429 (Some "²")) 0 = Raise ValueError
  /\ backoff_of (response_status 429 (Some "soon")) 0 = Ok 2
  /\ backoff_of (response_status 429 None) 0 = Ok 2
  /\ backoff_of (response_status 429 None) 1 = Ok 4.
Proof. repeat split; vm_compute; reflexivity. Qed.

(** ** Echo tracking *)

Section EchoFacts.
Context (env : Env).

Lemma track_message_id_run (r : Response) s :
  track_message_id r s
  = (Ok tt,
     match key_id r with
     | Ok (Some i) =>
         if Py.nonempty i then
           match bos_add i (bot_sent_message_ids (bot s)) with
           | Ok ids => set_bot (set_bot_sent_message_ids ids (bot s)) s
           | Raise _ => s
           end
         else s
     | _ => s
     end).
Proof.
  unfold track_message_id, try_except, bind, lift, get_bot, modify_bot, pass, ret.
  destruct (key_id r) as [[i|]|e]; simpl; try reflexivity.
  destruct (Py.nonempty i); simpl; try reflexivity.
  destruct (bos_add i (bot_sent_message_ids (bot s))); reflexivity.
Qed.


(** The text branch of [send_evolution_message] when the first answer is a
    success: the id, the text and the time are all recorded. *)
Lemma send_text_once_success clean_number text s (r : Response) :
  client_post env (length (trace s))
    ("/message/sendText/" +:+ EVO_INSTANCE (settings env))
    (JObj [("number", JStr clean_number); ("text", JStr text)]) = Ok r ->
  status_code r < 400 ->
  let jid := clean_number +:+ "@s.whatsapp.net" in
  let s1 := set_trace (trace s ++ [EPost ("/message/sendText/" +:+ EVO_INSTANCE (settings env))
                                     (JObj [("number", JStr clean_number); ("text", JStr text)])]) s in
  let s2 := snd (track_message_id r s1) in
  send_text_once env clean_number text s
  = (Ok tt, set_bot (remember_time jid (now s) (remember_text jid text (bot s2))) s2).
Proof.
  intros Hpost Hst. cbv zeta. unfold send_text_once.
  unfold bind at 1. rewrite evo_post_run, Hpost.
  replace (status_code r =? 429) with false by (symmetry; apply Z.eqb_neq; lia).
  replace (status_code r >=? 400) with false by (rewrite Z.geb_leb; symmetry; apply Z.leb_gt; lia).
  unfold bind. rewrite track_message_id_run. simpl.
  unfold modify_bot, time_time. simpl.
  repeat match goal with
         | |- context [match ?x with _ => _ end] => destruct x; simpl
         end; reflexivity.
Qed.

#[local] Instance same_echo_texts_preorder : PreOrder same_echo_texts.
Proof.
  split.
  - intros s. unfold same_echo_texts. tauto.
  - intros s1 s2 s3 [H1 H2] [H3 H4]. unfold same_echo_texts. split; congruence.
Qed.

Lemma same_echo_emit e : preserves same_echo_texts (emit e).
Proof. intros s. unfold same_echo_texts. simpl. tauto. Qed.

Lemma same_echo_evo_post_loop attempts : forall last url payload,
  preserves same_echo_texts (_evo_post_loop env attempts last url payload).
Proof.
  induction attempts as [|k rest IH]; intros last url payload; simpl.
  - repeat preserve_step.
  - unfold post, sleep. repeat preserve_step; try apply same_echo_emit.
    apply IH.
Qed.

Lemma same_echo_track r : preserves same_echo_texts (track_message_id r).
Proof.
  intros s. rewrite track_message_id_run. simpl.
  repeat match goal with
         | |- context [match ?x with _ => _ end] => destruct x; simpl
         end; unfold same_echo_texts; simpl; tauto.
Qed.

(** The media loop writes neither the recent texts nor the time of the last
    send. *)
Lemma same_echo_send_media_loop clean_number text total media_urls : forall i,
  preserves same_echo_texts (send_media_loop env clean_number text total i media_urls).
Proof.
  induction media_urls as [|u rest IH]; intros i; simpl.
  - preserve_step.
  - unfold sleep. repeat preserve_step;
      try apply same_echo_emit; try apply same_echo_evo_post_loop;
      try apply same_echo_track; apply IH.
Qed.

(** Nor does [send_evolution_document]. *)
Lemma same_echo_send_evolution_document number_or_jid text pdf_url filename :
  preserves same_echo_texts
    (send_evolution_document env number_or_jid text pdf_url filename).
Proof.
  unfold send_evolution_document, sleep.
  repeat preserve_step;
    try apply same_echo_evo_post_loop; try apply same_echo_track;
    apply same_echo_emit.
Qed.

Lemma same_echo_send_media number_or_jid text u rest :
  preserves same_echo_texts
    (send_evolution_message env number_or_jid text (u :: rest)).
Proof.
  unfold send_evolution_message.
  repeat preserve_step. apply same_echo_send_media_loop.
Qed.

End EchoFacts.

(** C8 on the document and media paths.  Whatever the provider answers,
    [send_evolution_document], and [send_evolution_message] with pictures,
    leave the recent texts and the time of the last send of every
    conversation as they were.  In the sample run the text and the PDF are
    both delivered (two calls, both answered 201) and both provider ids reach
    the echo-id cache, but neither the text nor the time of the send is
    recorded for the conversation. *)
Theorem document_send_records_ids_only :
  (forall env number_or_jid text pdf_url filename s,
     same_echo_texts s
       (snd (send_evolution_document env number_or_jid text pdf_url filename s)))
  /\ (forall env number_or_jid text u rest s,
        same_echo_texts s
          (snd (send_evolution_message env number_or_jid text (u :: rest) s)))
  /\ let s := set_now 1700000000000 Sys_init in
     let s' := snd (send_evolution_document (sample_env default_settings)
                      "5215512345678@s.whatsapp.net" "Te comparto la ficha"
                      "https://example.com/ficha.pdf" "ficha.pdf" s) in
     posts_of (trace s') = 2%nat
     /\ _data (bot_sent_message_ids (bot s')) = ["BOT0"; "BOT2"]
     /\ bot_sent_texts (bot s') !! "5215512345678@s.whatsapp.net" = None
     /\ last_bot_message_time (bot s') !! "5215512345678@s.whatsapp.net" = None.
Proof.
  split; [|split].
  - intros env number_or_jid text pdf_url filename s.
    apply same_echo_send_evolution_document.
  - intros env number_or_jid text u rest s.
    apply same_echo_send_media.
  - vm_compute. repeat split; reflexivity.
Qed.

(** The same on the media path: the caption is sent with the last picture,
    the ids are recorded, the caption and the time are not. *)
Example media_send_records_ids_only :
  let s := set_now 1700000000000 Sys_init in
  let s' := snd (send_evolution_message (sample_env default_settings)
                   "5215512345678@s.whatsapp.net" "Mira estas fotos"
                   ["https://example.com/1.jpg"; "https://example.com/2.jpg"] s) in
  posts_of (trace s') = 2%nat
  /\ _data (bot_sent_message_ids (bot s')) = ["BOT0"; "BOT2"]
  /\ bot_sent_texts (bot s') !! "5215512345678@s.whatsapp.net" = None
  /\ last_bot_message_time (bot s') !! "5215512345678@s.whatsapp.net" = None.
Proof. vm_compute. repeat split; reflexivity. Qed.

(** The text path is the one that records the three facts. *)
Example text_send_records_all :
  let s := set_now 1700000000000 Sys_init in
  let s' := snd (send_evolution_message (sample_env default_settings)
                   "5215512345678@s.whatsapp.net" "Hola, con gusto" [] s) in
  _data (bot_sent_message_ids (bot s')) = ["BOT0"]
  /\ bot_sent_texts (bot s') !! "5215512345678@s.whatsapp.net" = Some ["Hola, con gusto"]
  /\ last_bot_message_time (bot s') !! "5215512345678@s.whatsapp.net" = Some 1700000000000.
Proof. vm_compute. repeat split; reflexivity. Qed.

(** ** Bot or human: the classification of outbound messages *)

Ltac case_match_goal :=
  match goal with
  | |- context [match ?x with _ => _ end] => destruct x eqn:?; simpl
  end.

Section ClassifyFacts.
Context (env : Env).






End ClassifyFacts.

(** A text is sent, the provider assigns it the id "BOT0", and the provider
    later reports that message as sent by the business line, long after the
    recognition window and with another text: it is classified by its id and
    the conversation is not silenced.  The same report with an unknown id is
    taken for a human operator and the conversation is silenced for an hour. *)
Example echo_by_id_is_not_a_takeover :
  let env := sample_env default_settings in
  let jid := "5215512345678@s.whatsapp.net" in
  let s1 := snd (send_evolution_message env jid "Hola, con gusto" []
                   (set_now 1700000000000 Sys_init)) in
  let later := set_now 1700000600000 s1 in
  let echoed := snd (process_single_event env (outbound_event jid "BOT0" "otro texto") later) in
  let foreign := snd (process_single_event env (outbound_event jid "XYZ" "otro texto") later) in
  silenced_users (bot echoed) !! jid = None
  /\ silenced_users (bot foreign) !! jid = Some (SilenceUntil (1700000600000 + 3600000)).
Proof. vm_compute. split; reflexivity. Qed.

(** ** Intake: events and the webhook *)

Section IntakeFacts.
Context (env : Env).

Lemma preserves_weaken {A} (R R' : Sys -> Sys -> Prop) (m : M A) :
  (forall s s', R s s' -> R' s s') -> preserves R m -> preserves R' m.
Proof. intros HRR Hm s. apply HRR, Hm. Qed.

(** [accumulate], computed. *)
Lemma accumulate_run remote_jid user_message s :
  accumulate env remote_jid user_message s
  = (Ok tt,
     let b := bot s in
     let pending := default [] (pending_messages b !! remote_jid) in
     let ts := match pending_message_tasks b !! remote_jid with
               | Some old_task =>
                   alter (fun t => if task_done t then t else task_cancel t) old_task (tasks s)
               | None => tasks s
               end in
     {| bot := set_pending_message_tasks
                 (<[remote_jid := length ts]> (pending_message_tasks b))
                 (set_pending_messages
                    (<[remote_jid := pending ++ [user_message]]> (pending_messages b)) b);
        now := now s;
        tasks := ts ++ [{| task_jid := remote_jid;
                           task_due := now s + MESSAGE_ACCUMULATION_SECONDS (settings env);
                           task_status_of := Sleeping |}];
        trace := trace s;
        turns := turns s |}).
Proof.
  unfold accumulate, cancel_pending, create_task. munfold. simpl.
  destruct (pending_message_tasks (bot s) !! remote_jid); reflexivity.
Qed.

(** An inbound text reaches [accumulate]. *)
Lemma dispatch_inbound_text remote_jid from_me msg_id data text s :
  Json.truthy from_me = false -> inbound_text data = Some text ->
  dispatch_event env remote_jid from_me msg_id data s
  = accumulate env remote_jid text s.
Proof.
  intros Hfm Htext. unfold dispatch_event, inbound_text in *. rewrite Hfm.
  unfold bind at 1. unfold lift at 1.
  destruct (Json.get data "message" (JObj [])) as [m|]; [|discriminate].
  unfold bind at 1. unfold lift at 1.
  destruct (_extract_user_message (Json.or_else m (JObj []))) as [[v is_audio]|]; [|discriminate].
  unfold bind at 1. unfold lift at 1. simpl fst. simpl snd.
  destruct (Json.strip v) as [t|]; [|discriminate].
  destruct (Py.nonempty t) eqn:Hne; [|discriminate].
  injection Htext as <-. simpl. reflexivity.
Qed.

#[local] Instance same_dedup_preorder : PreOrder same_dedup.
Proof.
  split; [intros s; reflexivity|].
  intros s1 s2 s3 H12 H23. unfold same_dedup in *. congruence.
Qed.

Lemma same_dedup_dispatch_event remote_jid from_me msg_id data :
  preserves same_dedup (dispatch_event env remote_jid from_me msg_id data).
Proof.
  unfold dispatch_event, _is_bot_message.
  repeat preserve_step;
    try (intros s; reflexivity);
    try (apply (preserves_weaken same_core);
         [intros s s' H; apply H|apply same_core_send_evolution_message]);
    intros s; rewrite accumulate_run; reflexivity.
Qed.

(** C10.  An event that carries a conversation identity (not a group's, not
    a broadcast) and no message id, or an empty one, goes straight to the
    branch on the direction: the dedup cache is neither consulted nor
    written, whatever it holds.  So the same id-less text delivered twice is
    buffered twice, and a timer is started at each delivery. *)
Theorem idless_event_skips_dedup data s remote_jid from_me :
  event_header data = Ok (remote_jid, from_me, "") ->
  Py.nonempty remote_jid = true ->
  is_group_or_broadcast remote_jid = false ->
  process_single_event env data s = dispatch_event env remote_jid from_me "" data s
  /\ processed_message_ids (bot (snd (process_single_event env data s)))
     = processed_message_ids (bot s)
  /\ (forall text,
        Json.truthy from_me = false -> inbound_text data = Some text ->
        let s2 := snd (process_single_event env data
                         (snd (process_single_event env data s))) in
        pending_messages (bot s2) !! remote_jid
        = Some (default [] (pending_messages (bot s) !! remote_jid) ++ [text; text])
        /\ length (tasks s2) = (length (tasks s) + 2)%nat).
Proof.
  intros Hh Hjid Hgroup.
  assert (Hrun : forall s0, process_single_event env data s0
                            = dispatch_event env remote_jid from_me "" data s0).
  { intros s0. unfold process_single_event.
    unfold bind at 1. unfold lift at 1. rewrite Hh, Hjid, Hgroup. simpl.
    unfold bind at 1. unfold get_bot at 1. unfold bind at 1. unfold pass at 1.
    reflexivity. }
  split; [apply Hrun|split].
  - rewrite Hrun. apply same_dedup_dispatch_event.
  - intros text Hfm Htext. cbv zeta. rewrite !Hrun.
    rewrite !(dispatch_inbound_text _ _ _ _ text) by assumption.
    rewrite !accumulate_run. simpl.
    rewrite !lookup_insert_eq. simpl.
    split.
    + now rewrite <- app_assoc.
    + rewrite !length_app, length_alter, length_app. simpl.
      destruct (pending_message_tasks (bot s) !! remote_jid);
        rewrite ?length_alter; lia.
Qed.

(** [_background_process_events] never raises, and an event that fails does
    not stop the events after it. *)
Lemma background_never_raises events : forall s,
  fst (_background_process_events env events s) = Ok tt.
Proof.
  induction events as [|event rest IH]; intros s; simpl; [reflexivity|].
  unfold bind, background_process_event, try_except.
  destruct (process_single_event env event s) as [[[]|e] s1]; simpl; apply IH.
Qed.

Lemma background_cons event rest s :
  _background_process_events env (event :: rest) s
  = _background_process_events env rest (snd (process_single_event env event s)).
Proof.
  simpl. unfold bind, background_process_event, try_except.
  destruct (process_single_event env event s) as [[[]|e] s1]; reflexivity.
Qed.

End IntakeFacts.

(** C9.  Whatever the request holds, [evolution_webhook] returns an
    acknowledgment (so the framework answers 200) and its "status" is one of
    accepted, ignored, error_but_acked: a body that is not JSON is ignored as
    invalid_json; a body that is not an object is acknowledged as
    error_but_acked; an object without data, or with empty data, is ignored
    as no_data; otherwise the events (the array, or the single event) are
    handed to a background task and the answer is accepted.  The handler
    processes no event itself.  The background task never raises, and it
    goes on to the next event from the state the previous one left, failed
    or not. *)
Theorem webhook_always_acknowledges (body : res json) :
  exists (answer : json) (spawned : option (list json)),
    evolution_webhook body = Ok (answer, spawned)
    /\ http_status (evolution_webhook body) = 200
    /\ (exists status, Json.get answer "status" JNull = Ok (JStr status)
          /\ status ∈ ["accepted"; "ignored"; "error_but_acked"])
    /\ (forall e, body = Raise e ->
          answer = ack "ignored" (Some "invalid_json") /\ spawned = None)
    /\ (forall fields, body = Ok (JObj fields) ->
          Json.truthy (default JNull (Json.assoc "data" fields)) = false ->
          answer = ack "ignored" (Some "no_data") /\ spawned = None)
    /\ (forall fields items, body = Ok (JObj fields) ->
          Json.assoc "data" fields = Some (JArr items) -> items <> [] ->
          answer = ack "accepted" None /\ spawned = Some items)
    /\ (forall fields event, body = Ok (JObj fields) ->
          Json.assoc "data" fields = Some event -> Json.truthy event = true ->
          Json.is_list event = false ->
          answer = ack "accepted" None /\ spawned = Some [event])
    /\ (forall v, body = Ok v -> (forall fields, v <> JObj fields) ->
          answer = ack "error_but_acked" None /\ spawned = None)
    /\ (forall env events s, fst (_background_process_events env events s) = Ok tt)
    /\ (forall env event rest s,
          _background_process_events env (event :: rest) s
          = _background_process_events env rest (snd (process_single_event env event s))).
Proof.
  assert (Hbg1 := background_never_raises).
  assert (Hbg2 := background_cons).
  assert (Hin : forall st, st ∈ ["accepted"; "ignored"; "error_but_acked"] <->
                  st = "accepted" \/ st = "ignored" \/ st = "error_but_acked").
  { intros st. rewrite !elem_of_cons, elem_of_nil. tauto. }
  destruct body as [v|e]; simpl.
  2:{ eexists _, _. repeat apply conj; try reflexivity; auto;
      try (eexists; split; [reflexivity|apply Hin; tauto]);
      intros; simplify_eq; auto. }
  destruct v as [| | | | |fields]; simpl;
    try (eexists _, _; repeat apply conj; try reflexivity; auto;
         try (eexists; split; [reflexivity|apply Hin; tauto]);
         intros; simplify_eq; auto; fail).
  destruct (Json.assoc "data" fields) as [d|] eqn:Hd; simpl;
    [destruct (Json.truthy d) eqn:Ht; simpl|];
    (eexists _, _; repeat apply conj; try reflexivity; auto;
     try (eexists; split; [reflexivity|apply Hin; tauto]);
     intros; simplify_eq/=; auto; try congruence;
     try (destruct items; simpl in *; congruence);
     try (match goal with E : JObj _ = ?e |- _ => subst e; simpl in *; discriminate end);
     try (match goal with
          | H : forall f, JObj _ <> JObj f |- _ => exfalso; eapply H; reflexivity
          end)).
  - match goal with
    | H : Json.truthy (default JNull (Json.assoc "data" _)) = false |- _ =>
        rewrite Hd in H; simpl in H; congruence
    end.
  - destruct d; simpl in *; try discriminate; auto.
Qed.

(** ** The event loop: effect of each step *)

Section StepFacts.
Context (env : Env).

Lemma combine_join (messages : list string) :
  combine messages = Py.join " | " messages.
Proof. destruct messages as [|m [|m' rest]]; reflexivity. Qed.

(** [check_silenced], computed: a value of the registry is read as a
    number, so an entry silences while the clock is before that number and is
    deleted otherwise. *)
Lemma check_silenced_run remote_jid s :
  check_silenced remote_jid s
  = match silenced_users (bot s) !! remote_jid with
    | Some v =>
        if now s <? as_number v then (Ok true, s)
        else (Ok false,
              set_bot (set_silenced_users (delete remote_jid (silenced_users (bot s))) (bot s)) s)
    | None => (Ok false, s)
    end.
Proof.
  unfold check_silenced. munfold. simpl.
  destruct (silenced_users (bot s) !! remote_jid) as [v|]; [|reflexivity].
  destruct v; simpl; destruct (now s <? _); reflexivity.
Qed.

(** The first part of [_process_accumulated_messages]: it never raises, it
    takes the conversation's buffer and timer entry, it logs one turn when
    the buffer held messages, and it leaves the clock, the tasks, the trace,
    the other conversations and the dedup cache alone. *)
Lemma begin_effect tid remote_jid s :
  let r := fst (_process_accumulated_messages_begin tid remote_jid s) in
  let s' := snd (_process_accumulated_messages_begin tid remote_jid s) in
  let messages := default [] (pending_messages (bot s) !! remote_jid) in
  (exists k, r = Ok k)
  /\ now s' = now s /\ tasks s' = tasks s /\ trace s' = trace s
  /\ pending_messages (bot s') = delete remote_jid (pending_messages (bot s))
  /\ pending_message_tasks (bot s') = delete remote_jid (pending_message_tasks (bot s))
  /\ processed_message_ids (bot s') = processed_message_ids (bot s)
  /\ (messages = [] -> turns s' = turns s /\ r = Ok None)
  /\ (messages <> [] ->
      exists suppressed,
        turns s' = turns s ++ [{| turn_task := tid; turn_jid := remote_jid;
                                  turn_text := Py.join " | " messages;
                                  turn_suppressed := suppressed |}]
        /\ (suppressed = true <-> r = Ok None)).
Proof.
  cbv zeta.
  destruct (_process_accumulated_messages_begin tid remote_jid s) as [r s'] eqn:Hrun.
  simpl fst. simpl snd.
  unfold _process_accumulated_messages_begin, log_turn in Hrun. munfold.
  cbv beta iota zeta in Hrun.
  destruct (default [] (pending_messages (bot s) !! remote_jid)) as [|m rest] eqn:Hm.
  { simplify_eq. simpl. repeat apply conj; eauto; try done. }
  rewrite <- combine_join.
  remember (combine (m :: rest)) as text eqn:Htext.
  rewrite check_silenced_run in Hrun. simpl in Hrun.
  assert (Hgoal : forall suppressed k sx,
            (suppressed = true <-> k = None) ->
            r = Ok k ->
            s' = sx ->
            now sx = now s -> tasks sx = tasks s -> trace sx = trace s ->
            pending_messages (bot sx) = delete remote_jid (pending_messages (bot s)) ->
            pending_message_tasks (bot sx) = delete remote_jid (pending_message_tasks (bot s)) ->
            processed_message_ids (bot sx) = processed_message_ids (bot s) ->
            turns sx = turns s ++ [{| turn_task := tid; turn_jid := remote_jid;
                                      turn_text := text; turn_suppressed := suppressed |}] ->
            (exists k0, r = Ok k0)
            /\ now s' = now s /\ tasks s' = tasks s /\ trace s' = trace s
            /\ pending_messages (bot s') = delete remote_jid (pending_messages (bot s))
            /\ pending_message_tasks (bot s') = delete remote_jid (pending_message_tasks (bot s))
            /\ processed_message_ids (bot s') = processed_message_ids (bot s)
            /\ (m :: rest = [] -> turns s' = turns s /\ r = Ok None)
            /\ (m :: rest <> [] ->
                exists suppressed0,
                  turns s' = turns s ++ [{| turn_task := tid; turn_jid := remote_jid;
                                            turn_text := text;
                                            turn_suppressed := suppressed0 |}]
                  /\ (suppressed0 = true <-> r = Ok None))).
  { intros suppressed k sx Hsk -> -> ? ? ? ? ? ? ?.
    repeat split; eauto; try done.
    exists suppressed. split; [assumption|].
    split; [intros Hs; f_equal; now apply Hsk|intros [= Hk]; now apply Hsk]. }
  destruct (silenced_users (bot s) !! remote_jid) as [v|];
    [destruct (now s <? as_number v)|];
    simpl in Hrun;
    try (destruct (String.eqb (Py.lower text) "/silencio");
         [|destruct (String.eqb (Py.lower text) "/activar")]);
    injection Hrun as Hr Hs; symmetry in Hr, Hs;
    (eapply Hgoal; [|exact Hr|exact Hs|..]; simpl; try reflexivity; split; done).
Qed.

Lemma same_core_acc_core s s' : same_core s s' -> acc_core s s'.
Proof.
  unfold same_core, acc_core. intros (?&?&?&?&?&Hids&?&?&?).
  rewrite Hids. tauto.
Qed.

Lemma acc_core_refl s : acc_core s s.
Proof. unfold acc_core. tauto. Qed.

Lemma acc_core_trans s1 s2 s3 : acc_core s1 s2 -> acc_core s2 s3 -> acc_core s1 s3.
Proof.
  unfold acc_core. intros (?&?&?&?&?&?) (?&?&?&?&?&?). repeat split; congruence.
Qed.

(** [dispatch_event] either leaves the buffers and timers alone or ends in
    [accumulate]; it never touches the dedup cache. *)
Lemma dispatch_event_effect remote_jid from_me msg_id data s :
  let s' := snd (dispatch_event env remote_jid from_me msg_id data s) in
  acc_core s s'
  \/ exists text s0, acc_core s s0 /\ s' = snd (accumulate env remote_jid text s0).
Proof.
  cbv zeta. unfold dispatch_event, _is_bot_message. munfold.
  destruct (Json.get data "message" (JObj [])) as [m|]; simpl;
    [|left; apply acc_core_refl].
  destruct (Json.truthy from_me).
  - left.
    destruct (_extract_user_message _) as [[v a]|]; simpl; [|apply acc_core_refl].
    destruct (Json.strip v) as [t|]; simpl; [|apply acc_core_refl].
    destruct (is_bot _); simpl; [apply acc_core_refl|].
    destruct (_is_automated_greeting t); simpl; [apply acc_core_refl|].
    unfold acc_core. simpl. tauto.
  - destruct (_extract_user_message _) as [[v a]|]; simpl;
      [|left; apply acc_core_refl].
    destruct (Json.strip v) as [t|]; simpl; [|left; apply acc_core_refl].
    destruct (negb (Py.nonempty t) && a); simpl.
    + destruct (negb (Py.nonempty (audio_transcription env _ msg_id remote_jid))).
      * left. eapply acc_core_trans;
          [|apply same_core_acc_core, (same_core_send_evolution_message env)].
        unfold acc_core. simpl. tauto.
      * right. eexists _, _. split; [|reflexivity].
        unfold acc_core. simpl. tauto.
    + destruct (negb (Py.nonempty t)); simpl; [left; apply acc_core_refl|].
      right. eexists _, _. split; [|reflexivity]. apply acc_core_refl.
Qed.

(** [process_single_event]: the dedup cache gains at most the id of the
    event, and the buffers and timers are left alone unless the event
    reaches [accumulate] for its conversation. *)
Lemma process_single_event_effect data s :
  let s' := snd (process_single_event env data s) in
  (forall k, k ∈ _data (processed_message_ids (bot s')) ->
             k ∈ _data (processed_message_ids (bot s)) \/ event_id data = Some k)
  /\ (acc_core s s'
      \/ exists remote_jid text s0,
           event_jid data = Some remote_jid /\ acc_core s s0
           /\ s' = snd (accumulate env remote_jid text s0)).
Proof.
  cbv zeta.
  destruct (process_single_event env data s) as [r s'] eqn:Hrun. simpl snd.
  unfold process_single_event in Hrun. unfold event_id, event_jid.
  unfold bind, lift, get_bot, modify_bot, pass, ret in Hrun.
  assert (Hsame : (r, s) = (r, s') ->
            (forall k, k ∈ _data (processed_message_ids (bot s')) ->
               k ∈ _data (processed_message_ids (bot s))
               \/ match event_header data with
                  | Ok (_, _, msg_id) => if Py.nonempty msg_id then Some msg_id else None
                  | Raise _ => None
                  end = Some k)
            /\ (acc_core s s'
                \/ exists remote_jid text s0,
                     match event_header data with
                     | Ok (remote_jid, _, _) => Some remote_jid
                     | Raise _ => None
                     end = Some remote_jid /\ acc_core s s0
                     /\ s' = snd (accumulate env remote_jid text s0))).
  { intros [= <-]. split; [auto|left; apply acc_core_refl]. }
  destruct (event_header data) as [[[remote_jid from_me] msg_id]|e];
    [|injection Hrun as <- <-; now apply Hsame].
  destruct (negb (Py.nonempty remote_jid)); [injection Hrun as <- <-; now apply Hsame|].
  destruct (is_group_or_broadcast remote_jid); [injection Hrun as <- <-; now apply Hsame|].
  destruct (Py.nonempty msg_id && bos_contains msg_id (processed_message_ids (bot s)));
    [injection Hrun as <- <-; now apply Hsame|].
  clear Hsame.
  destruct (Py.nonempty msg_id) eqn:Hne.
  - destruct (bos_add msg_id (processed_message_ids (bot s))) as [ids|] eqn:Hadd;
      [|injection Hrun as <- <-; split; [auto|left; apply acc_core_refl]].
    set (s1 := set_bot (set_processed_message_ids ids (bot s)) s) in *.
    assert (H1 : acc_core s s1).
    { unfold acc_core, s1. simpl. rewrite (bos_add_maxlen _ _ _ Hadd). tauto. }
    assert (Hids : forall k, k ∈ _data ids ->
                     k ∈ _data (processed_message_ids (bot s)) \/ Some msg_id = Some k).
    { intros k Hk. unfold bos_add in Hadd.
      destruct (bos_contains msg_id (processed_message_ids (bot s))).
      - injection Hadd as <-. auto.
      - destruct (_maxlen _ <=? bos_len _).
        + destruct (_data (processed_message_ids (bot s))) as [|x d] eqn:Hd;
            simpl in Hadd; [discriminate|]. injection Hadd as <-. simpl in Hk.
          apply elem_of_app in Hk as [Hk|Hk].
          * left. now right.
          * apply list_elem_of_singleton in Hk. subst. auto.
        + injection Hadd as <-. simpl in Hk.
          apply elem_of_app in Hk as [Hk|Hk]; [auto|].
          apply list_elem_of_singleton in Hk. subst. auto. }
    assert (Hs' : s' = snd (dispatch_event env remote_jid from_me msg_id data s1)).
    { now rewrite Hrun. }
    split.
    + intros k Hk. apply Hids.
      pose proof (same_dedup_dispatch_event env remote_jid from_me msg_id data s1) as Hd.
      unfold same_dedup in Hd. rewrite <- Hs' in Hd. rewrite Hd in Hk. exact Hk.
    + destruct (dispatch_event_effect remote_jid from_me msg_id data s1)
        as [Hs|(text & s0 & Hs0 & Hs)]; rewrite <- Hs' in Hs.
      * left. eapply acc_core_trans; eauto.
      * right. exists remote_jid, text, s0. split; [reflexivity|].
        split; [eapply acc_core_trans; eauto|exact Hs].
  - assert (Hs' : s' = snd (dispatch_event env remote_jid from_me msg_id data s)).
    { now rewrite Hrun. }
    split.
    + intros k Hk. left.
      pose proof (same_dedup_dispatch_event env remote_jid from_me msg_id data s) as Hd.
      unfold same_dedup in Hd. rewrite <- Hs' in Hd. rewrite Hd in Hk. exact Hk.
    + destruct (dispatch_event_effect remote_jid from_me msg_id data s)
        as [Hs|(text & s0 & Hs0 & Hs)]; rewrite <- Hs' in Hs.
      * left. exact Hs.
      * right. exists remote_jid, text, s0. split; [reflexivity|]. split; assumption.
Qed.

(** An inbound text of conversation [c] whose id is not in the dedup cache
    (or that has none) reaches [accumulate] with its text. *)
Lemma deliver_burst_event data c text s :
  burst_event c data = Some text ->
  (forall i, event_id data = Some i -> i ∉ _data (processed_message_ids (bot s))) ->
  0 < _maxlen (processed_message_ids (bot s)) ->
  exists s0, acc_core s s0
             /\ snd (process_single_event env data s) = snd (accumulate env c text s0).
Proof.
  unfold burst_event, event_id. intros Hb Hfresh Hpos.
  unfold process_single_event. unfold bind at 1. unfold lift at 1.
  destruct (event_header data) as [[[remote_jid from_me] msg_id]|e]; [|discriminate].
  destruct (bool_decide (remote_jid = c)) eqn:Hc; [|discriminate].
  apply bool_decide_eq_true in Hc. subst remote_jid.
  destruct (Py.nonempty c) eqn:Hne; [|discriminate].
  destruct (is_group_or_broadcast c) eqn:Hg; [discriminate|].
  destruct (Json.truthy from_me) eqn:Hfm; [discriminate|].
  simpl in Hb. simpl.
  unfold bind at 1. unfold get_bot at 1.
  destruct (Py.nonempty msg_id) eqn:Hid; simpl.
  - replace (bos_contains msg_id (processed_message_ids (bot s))) with false.
    2:{ symmetry. apply bos_contains_false. now apply Hfresh. }
    unfold bind at 1. unfold bind at 1. unfold lift at 1.
    destruct (bos_add_total msg_id _ Hpos) as [ids Hadd]. rewrite Hadd.
    unfold modify_bot at 1.
    rewrite (dispatch_inbound_text env _ _ _ _ text) by assumption.
    eexists. split; [|reflexivity].
    unfold acc_core. simpl. rewrite (bos_add_maxlen _ _ _ Hadd). tauto.
  - unfold bind at 1. unfold pass at 1. unfold ret at 1.
    rewrite (dispatch_inbound_text env _ _ _ _ text) by assumption.
    exists s. split; [apply acc_core_refl|reflexivity].
Qed.

End StepFacts.

(** ** The invariant of the event loop *)

Section Invariant.
Context (env : Env).

Lemma lookup_set_status (ts : list Task) tid st tid' t' :
  alter (task_set_status st) tid ts !! tid' = Some t' ->
  exists t0, ts !! tid' = Some t0 /\ task_jid t' = task_jid t0
             /\ task_due t' = task_due t0
             /\ (tid' <> tid /\ t' = t0 \/ tid' = tid /\ task_status_of t' = st).
Proof.
  destruct (decide (tid' = tid)) as [->|Hne].
  - rewrite list_lookup_alter_eq. destruct (ts !! tid) as [t0|]; simpl; [|done].
    intros [= <-]. exists t0. simpl. auto 6.
  - rewrite list_lookup_alter_ne by congruence. intros Ht. exists t'. auto 6.
Qed.

Lemma lookup_cancel (ts : list Task) tid tid' t' :
  alter (fun t => if task_done t then t else task_cancel t) tid ts !! tid' = Some t' ->
  exists t0, ts !! tid' = Some t0 /\ task_jid t' = task_jid t0
             /\ task_due t' = task_due t0
             /\ (t' = t0 /\ (tid' <> tid \/ task_status_of t0 <> Sleeping)
                 \/ tid' = tid /\ task_status_of t0 = Sleeping
                    /\ task_status_of t' = Cancelled
                 \/ tid' = tid /\ (exists k, task_status_of t0 = Running k)
                    /\ task_status_of t' = Aborted).
Proof.
  destruct (decide (tid' = tid)) as [->|Hne].
  - rewrite list_lookup_alter_eq. destruct (ts !! tid) as [t0|]; simpl; [|done].
    intros [= <-]. exists t0. unfold task_done, task_cancel.
    destruct (task_status_of t0) eqn:Hst; simpl; rewrite ?Hst;
      (split; [reflexivity|split; [reflexivity|split; [reflexivity|]]]).
    + right. left. auto.
    + left. split; [reflexivity|right; congruence].
    + right. right. eauto.
    + left. split; [reflexivity|right; congruence].
    + left. split; [reflexivity|right; congruence].
  - rewrite list_lookup_alter_ne by congruence. intros Ht. exists t'.
    split; [assumption|]. split; [reflexivity|]. split; [reflexivity|].
    left. auto.
Qed.

Lemma lookup_snoc_inv {A} (l : list A) x i y :
  (l ++ [x]) !! i = Some y ->
  (i < length l)%nat /\ l !! i = Some y \/ i = length l /\ y = x.
Proof.
  intros Hl. destruct (decide (i < length l)%nat) as [Hlt|Hge].
  - left. split; [assumption|]. now rewrite lookup_app_l in Hl.
  - right. rewrite lookup_app_r in Hl by lia.
    destruct (i - length l)%nat as [|n] eqn:Hd; simpl in Hl; [|discriminate].
    split; [lia|congruence].
Qed.

Lemma wf_acc_core s s' : acc_core s s' -> wf s -> wf s'.
Proof.
  intros (Hn & Ht & Hu & Hpm & Hpt & Hm) [W1 W2 W3 W4 W5 W6 W7].
  constructor; rewrite ?Ht, ?Hu, ?Hpm, ?Hpt, ?Hm; assumption.
Qed.

Lemma wf_tick s dt : wf s -> wf (set_now (now s + dt) s).
Proof. intros [W1 W2 W3 W4 W5 W6 W7]. constructor; assumption. Qed.

Lemma wf_accumulate remote_jid text s :
  wf s -> wf (snd (accumulate env remote_jid text s)).
Proof.
  intros [W1 W2 W3 W4 W5 W6 W7]. rewrite accumulate_run. cbv zeta. simpl snd.
  set (old := pending_message_tasks (bot s) !! remote_jid) in *.
  set (ts := match old with
             | Some old_task =>
                 alter (fun t => if task_done t then t else task_cancel t) old_task (tasks s)
             | None => tasks s
             end).
  set (new := {| task_jid := remote_jid;
                 task_due := now s + MESSAGE_ACCUMULATION_SECONDS (settings env);
                 task_status_of := Sleeping |}).
  assert (Hlen : length ts = length (tasks s)).
  { unfold ts. destruct old; [apply length_alter|reflexivity]. }
  assert (Hts : forall tid t, ts !! tid = Some t ->
            exists t0, tasks s !! tid = Some t0 /\ task_jid t = task_jid t0
                       /\ (old <> Some tid /\ t = t0
                           \/ old = Some tid /\ task_status_of t = Cancelled)).
  { intros tid t Hl. unfold ts in Hl. destruct old as [o|] eqn:Ho.
    - apply lookup_cancel in Hl as (t0 & Hl0 & Hj & _ & Hcase).
      exists t0. split; [assumption|]. split; [assumption|].
      destruct (W1 _ _ Ho) as (to & Hlo & _ & Hso).
      destruct Hcase as [[-> [Hne|Hns]]|[(-> & _ & Hc)|(-> & [k Hk] & _)]].
      + left. split; [congruence|reflexivity].
      + destruct (decide (tid = o)) as [->|Hne]; [|left; split; [congruence|reflexivity]].
        congruence.
      + right. auto.
      + congruence.
    - exists t. auto. }
  assert (Hts' : forall tid t0, tasks s !! tid = Some t0 -> old <> Some tid ->
                                ts !! tid = Some t0).
  { intros tid t0 Hl Hne. unfold ts. destruct old as [o|]; [|assumption].
    rewrite list_lookup_alter_ne by congruence. assumption. }
  constructor; simpl.
  - intros jid tid Hpt. destruct (decide (jid = remote_jid)) as [->|Hne].
    + rewrite lookup_insert_eq in Hpt. injection Hpt as <-.
      exists new. split; [|auto].
      rewrite lookup_app_r by lia. now rewrite Nat.sub_diag.
    + rewrite lookup_insert_ne in Hpt by congruence.
      destruct (W1 _ _ Hpt) as (t0 & Hl0 & Hj0 & Hs0).
      exists t0. split; [|auto].
      rewrite lookup_app_l by (rewrite Hlen; eapply lookup_lt_Some; eauto).
      apply Hts'; [assumption|].
      intros Ho. destruct (W1 _ _ Ho) as (t1 & Hl1 & Hj1 & _). congruence.
  - intros tid t Hl Hst. apply lookup_snoc_inv in Hl as [[Hlt Hl]|[-> ->]].
    + destruct (Hts _ _ Hl) as (t0 & Hl0 & Hj & [[Hne ->]|[_ Hc]]); [|congruence].
      pose proof (W2 _ _ Hl0 Hst) as Hpt.
      rewrite lookup_insert_ne; [assumption|].
      intros Heq. rewrite <- Heq in Hpt. fold old in Hpt. congruence.
    + simpl. apply lookup_insert_eq.
  - intros tid t Hl. apply lookup_snoc_inv in Hl as [[Hlt Hl]|[-> ->]]; [|discriminate].
    destruct (Hts _ _ Hl) as (t0 & Hl0 & Hj & [[Hne ->]|[_ Hc]]); [eauto|congruence].
  - intros u Hu. destruct (W4 _ Hu) as (t0 & Hl0 & Hj0 & Hf0).
    exists t0. split; [|auto].
    rewrite lookup_app_l by (rewrite Hlen; eapply lookup_lt_Some; eauto).
    apply Hts'; [assumption|].
    intros Ho. destruct (W1 _ _ Ho) as (t1 & Hl1 & _ & Hs1).
    assert (t1 = t0) by congruence. subst. rewrite Hs1 in Hf0. exact Hf0.
  - assumption.
  - intros jid. destruct (decide (jid = remote_jid)) as [->|Hne].
    + rewrite !lookup_insert_eq. eexists. split; [reflexivity|].
      intros Happ. apply app_eq_nil in Happ as [_ Happ]. discriminate.
    + rewrite !lookup_insert_ne by congruence. apply W6.
  - assumption.
Qed.

Lemma wf_deliver data s : wf s -> wf (snd (background_process_event env data s)).
Proof.
  intros Hwf.
  assert (Hs : snd (background_process_event env data s)
               = snd (process_single_event env data s)).
  { unfold background_process_event, try_except.
    destruct (process_single_event env data s) as [[[]|e] s1]; reflexivity. }
  rewrite Hs.
  destruct (process_single_event_effect env data s) as [_ [Hc|(j & text & s0 & _ & Hc & ->)]].
  - eapply wf_acc_core; eauto.
  - apply wf_accumulate. eapply wf_acc_core; eauto.
Qed.

Lemma wf_wake tid s s' : wf s -> wake tid s = Some s' -> wf s'.
Proof.
  intros [W1 W2 W3 W4 W5 W6 W7]. unfold wake.
  destruct (tasks s !! tid) as [t|] eqn:Hl; [|discriminate].
  destruct (task_status_of t) eqn:Hst; try discriminate.
  destruct (task_due t <=? now s); [|discriminate].
  pose proof (begin_effect tid (task_jid t) s) as Hb. cbv zeta in Hb.
  destruct (_process_accumulated_messages_begin tid (task_jid t) s) as [r s1].
  simpl in Hb.
  destruct Hb as ([k ->] & Hn & Ht & Htr & Hpm & Hpt & Hids & Hempty & Hsome).
  pose proof (W2 _ _ Hl Hst) as Hmine.
  assert (Hgo : forall st', fired st' -> wf (set_status tid st' s1)).
  { intros st' Hfired. unfold set_status.
    assert (Hturn : forall u, u ∈ turns s1 ->
              u ∈ turns s \/ (turn_task u = tid /\ turn_jid u = task_jid t)).
    { intros u Hu.
      destruct (default [] (pending_messages (bot s) !! task_jid t)) as [|m rest] eqn:Hm.
      - destruct Hempty as [Hturns _]; [reflexivity|]. rewrite Hturns in Hu. auto.
      - destruct Hsome as (sup & Hturns & _); [discriminate|]. rewrite Hturns in Hu.
        apply elem_of_app in Hu as [Hu|Hu]; [auto|].
        apply list_elem_of_singleton in Hu. subst u. simpl. auto. }
    assert (Hnotyet : tid ∉ turn_task <$> turns s).
    { intros Hin. apply list_elem_of_fmap in Hin as (u & Hu1 & Hu2).
      destruct (W4 _ Hu2) as (t0 & Hl0 & _ & Hf0).
      rewrite <- Hu1, Hl in Hl0. injection Hl0 as <-. rewrite Hst in Hf0. exact Hf0. }
    constructor; simpl; rewrite ?Ht, ?Hpm, ?Hpt, ?Hids.
    - intros jid tid' Hpt'.
      destruct (decide (jid = task_jid t)) as [->|Hne];
        [now rewrite lookup_delete_eq in Hpt'|].
      rewrite lookup_delete_ne in Hpt' by congruence.
      destruct (W1 _ _ Hpt') as (t0 & Hl0 & Hj0 & Hs0).
      exists t0. split; [|auto].
      rewrite list_lookup_alter_ne; [assumption|].
      intros ->. congruence.
    - intros tid' t' Hl' Hst'.
      apply lookup_set_status in Hl' as (t0 & Hl0 & Hj & _ & [[Hne ->]|[-> Hs]]).
      + pose proof (W2 _ _ Hl0 Hst') as Hpt0.
        rewrite lookup_delete_ne; [assumption|].
        intros Heq. rewrite Heq in Hmine. congruence.
      + rewrite <- Hs, Hst' in Hfired. exfalso; exact Hfired.
    - intros tid' t' Hl'.
      apply lookup_set_status in Hl' as (t0 & Hl0 & Hj & _ & [[Hne ->]|[-> Hs]]).
      + eauto.
      + rewrite Hs. intros ->. exfalso; exact Hfired.
    - intros u Hu. destruct (Hturn u Hu) as [Hold|[Hu1 Hu2]].
      + destruct (W4 _ Hold) as (t0 & Hl0 & Hj0 & Hf0).
        exists t0. split; [|auto].
        rewrite list_lookup_alter_ne; [assumption|].
        intros Heq. rewrite <- Heq, Hl in Hl0. injection Hl0 as <-.
        rewrite Hst in Hf0. exact Hf0.
      + exists (task_set_status st' t). rewrite Hu1, Hu2.
        rewrite list_lookup_alter_eq, Hl. simpl. auto.
    - destruct (default [] (pending_messages (bot s) !! task_jid t)) as [|m rest] eqn:Hm.
      + destruct Hempty as [Hturns _]; [reflexivity|]. now rewrite Hturns.
      + destruct Hsome as (sup & Hturns & _); [discriminate|]. rewrite Hturns.
        rewrite fmap_app. simpl. apply NoDup_app. split; [assumption|].
        split; [|apply NoDup_singleton].
        intros x Hx Hx'. apply list_elem_of_singleton in Hx'. subst x. contradiction.
    - intros jid. destruct (decide (jid = task_jid t)) as [->|Hne].
      + now rewrite !lookup_delete_eq.
      + rewrite !lookup_delete_ne by congruence. apply W6.
    - assumption. }
  destruct k as [k|]; intros [= <-]; apply Hgo; exact I.
Qed.

Lemma wf_resume tid s s' : wf s -> resume env tid s = Some s' -> wf s'.
Proof.
  intros Hwf. unfold resume.
  destruct (tasks s !! tid) as [t|] eqn:Hl; [|discriminate].
  destruct (task_status_of t) eqn:Hst; try discriminate.
  intros [= <-].
  set (s1 := snd (try_except (_process_accumulated_messages_resume env (task_jid t) k)
                             (fun _ => pass) s)).
  assert (Hc : same_core s s1).
  { unfold s1. apply preserves_try_except; [exact _| |intros e; apply preserves_pass; exact _].
    apply same_core_resume. }
  apply same_core_acc_core in Hc.
  pose proof (wf_acc_core _ _ Hc Hwf) as [W1 W2 W3 W4 W5 W6 W7].
  destruct Hc as (_ & Ht & _).
  rewrite <- Ht in Hl.
  unfold set_status. constructor; simpl.
  - intros jid tid' Hpt'.
    destruct (W1 _ _ Hpt') as (t0 & Hl0 & Hj0 & Hs0).
    exists t0. split; [|auto].
    rewrite list_lookup_alter_ne; [assumption|]. intros ->. congruence.
  - intros tid' t' Hl' Hst'.
    apply lookup_set_status in Hl' as (t0 & Hl0 & Hj & _ & [[Hne ->]|[-> Hs]]).
    + eauto.
    + congruence.
  - intros tid' t' Hl'.
    apply lookup_set_status in Hl' as (t0 & Hl0 & Hj & _ & [[Hne ->]|[-> Hs]]).
    + eauto.
    + rewrite Hs. discriminate.
  - intros u Hu. destruct (W4 _ Hu) as (t0 & Hl0 & Hj0 & Hf0).
    destruct (decide (turn_task u = tid)) as [He|Hne].
    + exists (task_set_status Finished t0). rewrite He in *.
      rewrite list_lookup_alter_eq, Hl0. simpl. auto.
    + exists t0. rewrite list_lookup_alter_ne by congruence. auto.
  - assumption.
  - assumption.
  - assumption.
Qed.

Lemma wf_step a s s' : wf s -> step env a s = Some s' -> wf s'.
Proof.
  intros Hwf. destruct a as [dt|data|tid|tid]; simpl.
  - destruct (0 <=? dt); [|discriminate]. intros [= <-]. now apply wf_tick.
  - intros [= <-]. now apply wf_deliver.
  - now apply wf_wake.
  - now apply wf_resume.
Qed.

Lemma wf_exec sched : forall s s', wf s -> exec env sched s = Some s' -> wf s'.
Proof.
  induction sched as [|a rest IH]; intros s s' Hwf; simpl.
  - now intros [= <-].
  - destruct (step env a s) as [s1|] eqn:Hs; [|discriminate].
    intros He. eapply IH; [|exact He]. eapply wf_step; eauto.
Qed.

Lemma wf_init : wf Sys_init.
Proof.
  constructor; simpl; try done.
  - intros u Hu. apply elem_of_nil in Hu. contradiction.
  - apply NoDup_nil. constructor.
Qed.

End Invariant.

(** ** Bursts: one conversation, one timer, one turn *)

Section Burst.
Context (env : Env) (c : string).

Local Abbreviation D := (MESSAGE_ACCUMULATION_SECONDS (settings env)).

Lemma fmap_alter_same {A B} (g : A -> B) (f : A -> A) (l : list A) : forall i,
  (forall x, g (f x) = g x) -> g <$> alter f i l = g <$> l.
Proof.
  induction l as [|x l IH]; intros i Hg; [reflexivity|].
  destruct i as [|i]; simpl.
  - now rewrite Hg.
  - f_equal. now apply IH.
Qed.

Lemma jids_set_status tid st (ts : list Task) :
  task_jid <$> alter (task_set_status st) tid ts = task_jid <$> ts.
Proof. apply fmap_alter_same. reflexivity. Qed.

Lemma jids_cancel tid (ts : list Task) :
  task_jid <$> alter (fun t => if task_done t then t else task_cancel t) tid ts
  = task_jid <$> ts.
Proof. apply fmap_alter_same. intros x. destruct (task_done x); reflexivity. Qed.

(** What [accumulate] does to the tasks of a well-formed system: the timer
    of the conversation, if any, is cancelled, and a new sleeping task is
    appended. *)
Lemma accumulate_effect remote_jid text s :
  wf s ->
  let s' := snd (accumulate env remote_jid text s) in
  exists ts,
    tasks s' = ts ++ [{| task_jid := remote_jid; task_due := now s + D;
                         task_status_of := Sleeping |}]
    /\ length ts = length (tasks s)
    /\ task_jid <$> ts = task_jid <$> tasks s
    /\ (forall tid t', ts !! tid = Some t' ->
          exists t, tasks s !! tid = Some t /\ task_jid t' = task_jid t
                    /\ task_due t' = task_due t
                    /\ (pending_message_tasks (bot s) !! remote_jid <> Some tid /\ t' = t
                        \/ pending_message_tasks (bot s) !! remote_jid = Some tid
                           /\ task_status_of t' = Cancelled))
    /\ pending_message_tasks (bot s')
       = <[remote_jid := length (tasks s)]> (pending_message_tasks (bot s))
    /\ pending_messages (bot s')
       = <[remote_jid := default [] (pending_messages (bot s) !! remote_jid) ++ [text]]>
           (pending_messages (bot s))
    /\ turns s' = turns s /\ now s' = now s
    /\ processed_message_ids (bot s') = processed_message_ids (bot s).
Proof.
  intros Hwf. cbv zeta. rewrite accumulate_run. cbv zeta. simpl snd.
  set (old := pending_message_tasks (bot s) !! remote_jid) in *.
  eexists. split; [reflexivity|].
  assert (Hlen : length (match old with
                         | Some old_task =>
                             alter (fun t => if task_done t then t else task_cancel t)
                                   old_task (tasks s)
                         | None => tasks s
                         end) = length (tasks s)).
  { destruct old; [apply length_alter|reflexivity]. }
  split; [exact Hlen|].
  split; [destruct old; [apply jids_cancel|reflexivity]|].
  split.
  - intros tid t' Hl. destruct old as [o|] eqn:Ho.
    + apply lookup_cancel in Hl as (t0 & Hl0 & Hj & Hd & Hcase).
      exists t0. repeat (split; [assumption|]).
      destruct (wf_timer _ Hwf _ _ Ho) as (to & Hlo & _ & Hso).
      destruct Hcase as [[-> [Hne|Hns]]|[(-> & _ & Hc)|(-> & [k Hk] & _)]].
      * left. split; [congruence|reflexivity].
      * destruct (decide (tid = o)) as [->|Hne]; [congruence|].
        left. split; [congruence|reflexivity].
      * right. auto.
      * congruence.
    + exists t'. repeat (split; [auto|]). left. split; [discriminate|reflexivity].
  - simpl. rewrite Hlen. auto.
Qed.

(** Every step keeps the tasks it finds: their conversation and due time do
    not change, a cancelled task stays cancelled, a task that sleeps after
    the step slept before it; and the only task a step can add is the timer
    of the conversation whose event it delivers. *)
Lemma step_tasks a s s' :
  wf s -> step env a s = Some s' ->
  (exists extra,
     task_jid <$> tasks s' = (task_jid <$> tasks s) ++ extra
     /\ (extra = []
         \/ exists data jid, a = Deliver data /\ event_jid data = Some jid
                             /\ extra = [jid]))
  /\ (forall tid t, tasks s !! tid = Some t ->
        exists t', tasks s' !! tid = Some t' /\ task_jid t' = task_jid t
                   /\ task_due t' = task_due t
                   /\ (task_status_of t = Cancelled -> task_status_of t' = Cancelled)
                   /\ (task_status_of t' = Sleeping -> t' = t)).
Proof.
  intros Hwf Hstep.
  assert (Hsame : tasks s' = tasks s ->
            (exists extra,
               task_jid <$> tasks s' = (task_jid <$> tasks s) ++ extra
               /\ (extra = []
                   \/ exists data jid, a = Deliver data /\ event_jid data = Some jid
                                       /\ extra = [jid]))
            /\ (forall tid t, tasks s !! tid = Some t ->
                  exists t', tasks s' !! tid = Some t' /\ task_jid t' = task_jid t
                             /\ task_due t' = task_due t
                             /\ (task_status_of t = Cancelled -> task_status_of t' = Cancelled)
                             /\ (task_status_of t' = Sleeping -> t' = t))).
  { intros ->. split.
    - exists []. rewrite app_nil_r. auto.
    - intros tid t Hl. exists t. auto. }
  assert (Hstatus : forall tid0 st,
            (exists t0, tasks s !! tid0 = Some t0 /\ task_status_of t0 <> Cancelled) ->
            st <> Sleeping ->
            tasks s' = alter (task_set_status st) tid0 (tasks s) ->
            (exists extra,
               task_jid <$> tasks s' = (task_jid <$> tasks s) ++ extra
               /\ (extra = []
                   \/ exists data jid, a = Deliver data /\ event_jid data = Some jid
                                       /\ extra = [jid]))
            /\ (forall tid t, tasks s !! tid = Some t ->
                  exists t', tasks s' !! tid = Some t' /\ task_jid t' = task_jid t
                             /\ task_due t' = task_due t
                             /\ (task_status_of t = Cancelled -> task_status_of t' = Cancelled)
                             /\ (task_status_of t' = Sleeping -> t' = t))).
  { intros tid0 st (t0 & Hl0 & Hnc) Hns ->. split.
    - exists []. rewrite app_nil_r, jids_set_status. auto.
    - intros tid t Hl. destruct (decide (tid = tid0)) as [->|Hne].
      + exists (task_set_status st t). rewrite list_lookup_alter_eq, Hl. simpl.
        repeat split; auto; [congruence|]. intros Hst. congruence.
      + exists t. rewrite list_lookup_alter_ne by congruence. auto. }
  destruct a as [dt|data|tid|tid]; simpl in Hstep.
  - destruct (0 <=? dt); [|discriminate]. injection Hstep as <-. now apply Hsame.
  - injection Hstep as <-.
    assert (Hs : snd (background_process_event env data s)
                 = snd (process_single_event env data s)).
    { unfold background_process_event, try_except.
      destruct (process_single_event env data s) as [[[]|e] s1]; reflexivity. }
    rewrite Hs in *. clear Hstatus.
    destruct (process_single_event_effect env data s)
      as [_ [Hc|(j & text & s0 & Hj & Hc & Hacc)]].
    + apply Hsame. destruct Hc as (_ & Ht & _). exact Ht.
    + rewrite Hacc. clear Hsame.
      pose proof (wf_acc_core _ _ Hc Hwf) as Hwf0.
      destruct (accumulate_effect j text s0 Hwf0)
        as (ts & Hts & Hlen & Hjids & Hlook & _).
      destruct Hc as (_ & Ht0 & _). rewrite Ht0 in *.
      split.
      * exists [j]. rewrite Hts, fmap_app, Hjids. split; [reflexivity|].
        right. exists data, j. auto.
      * intros tid t Hl.
        assert (Hlt : (tid < length ts)%nat) by (rewrite Hlen; eapply lookup_lt_Some; eauto).
        destruct (lookup_lt_is_Some_2 ts tid Hlt) as [t' Hl'].
        exists t'. rewrite Hts, lookup_app_l by assumption.
        destruct (Hlook _ _ Hl') as (t0 & Hl0 & Hj0 & Hd0 & Hcase).
        assert (t0 = t) by congruence. subst t0.
        repeat split; auto.
        -- destruct Hcase as [[_ ->]|[_ Hc']]; auto.
        -- destruct Hcase as [[_ ->]|[_ Hc']]; [auto|congruence].
  - unfold wake in Hstep.
    destruct (tasks s !! tid) as [t|] eqn:Hl; [|discriminate].
    destruct (task_status_of t) eqn:Hst; try discriminate.
    destruct (task_due t <=? now s); [|discriminate].
    pose proof (begin_effect tid (task_jid t) s) as Hb. cbv zeta in Hb.
    destruct (_process_accumulated_messages_begin tid (task_jid t) s) as [r s1].
    simpl in Hb. destruct Hb as ([k ->] & _ & Ht & _).
    destruct k as [k|]; injection Hstep as <-.
    + eapply (Hstatus tid (Running k)); [|discriminate|].
      * exists t. split; [assumption|congruence].
      * unfold set_status. simpl. now rewrite Ht.
    + eapply (Hstatus tid Finished); [|discriminate|].
      * exists t. split; [assumption|congruence].
      * unfold set_status. simpl. now rewrite Ht.
  - unfold resume in Hstep.
    destruct (tasks s !! tid) as [t|] eqn:Hl; [|discriminate].
    destruct (task_status_of t) eqn:Hst; try discriminate.
    injection Hstep as <-.
    pose proof (preserves_try_except same_core _ (fun _ => pass)
                  (same_core_resume env (task_jid t) k)
                  (fun e => preserves_pass same_core) s) as Hc.
    destruct Hc as (_ & Ht & _).
    eapply (Hstatus tid Finished); [|discriminate|].
    + exists t. split; [assumption|congruence].
    + unfold set_status. simpl. now rewrite Ht.
Qed.

Lemma others_cancelled_step a s s' n0 live :
  wf s -> step env a s = Some s' -> others_cancelled c n0 live s ->
  (forall data, a = Deliver data -> event_jid data <> Some c) ->
  others_cancelled c n0 live s'.
Proof.
  intros Hwf Hstep Hoc Hforeign tid t' Hn0 Hl' Hj'.
  destruct (step_tasks a s s' Hwf Hstep) as [(extra & Hjids & Hextra) Hkeep].
  destruct (decide (tid < length (tasks s))%nat) as [Hlt|Hge].
  - destruct (lookup_lt_is_Some_2 _ _ Hlt) as [t Hl].
    destruct (Hkeep _ _ Hl) as (t'' & Hl'' & Hj & _ & Hc & _).
    assert (t'' = t') by congruence. subst t''.
    destruct (Hoc tid t Hn0 Hl) as [Hlive|Hcan]; [congruence|auto|auto].
  - exfalso.
    assert (Hc : (task_jid <$> tasks s') !! tid = Some c).
    { rewrite list_lookup_fmap, Hl'. simpl. congruence. }
    rewrite Hjids in Hc. rewrite lookup_app_r in Hc by (rewrite length_fmap; lia).
    destruct Hextra as [->|(data & jid & -> & Hjid & ->)].
    + now rewrite lookup_nil in Hc.
    + destruct (tid - length (task_jid <$> tasks s))%nat; simpl in Hc; [|discriminate].
      injection Hc as ->. eapply Hforeign; eauto.
Qed.

Lemma timers_started_step a s s' :
  wf s -> step env a s = Some s' ->
  (forall data, a = Deliver data -> event_jid data <> Some c) ->
  timers_started c s' = timers_started c s.
Proof.
  intros Hwf Hstep Hforeign. unfold timers_started.
  destruct (step_tasks a s s' Hwf Hstep) as [(extra & Hjids & Hextra) _].
  rewrite Hjids, filter_app, length_app.
  destruct Hextra as [->|(data & jid & -> & Hjid & ->)]; [simpl; lia|].
  rewrite filter_cons_False, filter_nil; [simpl; lia|].
  intros ->. eapply Hforeign; eauto.
Qed.

(** The dedup cache after a step holds at most what it held and the id of
    the delivered event. *)
Lemma step_dedup a s s' :
  step env a s = Some s' ->
  forall k, k ∈ _data (processed_message_ids (bot s')) ->
            k ∈ _data (processed_message_ids (bot s))
            \/ exists data, a = Deliver data /\ event_id data = Some k.
Proof.
  intros Hstep k Hk. destruct a as [dt|data|tid|tid]; simpl in Hstep.
  - destruct (0 <=? dt); [|discriminate]. injection Hstep as <-. auto.
  - injection Hstep as <-.
    assert (Hs : snd (background_process_event env data s)
                 = snd (process_single_event env data s)).
    { unfold background_process_event, try_except.
      destruct (process_single_event env data s) as [[[]|e] s1]; reflexivity. }
    rewrite Hs in Hk.
    destruct (process_single_event_effect env data s) as [Hids _].
    destruct (Hids k Hk); eauto.
  - unfold wake in Hstep.
    destruct (tasks s !! tid) as [t|]; [|discriminate].
    destruct (task_status_of t); try discriminate.
    destruct (task_due t <=? now s); [|discriminate].
    pose proof (begin_effect tid (task_jid t) s) as Hb. cbv zeta in Hb.
    destruct (_process_accumulated_messages_begin tid (task_jid t) s) as [r s1].
    simpl in Hb. destruct Hb as ([k0 ->] & _ & _ & _ & _ & _ & Hids & _).
    left. destruct k0; injection Hstep as <-; simpl in Hk; now rewrite Hids in Hk.
  - unfold resume in Hstep.
    destruct (tasks s !! tid) as [t|]; [|discriminate].
    destruct (task_status_of t); try discriminate.
    injection Hstep as <-.
    pose proof (preserves_try_except same_core _ (fun _ => pass)
                  (same_core_resume env (task_jid t) k0)
                  (fun e => preserves_pass same_core) s) as Hc.
    destruct Hc as (_ & _ & _ & _ & _ & Hids & _).
    left. simpl in Hk. now rewrite Hids in Hk.
Qed.

Lemma fresh_ids_step a rest s s' :
  fresh_ids (a :: rest) s -> step env a s = Some s' -> fresh_ids rest s'.
Proof.
  intros [Hnd Hfresh] Hstep.
  assert (Hsub : forall i, i ∈ sched_ids rest -> i ∈ sched_ids (a :: rest)).
  { intros i Hi. destruct a as [dt|data|tid|tid]; simpl; auto.
    destruct (event_id data); [now right|assumption]. }
  split.
  - destruct a as [dt|data|tid|tid]; simpl in Hnd; auto.
    destruct (event_id data); [now apply NoDup_cons in Hnd as [_ Hnd]|assumption].
  - intros i Hi Hin.
    destruct (step_dedup a s s' Hstep i Hin) as [Hold|(data & -> & Hid)].
    + eapply Hfresh; eauto.
    + simpl in Hnd. rewrite Hid in Hnd. apply NoDup_cons in Hnd as [Hni _].
      contradiction.
Qed.

(** Only a tick moves the clock, and it moves it forward. *)
Lemma step_clock a s s' :
  step env a s = Some s' ->
  match a with
  | Tick dt => 0 <= dt /\ now s' = now s + dt
  | _ => now s' = now s
  end.
Proof.
  intros Hstep. destruct a as [dt|data|tid|tid]; simpl in Hstep.
  - destruct (Z.leb_spec 0 dt); [|discriminate]. injection Hstep as <-. auto.
  - injection Hstep as <-.
    assert (Hs : snd (background_process_event env data s)
                 = snd (process_single_event env data s)).
    { unfold background_process_event, try_except.
      destruct (process_single_event env data s) as [[[]|e] s1]; reflexivity. }
    rewrite Hs.
    destruct (process_single_event_effect env data s)
      as [_ [Hc|(j & text & s0 & _ & Hc & ->)]].
    + apply Hc.
    + rewrite accumulate_run. simpl. apply Hc.
  - unfold wake in Hstep.
    destruct (tasks s !! tid) as [t|]; [|discriminate].
    destruct (task_status_of t); try discriminate.
    destruct (task_due t <=? now s); [|discriminate].
    pose proof (begin_effect tid (task_jid t) s) as Hb. cbv zeta in Hb.
    destruct (_process_accumulated_messages_begin tid (task_jid t) s) as [r s1].
    simpl in Hb. destruct Hb as ([k0 ->] & Hn & _).
    destruct k0; injection Hstep as <-; exact Hn.
  - unfold resume in Hstep.
    destruct (tasks s !! tid) as [t|]; [|discriminate].
    destruct (task_status_of t); try discriminate.
    injection Hstep as <-.
    pose proof (preserves_try_except same_core _ (fun _ => pass)
                  (same_core_resume env (task_jid t) k)
                  (fun e => preserves_pass same_core) s) as Hc.
    apply Hc.
Qed.

(** A step that neither delivers an event of [c] nor wakes the timer of [c]
    leaves the buffer, the timer entry and the turns of [c] as they were. *)
Lemma step_neutral a s s' :
  wf s -> step env a s = Some s' ->
  (forall data, a = Deliver data -> event_jid data <> Some c) ->
  (forall tid, a = Wake tid -> pending_message_tasks (bot s) !! c <> Some tid) ->
  pending_messages (bot s') !! c = pending_messages (bot s) !! c
  /\ pending_message_tasks (bot s') !! c = pending_message_tasks (bot s) !! c
  /\ turns_of c s' = turns_of c s.
Proof.
  intros Hwf Hstep Hforeign Hother. unfold turns_of.
  destruct a as [dt|data|tid|tid]; simpl in Hstep.
  - destruct (0 <=? dt); [|discriminate]. injection Hstep as <-. auto.
  - injection Hstep as <-.
    assert (Hs : snd (background_process_event env data s)
                 = snd (process_single_event env data s)).
    { unfold background_process_event, try_except.
      destruct (process_single_event env data s) as [[[]|e] s1]; reflexivity. }
    rewrite Hs.
    destruct (process_single_event_effect env data s)
      as [_ [Hc|(j & text & s0 & Hj & Hc & ->)]].
    + destruct Hc as (_ & _ & -> & -> & -> & _). auto.
    + assert (Hne : j <> c) by (intros ->; eapply Hforeign; eauto).
      rewrite accumulate_run. simpl.
      rewrite !lookup_insert_ne by assumption.
      destruct Hc as (_ & _ & -> & -> & -> & _). auto.
  - unfold wake in Hstep.
    destruct (tasks s !! tid) as [t|] eqn:Hl; [|discriminate].
    destruct (task_status_of t) eqn:Hst; try discriminate.
    destruct (task_due t <=? now s); [|discriminate].
    assert (Hne : task_jid t <> c).
    { intros Hc. apply (Hother tid eq_refl). rewrite <- Hc.
      eapply wf_sleeping; eauto. }
    pose proof (begin_effect tid (task_jid t) s) as Hb. cbv zeta in Hb.
    destruct (_process_accumulated_messages_begin tid (task_jid t) s) as [r s1].
    simpl in Hb. destruct Hb as ([k0 ->] & _ & _ & _ & Hpm & Hpt & _ & Hempty & Hsome).
    assert (Hgoal : pending_messages (bot s1) !! c = pending_messages (bot s) !! c
                    /\ pending_message_tasks (bot s1) !! c
                       = pending_message_tasks (bot s) !! c
                    /\ filter (fun u => turn_jid u = c) (turns s1)
                       = filter (fun u => turn_jid u = c) (turns s)).
    { rewrite Hpm, Hpt, !lookup_delete_ne by assumption.
      split; [reflexivity|]. split; [reflexivity|].
      destruct (default [] (pending_messages (bot s) !! task_jid t)) as [|m rest].
      - destruct Hempty as [-> _]; reflexivity.
      - destruct Hsome as (sup & -> & _); [discriminate|].
        rewrite filter_app, filter_cons_False, filter_nil, app_nil_r; [reflexivity|].
        simpl. assumption. }
    destruct k0; injection Hstep as <-; exact Hgoal.
  - unfold resume in Hstep.
    destruct (tasks s !! tid) as [t|]; [|discriminate].
    destruct (task_status_of t); try discriminate.
    injection Hstep as <-.
    pose proof (preserves_try_except same_core _ (fun _ => pass)
                  (same_core_resume env (task_jid t) k)
                  (fun e => preserves_pass same_core) s) as Hc.
    destruct Hc as (_ & _ & Hu & _ & _ & _ & _ & Hpm & Hpt).
    simpl. rewrite Hu, Hpm, Hpt. auto.
Qed.

(** The timer of a collecting conversation fires: the delay has elapsed,
    the buffer is taken, and one turn carries the joined texts. *)
Lemma wake_flush tid s s' acc due :
  wf s -> collecting c acc tid due s -> wake tid s = Some s' ->
  due <= now s /\ idle c s'
  /\ exists u, turns_of c s' = turns_of c s ++ [u] /\ turn_task u = tid
               /\ turn_text u = Py.join " | " acc.
Proof.
  intros Hwf (Hpm & Hpt & t0 & Hl0 & Hdue) Hwake. unfold wake in Hwake.
  rewrite Hl0 in Hwake.
  destruct (wf_timer _ Hwf _ _ Hpt) as (t & Hl & Hj & Hst).
  assert (t = t0) by congruence. subst t0.
  rewrite Hst in Hwake.
  destruct (Z.leb_spec (task_due t) (now s)) as [Hle|]; [|discriminate].
  split; [lia|].
  pose proof (begin_effect tid (task_jid t) s) as Hb. cbv zeta in Hb.
  destruct (_process_accumulated_messages_begin tid (task_jid t) s) as [r s1].
  simpl in Hb. destruct Hb as ([k0 ->] & _ & _ & _ & _ & Hpt1 & _ & _ & Hsome).
  rewrite Hj, Hpm in Hsome. simpl in Hsome.
  pose proof (wf_buffer _ Hwf c) as Hbuf. rewrite Hpt in Hbuf.
  destruct Hbuf as (msgs & Hmsgs & Hne).
  assert (msgs = acc) by congruence. subst msgs.
  destruct (Hsome Hne) as (sup & Hturns & _).
  assert (Hgoal : idle c s1
            /\ exists u, filter (fun u => turn_jid u = c) (turns s1)
                         = filter (fun u => turn_jid u = c) (turns s) ++ [u]
                         /\ turn_task u = tid /\ turn_text u = Py.join " | " acc).
  { split.
    - unfold idle. rewrite Hpt1, Hj. apply lookup_delete_eq.
    - eexists. rewrite Hturns, filter_app, filter_cons_True by (simpl; congruence).
      rewrite filter_nil. split; [reflexivity|]. simpl. auto. }
  unfold turns_of, idle.
  destruct k0; injection Hwake as <-; exact Hgoal.
Qed.

(** An inbound text of [c] is delivered: the text joins the buffer, the
    timer of [c] is cancelled and a new one, due a full delay later, takes
    its place. *)
Lemma deliver_collect data text s s' :
  wf s -> burst_event c data = Some text ->
  (forall i, event_id data = Some i -> i ∉ _data (processed_message_ids (bot s))) ->
  step env (Deliver data) s = Some s' ->
  collecting c (default [] (pending_messages (bot s) !! c) ++ [text])
             (length (tasks s)) (now s + D) s'
  /\ turns s' = turns s /\ now s' = now s
  /\ timers_started c s' = S (timers_started c s)
  /\ (forall n0, others_cancelled c n0 (pending_message_tasks (bot s) !! c) s ->
                 others_cancelled c n0 (Some (length (tasks s))) s').
Proof.
  intros Hwf Hb Hfresh Hstep. simpl in Hstep. injection Hstep as <-.
  assert (Hs : snd (background_process_event env data s)
               = snd (process_single_event env data s)).
  { unfold background_process_event, try_except.
    destruct (process_single_event env data s) as [[[]|e] s1]; reflexivity. }
  rewrite Hs.
  destruct (deliver_burst_event env data c text s Hb Hfresh (wf_dedup _ Hwf))
    as (s0 & Hc & ->).
  pose proof (wf_acc_core _ _ Hc Hwf) as Hwf0.
  destruct (accumulate_effect c text s0 Hwf0)
    as (ts & Hts & Hlen & Hjids & Hlook & Hpt & Hpm & Hturns & Hnow & _).
  destruct Hc as (Hn0 & Ht0 & Hu0 & Hpm0 & Hpt0 & _).
  rewrite Ht0, Hn0, Hpm0, Hpt0 in *.
  repeat apply conj.
  - rewrite Hpm. apply lookup_insert_eq.
  - rewrite Hpt. apply lookup_insert_eq.
  - eexists. rewrite Hts, lookup_app_r by lia.
    rewrite Hlen, Nat.sub_diag. simpl. split; reflexivity.
  - congruence.
  - congruence.
  - unfold timers_started. rewrite Hts, fmap_app, Hjids, filter_app, length_app.
    simpl. rewrite filter_cons_True by reflexivity. simpl. lia.
  - intros n0 Hoc tid t' Hn Hl' Hj'.
    rewrite Hts in Hl'. apply lookup_snoc_inv in Hl' as [[Hlt Hl']|[-> _]].
    + right. destruct (Hlook _ _ Hl') as (t & Hl & Hj & _ & [[Hne ->]|[_ Hcan]]);
        [|assumption].
      destruct (Hoc tid t Hn Hl Hj') as [Hlive|Hcan]; [congruence|assumption].
    + left. now rewrite Hlen.
Qed.

Lemma tasks_grow a s s' :
  wf s -> step env a s = Some s' -> (length (tasks s) <= length (tasks s'))%nat.
Proof.
  intros Hwf Hstep.
  destruct (step_tasks a s s' Hwf Hstep) as [(extra & Hjids & _) _].
  apply (f_equal length) in Hjids. rewrite length_app, !length_fmap in Hjids. lia.
Qed.

(** Once the timer of [c] has fired and the delay is over, the rest of a
    burst schedule holds no event of [c]: nothing more happens to [c]. *)
Lemma after_flush sched : forall s s' g texts n0 live,
  wf s -> idle c s -> D <= g -> others_cancelled c n0 live s ->
  exec env sched s = Some s' -> burst c D (Some g) sched = Some texts ->
  texts = [] /\ turns_of c s' = turns_of c s /\ idle c s'
  /\ others_cancelled c n0 live s' /\ timers_started c s' = timers_started c s.
Proof.
  induction sched as [|a rest IH]; intros s s' g texts n0 live Hwf Hidle Hg Hoc Hexec Hb.
  - simpl in *. injection Hexec as <-. injection Hb as <-. auto.
  - simpl in Hexec. destruct (step env a s) as [s1|] eqn:Hstep; [|discriminate].
    assert (Hf : forall data, a = Deliver data -> event_jid data <> Some c).
    { intros data -> Hj. simpl in Hb.
      rewrite bool_decide_eq_true_2 in Hb by assumption.
      destruct (burst_event c data); [|discriminate].
      destruct (Z.ltb_spec g D); [lia|discriminate]. }
    assert (Hw : forall tid, a = Wake tid -> pending_message_tasks (bot s) !! c <> Some tid).
    { intros tid _. unfold idle in Hidle. rewrite Hidle. discriminate. }
    destruct (step_neutral a s s1 Hwf Hstep Hf Hw) as (_ & Hpt & Hturns).
    pose proof (others_cancelled_step a s s1 n0 live Hwf Hstep Hoc Hf) as Hoc1.
    pose proof (timers_started_step a s s1 Hwf Hstep Hf) as Hts1.
    pose proof (wf_step env a s s1 Hwf Hstep) as Hwf1.
    pose proof (step_clock a s s1 Hstep) as Hclock.
    assert (Hidle1 : idle c s1) by (unfold idle in *; congruence).
    assert (Hb1 : exists g1, D <= g1 /\ burst c D (Some g1) rest = Some texts).
    { destruct a as [dt|data|tid|tid]; simpl in Hb.
      - exists (dt + g). split; [lia|assumption].
      - rewrite bool_decide_eq_false_2 in Hb by (apply Hf; reflexivity). eauto.
      - eauto.
      - eauto. }
    destruct Hb1 as (g1 & Hg1 & Hb1).
    destruct (IH s1 s' g1 texts n0 live Hwf1 Hidle1 Hg1 Hoc1 Hexec Hb1)
      as (Ht & Hu & Hi & Ho & Hn).
    repeat split; try assumption; congruence.
Qed.

(** A collecting conversation, to the end of a burst schedule: when the
    schedule leaves [c] without a timer, exactly one turn was taken, with
    the buffered texts and those that arrived since, in order; every timer
    of [c] but the one that took the turn is cancelled. *)
Lemma from_collecting sched : forall s s' acc tid g texts n0,
  wf s -> fresh_ids sched s -> 0 <= g ->
  collecting c acc tid (now s - g + D) s ->
  others_cancelled c n0 (Some tid) s -> (n0 <= tid)%nat ->
  exec env sched s = Some s' -> burst c D (Some g) sched = Some texts ->
  idle c s' ->
  exists u, turns_of c s' = turns_of c s ++ [u]
            /\ turn_text u = Py.join " | " (acc ++ texts)
            /\ (n0 <= turn_task u)%nat
            /\ others_cancelled c n0 (Some (turn_task u)) s'
            /\ timers_started c s' = (timers_started c s + length texts)%nat.
Proof.
  induction sched as [|a rest IH];
    intros s s' acc tid g texts n0 Hwf Hfresh Hg Hcol Hoc Hn0 Hexec Hb Hidle.
  - simpl in Hexec. injection Hexec as <-.
    destruct Hcol as (_ & Hpt & _). unfold idle in Hidle. congruence.
  - simpl in Hexec. destruct (step env a s) as [s1|] eqn:Hstep; [|discriminate].
    pose proof (wf_step env a s s1 Hwf Hstep) as Hwf1.
    pose proof (fresh_ids_step a rest s s1 Hfresh Hstep) as Hfresh1.
    pose proof (step_clock a s s1 Hstep) as Hclock.
    destruct Hcol as (Hpm & Hpt & t & Hl & Hdue).
    (* a step that is neutral for [c] *)
    assert (Hneutral : forall g1,
              (forall data, a = Deliver data -> event_jid data <> Some c) ->
              (forall tid', a = Wake tid' -> tid' <> tid) ->
              now s1 - g1 = now s - g -> 0 <= g1 ->
              burst c D (Some g1) rest = Some texts ->
              exists u, turns_of c s' = turns_of c s ++ [u]
                        /\ turn_text u = Py.join " | " (acc ++ texts)
                        /\ (n0 <= turn_task u)%nat
                        /\ others_cancelled c n0 (Some (turn_task u)) s'
                        /\ timers_started c s' = (timers_started c s + length texts)%nat).
    { intros g1 Hf Hw Hnow Hg1 Hb1.
      assert (Hw' : forall tid', a = Wake tid' ->
                      pending_message_tasks (bot s) !! c <> Some tid').
      { intros tid' Ha. rewrite Hpt. intros [= <-]. eapply Hw; eauto. }
      destruct (step_neutral a s s1 Hwf Hstep Hf Hw') as (Hpm1 & Hpt1 & Hturns1).
      pose proof (others_cancelled_step a s s1 n0 _ Hwf Hstep Hoc Hf) as Hoc1.
      pose proof (timers_started_step a s s1 Hwf Hstep Hf) as Hts1.
      destruct (step_tasks a s s1 Hwf Hstep) as [_ Hkeep].
      destruct (Hkeep _ _ Hl) as (t1 & Hl1 & _ & Hd1 & _).
      assert (Hcol1 : collecting c acc tid (now s1 - g1 + D) s1).
      { unfold collecting. rewrite Hpm1, Hpt1. repeat split; try assumption.
        exists t1. split; [assumption|]. rewrite Hd1, Hdue. lia. }
      destruct (IH s1 s' acc tid g1 texts n0 Hwf1 Hfresh1 Hg1 Hcol1 Hoc1 Hn0 Hexec Hb1 Hidle)
        as (u & Hu & Htext & Hnu & Hocu & Htsu).
      exists u. rewrite Hu, Hturns1, Htsu, Hts1. auto. }
    destruct a as [dt|data|tid'|tid']; simpl in Hb.
    + destruct Hclock as [Hdt Hnow].
      apply (Hneutral (dt + g)); try (intros; discriminate); try lia; assumption.
    + destruct (bool_decide (event_jid data = Some c)) eqn:Hj.
      * apply bool_decide_eq_true in Hj.
        destruct (burst_event c data) as [text|] eqn:Hev; [|discriminate].
        destruct (Z.ltb_spec g D) as [Hlt|]; [|discriminate].
        destruct (burst c D (Some 0) rest) as [texts'|] eqn:Hb1; [|discriminate].
        simpl in Hb. injection Hb as <-.
        assert (Hfr : forall i, event_id data = Some i ->
                        i ∉ _data (processed_message_ids (bot s))).
        { intros i Hi. apply Hfresh. simpl. rewrite Hi. now left. }
        destruct (deliver_collect data text s s1 Hwf Hev Hfr Hstep)
          as (Hcol1 & Hturns1 & Hnow1 & Hts1 & Hoc1).
        rewrite Hpm in Hcol1. simpl in Hcol1.
        rewrite Hpt in Hoc1. specialize (Hoc1 n0 Hoc).
        assert (Hcol1' : collecting c (acc ++ [text]) (length (tasks s))
                                    (now s1 - 0 + D) s1).
        { rewrite Hnow1. replace (now s - 0 + D) with (now s + D) by lia. exact Hcol1. }
        assert (Hn1 : (n0 <= length (tasks s))%nat).
        { apply lookup_lt_Some in Hl. lia. }
        destruct (IH s1 s' (acc ++ [text]) (length (tasks s)) 0 texts' n0
                    Hwf1 Hfresh1 ltac:(lia) Hcol1' Hoc1 Hn1 Hexec Hb1 Hidle)
          as (u & Hu & Htext & Hnu & Hocu & Htsu).
        exists u. unfold turns_of in *. rewrite Hu, Hturns1, Htsu, Hts1.
        rewrite <- app_assoc in Htext. simpl in *.
        repeat split; try assumption. lia.
      * apply bool_decide_eq_false in Hj.
        apply (Hneutral g); try (intros; discriminate); try lia; try assumption.
        intros data' [= <-]. assumption.
    + destruct (decide (tid' = tid)) as [->|Hne].
      * destruct (wake_flush tid s s1 acc (task_due t) Hwf) as (Hle & Hidle1 & u & Hu & Hut & Hux).
        { unfold collecting. eauto. }
        { exact Hstep. }
        assert (Hoc1 : others_cancelled c n0 (Some tid) s1).
        { apply (others_cancelled_step (Wake tid) s s1 n0 (Some tid) Hwf Hstep Hoc).
          intros; discriminate. }
        assert (Hts1 : timers_started c s1 = timers_started c s).
        { apply (timers_started_step (Wake tid) s s1 Hwf Hstep).
          intros; discriminate. }
        destruct (after_flush rest s1 s' g texts n0 (Some tid) Hwf1 Hidle1
                    ltac:(lia) Hoc1 Hexec Hb) as (-> & Hturns & _ & Hocf & Htsf).
        exists u. rewrite Hturns, Hu, app_nil_r, Hut, Htsf, Hts1. simpl.
        repeat split; try assumption. lia.
      * apply (Hneutral g); try (intros; discriminate); try lia; try assumption.
        intros t0 [= <-]. assumption.
    + apply (Hneutral g); try (intros; discriminate); try lia; assumption.
Qed.

(** A conversation without a timer, to the end of a burst schedule. *)
Lemma from_idle sched : forall s s' texts n0,
  wf s -> fresh_ids sched s -> idle c s ->
  others_cancelled c n0 None s -> (n0 <= length (tasks s))%nat ->
  exec env sched s = Some s' -> burst c D None sched = Some texts ->
  texts <> [] -> idle c s' ->
  exists u, turns_of c s' = turns_of c s ++ [u]
            /\ turn_text u = Py.join " | " texts
            /\ (n0 <= turn_task u)%nat
            /\ others_cancelled c n0 (Some (turn_task u)) s'
            /\ timers_started c s' = (timers_started c s + length texts)%nat.
Proof.
  induction sched as [|a rest IH];
    intros s s' texts n0 Hwf Hfresh Hidle0 Hoc Hn0 Hexec Hb Hne Hidle.
  - simpl in Hb. injection Hb as <-. contradiction.
  - simpl in Hexec. destruct (step env a s) as [s1|] eqn:Hstep; [|discriminate].
    pose proof (wf_step env a s s1 Hwf Hstep) as Hwf1.
    pose proof (fresh_ids_step a rest s s1 Hfresh Hstep) as Hfresh1.
    pose proof (tasks_grow a s s1 Hwf Hstep) as Hgrow.
    assert (Hneutral :
              (forall data, a = Deliver data -> event_jid data <> Some c) ->
              burst c D None rest = Some texts ->
              exists u, turns_of c s' = turns_of c s ++ [u]
                        /\ turn_text u = Py.join " | " texts
                        /\ (n0 <= turn_task u)%nat
                        /\ others_cancelled c n0 (Some (turn_task u)) s'
                        /\ timers_started c s' = (timers_started c s + length texts)%nat).
    { intros Hf Hb1.
      assert (Hw' : forall tid', a = Wake tid' ->
                      pending_message_tasks (bot s) !! c <> Some tid').
      { intros tid' _. unfold idle in Hidle0. rewrite Hidle0. discriminate. }
      destruct (step_neutral a s s1 Hwf Hstep Hf Hw') as (_ & Hpt1 & Hturns1).
      pose proof (others_cancelled_step a s s1 n0 _ Hwf Hstep Hoc Hf) as Hoc1.
      pose proof (timers_started_step a s s1 Hwf Hstep Hf) as Hts1.
      assert (Hidle1 : idle c s1) by (unfold idle in *; congruence).
      destruct (IH s1 s' texts n0 Hwf1 Hfresh1 Hidle1 Hoc1 ltac:(lia) Hexec Hb1 Hne Hidle)
        as (u & Hu & Htext & Hnu & Hocu & Htsu).
      exists u. rewrite Hu, Hturns1, Htsu, Hts1. auto. }
    destruct a as [dt|data|tid'|tid']; simpl in Hb.
    + apply Hneutral; [intros; discriminate|assumption].
    + destruct (bool_decide (event_jid data = Some c)) eqn:Hj.
      * apply bool_decide_eq_true in Hj.
        destruct (burst_event c data) as [text|] eqn:Hev; [|discriminate].
        destruct (burst c D (Some 0) rest) as [texts'|] eqn:Hb1; [|discriminate].
        simpl in Hb. injection Hb as <-.
        assert (Hfr : forall i, event_id data = Some i ->
                        i ∉ _data (processed_message_ids (bot s))).
        { intros i Hi. apply Hfresh. simpl. rewrite Hi. now left. }
        destruct (deliver_collect data text s s1 Hwf Hev Hfr Hstep)
          as (Hcol1 & Hturns1 & Hnow1 & Hts1 & Hoc1).
        pose proof (wf_buffer _ Hwf c) as Hbuf.
        unfold idle in Hidle0. rewrite Hidle0 in Hbuf, Hoc1.
        rewrite Hbuf in Hcol1. simpl in Hcol1.
        specialize (Hoc1 n0 Hoc).
        assert (Hcol1' : collecting c [text] (length (tasks s)) (now s1 - 0 + D) s1).
        { rewrite Hnow1. replace (now s - 0 + D) with (now s + D) by lia. exact Hcol1. }
        destruct (from_collecting rest s1 s' [text] (length (tasks s)) 0 texts' n0
                    Hwf1 Hfresh1 ltac:(lia) Hcol1' Hoc1 Hn0 Hexec Hb1 Hidle)
          as (u & Hu & Htext & Hnu & Hocu & Htsu).
        exists u. unfold turns_of in *. rewrite Hu, Hturns1, Htsu, Hts1.
        simpl in *. repeat split; try assumption. lia.
      * apply bool_decide_eq_false in Hj.
        apply Hneutral; [|assumption]. intros data' [= <-]. assumption.
    + apply Hneutral; [intros; discriminate|assumption].
    + apply Hneutral; [intros; discriminate|assumption].
Qed.

Lemma exec_cancelled sched : forall s s' tid t,
  wf s -> exec env sched s = Some s' ->
  tasks s !! tid = Some t -> task_status_of t = Cancelled ->
  exists t', tasks s' !! tid = Some t' /\ task_status_of t' = Cancelled.
Proof.
  induction sched as [|a rest IH]; intros s s' tid t Hwf Hexec Hl Hst; simpl in Hexec.
  - injection Hexec as <-. eauto.
  - destruct (step env a s) as [s1|] eqn:Hstep; [|discriminate].
    destruct (step_tasks a s s1 Hwf Hstep) as [_ Hkeep].
    destruct (Hkeep _ _ Hl) as (t1 & Hl1 & _ & _ & Hc & _).
    apply (IH s1 s' tid t1); auto.
    eapply wf_step; eauto.
Qed.

Lemma others_cancelled_init s : others_cancelled c (length (tasks s)) None s.
Proof.
  intros tid t Hn Hl _. apply lookup_lt_Some in Hl. lia.
Qed.


(** C2.  Along any schedule from a well-formed system:
    - a cancelled timer has taken no turn, and stays cancelled;
    - no task is cancelled in the middle of a turn;
    - a timer takes at most one turn;
    - a conversation has at most one sleeping timer.
    And in a burst of N texts of [c] (as in C1): N timers were started for
    [c], one turn was taken, by one of them, and each of the others is
    cancelled. *)
Theorem cancelled_timer_never_fires sched s s' :
  wf s -> exec env sched s = Some s' ->
  (forall tid t, tasks s' !! tid = Some t -> task_status_of t = Cancelled ->
                 tid ∉ (turn_task <$> turns s'))
  /\ (forall tid t, tasks s !! tid = Some t -> task_status_of t = Cancelled ->
        exists t', tasks s' !! tid = Some t' /\ task_status_of t' = Cancelled)
  /\ (forall tid t, tasks s' !! tid = Some t -> task_status_of t <> Aborted)
  /\ NoDup (turn_task <$> turns s')
  /\ (forall tid1 tid2 t1 t2,
        tasks s' !! tid1 = Some t1 -> tasks s' !! tid2 = Some t2 ->
        task_status_of t1 = Sleeping -> task_status_of t2 = Sleeping ->
        task_jid t1 = task_jid t2 -> tid1 = tid2)
  /\ (forall texts,
        fresh_ids sched s -> idle c s ->
        burst c D None sched = Some texts -> texts <> [] -> idle c s' ->
        timers_started c s' = (timers_started c s + length texts)%nat
        /\ exists u,
             turns_of c s' = turns_of c s ++ [u]
             /\ (length (tasks s) <= turn_task u)%nat
             /\ forall tid t,
                  (length (tasks s) <= tid)%nat -> tasks s' !! tid = Some t ->
                  task_jid t = c -> tid <> turn_task u ->
                  task_status_of t = Cancelled).
Proof.
  intros Hwf Hexec.
  pose proof (wf_exec env sched s s' Hwf Hexec) as Hwf'.
  repeat apply conj.
  - intros tid t Hl Hst Hin.
    apply list_elem_of_fmap in Hin as (u & -> & Hu).
    destruct (wf_turns _ Hwf' u Hu) as (t0 & Hl0 & _ & Hf).
    assert (t0 = t) by congruence. subst t0. rewrite Hst in Hf. exact Hf.
  - intros tid t. apply (exec_cancelled sched s s' tid t Hwf Hexec).
  - apply (wf_not_aborted _ Hwf').
  - apply (wf_turn_once _ Hwf').
  - intros tid1 tid2 t1 t2 Hl1 Hl2 Hs1 Hs2 Hj.
    pose proof (wf_sleeping _ Hwf' _ _ Hl1 Hs1) as H1.
    pose proof (wf_sleeping _ Hwf' _ _ Hl2 Hs2) as H2.
    rewrite Hj in H1. congruence.
  - intros texts Hfresh Hidle0 Hb Hne Hidle.
    destruct (from_idle sched s s' texts (length (tasks s)) Hwf Hfresh Hidle0
                (others_cancelled_init s) (Nat.le_refl _) Hexec Hb Hne Hidle)
      as (u & Hu & _ & Hn & Hoc & Hts).
    split; [exact Hts|].
    exists u. repeat split; try assumption.
    intros tid t Hn0 Hl Hj Hneq.
    destruct (Hoc tid t Hn0 Hl Hj) as [Hlive|Hcan]; [congruence|assumption].
Qed.

End Burst.

(** * Silence *)

Section SilenceFacts.
Context (env : Env).

(** A turn taken while the silence entry reads as a time still to come: the
    function returns at the silence check, whatever the text is. *)
Lemma turn_while_silenced tid c v m rest s :
  silenced_users (bot s) !! c = Some v -> now s < as_number v ->
  pending_messages (bot s) !! c = Some (m :: rest) ->
  fst (_process_accumulated_messages_begin tid c s) = Ok None
  /\ silenced_users (bot (snd (_process_accumulated_messages_begin tid c s)))
     = silenced_users (bot s)
  /\ trace (snd (_process_accumulated_messages_begin tid c s)) = trace s.
Proof.
  intros Hv Hlt Hm.
  destruct (_process_accumulated_messages_begin tid c s) as [r s'] eqn:Hrun.
  unfold _process_accumulated_messages_begin, log_turn in Hrun. munfold.
  cbv beta iota zeta in Hrun. rewrite Hm in Hrun.
  change (default [] (Some (m :: rest))) with (m :: rest) in Hrun.
  cbv beta iota in Hrun.
  remember (combine (m :: rest)) as text eqn:Htext.
  rewrite check_silenced_run in Hrun. simpl in Hrun. rewrite Hv in Hrun.
  apply Z.ltb_lt in Hlt. rewrite Hlt in Hrun. simpl in Hrun.
  injection Hrun as <- <-. simpl. auto.
Qed.

(** A turn taken when the silence entry reads as a time that has passed:
    the entry is deleted and the turn goes on. *)
Lemma turn_after_silence tid c v m rest s :
  silenced_users (bot s) !! c = Some v -> as_number v <= now s ->
  pending_messages (bot s) !! c = Some (m :: rest) ->
  let text := combine (m :: rest) in
  let s' := snd (_process_accumulated_messages_begin tid c s) in
  fst (_process_accumulated_messages_begin tid c s)
  = Ok (Some (if String.eqb (Py.lower text) "/silencio" then KMuteReply
              else if String.eqb (Py.lower text) "/activar" then KUnmuteReply
              else KPipeline text))
  /\ silenced_users (bot s') !! c
     = (if String.eqb (Py.lower text) "/silencio" then Some SilenceTrue else None).
Proof.
  intros Hv Hle Hm. cbv zeta.
  destruct (_process_accumulated_messages_begin tid c s) as [r s'] eqn:Hrun.
  unfold _process_accumulated_messages_begin, log_turn in Hrun. munfold.
  cbv beta iota zeta in Hrun. rewrite Hm in Hrun.
  change (default [] (Some (m :: rest))) with (m :: rest) in Hrun.
  cbv beta iota in Hrun.
  remember (combine (m :: rest)) as text eqn:Htext.
  rewrite check_silenced_run in Hrun. simpl in Hrun. rewrite Hv in Hrun.
  apply Z.ltb_ge in Hle. rewrite Hle in Hrun. simpl in Hrun.
  destruct (String.eqb (Py.lower text) "/silencio");
    [|destruct (String.eqb (Py.lower text) "/activar")];
    injection Hrun as <- <-; simpl; split; try reflexivity;
    rewrite ?lookup_insert_eq, ?lookup_delete_eq; reflexivity.
Qed.

(** The entry written by "/silencio" is read by the silence check as the
    time 1 s. *)
Lemma permanent_entry_reads_as_one_second :
  isinstance_int_float SilenceTrue = true /\ as_number SilenceTrue = seconds 1.
Proof. split; reflexivity. Qed.

(** The timed silence: a silence entry with expiry [e] suppresses every turn
    taken before [e] (nothing is sent, the entry stays); the first turn taken
    at [e] or later deletes the entry and is answered. *)
Theorem timed_silence_window tid c e m rest s :
  silenced_users (bot s) !! c = Some (SilenceUntil e) ->
  pending_messages (bot s) !! c = Some (m :: rest) ->
  let r := fst (_process_accumulated_messages_begin tid c s) in
  let s' := snd (_process_accumulated_messages_begin tid c s) in
  (now s < e ->
     r = Ok None /\ trace s' = trace s
     /\ silenced_users (bot s') !! c = Some (SilenceUntil e))
  /\ (e <= now s ->
     (exists k, r = Ok (Some k))
     /\ (Py.lower (combine (m :: rest)) <> "/silencio" ->
         silenced_users (bot s') !! c = None)).
Proof.
  intros Hv Hm. cbv zeta. split.
  - intros Hlt.
    destruct (turn_while_silenced tid c _ m rest s Hv Hlt Hm) as (Hr & Hs & Ht).
    rewrite Hs. auto.
  - intros Hle.
    destruct (turn_after_silence tid c _ m rest s Hv Hle Hm) as (Hr & Hs).
    split; [eauto|].
    intros Hne. rewrite Hs.
    destruct (String.eqb_spec (Py.lower (combine (m :: rest))) "/silencio");
      [contradiction|reflexivity].
Qed.

End SilenceFacts.

(** C4.  The entry written by "/silencio" does not silence the conversation.
    In general: at any time from 1 s on, a turn of a conversation whose
    entry is [True] is not stopped by the silence check, and the entry is
    deleted (or written again, if the turn is "/silencio" itself).  In the
    sample run: once the mute notice is sent the entry is [True]; at the next
    turn, a minute later, the silence check compares the clock with it as
    with a time, deletes it, and "hola" is answered. *)
Theorem permanent_silence_is_dropped :
  (forall tid c m rest s,
     silenced_users (bot s) !! c = Some SilenceTrue ->
     seconds 1 <= now s ->
     pending_messages (bot s) !! c = Some (m :: rest) ->
     (exists k, fst (_process_accumulated_messages_begin tid c s) = Ok (Some k))
     /\ (Py.lower (combine (m :: rest)) <> "/silencio" ->
         silenced_users (bot (snd (_process_accumulated_messages_begin tid c s))) !! c
         = None))
  /\ let s1 := final sample_env0 silencio_only (Sys_at sample_epoch) in
     let s2 := final sample_env0 silencio_then_hola (Sys_at sample_epoch) in
     exec sample_env0 silencio_only (Sys_at sample_epoch) = Some s1
     /\ silenced_users (bot s1) !! sample_jid = Some SilenceTrue
     /\ exec sample_env0 silencio_then_hola (Sys_at sample_epoch) = Some s2
     /\ silenced_users (bot s2) !! sample_jid = None
     /\ turns s2
        = [{| turn_task := 0; turn_jid := sample_jid; turn_text := "/silencio";
              turn_suppressed := false |};
           {| turn_task := 1; turn_jid := sample_jid; turn_text := "hola";
              turn_suppressed := false |}]
     /\ posts (trace s2)
        = [send_text_effect "5215512345678" mute_notice;
           send_text_effect "5215512345678" "ok"].
Proof.
  split.
  - intros tid c m rest s Hv Hle Hm.
    destruct (turn_after_silence tid c SilenceTrue m rest s Hv Hle Hm) as (Hr & Hs).
    split; [eauto|].
    intros Hne. rewrite Hs.
    destruct (String.eqb_spec (Py.lower (combine (m :: rest))) "/silencio");
      [contradiction|reflexivity].
  - vm_compute. repeat split.
Qed.

(** A message that arrives 58 s into a silence of 60 s is answered: the
    check is made when the debounce timer fires, 62 s into the silence. *)
Example late_message_is_answered :
  let s0 := Sys_at sample_epoch in
  let s' := final (sample_env minute_settings) takeover_then_late_message s0 in
  exec (sample_env minute_settings) takeover_then_late_message s0 = Some s'
  /\ turns s' = [{| turn_task := 0; turn_jid := sample_jid; turn_text := "hola";
                    turn_suppressed := false |}]
  /\ posts (trace s') = [send_text_effect "5215512345678" "ok"].
Proof. vm_compute. repeat split. Qed.

(** C5.  "/activar" does not end a timed silence.  In general: a turn taken
    before the expiry returns at the silence check whatever its text is,
    "/activar" included: the entry stays and nothing is sent.  In the sample
    run an agent writes from the business line, ten seconds later the user
    sends "/activar"; the entry is still there with its expiry an hour after
    the takeover, nothing is sent and nothing is left to run.  And a
    permanent entry is removed by a turn that is no command (the run of
    "/silencio" followed by "hola"). *)
Theorem activar_ignored_while_silenced :
  (forall tid c e s,
     silenced_users (bot s) !! c = Some (SilenceUntil e) ->
     now s < e ->
     pending_messages (bot s) !! c = Some ["/activar"] ->
     fst (_process_accumulated_messages_begin tid c s) = Ok None
     /\ silenced_users (bot (snd (_process_accumulated_messages_begin tid c s))) !! c
        = Some (SilenceUntil e)
     /\ trace (snd (_process_accumulated_messages_begin tid c s)) = trace s)
  /\ let s0 := Sys_at sample_epoch in
     let s1 := final sample_env0 takeover_then_activar s0 in
     let s2 := final sample_env0 silencio_then_hola s0 in
     exec sample_env0 takeover_then_activar s0 = Some s1
     /\ silenced_users (bot s1) !! sample_jid
        = Some (SilenceUntil (sample_epoch + seconds 3600))
     /\ turns s1 = [{| turn_task := 0; turn_jid := sample_jid; turn_text := "/activar";
                       turn_suppressed := true |}]
     /\ trace s1 = []
     /\ task_status_of <$> tasks s1 = [Finished]
     /\ exec sample_env0 silencio_then_hola s0 = Some s2
     /\ (turn_text <$> turns s2) = ["/silencio"; "hola"]
     /\ silenced_users (bot s2) !! sample_jid = None.
Proof.
  split.
  - intros tid c e s Hv Hlt Hm.
    destruct (turn_while_silenced tid c (SilenceUntil e) "/activar" [] s Hv Hlt Hm)
      as (Hr & Hs & Ht).
    rewrite Hs. auto.
  - vm_compute. repeat split.
Qed.

(** * The claims at sample inputs *)

Ltac by_decide :=
  match goal with
  | |- ?P => apply (bool_decide_unpack P); vm_compute; exact I
  end.

Lemma timed_silence_window_sample :
  let s := snd (background_process_event sample_env0
                  (text_event sample_jid "m1" "hola")
                  (final sample_env0
                     [Deliver (outbound_event sample_jid "h1" "Te marco en un momento");
                      Tick 10000]
                     (Sys_at sample_epoch))) in
  fst (_process_accumulated_messages_begin 0 sample_jid s) = Ok None.
Proof.
  cbv zeta.
  refine (proj1 (proj1 (timed_silence_window 0 sample_jid
                          (sample_epoch + seconds 3600) "hola" [] _ _ _) _));
    vm_compute; reflexivity.
Defined.


Lemma cancelled_timer_never_fires_sample :
  let s' := final sample_env0 hola_burst Sys_init in
  (0%nat ∉ (turn_task <$> turns s'))
  /\ timers_started sample_jid s' = 2%nat
  /\ exists u, turns_of sample_jid s' = [u].
Proof.
  cbv zeta.
  destruct (cancelled_timer_never_fires sample_env0 sample_jid hola_burst Sys_init
              (final sample_env0 hola_burst Sys_init) wf_init)
    as (Hcan & _ & _ & _ & _ & Hburst).
  { vm_compute. reflexivity. }
  split.
  { apply (Hcan 0%nat {| task_jid := sample_jid; task_due := 4000;
                         task_status_of := Cancelled |});
      vm_compute; reflexivity. }
  destruct (Hburst ["hola"; "cuanto cuesta"]) as (Hn & u & Hu & _).
  - split.
    + by_decide.
    + intros i _. apply not_elem_of_nil.
  - reflexivity.
  - vm_compute. reflexivity.
  - discriminate.
  - vm_compute. reflexivity.
  - split; [exact Hn|]. exists u. exact Hu.
Defined.

Lemma bounded_set_membership_sample :
  exists s',
    bos_add_all ["a"; "b"; "c"] (bos_new 2) = Ok s'
    /\ _data s' = ["b"; "c"]
    /\ bos_contains "a" s' = false
    /\ bos_add "c" s' = Ok s'.
Proof.
  destruct (bounded_set_membership 2 ["a"; "b"; "c"]) as (s' & Hrun & Hdata & _ & Hmore & Hre).
  - lia.
  - by_decide.
  - exists s'. split; [exact Hrun|]. split; [exact Hdata|]. split.
    + destruct (bos_contains "a" s') eqn:Ha; [|reflexivity].
      exfalso.
      assert (Hlen : 2 < Z.of_nat (length ["a"; "b"; "c"])) by (simpl; lia).
      apply (proj2 (Hmore Hlen)) in Ha.
      revert Ha. by_decide.
    + apply Hre. apply (proj2 (Hmore ltac:(simpl; lia))).
      by_decide.
Defined.

Lemma idless_event_skips_dedup_sample :
  let data := idless_text_event sample_jid "hola" in
  let s1 := snd (process_single_event sample_env0 data Sys_init) in
  let s2 := snd (process_single_event sample_env0 data s1) in
  processed_message_ids (bot s1) = processed_message_ids (bot Sys_init)
  /\ pending_messages (bot s2) !! sample_jid = Some ["hola"; "hola"]
  /\ length (tasks s2) = 2%nat.
Proof.
  cbv zeta.
  destruct (idless_event_skips_dedup sample_env0 (idless_text_event sample_jid "hola")
              Sys_init sample_jid (JBool false))
    as (_ & Hdedup & Htwice).
  - vm_compute. reflexivity.
  - reflexivity.
  - vm_compute. reflexivity.
  - split; [exact Hdedup|].
    apply (Htwice "hola"); vm_compute; reflexivity.
Defined.

Lemma send_text_once_success_sample :
  let s' := snd (send_text_once sample_env0 "5215512345678" "Hola, con gusto"
                   (Sys_at sample_epoch)) in
  _data (bot_sent_message_ids (bot s')) = ["BOT0"]
  /\ bot_sent_texts (bot s') !! sample_jid = Some ["Hola, con gusto"]
  /\ last_bot_message_time (bot s') !! sample_jid = Some sample_epoch.
Proof.
  cbv zeta.
  rewrite (send_text_once_success sample_env0 "5215512345678" "Hola, con gusto"
             (Sys_at sample_epoch) (response_ok "BOT0")).
  - vm_compute. repeat split.
  - reflexivity.
  - reflexivity.
Defined.

(** * Weakest preconditions for the [M] monad *)

Section Wp.
Context {A B : Type}.

Lemma wp_bind (m : M A) (k : A -> M B) Q s :
  wp m (fun r s' => match r with
                    | Ok a => wp (k a) Q s'
                    | Raise e => Q (Raise e) s'
                    end) s ->
  wp (bind m k) Q s.
Proof.
  unfold wp, bind. destruct (m s) as [[a|e] s']; simpl; auto.
Qed.

Lemma wp_try_except (m : M A) (h : exn -> M A) Q s :
  wp m (fun r s' => match r with
                    | Ok a => Q (Ok a) s'
                    | Raise e => wp (h e) Q s'
                    end) s ->
  wp (try_except m h) Q s.
Proof.
  unfold wp, try_except. destruct (m s) as [[a|e] s']; simpl; auto.
Qed.

Lemma wp_run (m : M A) Q s r s' : m s = (r, s') -> Q r s' -> wp m Q s.
Proof. unfold wp. now intros ->. Qed.

Lemma wp_mono (m : M A) (Q Q' : res A -> Sys -> Prop) s :
  wp m Q s -> (forall r s', Q r s' -> Q' r s') -> wp m Q' s.
Proof. unfold wp. auto. Qed.

(** A call that is known to keep a relation between the states. *)
Lemma wp_preserves (R : Sys -> Sys -> Prop) (m : M A) Q s :
  preserves R m -> (forall r s', R s s' -> Q r s') -> wp m Q s.
Proof. unfold wp, preserves. auto. Qed.

End Wp.

Lemma wp_ret {A} (a : A) Q s : Q (Ok a) s -> wp (ret a) Q s.
Proof. auto. Qed.
Lemma wp_pass Q s : Q (Ok tt) s -> wp pass Q s.
Proof. auto. Qed.
Lemma wp_raise {A} e (Q : res A -> Sys -> Prop) s : Q (Raise e) s -> wp (raise e) Q s.
Proof. auto. Qed.
Lemma wp_lift {A} (r : res A) Q s : Q r s -> wp (lift r) Q s.
Proof. auto. Qed.
Lemma wp_get_bot Q s : Q (Ok (bot s)) s -> wp get_bot Q s.
Proof. auto. Qed.
Lemma wp_modify_bot f Q s : Q (Ok tt) (set_bot (f (bot s)) s) -> wp (modify_bot f) Q s.
Proof. auto. Qed.
Lemma wp_time_time Q s : Q (Ok (now s)) s -> wp time_time Q s.
Proof. auto. Qed.
Lemma wp_interactions Q s : Q (Ok (length (trace s))) s -> wp interactions Q s.
Proof. auto. Qed.
Lemma wp_emit e Q s : Q (Ok tt) (set_trace (trace s ++ [e]) s) -> wp (emit e) Q s.
Proof. auto. Qed.
Lemma wp_sleep ms Q s : Q (Ok tt) (set_trace (trace s ++ [ESleep ms]) s) -> wp (sleep ms) Q s.
Proof. auto. Qed.

(** One step of symbolic execution. *)
Ltac wp_step :=
  lazymatch goal with
  | |- wp (bind _ _) _ _ => apply wp_bind
  | |- wp (try_except _ _) _ _ => apply wp_try_except
  | |- wp (ret _) _ _ => apply wp_ret
  | |- wp pass _ _ => apply wp_pass
  | |- wp (raise _) _ _ => apply wp_raise
  | |- wp (lift _) _ _ => apply wp_lift
  | |- wp get_bot _ _ => apply wp_get_bot
  | |- wp (modify_bot _) _ _ => apply wp_modify_bot
  | |- wp time_time _ _ => apply wp_time_time
  | |- wp interactions _ _ => apply wp_interactions
  | |- wp (emit _) _ _ => apply wp_emit
  | |- wp (sleep _) _ _ => apply wp_sleep
  | |- wp (let _ := _ in _) _ _ => cbv zeta
  end.

(** * Intake: what becomes of an event *)

Section IntakeCases.
Context (env : Env).

Lemma bos_add_contains {K : Type} `{EqDecision K} (k : K) (s s' : @BoundedOrderedSet K) :
  bos_add k s = Ok s' -> bos_contains k s' = true.
Proof.
  intros Hadd. apply bos_contains_true. unfold bos_add in Hadd.
  destruct (bos_contains k s) eqn:Hin.
  - injection Hadd as <-. now apply bos_contains_true.
  - destruct (_maxlen _ <=? bos_len _).
    + destruct (_data s); simpl in Hadd; [discriminate|].
      injection Hadd as <-. simpl. apply elem_of_app. right. now left.
    + injection Hadd as <-. simpl. apply elem_of_app. right. now left.
Qed.

(** [process_single_event] on an event of a routable conversation, up to
    the branch on the direction. *)
Lemma process_routable_run data s remote_jid from_me msg_id :
  event_header data = Ok (remote_jid, from_me, msg_id) ->
  routable remote_jid = true ->
  process_single_event env data s
  = if Py.nonempty msg_id && bos_contains msg_id (processed_message_ids (bot s))
    then (Ok tt, s)
    else if Py.nonempty msg_id then
      match bos_add msg_id (processed_message_ids (bot s)) with
      | Ok ids =>
          dispatch_event env remote_jid from_me msg_id data
            (set_bot (set_processed_message_ids ids (bot s)) s)
      | Raise e => (Raise e, s)
      end
    else dispatch_event env remote_jid from_me msg_id data s.
Proof.
  intros Hh Hr. unfold routable in Hr. apply andb_true_iff in Hr as [Hjid Hgrp].
  apply negb_true_iff in Hgrp.
  unfold process_single_event.
  remember (dispatch_event env remote_jid from_me msg_id data) as d eqn:Hd.
  munfold. rewrite Hh. simpl. rewrite Hjid, Hgrp. simpl.
  subst d.
  destruct (Py.nonempty msg_id); simpl; [|reflexivity].
  destruct (bos_contains msg_id (processed_message_ids (bot s))); [reflexivity|].
  destruct (bos_add msg_id (processed_message_ids (bot s))); reflexivity.
Qed.

(** A fresh event of a routable conversation: the id is recorded, then the
    event is dispatched. *)
Lemma process_fresh_run data s remote_jid from_me msg_id :
  event_header data = Ok (remote_jid, from_me, msg_id) ->
  routable remote_jid = true ->
  Py.nonempty msg_id && bos_contains msg_id (processed_message_ids (bot s)) = false ->
  0 < _maxlen (processed_message_ids (bot s)) ->
  process_single_event env data s
  = dispatch_event env remote_jid from_me msg_id data (with_dedup msg_id s).
Proof.
  intros Hh Hr Hfresh Hcap. rewrite (process_routable_run _ _ _ _ _ Hh Hr), Hfresh.
  unfold with_dedup. destruct (Py.nonempty msg_id); [|reflexivity].
  destruct (bos_add_total msg_id _ Hcap) as [ids ->]. reflexivity.
Qed.

(** Dedup.  An event with a non-empty id is processed once: after its first
    delivery the id is in the dedup cache, and a later delivery of the same
    event, whatever happened in between that kept the id in the cache,
    returns at once and changes nothing. *)
Theorem duplicate_event_is_ignored data s remote_jid from_me msg_id :
  event_header data = Ok (remote_jid, from_me, msg_id) ->
  routable remote_jid = true ->
  Py.nonempty msg_id = true ->
  0 < _maxlen (processed_message_ids (bot s)) ->
  let s1 := snd (process_single_event env data s) in
  bos_contains msg_id (processed_message_ids (bot s1)) = true
  /\ process_single_event env data s1 = (Ok tt, s1)
  /\ (forall s2, bos_contains msg_id (processed_message_ids (bot s2)) = true ->
                 process_single_event env data s2 = (Ok tt, s2)).
Proof.
  intros Hh Hr Hid Hcap. cbv zeta.
  assert (Hdup : forall s2, bos_contains msg_id (processed_message_ids (bot s2)) = true ->
                            process_single_event env data s2 = (Ok tt, s2)).
  { intros s2 Hin. rewrite (process_routable_run _ _ _ _ _ Hh Hr), Hid, Hin. reflexivity. }
  assert (Hin1 : bos_contains msg_id
                   (processed_message_ids (bot (snd (process_single_event env data s)))) = true).
  { destruct (bos_contains msg_id (processed_message_ids (bot s))) eqn:Hin.
    - now rewrite (Hdup s Hin).
    - rewrite (process_fresh_run _ _ _ _ _ Hh Hr); [|now rewrite Hid, Hin|exact Hcap].
      rewrite (same_dedup_dispatch_event env remote_jid from_me msg_id data _).
      unfold with_dedup. rewrite Hid.
      destruct (bos_add_total msg_id _ Hcap) as [ids Hadd]. rewrite Hadd. simpl.
      eapply bos_add_contains; eauto. }
  auto.
Qed.

(** An event that names no conversation (the key cannot be read, the
    identity is empty), a group or a broadcast list is dropped whole by the
    background loop: no dedup entry, no silence, nothing buffered, nothing
    sent. *)
Theorem unroutable_event_is_dropped data s :
  match event_header data with
  | Ok (remote_jid, _, _) => routable remote_jid = false
  | Raise _ => True
  end ->
  background_process_event env data s = (Ok tt, s).
Proof.
  intros Hh. unfold background_process_event, try_except, process_single_event.
  unfold bind at 1. unfold lift at 1.
  destruct (event_header data) as [[[remote_jid from_me] msg_id]|e]; [|reflexivity].
  unfold routable in Hh. cbv beta iota.
  destruct (Py.nonempty remote_jid); simpl in *; [|reflexivity].
  apply negb_false_iff in Hh. rewrite Hh. reflexivity.
Qed.

Lemma process_unroutable_run data s remote_jid from_me msg_id :
  event_header data = Ok (remote_jid, from_me, msg_id) ->
  routable remote_jid = false ->
  process_single_event env data s = (Ok tt, s).
Proof.
  intros Hh Hr. unfold process_single_event.
  unfold bind at 1. unfold lift at 1. rewrite Hh. cbv beta iota.
  unfold routable in Hr.
  destruct (Py.nonempty remote_jid); simpl in *; [|reflexivity].
  apply negb_false_iff in Hr. rewrite Hr. reflexivity.
Qed.

Lemma branch_set_processed ids b t remote_jid msg_id msg_text :
  _is_bot_message_branch env (set_processed_message_ids ids b) t remote_jid msg_id msg_text
  = _is_bot_message_branch env b t remote_jid msg_id msg_text.
Proof. reflexivity. Qed.

Lemma branch_with_dedup msg_id0 s t remote_jid msg_id msg_text :
  _is_bot_message_branch env (bot (with_dedup msg_id0 s)) t remote_jid msg_id msg_text
  = _is_bot_message_branch env (bot s) t remote_jid msg_id msg_text.
Proof.
  unfold with_dedup. destruct (Py.nonempty msg_id0); [|reflexivity].
  destruct (bos_add msg_id0 (processed_message_ids (bot s))); reflexivity.
Qed.

Lemma with_dedup_frame msg_id s :
  now (with_dedup msg_id s) = now s /\ tasks (with_dedup msg_id s) = tasks s
  /\ trace (with_dedup msg_id s) = trace s /\ turns (with_dedup msg_id s) = turns s
  /\ silenced_users (bot (with_dedup msg_id s)) = silenced_users (bot s)
  /\ pending_messages (bot (with_dedup msg_id s)) = pending_messages (bot s)
  /\ pending_message_tasks (bot (with_dedup msg_id s)) = pending_message_tasks (bot s).
Proof.
  unfold with_dedup. destruct (Py.nonempty msg_id); [|tauto].
  destruct (bos_add msg_id (processed_message_ids (bot s))); simpl; tauto.
Qed.

(** The takeover branch of [dispatch_event], computed. *)
Lemma dispatch_outbound_run remote_jid from_me msg_id data msg_text is_audio s :
  Json.truthy from_me = true ->
  event_message data = Some (msg_text, is_audio) ->
  dispatch_event env remote_jid from_me msg_id data s
  = (Ok tt,
     if is_bot (_is_bot_message_branch env (bot s) (now s) remote_jid msg_id msg_text)
        || _is_automated_greeting msg_text
     then s
     else set_bot (set_silenced_users
                     (<[remote_jid := SilenceUntil
                          (now s + seconds (AUTO_REACTIVATE_MINUTES (settings env) * 60))]>
                        (silenced_users (bot s))) (bot s)) s).
Proof.
  intros Hfm Hmsg. unfold dispatch_event, event_message in *. rewrite Hfm.
  unfold bind at 1. unfold lift at 1.
  destruct (Json.get data "message" (JObj [])) as [m|]; [|discriminate].
  unfold bind at 1. unfold lift at 1.
  destruct (_extract_user_message (Json.or_else m (JObj []))) as [[v a]|]; [|discriminate].
  unfold bind at 1. unfold lift at 1. simpl fst.
  destruct (Json.strip v) as [t|]; [|discriminate].
  injection Hmsg as <- <-.
  unfold _is_bot_message. munfold. simpl.
  destruct (is_bot _); simpl; [reflexivity|].
  destruct (_is_automated_greeting t); reflexivity.
Qed.

(** Human takeover.  A fresh message of the business line silences the
    conversation exactly when no layer takes it for an echo of the bot and
    it is not an automated notice: the entry is then the time of the event
    plus [AUTO_REACTIVATE_MINUTES], replacing whatever entry there was.
    In both cases nothing is sent, nothing is buffered and no timer is
    started. *)
Theorem human_takeover_silences data s remote_jid from_me msg_id msg_text is_audio :
  event_header data = Ok (remote_jid, from_me, msg_id) ->
  routable remote_jid = true ->
  Py.nonempty msg_id && bos_contains msg_id (processed_message_ids (bot s)) = false ->
  0 < _maxlen (processed_message_ids (bot s)) ->
  Json.truthy from_me = true ->
  event_message data = Some (msg_text, is_audio) ->
  let s' := snd (process_single_event env data s) in
  let human :=
    negb (is_bot (_is_bot_message_branch env (bot s) (now s) remote_jid msg_id msg_text))
    && negb (_is_automated_greeting msg_text) in
  silenced_users (bot s')
  = (if human
     then <[remote_jid := SilenceUntil
              (now s + seconds (AUTO_REACTIVATE_MINUTES (settings env) * 60))]>
            (silenced_users (bot s))
     else silenced_users (bot s))
  /\ trace s' = trace s /\ tasks s' = tasks s
  /\ pending_messages (bot s') = pending_messages (bot s).
Proof.
  intros Hh Hr Hfresh Hcap Hfm Hmsg. cbv zeta.
  rewrite (process_fresh_run _ _ _ _ _ Hh Hr Hfresh Hcap).
  rewrite (dispatch_outbound_run _ _ _ _ _ _ _ Hfm Hmsg). simpl snd.
  rewrite branch_with_dedup.
  destruct (with_dedup_frame msg_id s) as (Hn & Ht & Htr & _ & Hsil & Hp & _).
  rewrite Hn.
  destruct (is_bot _); simpl; [rewrite Hsil, Htr, Ht, Hp; auto|].
  destruct (_is_automated_greeting msg_text); simpl; rewrite Hsil, Htr, Ht, Hp; auto.
Qed.

(** The counterpart branch of [dispatch_event], computed. *)
Lemma dispatch_inbound_run remote_jid from_me msg_id data text is_audio s :
  Json.truthy from_me = false ->
  event_message data = Some (text, is_audio) ->
  dispatch_event env remote_jid from_me msg_id data s
  = if Py.nonempty text then accumulate env remote_jid text s
    else if is_audio then
      let s1 := set_trace (trace s ++ [ETranscribe msg_id remote_jid]) s in
      let heard := audio_transcription env (length (trace s)) msg_id remote_jid in
      if Py.nonempty heard then accumulate env remote_jid heard s1
      else send_evolution_message env remote_jid audio_problem [] s1
    else (Ok tt, s).
Proof.
  intros Hfm Hmsg. unfold dispatch_event, event_message in *. rewrite Hfm.
  unfold bind at 1. unfold lift at 1.
  destruct (Json.get data "message" (JObj [])) as [m|]; [|discriminate].
  unfold bind at 1. unfold lift at 1.
  destruct (_extract_user_message (Json.or_else m (JObj []))) as [[v a]|]; [|discriminate].
  unfold bind at 1. unfold lift at 1. simpl fst. simpl snd.
  destruct (Json.strip v) as [t|]; [|discriminate].
  injection Hmsg as <- <-.
  destruct (Py.nonempty t); simpl; [reflexivity|].
  destruct a; simpl; [|reflexivity].
  unfold bind at 1. unfold interactions at 1.
  unfold bind at 1. unfold emit at 1. cbv zeta. simpl trace.
  destruct (Py.nonempty (audio_transcription env _ msg_id remote_jid)); reflexivity.
Qed.

(** What becomes of a fresh inbound event.  A text is buffered and a timer
    started.  A voice note is buffered as its transcription; when the
    transcription comes back empty the fixed apology is sent instead and
    nothing is buffered.  Anything else (a sticker, a reaction, an empty
    text) is recorded in the dedup cache and has no other effect. *)
Theorem inbound_event_outcomes data s remote_jid from_me msg_id text is_audio :
  event_header data = Ok (remote_jid, from_me, msg_id) ->
  routable remote_jid = true ->
  Py.nonempty msg_id && bos_contains msg_id (processed_message_ids (bot s)) = false ->
  0 < _maxlen (processed_message_ids (bot s)) ->
  Json.truthy from_me = false ->
  event_message data = Some (text, is_audio) ->
  let s0 := with_dedup msg_id s in
  let s1 := set_trace (trace s ++ [ETranscribe msg_id remote_jid]) s0 in
  let heard := audio_transcription env (length (trace s)) msg_id remote_jid in
  let s' := snd (process_single_event env data s) in
  (text <> "" -> s' = snd (accumulate env remote_jid text s0))
  /\ (text = "" -> is_audio = true -> heard <> "" ->
      s' = snd (accumulate env remote_jid heard s1))
  /\ (text = "" -> is_audio = true -> heard = "" ->
      s' = snd (send_evolution_message env remote_jid audio_problem [] s1)
      /\ pending_messages (bot s') = pending_messages (bot s)
      /\ tasks s' = tasks s)
  /\ (text = "" -> is_audio = false -> s' = s0).
Proof.
  intros Hh Hr Hfresh Hcap Hfm Hmsg. cbv zeta.
  rewrite (process_fresh_run _ _ _ _ _ Hh Hr Hfresh Hcap).
  rewrite (dispatch_inbound_run _ _ _ _ _ _ _ Hfm Hmsg).
  destruct (with_dedup_frame msg_id s) as (Hn & Ht & Htr & _ & Hsil & Hp & _).
  rewrite Htr.
  repeat apply conj.
  - intros Hne. destruct text; [contradiction|reflexivity].
  - intros -> -> Hheard. simpl.
    destruct (audio_transcription env (length (trace s)) msg_id remote_jid);
      [contradiction|reflexivity].
  - intros -> -> Hheard. rewrite Hheard. simpl.
    pose proof (same_core_send_evolution_message env remote_jid audio_problem []
                  (set_trace (trace s ++ [ETranscribe msg_id remote_jid])
                     (with_dedup msg_id s))) as Hcore.
    destruct Hcore as (_ & Htasks & _ & _ & _ & _ & _ & Hpend & _).
    split; [reflexivity|]. rewrite Hpend, Htasks. simpl. auto.
  - intros -> ->. reflexivity.
Qed.

End IntakeCases.

(** * Sending *)

Section Appends.
Context (P : effect -> Prop).

#[local] Instance appends_preorder : PreOrder (appends P).
Proof.
  split.
  - intros s. exists []. split; [now rewrite app_nil_r|constructor].
  - intros s1 s2 s3 (e1 & H1 & F1) (e2 & H2 & F2). exists (e1 ++ e2). split.
    + now rewrite H2, H1, app_assoc.
    + apply Forall_app. split; assumption.
Qed.

Lemma appends_emit e : P e -> preserves (appends P) (emit e).
Proof. intros He s. exists [e]. split; [reflexivity|]. constructor; [exact He|constructor]. Qed.

Lemma appends_sleep ms : P (ESleep ms) -> preserves (appends P) (sleep ms).
Proof. apply appends_emit. Qed.

Lemma appends_modify f : preserves (appends P) (modify_bot f).
Proof. intros s. exists []. simpl. split; [now rewrite app_nil_r|constructor]. Qed.

Lemma appends_weaken (Q : effect -> Prop) s s' :
  (forall e, Q e -> P e) -> appends Q s s' -> appends P s s'.
Proof.
  intros HQP (extra & H & F). exists extra. split; [exact H|].
  eapply Forall_impl; eauto.
Qed.

End Appends.

#[export] Existing Instance appends_preorder.

Section SendFacts.
Context (env : Env).

(** A computation under [except Exception: pass] never raises. *)
Lemma try_pass_ok (m : M unit) s : fst (try_except m (fun _ => pass) s) = Ok tt.
Proof.
  unfold try_except. destruct (m s) as [[[]|e] s']; reflexivity.
Qed.

Section SendAppends.
Context (P : effect -> Prop).
Hypothesis Hsleep : forall ms, P (ESleep ms).

Lemma appends_post url payload :
  P (EPost url payload) -> preserves (appends P) (post env url payload).
Proof.
  intros Hp. unfold post. repeat preserve_step. now apply appends_emit.
Qed.

Lemma appends_evo_post_loop url payload attempts : forall last,
  P (EPost url payload) ->
  preserves (appends P) (_evo_post_loop env attempts last url payload).
Proof.
  induction attempts as [|k rest IH]; intros last Hp; simpl.
  - repeat preserve_step.
  - repeat preserve_step; try (now apply appends_post); try (now apply appends_sleep).
    now apply IH.
Qed.

Lemma appends_evo_post url payload :
  P (EPost url payload) -> preserves (appends P) (_evo_post env url payload).
Proof. apply appends_evo_post_loop. Qed.

Lemma appends_track r : preserves (appends P) (track_message_id r).
Proof.
  unfold track_message_id. repeat preserve_step. apply appends_modify.
Qed.

Lemma appends_send_media_loop clean_number text total media_urls : forall i,
  (forall url caption media, P (EPost url (media_payload clean_number caption media))) ->
  preserves (appends P) (send_media_loop env clean_number text total i media_urls).
Proof.
  induction media_urls as [|u rest IH]; intros i Hp; simpl.
  - preserve_step.
  - repeat preserve_step;
      try (now apply appends_sleep); try (now apply appends_evo_post);
      try apply appends_track; now apply IH.
Qed.

Lemma appends_send_text_once clean_number text :
  (forall url, P (EPost url (JObj [("number", JStr clean_number); ("text", JStr text)]))) ->
  preserves (appends P) (send_text_once env clean_number text).
Proof.
  intros Hp. unfold send_text_once.
  repeat preserve_step;
    try (now apply appends_evo_post); try apply appends_track; apply appends_modify.
Qed.

(** Every provider call of a send carries the cleaned number. *)
Lemma appends_send_evolution_message number_or_jid text media_urls :
  (forall url payload,
     recipient (EPost url payload) = Some (_clean_phone_or_jid number_or_jid) ->
     P (EPost url payload)) ->
  preserves (appends P) (send_evolution_message env number_or_jid text media_urls).
Proof.
  intros Hp. unfold send_evolution_message.
  repeat preserve_step;
    first [ apply appends_send_media_loop | apply appends_send_text_once ];
    intros; apply Hp; reflexivity.
Qed.

Lemma appends_send_evolution_document number_or_jid text pdf_url filename :
  (forall url payload,
     recipient (EPost url payload) = Some (_clean_phone_or_jid number_or_jid) ->
     P (EPost url payload)) ->
  preserves (appends P) (send_evolution_document env number_or_jid text pdf_url filename).
Proof.
  intros Hp. unfold send_evolution_document.
  repeat preserve_step;
    try apply appends_track; try (now apply appends_sleep);
    apply appends_evo_post; apply Hp; reflexivity.
Qed.

End SendAppends.

End SendFacts.

(** A send writes the echo records and nothing else of the global state. *)
Section FieldFrame.
Context (env : Env) {T : Type} (f : GlobalState -> T).
Hypothesis Hids : forall ids b, f (set_bot_sent_message_ids ids b) = f b.
Hypothesis Htext : forall jid text b, f (remember_text jid text b) = f b.
Hypothesis Htime : forall jid t b, f (remember_time jid t b) = f b.

#[local] Instance same_field_preorder : PreOrder (same_field f).
Proof.
  split; [intros s; reflexivity|].
  intros s1 s2 s3 H12 H23. unfold same_field in *. congruence.
Qed.

Lemma same_field_emit e : preserves (same_field f) (emit e).
Proof. intros s. reflexivity. Qed.

Lemma same_field_evo_post_loop attempts : forall last url payload,
  preserves (same_field f) (_evo_post_loop env attempts last url payload).
Proof.
  induction attempts as [|k rest IH]; intros last url payload; simpl.
  - repeat preserve_step.
  - unfold post, sleep. repeat preserve_step; try apply same_field_emit. apply IH.
Qed.

Lemma same_field_track r : preserves (same_field f) (track_message_id r).
Proof.
  intros s. rewrite track_message_id_run. unfold same_field. simpl.
  repeat match goal with
         | |- context [match ?x with _ => _ end] => destruct x; simpl
         end; auto.
Qed.

Lemma same_field_send_media_loop clean_number text total media_urls : forall i,
  preserves (same_field f) (send_media_loop env clean_number text total i media_urls).
Proof.
  induction media_urls as [|u rest IH]; intros i; simpl.
  - preserve_step.
  - unfold sleep. repeat preserve_step;
      try apply same_field_emit; try apply same_field_evo_post_loop;
      try apply same_field_track; apply IH.
Qed.

Lemma same_field_send_text_once clean_number text :
  preserves (same_field f) (send_text_once env clean_number text).
Proof.
  unfold send_text_once.
  repeat preserve_step;
    try apply same_field_evo_post_loop; try apply same_field_track;
    intros s; unfold same_field; simpl; auto.
Qed.

Lemma same_field_send_evolution_message number_or_jid text media_urls :
  preserves (same_field f) (send_evolution_message env number_or_jid text media_urls).
Proof.
  unfold send_evolution_message.
  repeat preserve_step;
    first [ apply same_field_send_media_loop | apply same_field_send_text_once ].
Qed.

Lemma same_field_send_evolution_document number_or_jid text pdf_url filename :
  preserves (same_field f) (send_evolution_document env number_or_jid text pdf_url filename).
Proof.
  unfold send_evolution_document, sleep.
  repeat preserve_step;
    first [ apply same_field_evo_post_loop | apply same_field_track
          | apply same_field_emit ].
Qed.

Lemma same_field_notify_owner user_number_or_jid user_message bot_reply is_lead :
  preserves (same_field f) (notify_owner env user_number_or_jid user_message bot_reply is_lead).
Proof.
  unfold notify_owner.
  repeat preserve_step; apply same_field_send_evolution_message.
Qed.

End FieldFrame.

Section SendOutcomes.
Context (env : Env).

Lemma send_evolution_message_ok number_or_jid text media_urls s :
  fst (send_evolution_message env number_or_jid text media_urls s) = Ok tt.
Proof.
  unfold send_evolution_message.
  destruct (negb (Py.nonempty (Py.strip text)) && bool_decide (media_urls = []));
    [reflexivity|].
  destruct (negb (Py.nonempty (_clean_phone_or_jid number_or_jid))); [reflexivity|].
  unfold bind, get_bot. destruct (negb (http_client (bot s))); [reflexivity|].
  apply try_pass_ok.
Qed.

Lemma send_evolution_document_ok number_or_jid text pdf_url filename s :
  fst (send_evolution_document env number_or_jid text pdf_url filename s) = Ok tt.
Proof.
  unfold send_evolution_document.
  destruct (negb (Py.nonempty (_clean_phone_or_jid number_or_jid))); [reflexivity|].
  unfold bind, get_bot. destruct (negb (http_client (bot s))); [reflexivity|].
  apply try_pass_ok.
Qed.

(** A send is contained.  [send_evolution_message] and
    [send_evolution_document] return normally whatever the provider does
    (error status, malformed body, timeout); they leave the clock, the
    timers, the buffers, the silence registry and the dedup cache alone; and
    when there is nothing to send (a blank text and no picture), no digit in
    the recipient, or no HTTP client, nothing at all happens. *)
Theorem send_is_contained number_or_jid text media_urls pdf_url filename s :
  let run := send_evolution_message env number_or_jid text media_urls s in
  let run_doc := send_evolution_document env number_or_jid text pdf_url filename s in
  fst run = Ok tt /\ same_core s (snd run)
  /\ fst run_doc = Ok tt /\ same_core s (snd run_doc)
  /\ (Py.strip text = "" /\ media_urls = [] \/ _clean_phone_or_jid number_or_jid = ""
      \/ http_client (bot s) = false -> run = (Ok tt, s))
  /\ (_clean_phone_or_jid number_or_jid = "" \/ http_client (bot s) = false ->
      run_doc = (Ok tt, s)).
Proof.
  cbv zeta. split; [|split; [|split; [|split; [|split]]]].
  - apply send_evolution_message_ok.
  - apply same_core_send_evolution_message.
  - apply send_evolution_document_ok.
  - apply same_core_send_evolution_document.
  - unfold send_evolution_message. intros [[Ht ->]|[Hn|Hc]].
    + rewrite Ht. reflexivity.
    + rewrite Hn. simpl. now destruct (negb _ && _).
    + destruct (negb _ && _); [reflexivity|].
      destruct (negb (Py.nonempty _)); [reflexivity|].
      unfold bind, get_bot. now rewrite Hc.
  - unfold send_evolution_document. intros [Hn|Hc].
    + now rewrite Hn.
    + destruct (negb (Py.nonempty _)); [reflexivity|].
      unfold bind, get_bot. now rewrite Hc.
Qed.

(** The text branch of a send, from the outcome of [_evo_post]. *)
Lemma send_text_run number_or_jid text s :
  let clean_number := _clean_phone_or_jid number_or_jid in
  let url := "/message/sendText/" +:+ EVO_INSTANCE (settings env) in
  let payload := JObj [("number", JStr clean_number); ("text", JStr (Py.strip text))] in
  Py.strip text <> "" -> clean_number <> "" -> http_client (bot s) = true ->
  send_evolution_message env number_or_jid text [] s
  = (Ok tt,
     match _evo_post env url payload s with
     | (Ok response, s1) =>
         if status_code response >=? 400 then s1
         else
           let jid := clean_number +:+ "@s.whatsapp.net" in
           let s2 := snd (track_message_id response s1) in
           set_bot (remember_time jid (now s2) (remember_text jid (Py.strip text) (bot s2))) s2
     | (Raise _, s1) => s1
     end).
Proof.
  cbv zeta. intros Ht Hn Hc. unfold send_evolution_message.
  assert (Ht1 : Py.nonempty (Py.strip text) = true)
    by (destruct (Py.strip text); [contradiction|reflexivity]).
  assert (Hn1 : Py.nonempty (_clean_phone_or_jid number_or_jid) = true)
    by (destruct (_clean_phone_or_jid number_or_jid); [contradiction|reflexivity]).
  rewrite Ht1, Hn1. cbn [negb andb].
  unfold bind at 1. unfold get_bot at 1. rewrite Hc. cbn [negb].
  unfold try_except, send_text_once. unfold bind at 1.
  destruct (_evo_post env _ _ s) as [[response|e] s1]; [|reflexivity].
  destruct (status_code response >=? 400); [reflexivity|].
  unfold bind at 1. rewrite track_message_id_run. cbn [fst snd].
  unfold bind, modify_bot, time_time. simpl. reflexivity.
Qed.

(** A text send that fails records nothing.  When the provider's last
    answer has a status of 400 or more, or the call raises (timeout,
    connection error), the echo records are left as they were: the state
    changes by the trace of the attempts only. *)
Theorem failed_send_records_nothing number_or_jid text s :
  let clean_number := _clean_phone_or_jid number_or_jid in
  let url := "/message/sendText/" +:+ EVO_INSTANCE (settings env) in
  let payload := JObj [("number", JStr clean_number); ("text", JStr (Py.strip text))] in
  Py.strip text <> "" -> clean_number <> "" -> http_client (bot s) = true ->
  match fst (_evo_post env url payload s) with
  | Ok response => 400 <= status_code response
  | Raise _ => True
  end ->
  send_evolution_message env number_or_jid text [] s
  = (Ok tt, snd (_evo_post env url payload s))
  /\ bot (snd (send_evolution_message env number_or_jid text [] s)) = bot s.
Proof.
  cbv zeta. intros Ht Hn Hc Hfail.
  rewrite (send_text_run number_or_jid text s Ht Hn Hc). cbv zeta.
  pose proof (evo_post_frame env ("/message/sendText/" +:+ EVO_INSTANCE (settings env))
                (JObj [("number", JStr (_clean_phone_or_jid number_or_jid));
                       ("text", JStr (Py.strip text))]) s) as Hframe.
  cbv zeta in Hframe. destruct Hframe as [Hbot _].
  destruct (_evo_post env _ _ s) as [[response|e] s1]; simpl in *.
  - replace (status_code response >=? 400) with true
      by (symmetry; rewrite Z.geb_leb; apply Z.leb_le; lia).
    auto.
  - auto.
Qed.

End SendOutcomes.

(** * Who is written to *)

Section Recipients.
Context (env : Env) (allowed : list string).

Local Abbreviation ok := (appends (addressed_to allowed)).

Lemma addressed_other e : is_post e = false -> addressed_to allowed e.
Proof. destruct e; simpl; intros; try discriminate; exact I. Qed.

Lemma addressed_send number_or_jid text media_urls :
  _clean_phone_or_jid number_or_jid ∈ allowed ->
  preserves ok (send_evolution_message env number_or_jid text media_urls).
Proof.
  intros Hin. apply appends_send_evolution_message; [intros; exact I|].
  intros url payload Hr. simpl. eauto.
Qed.

Lemma addressed_document number_or_jid text pdf_url filename :
  _clean_phone_or_jid number_or_jid ∈ allowed ->
  preserves ok (send_evolution_document env number_or_jid text pdf_url filename).
Proof.
  intros Hin. apply appends_send_evolution_document; [intros; exact I|].
  intros url payload Hr. simpl. eauto.
Qed.

Hypothesis Howner : forall n, n ∈ owner_numbers (settings env) -> n ∈ allowed.

Lemma addressed_notify_owner user_number_or_jid user_message bot_reply is_lead :
  preserves ok (notify_owner env user_number_or_jid user_message bot_reply is_lead).
Proof.
  unfold notify_owner. unfold owner_numbers in Howner.
  destruct (OWNER_PHONE (settings env)) as [owner|]; [|preserve_step].
  repeat preserve_step; apply addressed_send; apply Howner; now left.
Qed.

Lemma addressed_reply_pipeline remote_jid combined_message :
  _clean_phone_or_jid remote_jid ∈ allowed ->
  preserves ok (reply_pipeline env remote_jid combined_message).
Proof.
  intros Hin. unfold reply_pipeline.
  repeat preserve_step;
    first [ apply appends_emit; exact I
          | apply appends_sleep; exact I
          | now apply addressed_send
          | now apply addressed_document
          | apply addressed_notify_owner
          | apply appends_modify ].
Qed.

Lemma addressed_resume remote_jid k :
  _clean_phone_or_jid remote_jid ∈ allowed ->
  preserves ok (_process_accumulated_messages_resume env remote_jid k).
Proof.
  intros Hin. unfold _process_accumulated_messages_resume.
  unfold owner_numbers in Howner.
  destruct k; [| now apply addressed_send | now apply addressed_reply_pipeline].
  destruct (OWNER_PHONE (settings env)) as [owner|];
    repeat preserve_step; try (now apply addressed_send).
  apply addressed_send. apply Howner. now left.
Qed.

Lemma addressed_dispatch_event remote_jid from_me msg_id data :
  _clean_phone_or_jid remote_jid ∈ allowed ->
  preserves ok (dispatch_event env remote_jid from_me msg_id data).
Proof.
  intros Hin. unfold dispatch_event, _is_bot_message.
  repeat preserve_step;
    first [ apply appends_emit; exact I
          | now apply addressed_send
          | apply appends_modify
          | intros s; rewrite accumulate_run; exists []; simpl;
            split; [now rewrite app_nil_r|constructor] ].
Qed.

Lemma addressed_background_process_event data :
  (forall jid, event_jid data = Some jid -> _clean_phone_or_jid jid ∈ allowed) ->
  preserves ok (background_process_event env data).
Proof.
  intros Hin. unfold background_process_event.
  apply preserves_try_except; [exact _| |intros; preserve_step].
  unfold process_single_event, event_jid in *.
  intros s. unfold bind at 1. unfold lift at 1.
  destruct (event_header data) as [[[remote_jid from_me] msg_id]|e];
    [|simpl; reflexivity].
  revert s. change (preserves ok
    (if negb (Py.nonempty remote_jid) then pass
     else if is_group_or_broadcast remote_jid then pass
     else
       b <- get_bot ;;
       if Py.nonempty msg_id && bos_contains msg_id (processed_message_ids b) then pass
       else
         (if Py.nonempty msg_id then
            ids <- lift (bos_add msg_id (processed_message_ids b)) ;;
            modify_bot (set_processed_message_ids ids)
          else pass) ;;;
         dispatch_event env remote_jid from_me msg_id data)).
  repeat preserve_step;
    first [ apply appends_modify | apply addressed_dispatch_event; now apply Hin ].
Qed.

End Recipients.

Section RecipientsOfARun.
Context (env : Env).

Lemma appends_intro (P : effect -> Prop) s s' : trace s' = trace s -> appends P s s'.
Proof. intros H. exists []. split; [now rewrite app_nil_r|constructor]. Qed.

Lemma appends_set_status (P : effect -> Prop) tid st s s' :
  appends P s s' -> appends P s (set_status tid st s').
Proof. intros (extra & H & F). exists extra. split; [exact H|exact F]. Qed.

Lemma step_addressed allowed a s s' :
  (forall n, n ∈ owner_numbers (settings env) -> n ∈ allowed) ->
  (forall t, t ∈ tasks s -> _clean_phone_or_jid (task_jid t) ∈ allowed) ->
  (forall jid, jid ∈ sched_jids [a] -> _clean_phone_or_jid jid ∈ allowed) ->
  step env a s = Some s' ->
  appends (addressed_to allowed) s s'.
Proof.
  intros Howner Htasks Hjids Hstep. destruct a as [dt|data|tid|tid]; simpl in Hstep.
  - destruct (0 <=? dt); [|discriminate]. injection Hstep as <-.
    now apply appends_intro.
  - injection Hstep as <-.
    apply (addressed_background_process_event env allowed data).
    intros jid Hj. apply Hjids. simpl. rewrite Hj. now left.
  - unfold wake in Hstep.
    destruct (tasks s !! tid) as [t|]; [|discriminate].
    destruct (task_status_of t); try discriminate.
    destruct (task_due t <=? now s); [|discriminate].
    pose proof (begin_effect tid (task_jid t) s) as Hb. cbv zeta in Hb.
    destruct Hb as (_ & _ & _ & Htr & _).
    destruct (_process_accumulated_messages_begin tid (task_jid t) s) as [[[k|]|e] s1];
      simpl in Htr; injection Hstep as <-;
      apply appends_set_status; now apply appends_intro.
  - unfold resume in Hstep.
    destruct (tasks s !! tid) as [t|] eqn:Ht; [|discriminate].
    destruct (task_status_of t); try discriminate.
    injection Hstep as <-. apply appends_set_status.
    apply preserves_try_except; [exact _| |intros; preserve_step].
    apply addressed_resume; [exact Howner|].
    apply Htasks. eapply list_elem_of_lookup_2; eauto.
Qed.

Lemma exec_addressed allowed sched : forall s s',
  (forall n, n ∈ owner_numbers (settings env) -> n ∈ allowed) ->
  wf s ->
  (forall j, j ∈ task_jid <$> tasks s -> _clean_phone_or_jid j ∈ allowed) ->
  (forall jid, jid ∈ sched_jids sched -> _clean_phone_or_jid jid ∈ allowed) ->
  exec env sched s = Some s' ->
  appends (addressed_to allowed) s s'.
Proof.
  induction sched as [|a rest IH]; intros s s' Howner Hwf Htasks Hjids Hexec;
    simpl in Hexec.
  - injection Hexec as <-. reflexivity.
  - destruct (step env a s) as [s1|] eqn:Hstep; [|discriminate].
    assert (Ha : forall jid, jid ∈ sched_jids [a] -> jid ∈ sched_jids (a :: rest)).
    { intros jid. destruct a as [dt|data|tid|tid]; simpl;
        try (intros Hnil; inversion Hnil; fail).
      destruct (event_jid data); [|intros Hnil; inversion Hnil].
      intros H1. apply list_elem_of_singleton in H1. subst. now left. }
    assert (Hr : forall jid, jid ∈ sched_jids rest -> jid ∈ sched_jids (a :: rest)).
    { intros jid. destruct a as [dt|data|tid|tid]; simpl; auto.
      destruct (event_jid data); [|auto]. intros H1. now right. }
    transitivity s1.
    + apply (step_addressed allowed a s s1 Howner); auto.
      intros t Ht. apply Htasks. apply list_elem_of_fmap. eauto.
    + apply IH; auto.
      * eapply wf_step; eauto.
      * intros j Hj.
        destruct (step_tasks env a s s1 Hwf Hstep) as [(extra & Hext & Hcase) _].
        rewrite Hext in Hj. apply elem_of_app in Hj as [Hj|Hj]; [now apply Htasks|].
        destruct Hcase as [->|(data & jid & -> & Hjid & ->)]; [inversion Hj|].
        apply list_elem_of_singleton in Hj. subst.
        apply Hjids. simpl. rewrite Hjid. now left.
Qed.

(** Who the gateway writes to.  Along any schedule, every provider call
    that is made carries as its number the digits of the conversation of an
    event delivered in the schedule, or of a timer that existed when the
    schedule began, or of the owner's phone. *)
Theorem posts_only_to_conversations_or_owner sched s s' :
  wf s -> exec env sched s = Some s' ->
  appends
    (addressed_to
       (owner_numbers (settings env)
        ++ (_clean_phone_or_jid <$> (task_jid <$> tasks s))
        ++ (_clean_phone_or_jid <$> sched_jids sched)))
    s s'.
Proof.
  intros Hwf Hexec. apply (exec_addressed _ sched s s'); auto.
  - intros n Hn. apply elem_of_app. now left.
  - intros j Hj. apply elem_of_app. right. apply elem_of_app. left.
    apply list_elem_of_fmap. eauto.
  - intros j Hj. apply elem_of_app. right. apply elem_of_app. right.
    apply list_elem_of_fmap. eauto.
Qed.

End RecipientsOfARun.

(** * The recent-text buffer and the echo of a send *)

Section RecentTexts.
Context {A : Type}.

Lemma deque_append_last_n (n : nat) (x : A) (d : list A) :
  Py.deque_append n x d = last_n n (d ++ [x]).
Proof.
  unfold Py.deque_append, last_n. rewrite length_app. simpl.
  destruct (Nat.ltb_spec (length d) n) as [Hlt|Hge].
  - replace (length d + 1 - n)%nat with 0%nat by lia. reflexivity.
  - f_equal. lia.
Qed.

Lemma last_n_app (n : nat) (l l' : list A) :
  last_n n (last_n n l ++ l') = last_n n (l ++ l').
Proof.
  unfold last_n. rewrite !length_app, length_drop.
  destruct (Nat.le_gt_cases (length l) n) as [Hle|Hgt].
  - replace (length l - n)%nat with 0%nat by lia. simpl.
    f_equal. lia.
  - rewrite <- drop_app_le by lia. rewrite drop_drop. f_equal. lia.
Qed.

Lemma last_n_length (n : nat) (l : list A) : (length (last_n n l) <= n)%nat.
Proof. unfold last_n. rewrite length_drop. lia. Qed.

Lemma last_n_last (n : nat) (x : A) (l : list A) :
  (0 < n)%nat -> x ∈ last_n n (l ++ [x]).
Proof.
  intros Hn. unfold last_n. rewrite length_app. simpl.
  rewrite drop_app_le by lia. apply elem_of_app. right. now left.
Qed.

End RecentTexts.

Lemma remember_text_lookup jid text b :
  bot_sent_texts (remember_text jid text b) !! jid
  = Some (last_n 10 (default [] (bot_sent_texts b !! jid) ++ [text])).
Proof.
  unfold remember_text. simpl. rewrite lookup_insert_eq.
  now rewrite deque_append_last_n.
Qed.

Lemma remember_text_other jid text b j :
  j <> jid ->
  bot_sent_texts (remember_text jid text b) !! j = bot_sent_texts b !! j.
Proof.
  intros Hne. unfold remember_text. simpl. now rewrite lookup_insert_ne.
Qed.

(** The recent-text buffer of a conversation.  After any number of texts
    are remembered for a conversation, its buffer holds the last ten of what
    it held before followed by those texts, in order; so it never holds more
    than ten, and the latest text is always in it.  The buffers of the other
    conversations are not touched. *)
Theorem recent_texts_are_last_ten jid (texts : list string) b :
  texts <> [] ->
  let b' := foldl (fun b t => remember_text jid t b) b texts in
  let old := default [] (bot_sent_texts b !! jid) in
  bot_sent_texts b' !! jid = Some (last_n 10 (old ++ texts))
  /\ (length (last_n 10 (old ++ texts)) <= 10)%nat
  /\ (forall t, last texts = Some t -> t ∈ last_n 10 (old ++ texts))
  /\ (forall j, j <> jid -> bot_sent_texts b' !! j = bot_sent_texts b !! j).
Proof.
  intros Hne. cbv zeta.
  assert (Hfold : forall texts b, texts <> [] ->
            bot_sent_texts (foldl (fun b t => remember_text jid t b) b texts) !! jid
            = Some (last_n 10 (default [] (bot_sent_texts b !! jid) ++ texts))).
  { clear. induction texts as [|t rest IH]; intros b Hne; [contradiction|].
    simpl. destruct rest as [|t2 rest].
    - simpl. apply remember_text_lookup.
    - rewrite IH by discriminate. rewrite remember_text_lookup. simpl default.
      f_equal. rewrite last_n_app. now rewrite <- app_assoc. }
  assert (Hother : forall texts b j, j <> jid ->
            bot_sent_texts (foldl (fun b t => remember_text jid t b) b texts) !! j
            = bot_sent_texts b !! j).
  { clear. induction texts as [|t rest IH]; intros b j Hj; [reflexivity|].
    simpl. rewrite IH by assumption. now apply remember_text_other. }
  split; [now apply Hfold|]. split; [apply last_n_length|]. split.
  - intros t Hlast. apply last_Some in Hlast as [front ->].
    rewrite app_assoc. apply last_n_last. lia.
  - intros j Hj. now apply Hother.
Qed.

Section EchoOfASend.
Context (env : Env).

(** [_evo_post] when the first answer is not a 429. *)
Lemma evo_post_first url payload s (r : Response) :
  client_post env (length (trace s)) url payload = Ok r ->
  status_code r <> 429 ->
  _evo_post env url payload s = (Ok r, set_trace (trace s ++ [EPost url payload]) s).
Proof.
  intros Hpost Hst. rewrite evo_post_run, Hpost.
  replace (status_code r =? 429) with false by (symmetry; now apply Z.eqb_neq).
  reflexivity.
Qed.

(** The echo of a text the bot sent.  After a text send that the provider
    accepts at the first attempt, the text is in the recent-text buffer of
    the conversation [digits@s.whatsapp.net]; a later report of a message
    of the business line with that text in that conversation is taken for
    the bot's own, at any time and whatever id it carries, and it leaves the
    silence registry as it is. *)
Theorem sent_text_echo_is_recognised number_or_jid text s (r : Response) :
  let clean_number := _clean_phone_or_jid number_or_jid in
  let url := "/message/sendText/" +:+ EVO_INSTANCE (settings env) in
  let payload := JObj [("number", JStr clean_number); ("text", JStr (Py.strip text))] in
  let jid := clean_number +:+ "@s.whatsapp.net" in
  let s' := snd (send_evolution_message env number_or_jid text [] s) in
  Py.strip text <> "" -> clean_number <> "" -> http_client (bot s) = true ->
  client_post env (length (trace s)) url payload = Ok r ->
  status_code r < 400 ->
  (exists recent, bot_sent_texts (bot s') !! jid = Some recent /\ Py.strip text ∈ recent)
  /\ last_bot_message_time (bot s') !! jid = Some (now s)
  /\ (forall t msg_id,
        is_bot (_is_bot_message_branch env (bot s') t jid msg_id (Py.strip text)) = true)
  /\ (forall data from_me msg_id is_audio t,
        event_header data = Ok (jid, from_me, msg_id) ->
        Json.truthy from_me = true ->
        event_message data = Some (Py.strip text, is_audio) ->
        silenced_users (bot (snd (process_single_event env data (set_now t s'))))
        = silenced_users (bot s)).
Proof.
  cbv zeta. intros Ht Hn Hc Hpost Hst.
  rewrite (send_text_run env number_or_jid text s Ht Hn Hc). cbv zeta.
  rewrite (evo_post_first _ _ s r Hpost) by lia.
  replace (status_code r >=? 400) with false
    by (symmetry; rewrite Z.geb_leb; apply Z.leb_gt; lia).
  cbn [snd].
  set (jid := _clean_phone_or_jid number_or_jid +:+ "@s.whatsapp.net").
  set (s1 := set_trace _ s).
  set (s2 := snd (track_message_id r s1)).
  assert (Hs2 : now s2 = now s /\ silenced_users (bot s2) = silenced_users (bot s)).
  { pose proof (same_core_track r s1) as Hcore. fold s2 in Hcore.
    destruct Hcore as (Hnow & _ & _ & _ & _ & _ & Hsil & _). split; assumption. }
  destruct Hs2 as [Hnow Hsil].
  assert (Htexts : exists recent,
            bot_sent_texts (remember_time jid (now s2)
                              (remember_text jid (Py.strip text) (bot s2))) !! jid
            = Some recent /\ Py.strip text ∈ recent).
  { eexists. split.
    - unfold remember_time. simpl. rewrite lookup_insert_eq. reflexivity.
    - rewrite deque_append_last_n. apply last_n_last. lia. }
  assert (Hbot : forall t msg_id,
            is_bot (_is_bot_message_branch env
                      (remember_time jid (now s2)
                         (remember_text jid (Py.strip text) (bot s2)))
                      t jid msg_id (Py.strip text)) = true).
  { intros t msg_id. unfold _is_bot_message_branch.
    destruct (layer_id _ msg_id); [reflexivity|].
    replace (layer_text _ jid (Py.strip text)) with true; [reflexivity|].
    symmetry. unfold layer_text. destruct Htexts as (recent & -> & Hin).
    now apply bool_decide_eq_true. }
  split; [exact Htexts|]. split.
  { simpl. rewrite lookup_insert_eq. now rewrite Hnow. }
  split; [exact Hbot|].
  intros data from_me msg_id is_audio t Hh Hfm Hmsg.
  set (b' := remember_time jid (now s2) (remember_text jid (Py.strip text) (bot s2))) in *.
  assert (Hsil' : silenced_users b' = silenced_users (bot s)) by (now rewrite <- Hsil).
  destruct (routable jid) eqn:Hr.
  2:{ rewrite (process_unroutable_run env _ _ _ _ _ Hh Hr). exact Hsil'. }
  rewrite (process_routable_run env _ _ _ _ _ Hh Hr).
  destruct (Py.nonempty msg_id && bos_contains msg_id _); [exact Hsil'|].
  destruct (Py.nonempty msg_id).
  - destruct (bos_add msg_id _) as [ids|e]; [|exact Hsil'].
    rewrite (dispatch_outbound_run env _ _ _ _ _ _ _ Hfm Hmsg). cbn [snd bot set_bot set_now].
    rewrite branch_set_processed, Hbot. exact Hsil'.
  - rewrite (dispatch_outbound_run env _ _ _ _ _ _ _ Hfm Hmsg). cbn [snd bot set_bot set_now].
    rewrite Hbot. exact Hsil'.
Qed.

End EchoOfASend.

(** * Commands *)

Lemma has_space_join m1 m2 rest : has_char " " (Py.join " | " (m1 :: m2 :: rest)) = true.
Proof.
  unfold Py.join. simpl.
  change (has_char " " (m1 +:+ (" | " +:+ String.concat " | " (m2 :: rest))) = true).
  rewrite has_char_app. simpl. apply orb_true_r.
Qed.

Section Commands.
Context (env : Env).

(** A turn of a conversation that has no silence entry. *)
Lemma turn_not_silenced tid c m rest s :
  silenced_users (bot s) !! c = None ->
  pending_messages (bot s) !! c = Some (m :: rest) ->
  let text := combine (m :: rest) in
  let s' := snd (_process_accumulated_messages_begin tid c s) in
  fst (_process_accumulated_messages_begin tid c s)
  = Ok (Some (if String.eqb (Py.lower text) "/silencio" then KMuteReply
              else if String.eqb (Py.lower text) "/activar" then KUnmuteReply
              else KPipeline text))
  /\ silenced_users (bot s')
     = (if String.eqb (Py.lower text) "/silencio"
        then <[c := SilenceTrue]> (silenced_users (bot s))
        else if String.eqb (Py.lower text) "/activar"
        then delete c (silenced_users (bot s))
        else silenced_users (bot s)).
Proof.
  intros Hv Hm. cbv zeta.
  destruct (_process_accumulated_messages_begin tid c s) as [r s'] eqn:Hrun.
  unfold _process_accumulated_messages_begin, log_turn in Hrun. munfold.
  cbv beta iota zeta in Hrun. rewrite Hm in Hrun.
  change (default [] (Some (m :: rest))) with (m :: rest) in Hrun.
  cbv beta iota in Hrun.
  remember (combine (m :: rest)) as text eqn:Htext.
  rewrite check_silenced_run in Hrun. simpl in Hrun. rewrite Hv in Hrun.
  simpl in Hrun.
  destruct (String.eqb (Py.lower text) "/silencio");
    [|destruct (String.eqb (Py.lower text) "/activar")];
    injection Hrun as <- <-; simpl; split; reflexivity.
Qed.

(** A command needs a turn of its own.  "/silencio" and "/activar" are
    recognised in any letter case when they are the whole text of the turn.
    When the burst holds two messages or more, the combined text is no
    command, whatever the messages are: the turn goes to the reply pipeline
    with the joined text and the silence registry is not touched. *)
Theorem command_needs_its_own_turn tid c s :
  silenced_users (bot s) !! c = None ->
  (forall m, pending_messages (bot s) !! c = Some [m] ->
     (Py.lower m = "/silencio" ->
      fst (_process_accumulated_messages_begin tid c s) = Ok (Some KMuteReply)
      /\ silenced_users (bot (snd (_process_accumulated_messages_begin tid c s))) !! c
         = Some SilenceTrue)
     /\ (Py.lower m = "/activar" ->
         fst (_process_accumulated_messages_begin tid c s) = Ok (Some KUnmuteReply)))
  /\ (forall m1 m2 rest,
        pending_messages (bot s) !! c = Some (m1 :: m2 :: rest) ->
        fst (_process_accumulated_messages_begin tid c s)
        = Ok (Some (KPipeline (Py.join " | " (m1 :: m2 :: rest))))
        /\ silenced_users (bot (snd (_process_accumulated_messages_begin tid c s)))
           = silenced_users (bot s)).
Proof.
  intros Hv. split.
  - intros m Hm.
    destruct (turn_not_silenced tid c m [] s Hv Hm) as [Hr Hs]. simpl combine in *.
    split; intros Hcmd; rewrite Hcmd in *; simpl in *.
    + split; [exact Hr|]. rewrite Hs. apply lookup_insert_eq.
    + exact Hr.
  - intros m1 m2 rest Hm.
    destruct (turn_not_silenced tid c m1 (m2 :: rest) s Hv Hm) as [Hr Hs].
    change (combine (m1 :: m2 :: rest)) with (Py.join " | " (m1 :: m2 :: rest)) in *.
    assert (Hno : forall cmd, has_char " " cmd = false ->
              String.eqb (Py.lower (Py.join " | " (m1 :: m2 :: rest))) cmd = false).
    { intros cmd Hcmd. apply String.eqb_neq. intros Heq.
      pose proof (has_space_join m1 m2 rest) as Hsp.
      apply has_space_lower in Hsp. rewrite Heq, Hcmd in Hsp. discriminate. }
    rewrite !Hno in Hr, Hs by reflexivity. auto.
Qed.

(** What is written during a silence is lost.  A turn taken while the
    conversation is silenced returns at the silence check after the buffer
    and the timer entry of the conversation have been removed: nothing is
    sent, and the messages of that burst are not kept for later.  The next
    message starts a buffer of its own. *)
Theorem silenced_turn_discards_messages tid c v m rest s :
  silenced_users (bot s) !! c = Some v -> now s < as_number v ->
  pending_messages (bot s) !! c = Some (m :: rest) ->
  let s' := snd (_process_accumulated_messages_begin tid c s) in
  fst (_process_accumulated_messages_begin tid c s) = Ok None
  /\ trace s' = trace s
  /\ pending_messages (bot s') !! c = None
  /\ pending_message_tasks (bot s') !! c = None
  /\ (forall text,
        pending_messages (bot (snd (accumulate env c text s'))) !! c = Some [text]).
Proof.
  intros Hv Hlt Hm. cbv zeta.
  destruct (turn_while_silenced tid c v m rest s Hv Hlt Hm) as (Hr & _ & Htr).
  pose proof (begin_effect tid c s) as Hb. cbv zeta in Hb.
  destruct Hb as (_ & _ & _ & _ & Hp & Ht & _).
  assert (Hp' : pending_messages
                  (bot (snd (_process_accumulated_messages_begin tid c s))) !! c = None).
  { rewrite Hp. apply lookup_delete_eq. }
  repeat split; auto.
  - rewrite Ht. apply lookup_delete_eq.
  - intros text. rewrite accumulate_run. cbn [snd bot]. cbv zeta.
    cbn [pending_messages set_pending_message_tasks set_pending_messages].
    rewrite lookup_insert_eq, Hp'. reflexivity.
Qed.

End Commands.

(** * The reply pipeline *)

Lemma wp_eq {A} (m : M A) s (x : res A * Sys) :
  wp m (fun r s' => (r, s') = x) s -> m s = x.
Proof. unfold wp. destruct (m s). auto. Qed.

Ltac wp_go := repeat (wp_step; cbv beta iota).

Section Pipeline.
Context (env : Env).

(** The session store out of reach.  When the store was never initialised
    the turn ends after the inventory refresh.  When reading the session
    raises, the exception leaves the pipeline: nothing is generated, stored
    or sent, and the timer task ends as finished, the exception swallowed by
    [_schedule_accumulated_processing]. *)
Theorem store_failure_drops_turn remote_jid combined_message s :
  (store (bot s) = false ->
   reply_pipeline env remote_jid combined_message s
   = (Ok tt, set_trace (trace s ++ [EInventory]) s))
  /\ (forall e, store (bot s) = true ->
        store_get env (S (length (trace s))) remote_jid = Raise e ->
        reply_pipeline env remote_jid combined_message s
        = (Raise e, set_trace (trace s ++ [EInventory; EStoreGet remote_jid]) s)
        /\ forall tid t,
             tasks s !! tid = Some t -> task_jid t = remote_jid ->
             task_status_of t = Running (KPipeline combined_message) ->
             resume env tid s
             = Some (set_status tid Finished
                       (set_trace (trace s ++ [EInventory; EStoreGet remote_jid]) s))).
Proof.
  split.
  - intros Hstore. apply wp_eq. unfold reply_pipeline.
    wp_go. cbn [bot set_trace]. rewrite Hstore. cbn [negb]. wp_go. reflexivity.
  - intros e Hstore Hget.
    assert (Hrun : reply_pipeline env remote_jid combined_message s
                   = (Raise e, set_trace (trace s ++ [EInventory; EStoreGet remote_jid]) s)).
    { apply wp_eq. unfold reply_pipeline.
      wp_go. cbn [bot set_trace]. rewrite Hstore. cbn [negb]. wp_go.
      cbn [trace set_trace]. rewrite length_app. simpl length.
      replace (length (trace s) + 1)%nat with (S (length (trace s))) by lia.
      rewrite Hget. unfold set_trace. cbn. rewrite <- app_assoc. reflexivity. }
    split; [exact Hrun|].
    intros tid t Ht Hjid Hst. unfold resume. rewrite Ht, Hst. cbn zeta.
    unfold try_except, _process_accumulated_messages_resume. rewrite Hjid, Hrun.
    reflexivity.
Qed.

(** A text send adds the attempts of its provider call to the trace, and
    nothing else. *)
Lemma send_text_trace number_or_jid text s :
  Py.strip text <> "" -> _clean_phone_or_jid number_or_jid <> "" ->
  http_client (bot s) = true ->
  trace (snd (send_evolution_message env number_or_jid text [] s))
  = trace (snd (_evo_post env (send_text_url (settings env))
                  (text_payload (_clean_phone_or_jid number_or_jid) (Py.strip text)) s)).
Proof.
  intros Ht Hn Hc. rewrite (send_text_run env number_or_jid text s Ht Hn Hc). cbv zeta.
  fold (send_text_url (settings env)).
  fold (text_payload (_clean_phone_or_jid number_or_jid) (Py.strip text)).
  destruct (_evo_post env _ _ s) as [[response|e] s1]; simpl; [|reflexivity].
  destruct (status_code response >=? 400); [reflexivity|].
  simpl. rewrite track_message_id_run. simpl.
  repeat match goal with
         | |- context [match ?x with _ => _ end] => destruct x; simpl
         end; reflexivity.
Qed.

(** The reply goes out.  With the session read, a turn whose reply is a
    text runs in this order: inventory refresh, session read, typing delay,
    reply generation, session write, then the attempts of one provider
    call that carries the stripped reply to the digits of the conversation:
    one attempt when the first answer is not a 429, at most three
    otherwise, with the waits between them.  What follows holds no other
    provider call than alerts to the owner.  When [handle_message] raises,
    the fixed reply "Dame un momento..." takes the place of the generated
    one and the session is written back as it was read; when writing the
    session raises, the reply is sent all the same. *)
Theorem reply_despite_failures remote_jid combined_message s found :
  let n := length (trace s) in
  let session := default {| session_state := "start"; session_context := JObj [] |} found in
  let state := session_state session in
  let context := Json.or_else (session_context session) (JObj []) in
  let result := match handle_message env (n + 3) combined_message state context with
                | Ok r => r
                | Raise _ => fallback_result state context
                end in
  let url := send_text_url (settings env) in
  let payload := text_payload (_clean_phone_or_jid remote_jid)
                   (Py.strip (result_reply result)) in
  store (bot s) = true ->
  store_get env (n + 1) remote_jid = Ok found ->
  result_pdf_info result = None -> result_media_urls result = [] ->
  Py.strip (result_reply result) <> "" ->
  _clean_phone_or_jid remote_jid <> "" -> http_client (bot s) = true ->
  exists outs rest,
    trace (snd (reply_pipeline env remote_jid combined_message s))
    = trace s
      ++ [EInventory; EStoreGet remote_jid; ESleep (typing_delay env (n + 2));
          EHandleMessage combined_message state context;
          EStoreUpsert remote_jid (result_new_state result) (result_context result)]
      ++ retry_trace url payload outs 0
      ++ rest
    /\ (1 <= length outs <= 3)%nat
    /\ (forall i o, outs !! i = Some o ->
          o = client_post env (n + 5 + 2 * i) url payload)
    /\ (forall i o, outs !! i = Some o -> (S i < length outs)%nat -> is_429 o = true)
    /\ (is_429 (client_post env (n + 5) url payload) = false ->
        outs = [client_post env (n + 5) url payload])
    /\ Forall (addressed_to (owner_numbers (settings env))) rest.
Proof.
  cbv zeta. intros Hstore Hget Hpdf Hmedia Hreply Hclean Hclient.
  set (state := session_state _) in *.
  set (context := Json.or_else _ _) in *.
  set (result := match handle_message env _ combined_message state context with
                 | Ok r => r
                 | Raise _ => fallback_result state context
                 end) in *.
  set (url := send_text_url (settings env)).
  set (payload := text_payload _ _).
  set (head := [EInventory; EStoreGet remote_jid;
                ESleep (typing_delay env (length (trace s) + 2));
                EHandleMessage combined_message state context;
                EStoreUpsert remote_jid (result_new_state result) (result_context result)]).
  set (Q := fun s' : Sys =>
         exists outs rest,
           trace s' = trace s ++ head ++ retry_trace url payload outs 0 ++ rest
           /\ (1 <= length outs <= 3)%nat
           /\ (forall i o, outs !! i = Some o ->
                 o = client_post env (length (trace s) + 5 + 2 * i) url payload)
           /\ (forall i o, outs !! i = Some o -> (S i < length outs)%nat -> is_429 o = true)
           /\ (is_429 (client_post env (length (trace s) + 5) url payload) = false ->
               outs = [client_post env (length (trace s) + 5) url payload])
           /\ Forall (addressed_to (owner_numbers (settings env))) rest).
  change (wp (reply_pipeline env remote_jid combined_message) (fun _ s' => Q s') s).
  assert (Htail : forall (s0 : Sys),
            http_client (bot s0) = true ->
            trace s0 = trace s ++ head ->
            forall (tail : M unit),
              preserves (appends (addressed_to (owner_numbers (settings env)))) tail ->
              wp (match result_pdf_info result with
                  | Some pdf_info =>
                      match pdf_url pdf_info with
                      | Some u =>
                          if Py.nonempty u
                          then send_evolution_document env remote_jid
                                 (Py.strip (result_reply result)) u
                                 (default "documento.pdf" (filename pdf_info))
                          else send_evolution_message env remote_jid
                                 (Py.strip (result_reply result)) (result_media_urls result)
                      | None => send_evolution_message env remote_jid
                                  (Py.strip (result_reply result)) (result_media_urls result)
                      end
                  | None => send_evolution_message env remote_jid
                              (Py.strip (result_reply result)) (result_media_urls result)
                  end)
                 (fun r s1 =>
                    match r with
                    | Ok _ => wp tail (fun _ s' => Q s') s1
                    | Raise e => Q s1
                    end) s0).
  { intros s0 Hc Htr tail Htail.
    rewrite Hpdf, Hmedia.
    pose proof (send_text_trace remote_jid (Py.strip (result_reply result)) s0) as Hsend.
    rewrite strip_idempotent in Hsend.
    specialize (Hsend Hreply Hclean Hc). fold url payload in Hsend.
    destruct (evo_post_attempts env url payload s0) as (outs & Hlen & Hpos & H429 & Hout & Hone).
    rewrite <- Hsend in Hout.
    pose proof (send_evolution_message_ok env remote_jid
                  (Py.strip (result_reply result)) [] s0) as Hok.
    assert (Hn5 : length (trace s0) = (length (trace s) + 5)%nat).
    { rewrite Htr, length_app. reflexivity. }
    rewrite Hn5 in Hpos, Hone.
    unfold wp at 1.
    destruct (send_evolution_message env remote_jid (Py.strip (result_reply result)) [] s0)
      as [r1 s1]. cbn [fst snd] in *. subst r1.
    apply (wp_preserves _ tail _ s1 Htail).
    intros r s' (extra & He & Hextra). exists outs, extra.
    split; [|auto].
    rewrite He, Hout, Htr. rewrite <- !app_assoc. reflexivity. }
  unfold reply_pipeline.
  wp_go. cbn [bot set_trace]. rewrite Hstore. cbn [negb]. wp_go.
  cbn [trace set_trace]. rewrite !length_app. cbn [length].
  rewrite Hget. wp_go.
  cbn [trace set_trace]. rewrite !length_app. cbn [length].
  replace (length (trace s) + 1 + 1)%nat with (length (trace s) + 2)%nat by lia.
  replace (length (trace s) + 2 + 1)%nat with (length (trace s) + 3)%nat by lia.
  fold state context. unfold result in *. clear result.
  destruct (handle_message env (length (trace s) + 3) combined_message state context)
    as [result|e] eqn:Hh; wp_go;
    cbn [trace set_trace]; rewrite !length_app; cbn [length];
    match goal with
    | |- context [store_upsert env ?n ?j ?st ?c] => destruct (store_upsert env n j st c)
    end; wp_go;
    (apply Htail;
     [ exact Hclient
     | cbn [trace set_trace]; rewrite <- !app_assoc; reflexivity
     | ]).
  all: repeat preserve_step;
    first [ apply appends_emit; exact I
          | apply appends_modify
          | apply addressed_notify_owner; auto ].
Qed.

End Pipeline.

(** * The funnel: one report per stage *)

Lemma mondays_app tr1 tr2 : mondays (tr1 ++ tr2) = mondays tr1 ++ mondays tr2.
Proof. unfold mondays. apply omap_app. Qed.

Lemma mondays_not_monday extra : Forall not_monday extra -> mondays extra = [].
Proof.
  induction 1 as [|e extra He _ IH]; [reflexivity|].
  destruct e; simpl in *; try exact IH. contradiction.
Qed.

(** The key added last survives the next addition when the capacity is at
    least two. *)
Lemma bos_add_keeps_newest {K : Type} `{EqDecision K} (k k2 : K)
    (s s1 s2 : @BoundedOrderedSet K) :
  bos_contains k s = false -> bos_add k s = Ok s1 -> 1 < _maxlen s ->
  bos_add k2 s1 = Ok s2 -> bos_contains k s2 = true.
Proof.
  intros Hfresh Hadd Hcap Hadd2.
  assert (Hs1 : exists d, _data s1 = d ++ [k] /\ _maxlen s1 = _maxlen s).
  { unfold bos_add in Hadd. rewrite Hfresh in Hadd.
    destruct (_maxlen s <=? bos_len s).
    - destruct (_data s) as [|x d]; simpl in Hadd; [discriminate|].
      injection Hadd as <-. simpl. eauto.
    - injection Hadd as <-. simpl. eauto. }
  destruct Hs1 as (d & Hd & Hm).
  apply bos_contains_true. unfold bos_add in Hadd2.
  destruct (bos_contains k2 s1).
  { injection Hadd2 as <-. rewrite Hd. apply elem_of_app. right. now left. }
  rewrite Hm in Hadd2. unfold bos_len in Hadd2. rewrite Hd in Hadd2.
  destruct (_maxlen s <=? Z.of_nat (length (d ++ [k]))) eqn:Hfull.
  - destruct d as [|x d]; simpl in Hadd2.
    + apply Z.leb_le in Hfull. simpl in Hfull. lia.
    + injection Hadd2 as <-. simpl. apply elem_of_app. left.
      apply elem_of_app. right. now left.
  - injection Hadd2 as <-. simpl. apply elem_of_app. left.
    apply elem_of_app. right. now left.
Qed.

Section Funnel.
Context (env : Env).

#[local] Instance quiet_preorder : PreOrder quiet.
Proof.
  split.
  - intros s. split; reflexivity.
  - intros s1 s2 s3 [H1 H2] [H3 H4]. split; etransitivity; eauto.
Qed.

Lemma quiet_emit e : not_monday e -> preserves quiet (emit e).
Proof. intros He s. split; [reflexivity|now apply appends_emit]. Qed.

Lemma quiet_send number_or_jid text media_urls :
  preserves quiet (send_evolution_message env number_or_jid text media_urls).
Proof.
  intros s. split.
  - now apply same_field_send_evolution_message.
  - apply appends_send_evolution_message; intros; exact I.
Qed.

Lemma quiet_document number_or_jid text pdf_url filename :
  preserves quiet (send_evolution_document env number_or_jid text pdf_url filename).
Proof.
  intros s. split.
  - now apply same_field_send_evolution_document.
  - apply appends_send_evolution_document; intros; exact I.
Qed.

Lemma quiet_notify_owner user_number_or_jid user_message bot_reply is_lead :
  preserves quiet (notify_owner env user_number_or_jid user_message bot_reply is_lead).
Proof.
  unfold notify_owner. repeat preserve_step; apply quiet_send.
Qed.

Lemma quiet_reports_once remote_jid s s' : quiet s s' -> reports_once remote_jid s s'.
Proof.
  intros [_ (extra & Htr & Hnm)]. exists extra. split; [exact Htr|].
  left. now apply mondays_not_monday.
Qed.

Lemma quiet_intro s s' extra :
  processed_lead_ids (bot s') = processed_lead_ids (bot s) ->
  trace s' = trace s ++ extra -> Forall not_monday extra -> quiet s s'.
Proof. intros Hl Htr Hnm. split; [exact Hl|]. exists extra. auto. Qed.

Lemma appends_reports_once remote_jid s s' :
  appends not_monday s s' -> reports_once remote_jid s s'.
Proof.
  intros (extra & Htr & Hnm). exists extra. split; [exact Htr|].
  left. now apply mondays_not_monday.
Qed.

(** The end of a run in which the stage was reported. *)
Lemma reports_once_reported remote_jid stage s s1 s3 extra3 :
  quiet s s1 ->
  trace s3 = (trace s1 ++ [EMonday (Py.before_at remote_jid) stage]) ++ extra3 ->
  Forall not_monday extra3 ->
  stage ∈ funnel_stages ->
  bos_contains (remote_jid +:+ "|" +:+ stage) (processed_lead_ids (bot s1)) = false ->
  (1 < _maxlen (processed_lead_ids (bot s1)) ->
   bos_contains (remote_jid +:+ "|" +:+ stage) (processed_lead_ids (bot s3)) = true) ->
  reports_once remote_jid s s3.
Proof.
  intros [Hl (extra1 & Htr1 & Hnm1)] Htr3 Hnm3 Hstage Hfresh Hin.
  unfold same_field in Hl. rewrite Hl in *.
  exists (extra1 ++ [EMonday (Py.before_at remote_jid) stage] ++ extra3). split.
  - rewrite Htr3, Htr1. now rewrite <- !app_assoc.
  - right. exists stage. rewrite !mondays_app.
    rewrite (mondays_not_monday _ Hnm1), (mondays_not_monday _ Hnm3).
    repeat split; auto.
Qed.

Ltac quiet_done :=
  apply quiet_reports_once; eapply quiet_intro;
  [ reflexivity
  | cbn [trace set_trace]; rewrite <- ?app_assoc; reflexivity
  | cbn [app]; repeat (apply Forall_cons_2; [exact I|]); apply Forall_nil_2 ].

Lemma not_monday_notify_owner user_number_or_jid user_message bot_reply is_lead :
  preserves (appends not_monday)
    (notify_owner env user_number_or_jid user_message bot_reply is_lead).
Proof. intros s. apply (quiet_notify_owner _ _ _ _ s). Qed.

(** What the last block does to the lead cache and to the trace: it adds
    at most the lead key, and makes no Monday call. *)
Lemma lead_block_spec remote_jid combined_message reply_text lead_info s :
  let s' := snd (lead_block env remote_jid combined_message reply_text lead_info s) in
  appends not_monday s s'
  /\ (processed_lead_ids (bot s') = processed_lead_ids (bot s)
      \/ bos_add (remote_jid +:+ "|lead") (processed_lead_ids (bot s))
         = Ok (processed_lead_ids (bot s'))).
Proof.
  cbv zeta.
  change (wp (lead_block env remote_jid combined_message reply_text lead_info)
            (fun _ s' =>
               appends not_monday s s'
               /\ (processed_lead_ids (bot s') = processed_lead_ids (bot s)
                   \/ bos_add (remote_jid +:+ "|lead") (processed_lead_ids (bot s))
                      = Ok (processed_lead_ids (bot s')))) s).
  unfold lead_block. destruct lead_info.
  - wp_go. destruct (bos_contains _ _); cbn [negb]; wp_go;
      [split; [reflexivity|now left]|].
    destruct (bos_add _ _) as [ids|e] eqn:Hadd; wp_go;
      [|split; [reflexivity|now left]].
    apply (wp_preserves quiet); [apply quiet_notify_owner|].
    intros r s' [Hl Ha].
    assert (Hgoal : appends not_monday s s'
                    /\ (processed_lead_ids (bot s') = processed_lead_ids (bot s)
                        \/ Ok ids = Ok (processed_lead_ids (bot s')))).
    { split.
      - destruct Ha as (extra & Htr & Hnm). exists extra. auto.
      - right. unfold same_field in Hl. simpl in Hl. now rewrite Hl. }
    destruct r; wp_go; exact Hgoal.
  - apply (wp_preserves quiet); [apply quiet_notify_owner|].
    intros r s' [Hl Ha]. split; [exact Ha|now left].
Qed.

Lemma tail_quiet remote_jid combined_message reply_text lead_info s s2 :
  appends not_monday s s2 ->
  wp (lead_block env remote_jid combined_message reply_text lead_info)
     (fun _ s' => reports_once remote_jid s s') s2.
Proof.
  intros Ha. unfold wp.
  destruct (lead_block_spec remote_jid combined_message reply_text lead_info s2) as [Ha2 _].
  apply appends_reports_once. etransitivity; eauto.
Qed.

Lemma tail_reported remote_jid combined_message reply_text lead_info s s1 s2 stage ids :
  quiet s s1 ->
  stage ∈ funnel_stages ->
  bos_contains (remote_jid +:+ "|" +:+ stage) (processed_lead_ids (bot s1)) = false ->
  bos_add (remote_jid +:+ "|" +:+ stage) (processed_lead_ids (bot s1)) = Ok ids ->
  trace s2 = trace s1 ++ [EMonday (Py.before_at remote_jid) stage] ->
  processed_lead_ids (bot s2) = ids ->
  wp (lead_block env remote_jid combined_message reply_text lead_info)
     (fun _ s' => reports_once remote_jid s s') s2.
Proof.
  intros Hq Hstage Hfresh Hadd Htr Hids. unfold wp.
  destruct (lead_block_spec remote_jid combined_message reply_text lead_info s2)
    as [(extra3 & Htr3 & Hnm3) Hlead].
  apply (reports_once_reported remote_jid stage s s1 _ extra3 Hq); auto.
  - now rewrite Htr3, Htr.
  - intros Hcap. destruct Hlead as [Hsame|Hadd2].
    + rewrite Hsame, Hids. eapply bos_add_contains; eauto.
    + rewrite Hids in Hadd2.
      eapply (bos_add_keeps_newest _ _ _ _ _ Hfresh Hadd Hcap Hadd2).
Qed.

(** The funnel report.  One run of the reply pipeline calls Monday at most
    once.  When it does, the call carries the part of the conversation
    identity before the "@" and one of the three stages "Enganche",
    "Intención", "Cita agendada"; the key [remote_jid|stage] was not in the
    lead cache before the run, and it is in it afterwards, so that a later
    run does not report the same stage of the same conversation again while
    the key stays in the cache.  This holds whatever the collaborators
    answer, the Monday call failing included. *)
Theorem funnel_stage_reported_once remote_jid combined_message s :
  reports_once remote_jid s (snd (reply_pipeline env remote_jid combined_message s)).
Proof.
  change (wp (reply_pipeline env remote_jid combined_message)
            (fun _ s' => reports_once remote_jid s s') s).
  unfold reply_pipeline.
  wp_go. cbn [bot set_trace]. destruct (store (bot s)); cbn [negb]; wp_go.
  2:{ quiet_done. }
  destruct (store_get env _ remote_jid) as [found|e]; [|quiet_done].
  wp_go.
  set (state := session_state _).
  set (context := Json.or_else _ _).
  destruct (handle_message env _ combined_message state context) as [result|e]; wp_go.
  all: match goal with
       | |- context [store_upsert env ?n ?j ?st ?c] => destruct (store_upsert env n j st c)
       end; wp_go.
  all: match goal with
       | |- wp _ _ ?st =>
           remember st as s0 eqn:Hs0;
           assert (Hq : quiet s s0)
             by (subst s0; eapply quiet_intro;
                 [ reflexivity
                 | cbn [trace set_trace]; rewrite <- ?app_assoc; reflexivity
                 | cbn [app]; repeat (apply Forall_cons_2; [exact I|]); apply Forall_nil_2 ]);
           clear Hs0
       end.
  all: apply (wp_preserves quiet);
    [ repeat preserve_step; first [ apply quiet_send | apply quiet_document ]
    | intros r s1 Hq1 ].
  all: assert (Hq01 : quiet s s1) by (etransitivity; eauto).
  all: clear Hq Hq1 s0.
  all: destruct r as [[]|e1]; [|now apply quiet_reports_once].
  all: wp_go.
  all: destruct (Json.get context "funnel_stage" (JStr "")) as [previous_stage|e2];
    [|now apply quiet_reports_once].
  all: wp_go.
  all: match goal with
       | |- context [if ?li then try_except ?body ?handler
                     else notify_owner ?ev ?jid ?msg ?reply false] =>
           change (if li then try_except body handler
                   else notify_owner ev jid msg reply false)
             with (lead_block ev jid msg reply li)
       end.
  all: destruct (bool_decide _ && negb _) eqn:Hcond; wp_go;
    [|apply tail_quiet; apply Hq01].
  all: destruct (bos_contains _ (processed_lead_ids (bot s1))) eqn:Hc; cbn [negb]; wp_go;
    [apply tail_quiet; apply Hq01|].
  all: destruct (bos_add _ (processed_lead_ids (bot s1))) as [ids|e3] eqn:Hadd; wp_go;
    [|apply tail_quiet; apply Hq01].
  all: apply andb_true_iff in Hcond as [Hstage _]; apply bool_decide_eq_true in Hstage.
  all: destruct (create_or_update_lead env _ _ _); wp_go;
    (eapply (tail_reported _ _ _ _ s s1); eauto; reflexivity).
Qed.

End Funnel.

(** * Memory bounds along a run *)

Section Bounds.
Context (env : Env).

#[local] Instance keeps_bounds_preorder : PreOrder keeps_bounds.
Proof.
  split.
  - intros s. split; auto.
  - intros s1 s2 s3 [H1 H2] [H3 H4]. split; [congruence|auto].
Qed.

Lemma keeps_bounds_same_bot s s' : bot s' = bot s -> keeps_bounds s s'.
Proof. intros Hb. unfold keeps_bounds. rewrite Hb. split; auto. Qed.

Lemma keeps_bounds_emit e : preserves keeps_bounds (emit e).
Proof. intros s. now apply keeps_bounds_same_bot. Qed.

Lemma keeps_bounds_modify f :
  (forall b, capacities (f b) = capacities b
             /\ (bounded_state b -> bounded_state (f b))) ->
  preserves keeps_bounds (modify_bot f).
Proof. intros Hf s. apply (Hf (bot s)). Qed.

Lemma within_add {K : Type} `{EqDecision K} (k : K) (ids ids' : @BoundedOrderedSet K) :
  within ids -> bos_add k ids = Ok ids' -> within ids'.
Proof.
  intros [Hpos Hle] Hadd. split.
  - now rewrite (bos_add_maxlen _ _ _ Hadd).
  - eapply bos_add_len; eauto.
Qed.

Lemma keeps_bounds_evo_post url payload : preserves keeps_bounds (_evo_post env url payload).
Proof.
  intros s. apply keeps_bounds_same_bot.
  pose proof (evo_post_frame env url payload s) as H. cbv zeta in H. apply H.
Qed.

Lemma keeps_bounds_track r : preserves keeps_bounds (track_message_id r).
Proof.
  intros s. rewrite track_message_id_run. cbn [snd].
  destruct (key_id r) as [[i|]|e]; try reflexivity.
  destruct (Py.nonempty i); [|reflexivity].
  destruct (bos_add i (bot_sent_message_ids (bot s))) as [ids|e] eqn:Hadd; [|reflexivity].
  split.
  - unfold capacities. simpl. now rewrite (bos_add_maxlen _ _ _ Hadd).
  - intros (H1 & H2 & H3 & H4). repeat split; try apply H1; try apply H2; auto.
    + simpl. rewrite (bos_add_maxlen _ _ _ Hadd). apply H3.
    + simpl. eapply bos_add_len; eauto; apply H3.
Qed.

Lemma keeps_bounds_send_media_loop clean_number text total media_urls : forall i,
  preserves keeps_bounds (send_media_loop env clean_number text total i media_urls).
Proof.
  induction media_urls as [|u rest IH]; intros i; simpl.
  - preserve_step.
  - unfold sleep. repeat preserve_step;
      try apply keeps_bounds_emit; try apply keeps_bounds_evo_post;
      try apply keeps_bounds_track; apply IH.
Qed.

Lemma bounded_remember_text jid text b :
  bounded_state b -> bounded_state (remember_text jid text b).
Proof.
  intros (H1 & H2 & H3 & H4). repeat split; try apply H1; try apply H2; try apply H3.
  intros j d. simpl. destruct (decide (j = jid)) as [->|Hne].
  - rewrite lookup_insert_eq. intros [= <-]. rewrite deque_append_last_n.
    apply last_n_length.
  - rewrite lookup_insert_ne by auto. apply H4.
Qed.

Lemma keeps_bounds_send_text_once clean_number text :
  preserves keeps_bounds (send_text_once env clean_number text).
Proof.
  unfold send_text_once.
  repeat preserve_step;
    try apply keeps_bounds_evo_post; try apply keeps_bounds_track;
    apply keeps_bounds_modify; intros b; split; try reflexivity.
  - apply bounded_remember_text.
  - intros (H1 & H2 & H3 & H4). repeat split; try apply H1; try apply H2; try apply H3.
    exact H4.
Qed.

Lemma keeps_bounds_send_evolution_message number_or_jid text media_urls :
  preserves keeps_bounds (send_evolution_message env number_or_jid text media_urls).
Proof.
  unfold send_evolution_message.
  repeat preserve_step;
    first [ apply keeps_bounds_send_media_loop | apply keeps_bounds_send_text_once ].
Qed.

Lemma keeps_bounds_send_evolution_document number_or_jid text pdf_url filename :
  preserves keeps_bounds (send_evolution_document env number_or_jid text pdf_url filename).
Proof.
  unfold send_evolution_document, sleep.
  repeat preserve_step;
    first [ apply keeps_bounds_evo_post | apply keeps_bounds_track
          | apply keeps_bounds_emit ].
Qed.

Lemma keeps_bounds_notify_owner user_number_or_jid user_message bot_reply is_lead :
  preserves keeps_bounds (notify_owner env user_number_or_jid user_message bot_reply is_lead).
Proof.
  unfold notify_owner.
  repeat preserve_step; apply keeps_bounds_send_evolution_message.
Qed.

(** The two places where the lead cache is written. *)
Lemma keeps_bounds_lead_add key (rest : M unit) :
  preserves keeps_bounds rest ->
  preserves keeps_bounds
    (b <- get_bot ;;
     if negb (bos_contains key (processed_lead_ids b)) then
       ids <- lift (bos_add key (processed_lead_ids b)) ;;
       modify_bot (set_processed_lead_ids ids) ;;; rest
     else pass).
Proof.
  intros Hrest s. unfold bind at 1. unfold get_bot at 1.
  destruct (negb (bos_contains key (processed_lead_ids (bot s)))); [|reflexivity].
  unfold bind at 1. unfold lift at 1.
  destruct (bos_add key (processed_lead_ids (bot s))) as [ids|e] eqn:Hadd; [|reflexivity].
  unfold bind at 1. unfold modify_bot at 1.
  etransitivity; [|apply Hrest].
  split.
  - unfold capacities. simpl. now rewrite (bos_add_maxlen _ _ _ Hadd).
  - intros (H1 & H2 & H3 & H4). repeat split; try apply H1; try apply H3; auto.
    + simpl. rewrite (bos_add_maxlen _ _ _ Hadd). apply H2.
    + simpl. eapply bos_add_len; eauto; apply H2.
Qed.

Ltac bounds_step :=
  first [ apply keeps_bounds_lead_add | preserve_step ].

Lemma keeps_bounds_reply_pipeline remote_jid combined_message :
  preserves keeps_bounds (reply_pipeline env remote_jid combined_message).
Proof.
  unfold reply_pipeline, sleep.
  repeat bounds_step;
    first [ apply keeps_bounds_emit
          | apply keeps_bounds_send_evolution_message
          | apply keeps_bounds_send_evolution_document
          | apply keeps_bounds_notify_owner ].
Qed.

Lemma keeps_bounds_resume remote_jid k :
  preserves keeps_bounds (_process_accumulated_messages_resume env remote_jid k).
Proof.
  unfold _process_accumulated_messages_resume.
  repeat preserve_step;
    first [ apply keeps_bounds_send_evolution_message | apply keeps_bounds_reply_pipeline ].
Qed.

(** A change of the global state outside the caches and the recent texts. *)
Lemma keeps_bounds_other s s' :
  processed_message_ids (bot s') = processed_message_ids (bot s) ->
  processed_lead_ids (bot s') = processed_lead_ids (bot s) ->
  bot_sent_message_ids (bot s') = bot_sent_message_ids (bot s) ->
  bot_sent_texts (bot s') = bot_sent_texts (bot s) ->
  keeps_bounds s s'.
Proof.
  intros H1 H2 H3 H4. unfold keeps_bounds, capacities, bounded_state.
  rewrite H1, H2, H3, H4. auto.
Qed.

Lemma keeps_bounds_dispatch_event remote_jid from_me msg_id data :
  preserves keeps_bounds (dispatch_event env remote_jid from_me msg_id data).
Proof.
  unfold dispatch_event, _is_bot_message.
  repeat preserve_step;
    first [ apply keeps_bounds_emit
          | apply keeps_bounds_send_evolution_message
          | intros s; rewrite accumulate_run; now apply keeps_bounds_other
          | intros s; now apply keeps_bounds_other ].
Qed.

Lemma keeps_bounds_process_single_event data :
  preserves keeps_bounds (process_single_event env data).
Proof.
  intros s. unfold process_single_event. unfold bind at 1. unfold lift at 1.
  destruct (event_header data) as [[[remote_jid from_me] msg_id]|e]; [|reflexivity].
  cbv beta iota.
  destruct (negb (Py.nonempty remote_jid)); [reflexivity|].
  destruct (is_group_or_broadcast remote_jid); [reflexivity|].
  unfold bind at 1. unfold get_bot at 1.
  destruct (Py.nonempty msg_id && bos_contains msg_id (processed_message_ids (bot s)));
    [reflexivity|].
  unfold bind at 1.
  destruct (Py.nonempty msg_id).
  - unfold bind at 1. unfold lift at 1.
    destruct (bos_add msg_id (processed_message_ids (bot s))) as [ids|e] eqn:Hadd;
      [|reflexivity].
    unfold modify_bot at 1.
    etransitivity; [|apply keeps_bounds_dispatch_event].
    split.
    + unfold capacities. simpl. now rewrite (bos_add_maxlen _ _ _ Hadd).
    + intros (H1 & H2 & H3 & H4). repeat split; try apply H2; try apply H3; auto.
      * simpl. rewrite (bos_add_maxlen _ _ _ Hadd). apply H1.
      * simpl. eapply bos_add_len; eauto; apply H1.
  - unfold pass, ret. apply keeps_bounds_dispatch_event.
Qed.

Lemma keeps_bounds_set_status tid st s s' :
  keeps_bounds s s' -> keeps_bounds s (set_status tid st s').
Proof. auto. Qed.

Lemma keeps_bounds_begin tid remote_jid s :
  keeps_bounds s (snd (_process_accumulated_messages_begin tid remote_jid s)).
Proof.
  unfold _process_accumulated_messages_begin, log_turn.
  assert (H : preserves keeps_bounds (check_silenced remote_jid)).
  { unfold check_silenced. repeat preserve_step; intros ?; now apply keeps_bounds_other. }
  revert s.
  change (preserves keeps_bounds
    (b <- get_bot ;;
     let messages := default [] (pending_messages b !! remote_jid) in
     modify_bot (fun b => set_pending_messages (delete remote_jid (pending_messages b)) b) ;;;
     modify_bot (fun b => set_pending_message_tasks (delete remote_jid (pending_message_tasks b)) b) ;;;
     match messages with
     | [] => ret None
     | _ =>
         let combined_message := combine messages in
         silenced <- check_silenced remote_jid ;;
         (fun s => (Ok tt,
                    set_turns (turns s ++ [{| turn_task := tid; turn_jid := remote_jid;
                                             turn_text := combined_message;
                                             turn_suppressed := silenced |}]) s)) ;;;
         if silenced then ret None
         else if String.eqb (Py.lower combined_message) "/silencio" then
           modify_bot (fun b => set_silenced_users (<[remote_jid := SilenceTrue]> (silenced_users b)) b) ;;;
           ret (Some KMuteReply)
         else if String.eqb (Py.lower combined_message) "/activar" then
           modify_bot (fun b => set_silenced_users (delete remote_jid (silenced_users b)) b) ;;;
           ret (Some KUnmuteReply)
         else ret (Some (KPipeline combined_message))
     end)).
  repeat preserve_step;
    first [ exact H | intros ?; now apply keeps_bounds_other ].
Qed.

Lemma step_keeps_bounds a s s' : step env a s = Some s' -> keeps_bounds s s'.
Proof.
  destruct a as [dt|data|tid|tid]; simpl.
  - destruct (0 <=? dt); [|discriminate]. intros [= <-]. now apply keeps_bounds_same_bot.
  - intros [= <-]. unfold background_process_event.
    apply preserves_try_except; [exact _| |intros; preserve_step].
    apply keeps_bounds_process_single_event.
  - unfold wake.
    destruct (tasks s !! tid) as [t|]; [|discriminate].
    destruct (task_status_of t); try discriminate.
    destruct (task_due t <=? now s); [|discriminate].
    pose proof (keeps_bounds_begin tid (task_jid t) s) as Hb.
    destruct (_process_accumulated_messages_begin tid (task_jid t) s) as [[[k|]|e] s1];
      intros [= <-]; exact Hb.
  - unfold resume.
    destruct (tasks s !! tid) as [t|]; [|discriminate].
    destruct (task_status_of t); try discriminate.
    intros [= <-]. apply keeps_bounds_set_status.
    apply preserves_try_except; [exact _| |intros; preserve_step].
    apply keeps_bounds_resume.
Qed.

Lemma exec_keeps_bounds sched : forall s s',
  exec env sched s = Some s' -> keeps_bounds s s'.
Proof.
  induction sched as [|a rest IH]; intros s s'; simpl.
  - intros [= <-]. reflexivity.
  - destruct (step env a s) as [s1|] eqn:Hstep; [|discriminate].
    intros Hexec. etransitivity; [eapply step_keeps_bounds; eauto|now apply IH].
Qed.

(** Memory bounds.  Along any schedule from the initial state, the dedup
    cache never holds more than 4000 ids, the lead cache never more than
    8000 keys, the echo-id cache never more than 2000 ids, and the
    recent-text buffer of a conversation never more than 10 texts. *)
Theorem caches_stay_bounded sched s' :
  exec env sched Sys_init = Some s' ->
  bos_len (processed_message_ids (bot s')) <= 4000
  /\ bos_len (processed_lead_ids (bot s')) <= 8000
  /\ bos_len (bot_sent_message_ids (bot s')) <= 2000
  /\ forall jid recent, bot_sent_texts (bot s') !! jid = Some recent ->
                        (length recent <= 10)%nat.
Proof.
  intros Hexec. destruct (exec_keeps_bounds sched _ _ Hexec) as [Hcap Hb].
  assert (Hinit : bounded_state (bot Sys_init)).
  { unfold bounded_state, within, bos_len. simpl.
    split; [lia|]. split; [lia|]. split; [lia|].
    intros jid d Hd. rewrite lookup_empty in Hd. discriminate. }
  destruct (Hb Hinit) as ((_ & H1) & (_ & H2) & (_ & H3) & H4).
  unfold capacities in Hcap. simpl in Hcap.
  assert (Hc1 : _maxlen (processed_message_ids (bot s')) = 4000) by congruence.
  assert (Hc2 : _maxlen (processed_lead_ids (bot s')) = 8000) by congruence.
  assert (Hc3 : _maxlen (bot_sent_message_ids (bot s')) = 2000) by congruence.
  rewrite Hc1 in H1. rewrite Hc2 in H2. rewrite Hc3 in H3. auto.
Qed.

End Bounds.

(** * The helpers of the intake *)

Lemma or_else_truthy v d :
  Json.truthy d = true -> Json.truthy (Json.or_else v d) = true.
Proof. intros Hd. unfold Json.or_else. destruct (Json.truthy v) eqn:Hv; auto. Qed.

Lemma or_else_empty v :
  Json.truthy (Json.or_else v (JStr "")) = true \/ Json.or_else v (JStr "") = JStr "".
Proof. unfold Json.or_else. destruct (Json.truthy v) eqn:Hv; auto. Qed.

(** What [_extract_user_message] reads.  The fields are tried in the order
    conversation, extendedTextMessage, imageMessage, and the first one that
    is present decides, whatever the others hold and even when its text is
    empty:
    - conversation gives its value, or the empty text when that is falsy;
    - extendedTextMessage gives its field "text", or the empty text when
      the field is missing or falsy or the message itself is falsy; a
      truthy value that is no dictionary makes the function raise;
    - imageMessage gives its field "caption" in the same way, with
      "(Envió una foto)" in the place of the empty text;
    - with none of the three, the text is empty and the message is audio
      exactly when audioMessage or pttMessage is present.
    So audio is reported only with an empty text, and the text returned is
    never a falsy value other than the empty string.  A message that is
    not a dictionary reads as the empty text. *)
Theorem extract_user_message_priority (msg_obj : json) :
  (forall fields c,
     msg_obj = JObj fields -> Json.assoc "conversation" fields = Some c ->
     _extract_user_message msg_obj = Ok (Json.or_else c (JStr ""), false))
  /\ (forall fields e,
        msg_obj = JObj fields ->
        Json.has_key "conversation" fields = false ->
        Json.assoc "extendedTextMessage" fields = Some e ->
        _extract_user_message msg_obj
        = match Json.or_else e (JObj []) with
          | JObj ext =>
              Ok (Json.or_else (default JNull (Json.assoc "text" ext)) (JStr ""), false)
          | _ => Raise AttributeError
          end)
  /\ (forall fields i,
        msg_obj = JObj fields ->
        Json.has_key "conversation" fields = false ->
        Json.has_key "extendedTextMessage" fields = false ->
        Json.assoc "imageMessage" fields = Some i ->
        _extract_user_message msg_obj
        = match Json.or_else i (JObj []) with
          | JObj img =>
              Ok (Json.or_else (default JNull (Json.assoc "caption" img))
                    (JStr "(Envió una foto)"), false)
          | _ => Raise AttributeError
          end)
  /\ (forall fields,
        msg_obj = JObj fields ->
        Json.has_key "conversation" fields = false ->
        Json.has_key "extendedTextMessage" fields = false ->
        Json.has_key "imageMessage" fields = false ->
        _extract_user_message msg_obj
        = Ok (JStr "", Json.has_key "audioMessage" fields
                       || Json.has_key "pttMessage" fields))
  /\ ((forall fields, msg_obj <> JObj fields) ->
      _extract_user_message msg_obj = Ok (JStr "", false))
  /\ (forall v is_audio,
        _extract_user_message msg_obj = Ok (v, is_audio) ->
        (is_audio = true -> v = JStr "")
        /\ (Json.truthy v = true \/ v = JStr "")).
Proof.
  repeat apply conj.
  - intros fields c -> Hc. unfold _extract_user_message, Json.has_key. simpl.
    rewrite Hc. reflexivity.
  - intros fields e -> Hc He. unfold _extract_user_message, Json.has_key in *. simpl.
    destruct (Json.assoc "conversation" fields); [discriminate|].
    rewrite He. simpl.
    destruct (Json.or_else e (JObj [])); reflexivity.
  - intros fields i -> Hc He Hi. unfold _extract_user_message, Json.has_key in *. simpl.
    destruct (Json.assoc "conversation" fields); [discriminate|].
    destruct (Json.assoc "extendedTextMessage" fields); [discriminate|].
    rewrite Hi. simpl.
    destruct (Json.or_else i (JObj [])); reflexivity.
  - intros fields -> Hc He Hi. unfold _extract_user_message, Json.has_key in *. simpl.
    destruct (Json.assoc "conversation" fields); [discriminate|].
    destruct (Json.assoc "extendedTextMessage" fields); [discriminate|].
    destruct (Json.assoc "imageMessage" fields); [discriminate|].
    destruct (Json.assoc "audioMessage" fields), (Json.assoc "pttMessage" fields);
      reflexivity.
  - intros Hnot. destruct msg_obj; try reflexivity. exfalso. eapply Hnot. reflexivity.
  - intros v is_audio Hrun. unfold _extract_user_message in Hrun.
    destruct msg_obj as [| | | | |fields];
      try (injection Hrun as <- <-; split; [discriminate|now right]).
    unfold Json.has_key in Hrun. simpl in Hrun.
    destruct (Json.assoc "conversation" fields) as [c|].
    { injection Hrun as <- <-. split; [discriminate|apply or_else_empty]. }
    destruct (Json.assoc "extendedTextMessage" fields) as [e|].
    { simpl in Hrun.
      destruct (Json.get (Json.or_else e (JObj [])) "text" JNull) as [t|];
        simpl in Hrun; [|discriminate].
      injection Hrun as <- <-. split; [discriminate|apply or_else_empty]. }
    destruct (Json.assoc "imageMessage" fields) as [i|].
    { simpl in Hrun.
      destruct (Json.get (Json.or_else i (JObj [])) "caption" JNull) as [t|];
        simpl in Hrun; [|discriminate].
      injection Hrun as <- <-. split; [discriminate|left; now apply or_else_truthy]. }
    destruct (Json.assoc "audioMessage" fields), (Json.assoc "pttMessage" fields);
      simpl in Hrun; injection Hrun as <- <-; auto.
Qed.


(** ** Numbers and conversation identities *)













(** * Monday: the retry policy of [_graphql] *)

Section MondayFacts.
Import Monday.

(** The retry policy of the Monday client.  Without an API key the call
    raises at once and nothing is sent.  Otherwise between one and three
    calls are made: a call answered by a status of 500 or more, or ended by
    a timeout or connection error, is followed by a wait of 2 s, then 4 s,
    and another call, while attempts are left.  Any other outcome ends the
    call: a status below 500 (429 included) is read as the answer, and
    another exception propagates.  After a third 5xx answer the body is read
    and returned like any answer; after a third connection error the error
    is raised. *)
Theorem monday_retry_policy key client_post query variables :
  key <> "" ->
  let payload := JObj [("query", JStr query); ("variables", variables)] in
  let o0 := client_post 0%nat payload in
  let o1 := client_post 1%nat payload in
  let o2 := client_post 2%nat payload in
  let run := _graphql (Some key) client_post query variables in
  run
  = (if retried o0 then
       if retried o1 then
         (match o2 with Return resp => read resp | Raised e => Raised e end,
          [Post payload; Sleep 2; Post payload; Sleep 4; Post payload])
       else (settle o1, [Post payload; Sleep 2; Post payload])
     else (settle o0, [Post payload]))
  /\ (1 <= posts (snd run) <= 3)%nat
  /\ (forall resp, o0 = Return resp -> status_code resp < 500 ->
        run = (read resp, [Post payload]))
  /\ (forall variables', _graphql None client_post query variables' = (Raised RuntimeError, [])
                         /\ _graphql (Some "") client_post query variables'
                            = (Raised RuntimeError, [])).
Proof.
  intros Hkey. cbv zeta.
  assert (Hrun : _graphql (Some key) client_post query variables
                 = (if retried (client_post 0%nat (JObj [("query", JStr query); ("variables", variables)])) then
                      if retried (client_post 1%nat (JObj [("query", JStr query); ("variables", variables)])) then
                        (match client_post 2%nat (JObj [("query", JStr query); ("variables", variables)]) with
                         | Return resp => read resp
                         | Raised e => Raised e
                         end,
                         [Post (JObj [("query", JStr query); ("variables", variables)]); Sleep 2;
                          Post (JObj [("query", JStr query); ("variables", variables)]); Sleep 4;
                          Post (JObj [("query", JStr query); ("variables", variables)])])
                      else (settle (client_post 1%nat (JObj [("query", JStr query); ("variables", variables)])),
                            [Post (JObj [("query", JStr query); ("variables", variables)]); Sleep 2;
                             Post (JObj [("query", JStr query); ("variables", variables)])])
                    else (settle (client_post 0%nat (JObj [("query", JStr query); ("variables", variables)])),
                          [Post (JObj [("query", JStr query); ("variables", variables)])]))).
  { unfold _graphql. destruct key as [|c key]; [contradiction|]. cbn [Py.nonempty negb].
    set (payload := JObj _). cbn [seq _MAX_RETRIES graphql_loop].
    destruct (client_post 0%nat payload) as [r0|e0] eqn:H0; cbn [retried settle].
    - destruct (500 <=? status_code r0); cbn [andb Nat.ltb Nat.leb Nat.sub]; [|reflexivity].
      destruct (client_post 1%nat payload) as [r1|e1] eqn:H1; cbn [retried settle].
      + destruct (500 <=? status_code r1); cbn [andb Nat.ltb Nat.leb Nat.sub]; [|reflexivity].
        destruct (client_post 2%nat payload) as [r2|e2] eqn:H2.
        * rewrite andb_false_r. reflexivity.
        * destruct e2; reflexivity.
      + destruct e1; try reflexivity. cbn [Nat.ltb Nat.leb Nat.sub].
        destruct (client_post 2%nat payload) as [r2|e2] eqn:H2.
        * rewrite andb_false_r. reflexivity.
        * destruct e2; reflexivity.
    - destruct e0; try reflexivity. cbn [Nat.ltb Nat.leb Nat.sub].
      destruct (client_post 1%nat payload) as [r1|e1] eqn:H1; cbn [retried settle].
      + destruct (500 <=? status_code r1); cbn [andb Nat.ltb Nat.leb Nat.sub]; [|reflexivity].
        destruct (client_post 2%nat payload) as [r2|e2] eqn:H2.
        * rewrite andb_false_r. reflexivity.
        * destruct e2; reflexivity.
      + destruct e1; try reflexivity. cbn [Nat.ltb Nat.leb Nat.sub].
        destruct (client_post 2%nat payload) as [r2|e2] eqn:H2.
        * rewrite andb_false_r. reflexivity.
        * destruct e2; reflexivity. }
  split; [exact Hrun|]. split; [|split].
  - rewrite Hrun.
    destruct (retried _); [destruct (retried _)|]; cbn [snd];
      match goal with
      | |- (1 <= posts ?l <= 3)%nat =>
          let n := eval vm_compute in (posts l) in
          change (posts l) with n; lia
      end.
  - intros resp H0 Hst. rewrite Hrun, H0. cbn [retried settle].
    replace (500 <=? status_code resp) with false by (symmetry; apply Z.leb_gt; lia).
    reflexivity.
  - intros variables'. split; reflexivity.
Qed.

End MondayFacts.

(** * The inventory *)

Section InventoryFacts.
Import Inventory.
Context (str_of_list : list string -> string).

(** The refresh policy of the inventory.
    - A refresh that is not forced is skipped, whatever the source would
      answer, while the inventory is not empty and less than
      [refresh_seconds] have passed since it was loaded.
    - An empty inventory is never served from the cache: every call goes to
      the source.
    - When the download of the sheet fails the exception leaves [load] with
      the items and the time of the last load as they were, and
      [_ensure_inventory_loaded] swallows it: the previous inventory stays
      in use.
    - A load that succeeds replaces the items and records the time; if it
      found an item, calls in the next [refresh_seconds] are skipped.
    - Without a sheet, a missing local file empties the inventory and does
      not record the time. *)
Theorem inventory_refresh_policy (w : World) (now : Z) (self : Service) :
  (items self <> [] -> now - _last_load_ts self < seconds (refresh_seconds self) ->
   forall w', load str_of_list w' now false self = (Ok tt, self))
  /\ (forall url e force,
        sheet_csv_url self = Some url -> url <> "" ->
        force = true \/ items self = []
        \/ seconds (refresh_seconds self) <= now - _last_load_ts self ->
        fetch w (Py.strip url) = Raise e ->
        load str_of_list w now force self = (Raise e, self)
        /\ (force = false ->
            _ensure_inventory_loaded str_of_list w now (Some self) = Some self))
  /\ (forall url rows force,
        sheet_csv_url self = Some url -> url <> "" ->
        force = true \/ items self = []
        \/ seconds (refresh_seconds self) <= now - _last_load_ts self ->
        fetch w (Py.strip url) = Ok rows ->
        load str_of_list w now force self
        = (Ok tt, set_loaded (normalized str_of_list rows) now self)
        /\ (normalized str_of_list rows <> [] ->
            forall w' later,
              later - now < seconds (refresh_seconds self) ->
              load str_of_list w' later false
                (set_loaded (normalized str_of_list rows) now self)
              = (Ok tt, set_loaded (normalized str_of_list rows) now self)))
  /\ (forall force,
        match sheet_csv_url self with Some u => u = "" | None => True end ->
        force = true \/ items self = []
        \/ seconds (refresh_seconds self) <= now - _last_load_ts self ->
        read_local w (local_path self) = None ->
        load str_of_list w now force self = (Ok tt, set_items [] self)).
Proof.
  assert (Hmiss : forall force,
            force = true \/ items self = []
            \/ seconds (refresh_seconds self) <= now - _last_load_ts self ->
            negb force && match items self with [] => false | _ => true end
            && (now - _last_load_ts self <? seconds (refresh_seconds self)) = false).
  { intros force [-> | [-> | Hexp]]; [reflexivity| |].
    - destruct (negb force); reflexivity.
    - replace (now - _last_load_ts self <? seconds (refresh_seconds self)) with false
        by (symmetry; apply Z.ltb_ge; lia).
      apply andb_false_r. }
  repeat apply conj.
  - intros Hitems Hfresh w'. unfold load.
    destruct (items self); [contradiction|].
    apply Z.ltb_lt in Hfresh. rewrite Hfresh. reflexivity.
  - intros url e force Hurl Hne Hcase Hfetch.
    assert (Hload : forall force', 
              force' = true \/ items self = []
              \/ seconds (refresh_seconds self) <= now - _last_load_ts self ->
              load str_of_list w now force' self = (Raise e, self)).
    { intros force' Hc. unfold load. rewrite (Hmiss force' Hc), Hurl. simpl default.
      destruct url; [contradiction|]. cbn [Py.nonempty]. now rewrite Hfetch. }
    split; [now apply Hload|].
    intros ->. unfold _ensure_inventory_loaded, ensure_loaded.
    now rewrite (Hload false Hcase).
  - intros url rows force Hurl Hne Hcase Hfetch. split.
    + unfold load. rewrite (Hmiss force Hcase), Hurl. simpl default.
      destruct url; [contradiction|]. cbn [Py.nonempty]. now rewrite Hfetch.
    + intros Hfound w' later Hlater. unfold load, set_loaded. simpl.
      destruct (normalized str_of_list rows); [contradiction|].
      apply Z.ltb_lt in Hlater. rewrite Hlater. reflexivity.
  - intros force Hurl Hcase Hlocal. unfold load. rewrite (Hmiss force Hcase).
    destruct (sheet_csv_url self) as [u|]; [subst u|]; cbn [Py.nonempty];
      now rewrite Hlocal.
Qed.

Lemma remove_char_gone c s : has_char c (remove_char c s) = false.
Proof.
  induction s as [|c' s IH]; [reflexivity|].
  cbn [remove_char]. destruct (Ascii.eqb c c') eqn:Hc; [exact IH|].
  cbn [has_char]. now rewrite Hc, IH.
Qed.

Lemma remove_char_keeps_absent c d s :
  has_char d s = false -> has_char d (remove_char c s) = false.
Proof.
  induction s as [|c' s IH]; [auto|].
  cbn [has_char remove_char]. intros H. apply orb_false_iff in H as [Hd Hs].
  destruct (Ascii.eqb c c'); [auto|]. cbn [has_char]. now rewrite Hd, IH.
Qed.

Lemma remove_char_fixed c s : has_char c s = false -> remove_char c s = s.
Proof.
  induction s as [|c' s IH]; [auto|].
  cbn [has_char remove_char]. intros H. apply orb_false_iff in H as [Hc Hs].
  now rewrite Hc, IH.
Qed.

Lemma clean_key_no_lead k : no_lead (clean_key k).
Proof. destruct k; [apply strip_no_lead|exact I]. Qed.

Lemma clean_row_keys (row : RawRow) k :
  is_Some (clean_row str_of_list row !! k) -> no_lead k.
Proof.
  unfold clean_row.
  assert (H : forall m : gmap string string, (forall k, is_Some (m !! k) -> no_lead k) ->
            forall k, is_Some (foldl (fun m kv => <[clean_key (fst kv)
                                          := _clean_cell str_of_list (snd kv)]> m) m row !! k) ->
                      no_lead k).
  { induction row as [|kv row IH]; intros m Hm k0; [apply Hm|].
    simpl. apply IH. intros k1 Hk1.
    destruct (decide (k1 = clean_key (fst kv))) as [->|Hne].
    - apply clean_key_no_lead.
    - rewrite lookup_insert_ne in Hk1 by auto. now apply Hm. }
  apply H. intros k0 Hk0. rewrite lookup_empty in Hk0. destruct Hk0 as [? ?]. discriminate.
Qed.

(** The price of an item.  The price is read from the column "Precio", or
    else from "Precio Distribuidor"; the third column the code names,
    " Precio Distribuidor" with a leading blank, is never found, since the
    names of the columns are stripped before.  [_clean_price] removes the
    dollar signs, the commas and the blanks around; when nothing is left it
    returns the stripped text instead; cleaning a cleaned price changes
    nothing. *)
Theorem price_field (raw : RawRow) :
  let row := clean_row str_of_list raw in
  row !! " Precio Distribuidor" = None
  /\ field "Precio" (normalize row)
     = Some (_clean_price (Some (get row "Precio" (get row "Precio Distribuidor" ""))))
  /\ (forall v,
        let p := _clean_price (Some v) in
        _clean_price (Some p) = p
        /\ (p <> Py.strip v -> has_char "$" p = false /\ has_char "," p = false)
        /\ (p = "" <-> Py.strip v = ""))
  /\ _clean_price None = "".
Proof.
  cbv zeta. repeat apply conj.
  - destruct (clean_row str_of_list raw !! " Precio Distribuidor") eqn:Hk; [|reflexivity].
    exfalso. assert (Hs : is_Some (clean_row str_of_list raw !! " Precio Distribuidor"))
      by (rewrite Hk; eauto).
    apply clean_row_keys in Hs. simpl in Hs. discriminate.
  - assert (Hdead : get (clean_row str_of_list raw) " Precio Distribuidor" "" = "").
    { unfold get.
      destruct (clean_row str_of_list raw !! " Precio Distribuidor") eqn:Hk; [|reflexivity].
      exfalso. assert (Hs : is_Some (clean_row str_of_list raw !! " Precio Distribuidor"))
        by (rewrite Hk; eauto).
      apply clean_row_keys in Hs. simpl in Hs. discriminate. }
    unfold normalize. rewrite Hdead. reflexivity.
  - intros v. unfold _clean_price.
    set (s := Py.strip v).
    set (s2 := Py.strip (remove_char "," (remove_char "$" s))).
    assert (Hd : has_char "$" s2 = false).
    { apply no_char_strip, remove_char_keeps_absent, remove_char_gone. }
    assert (Hc : has_char "," s2 = false).
    { apply no_char_strip, remove_char_gone. }
    assert (Hs2 : Py.strip s2 = s2) by apply strip_idempotent.
    assert (Hs : Py.strip s = s) by apply strip_idempotent.
    destruct (Py.nonempty s2) eqn:Hne.
    + split; [|split].
      * rewrite Hs2, (remove_char_fixed _ _ Hd), (remove_char_fixed _ _ Hc), Hs2, Hne.
        reflexivity.
      * auto.
      * split; intros H.
        -- rewrite H in Hne. discriminate.
        -- unfold s2 in Hne. rewrite H in Hne. discriminate.
    + split; [|split].
      * rewrite Hs. fold s2. now rewrite Hne.
      * intros H. now contradiction H.
      * tauto.
  - reflexivity.
Qed.

End InventoryFacts.

(** * The session store *)

Section MemoryFacts.
Import Memory.
Context (loads : string -> res json) (dumps : json -> res string).

(** Sessions.  On an open store: a conversation never written reads as
    [None]; after a write, the conversation reads back with the state
    written and the context that [json.loads] makes of the text
    [json.dumps] made, the latest write replacing the earlier ones, and the
    other conversations read as before.  A stored context that does not
    parse reads as the empty dictionary, not as an error.  A context that
    cannot be serialised makes the write raise and leaves the table as it
    was.  On a store that is not open, or was closed, reads and writes
    raise. *)
Theorem session_round_trip (self : MemoryStore) :
  _conn self = true ->
  (forall phone, sessions self !! phone = None -> get loads phone self = Ok None)
  /\ (forall now phone st ctx text,
        dumps ctx = Ok text ->
        let self' := snd (upsert dumps now phone st ctx self) in
        fst (upsert dumps now phone st ctx self) = Ok tt
        /\ get loads phone self'
           = Ok (Some {| phone := phone; state := st; context_json := text;
                         context := match loads (if Py.nonempty text then text else "{}") with
                                    | Ok c => c
                                    | Raise _ => JObj []
                                    end |})
        /\ (forall other, other <> phone -> get loads other self' = get loads other self)
        /\ (forall now2 st2 ctx2 text2,
              dumps ctx2 = Ok text2 ->
              get loads phone (snd (upsert dumps now2 phone st2 ctx2 self'))
              = get loads phone (snd (upsert dumps now2 phone st2 ctx2 self))))
  /\ (forall now phone st ctx e,
        dumps ctx = Raise e -> upsert dumps now phone st ctx self = (Raise e, self))
  /\ (forall phone, get loads phone (close self) = Raise AttributeError)
  /\ (forall now phone st ctx text,
        dumps ctx = Ok text ->
        upsert dumps now phone st ctx (close self) = (Raise AttributeError, close self)).
Proof.
  intros Hopen. repeat apply conj.
  - intros phone Hnone. unfold get. rewrite Hopen, Hnone. reflexivity.
  - intros now phone st ctx text Hd. cbv zeta. unfold upsert. rewrite Hd, Hopen.
    cbn [negb fst snd]. repeat apply conj.
    + reflexivity.
    + unfold get. cbn [_conn sessions negb]. rewrite ?Hopen, lookup_insert_eq. reflexivity.
    + intros other Hne. unfold get. cbn [_conn sessions].
      rewrite lookup_insert_ne by auto. now rewrite Hopen.
    + intros now2 st2 ctx2 text2 Hd2. rewrite Hd2. cbn [_conn negb snd].
      rewrite ?Hopen. cbn [negb snd]. unfold get. cbn [_conn sessions].
      rewrite ?Hopen. now rewrite !lookup_insert_eq.
  - intros now phone st ctx e Hd. unfold upsert. now rewrite Hd.
  - reflexivity.
  - intros now phone st ctx text Hd. unfold upsert. now rewrite Hd.
Qed.

End MemoryFacts.

(** * The properties at sample inputs *)

Lemma duplicate_event_is_ignored_sample :
  let data := text_event sample_jid "m1" "hola" in
  let s1 := snd (process_single_event sample_env0 data Sys_init) in
  bos_contains "m1" (processed_message_ids (bot s1)) = true
  /\ process_single_event sample_env0 data s1 = (Ok tt, s1).
Proof.
  cbv zeta.
  destruct (duplicate_event_is_ignored sample_env0 (text_event sample_jid "m1" "hola")
              Sys_init sample_jid (JBool false) "m1") as (Hin & Hagain & _).
  - vm_compute. reflexivity.
  - vm_compute. reflexivity.
  - reflexivity.
  - vm_compute. reflexivity.
  - split; [exact Hin|exact Hagain].
Defined.

Lemma unroutable_event_is_dropped_sample :
  background_process_event sample_env0 group_event Sys_init = (Ok tt, Sys_init).
Proof.
  apply (unroutable_event_is_dropped sample_env0 group_event Sys_init).
  vm_compute. reflexivity.
Defined.

Lemma human_takeover_silences_sample :
  let data := outbound_event sample_jid "h1" "Te marco en un momento" in
  let s' := snd (process_single_event sample_env0 data (Sys_at sample_epoch)) in
  silenced_users (bot s') !! sample_jid
  = Some (SilenceUntil (sample_epoch + seconds 3600))
  /\ trace s' = [].
Proof.
  cbv zeta.
  destruct (human_takeover_silences sample_env0
              (outbound_event sample_jid "h1" "Te marco en un momento")
              (Sys_at sample_epoch) sample_jid (JBool true) "h1"
              "Te marco en un momento" false) as (Hsil & Htr & _).
  - vm_compute. reflexivity.
  - vm_compute. reflexivity.
  - vm_compute. reflexivity.
  - vm_compute. reflexivity.
  - reflexivity.
  - vm_compute. reflexivity.
  - split; [|exact Htr]. rewrite Hsil. vm_compute. reflexivity.
Defined.

Lemma inbound_event_outcomes_sample :
  snd (process_single_event sample_env0 (text_event sample_jid "m1" "hola") Sys_init)
  = snd (accumulate sample_env0 sample_jid "hola" (with_dedup "m1" Sys_init)).
Proof.
  apply (inbound_event_outcomes sample_env0 (text_event sample_jid "m1" "hola")
           Sys_init sample_jid (JBool false) "m1" "hola" false).
  - vm_compute. reflexivity.
  - vm_compute. reflexivity.
  - vm_compute. reflexivity.
  - vm_compute. reflexivity.
  - reflexivity.
  - vm_compute. reflexivity.
  - discriminate.
Defined.

Lemma failed_send_records_nothing_sample :
  bot (snd (send_evolution_message unreachable_env "5215512345678" "Hola"
              [] (Sys_at sample_epoch)))
  = bot (Sys_at sample_epoch).
Proof.
  apply (failed_send_records_nothing unreachable_env "5215512345678" "Hola"
           (Sys_at sample_epoch)).
  - discriminate.
  - discriminate.
  - reflexivity.
  - vm_compute. exact I.
Defined.

Lemma posts_only_to_conversations_or_owner_sample :
  appends
    (addressed_to
       (owner_numbers default_settings ++ [] ++ ["5215512345678"; "5215512345678"]))
    Sys_init (final sample_env0 hola_burst Sys_init).
Proof.
  apply (posts_only_to_conversations_or_owner sample_env0 hola_burst Sys_init
           (final sample_env0 hola_burst Sys_init)).
  - exact wf_init.
  - vm_compute. reflexivity.
Defined.

Lemma recent_texts_are_last_ten_sample :
  bot_sent_texts
    (foldl (fun b t => remember_text sample_jid t b) (bot Sys_init)
       ["1"; "2"; "3"; "4"; "5"; "6"; "7"; "8"; "9"; "10"; "11"; "12"]) !! sample_jid
  = Some ["3"; "4"; "5"; "6"; "7"; "8"; "9"; "10"; "11"; "12"].
Proof.
  apply (recent_texts_are_last_ten sample_jid
           ["1"; "2"; "3"; "4"; "5"; "6"; "7"; "8"; "9"; "10"; "11"; "12"] (bot Sys_init)).
  discriminate.
Defined.

Lemma sent_text_echo_is_recognised_sample :
  let s' := snd (send_evolution_message sample_env0 "5215512345678" "Hola, con gusto"
                   [] (Sys_at sample_epoch)) in
  let echo := outbound_event sample_jid "ECHO1" "Hola, con gusto" in
  silenced_users (bot (snd (process_single_event sample_env0 echo
                              (set_now (sample_epoch + seconds 3600) s'))))
  = silenced_users (bot (Sys_at sample_epoch)).
Proof.
  cbv zeta.
  destruct (sent_text_echo_is_recognised sample_env0 "5215512345678" "Hola, con gusto"
              (Sys_at sample_epoch) (response_ok "BOT0")) as (_ & _ & _ & Hecho).
  - discriminate.
  - discriminate.
  - reflexivity.
  - reflexivity.
  - vm_compute. reflexivity.
  - apply (Hecho (outbound_event sample_jid "ECHO1" "Hola, con gusto") (JBool true)
             "ECHO1" false).
    + vm_compute. reflexivity.
    + reflexivity.
    + vm_compute. reflexivity.
Defined.

Lemma command_needs_its_own_turn_sample :
  fst (_process_accumulated_messages_begin 0 sample_jid silencio_pending)
  = Ok (Some KMuteReply).
Proof.
  destruct (command_needs_its_own_turn 0 sample_jid silencio_pending) as [Hone _].
  - vm_compute. reflexivity.
  - destruct (Hone "/SILENCIO") as [Hmute _].
    + vm_compute. reflexivity.
    + apply Hmute. vm_compute. reflexivity.
Defined.

Lemma silenced_turn_discards_messages_sample :
  let s' := snd (_process_accumulated_messages_begin 0 sample_jid silenced_with_hola) in
  fst (_process_accumulated_messages_begin 0 sample_jid silenced_with_hola) = Ok None
  /\ pending_messages (bot s') !! sample_jid = None
  /\ trace s' = trace silenced_with_hola.
Proof.
  cbv zeta.
  destruct (silenced_turn_discards_messages sample_env0 0 sample_jid
              (SilenceUntil (sample_epoch + seconds 3600)) "hola" [] silenced_with_hola)
    as (Hr & Htr & Hp & _).
  - vm_compute. reflexivity.
  - vm_compute. reflexivity.
  - vm_compute. reflexivity.
  - auto.
Defined.

Lemma reply_despite_failures_sample :
  exists rest,
    trace (snd (reply_pipeline failing_env sample_jid "hola" (Sys_at sample_epoch)))
    = [EInventory; EStoreGet sample_jid; ESleep 5000;
       EHandleMessage "hola" "start" (JObj []);
       EStoreUpsert sample_jid "start" (JObj []);
       EPost (send_text_url default_settings)
         (text_payload "5215512345678" "Dame un momento...")]
      ++ rest
    /\ Forall (addressed_to []) rest.
Proof.
  destruct (reply_despite_failures failing_env sample_jid "hola" (Sys_at sample_epoch) None)
    as (outs & rest & Htr & _ & _ & _ & Hone & Hrest).
  - reflexivity.
  - reflexivity.
  - reflexivity.
  - reflexivity.
  - vm_compute. discriminate.
  - vm_compute. discriminate.
  - reflexivity.
  - exists rest. split; [|exact Hrest].
    rewrite Htr, (Hone eq_refl). vm_compute. reflexivity.
Defined.

Lemma caches_stay_bounded_sample :
  let s' := final sample_env0 hola_burst Sys_init in
  bos_len (processed_message_ids (bot s')) <= 4000
  /\ bos_len (processed_lead_ids (bot s')) <= 8000
  /\ bos_len (bot_sent_message_ids (bot s')) <= 2000.
Proof.
  cbv zeta.
  destruct (caches_stay_bounded sample_env0 hola_burst
              (final sample_env0 hola_burst Sys_init)) as (H1 & H2 & H3 & _).
  - vm_compute. reflexivity.
  - auto.
Defined.

Lemma monday_retry_policy_sample :
  Monday._graphql (Some "key") flaky_monday "query { me { id } }" (JObj [])
  = (Monday.Return (JObj [("data", JObj [])]),
     let payload := JObj [("query", JStr "query { me { id } }"); ("variables", JObj [])] in
     [Monday.Post payload; Monday.Sleep 2; Monday.Post payload; Monday.Sleep 4;
      Monday.Post payload]).
Proof.
  destruct (monday_retry_policy "key" flaky_monday "query { me { id } }" (JObj []))
    as (Hrun & _).
  - discriminate.
  - rewrite Hrun. reflexivity.
Defined.

Lemma session_round_trip_sample :
  let self' := snd (Memory.upsert sample_dumps "2024-01-01T00:00:00" sample_jid
                      "start" (JObj []) open_store) in
  Memory.get sample_loads sample_jid self'
  = Ok (Some {| Memory.phone := sample_jid; Memory.state := "start";
                Memory.context_json := "{}"; Memory.context := JObj [] |}).
Proof.
  cbv zeta.
  destruct (session_round_trip sample_loads sample_dumps open_store) as (_ & Hput & _).
  - reflexivity.
  - destruct (Hput "2024-01-01T00:00:00" sample_jid "start" (JObj []) "{}")
      as (_ & Hget & _).
    + reflexivity.
    + exact Hget.
Defined.
